(* ===== verification/_CoqProject ===== *)
-Q . S2P
Prelude.v
Cint.v
CString.v
Libc.v
Codec.v
Mem.v
CoreTypes.v
Crc.v
Bitmap.v
Core.v
FileIO.v
Dir.v
Fs.v
Mkfs.v
Spec.v
Persist.v
Indirect.v
Fuse.v
Overrun.v
Tree.v
FuseSpec.v
Sorting.v
Listing.v
Session.v
SortSpec.v
Kfs.v
BlkMap.v
Journal.v
Device.v
Durability.v
Vfs.v
VfsSpec.v
Config.v
ConfigSpec.v
Snapper.v
SnapperSpec.v
SnapStore.v
