(* ===== verification/Prelude.v ===== *)
(** * idkfs: a verification development

    idkfs is a file system in C with three faces that share no code but the
    core: an in-memory file system served through FUSE (idkfs_core.c with
    idkfs_fuse.c), the same file system on a disk image (idkfs_core.c with
    idkfs_persist.c), and a Linux kernel module with its own on-disk format
    (idkfs_kfs.h, idkfs_vfs.c, the block driver idkfs_blk.c, the formatter
    mkfs_idkfs.c and the checker tools/idkfs_fsck.c).  Beside them are a
    snapshot tool for image files (idkfs_snapper.c), a configuration loader
    that no program calls (idkfs_config.c) and a Lua script that orders
    listings (sorting.lua).  This library translates these files into Rocq
    functions and proves what they do.

    ** Conventions

    The translation is shallow.  An operation is a function from the state to
    the state and its result, in the option monad: [None] is undefined
    behaviour of the C program (an access outside an object, a read of an
    indeterminate value).  Error codes the program returns are ordinary
    results.  A theorem that concludes with [Some] therefore also proves the
    absence of undefined behaviour.  Integers are [Z], with the wrap-around of
    their C type written out at each operation ([u8] to [u64], [i32], [i64]
    of Cint.v).  A pointer to an inode is the index of the inode in the inode
    table, so that the aliasing of the C code is kept.  The disk is a
    byte-addressed memory; structures are stored in it through codecs, which
    are the packed layouts of the C structures.  Checksums are written with the
    bit-serial [crc32], which the table-driven code computes
    ([crc32_run_correct]).  [time(NULL)] is the argument
    [now] of an operation: one value per call, also where the code asks
    for the time more than once.  Failures of system calls, of allocation and
    of kernel functions are arguments.

    Loops over arrays are fixpoints on their trip count.  The loops of
    [idkfs_read] and [idkfs_write] carry one unit of fuel per byte to
    transfer; each iteration transfers at least one byte, and the theorems
    show that the functions return.  The loops of the snapshot tool's
    [copy_file] carry a fuel that is an argument of the program: a write may
    transfer nothing, so that no bound holds in general; [copy_file_total]
    shows that one more than the length of the file is enough as long as
    writes make progress.  The loop over the lines of its list has one unit
    per byte of the file.

    Embedded interpreters are interfaces: the class [QuickJS] (Config.v) and
    the class [Lua] (Sorting.v) have one field per function of the engine
    that the code calls.  What the theorems assume of them is a further
    class, with an instance that shows it can hold: [QuickJSOk] and
    [QuickJSData] (strings without NUL; plain data objects), [LuaScript] (the
    engine runs sorting.lua), [QsortOk] (the C standard's contract of
    [qsort]).  [Locale] gives the meaning of bracket expressions in
    [fnmatch].

    ** Files

    - Prelude.v (this file): the option monad's tactics, arrays indexed by
      [Z], lengths, reachability.  Cint.v: machine integers, little-endian
      bytes.  CString.v: C strings, [strncpy], [strncmp].  Codec.v: the class
      [CodecOk] of lawful layouts and its instances for integers, arrays,
      pairs and structures.  Mem.v: memory, loads and stores.  Libc.v: the
      functions of the C library the tools call ([fnmatch], [atoi], the
      conversions of [printf] and [scanf] they use, [fgets]).
    - CoreTypes.v, Crc.v, Bitmap.v, Core.v, FileIO.v, Dir.v, Fs.v, Mkfs.v:
      idkfs_core.c, from its structures to [idkfs_mkfs], in the order of the
      source.  The class [BlockAllocator] of Bitmap.v states what the bitmap
      promises to the inode code.  [fs_wf] (Core.v) is the invariant of the
      state: owned blocks are allocated data blocks, each owned once, none
      leaked, and an exact free-block count; [fs_inv] (Fs.v) adds the count
      of free inodes.
    - Spec.v: abstract directories ([dir_rep]) and the theorems that the core
      implements them; reading and writing.
    - Persist.v: idkfs_persist.c up to the handlers: creating, mounting,
      flushing an image.  Indirect.v: what happens beyond the direct blocks.
    - Fuse.v: the handlers of both front ends, which differ in one point:
      idkfs_persist.c flushes after each change.  They are written once, with
      that step as the argument [sync], and instantiated ([persist_write] and
      so on).  Tree.v: the name space the handlers implement ([tree]) and its
      walk; FuseSpec.v: each handler against it, for any [sync] that satisfies
      [SyncOk]; Listing.v: [readdir] of both, against the name space, whose
      directories have entries that show what they are ([dir_node]);
      Session.v: sequences of calls, for a front end that satisfies
      [FrontOk].  Overrun.v: what [fuse_unlink] does to a file beyond the
      direct blocks.
    - Sorting.v: sorting.lua, the state of the interpreter in idkfs_fuse.c and
      its [main].  SortSpec.v: the script's comparison is a total preorder,
      and what a sorted listing is.
    - Kfs.v: idkfs_kfs.h, mkfs_idkfs.c, tools/idkfs_fsck.c.
    - BlkMap.v: the first part of idkfs_blk.c, the radix tree of an inode.
      Journal.v: the rest of it, the requests, the commit and the recovery.
      Device.v: its contract, a disk with a write-back cache ([adisk]).
      Durability.v: the driver with a clock and the earliest time its work
      runs; infinite executions.
    - Vfs.v: idkfs_vfs.c.  VfsSpec.v: tier selection, the extent map, the
      allocation of blocks.
    - Config.v: idkfs_config.c.  ConfigSpec.v: the rule table stays a table,
      the default tiers, what a plain configuration yields, what is printed.
    - Snapper.v: idkfs_snapper.c.  SnapperSpec.v: copying, the list of
      snapshots and its text.  SnapStore.v: the abstract store ([astore]) the
      four commands implement, and histories of commands.

    ** What the theorems show

    - The core: formatting, creation, directories, reading and writing do what
      their names say, on every branch, for files within the twelve direct
      blocks (49152 bytes; a directory takes 33412).  Past them the code is
      wrong: Indirect.v proves that the fourteenth block of a file is block 0,
      and Overrun.v that removing such a file frees block 0.
    - The FUSE front ends: resolution, creation, removal refine the abstract
      name space; no sequence of calls within the contract [call_ok] reaches
      undefined behaviour or breaks the invariant ([session_safe]); a write
      to an image survives a remount ([persist_write_durable]).
    - The image: flushing and mounting are inverse up to the allocation bits
      from block 32768 on, which the flush overwrites
      ([flush_clobbers_bitmap]).
    - Listings: exactly the entries of the directory, in the order of
      sorting.lua when the script is loaded ([fuse_readdir_lists],
      [sorted_listing]).
    - The kernel formatter and checker: what a clean image is, byte by byte
      ([fsck_main_clean]), and that a fresh one is not.
    - The block driver: requests stay in the mapping, the driver is a disk
      with a write-back cache, and what a commit and a torn commit leave;
      what is written reaches the file some day, if the kernel runs the work
      scheduled and the file accepts the image ([write_eventually_saved]).
    - The kernel file system: as long as no tier outgrows its zone, every block
      a file is given lies in the zone its name selects
      ([blocks_in_named_zone]) and no two logical blocks share a block
      ([vfs_no_sharing]); what happens when one does, and when the fifteen
      extents are used up.
    - The configuration: loading never leaves the rule table; the tier of a
      file under the default rules and under a configuration given as data.
    - The snapshot tool: the commands refine the abstract store, their output
      and their failures included, a snapshot survives until it is deleted, copying terminates; a failed rollback
      loses the image, and a description with a newline forges a snapshot.

    ** Not modelled

    Messages, reference counts of the engines, locks, and the concurrent execution of handlers and requests: an
    operation is one step.  In the snapshot tool a file that can be opened
    for writing takes all that [fprintf] writes.  The daemon and the control
    client (Rust), scripts and binaries are left out.  The theorems on files
    stay within the direct blocks, except those of Indirect.v and Overrun.v. *)

From stdpp Require Export base tactics option list list_numbers numbers gmap.
From Stdlib Require Export ZArith Lia.

#[global] Open Scope Z_scope.

(** ** Partiality

    The C code is translated into functions returning [option]: [None] is
    undefined behaviour of the C program (an array index or a pointer
    outside its object, a read of an indeterminate object).  Error codes
    the program itself returns are ordinary results. *)

Declare Scope idkfs_scope.
Delimit Scope idkfs_scope with idk.
#[global] Open Scope idkfs_scope.

(** ** Arrays indexed by C integers

    A C array is a list; [zget]/[zset] are the checked accesses. *)

Definition zget {A} (l : list A) (i : Z) : option A :=
  if 0 <=? i then l !! Z.to_nat i else None.

Definition zset {A} (l : list A) (i : Z) (x : A) : option (list A) :=
  if (0 <=? i) && (i <? Z.of_nat (length l))
  then Some (<[Z.to_nat i := x]> l) else None.

Notation "l .[ i ]" := (zget l i)
  (at level 1, left associativity, format "l .[ i ]") : idkfs_scope.
Notation "l .[ i := x ]" := (zset l i x)
  (at level 1, left associativity, format "l .[ i  :=  x ]") : idkfs_scope.

(** ** Tactics *)

(** Case analysis on the integer tests the code branches on. *)
Ltac zcase :=
  match goal with
  | |- context [?a <? ?b] => destruct (Z.ltb_spec a b)
  | |- context [?a <=? ?b] => destruct (Z.leb_spec a b)
  | |- context [?a =? ?b] => destruct (Z.eqb_spec a b)
  end; cbn [andb orb negb].

Ltac zcase_in H :=
  match type of H with
  | context [?a <? ?b] => destruct (Z.ltb_spec a b)
  | context [?a <=? ?b] => destruct (Z.leb_spec a b)
  | context [?a =? ?b] => destruct (Z.eqb_spec a b)
  end; cbn [andb orb negb] in H.

Ltac zcases := repeat zcase.
Ltac zcases_in H := repeat zcase_in H.

(** Linear arithmetic with division and remainder by constants. *)
Ltac zdm := Z.div_mod_to_equations; lia.

(** Inversion of a successful bind in a hypothesis. *)
Tactic Notation "obind" hyp(H) "as" simple_intropattern(x) ident(E) :=
  let t := type of H in
  apply bind_Some in H as (x & E & H).

(** A successful bind in the goal, by rewriting: the kernel then never
    compares the two sides of the bind by evaluation. *)
Lemma obind_some {A B} (f : A → option B) x : Some x ≫= f = f x.
Proof. reflexivity. Qed.

Ltac ostep := rewrite obind_some; cbv beta zeta iota.

Create HintDb zarr.

(** ** Lemmas on arrays *)

Section arrays.
Context {A : Type}.
Implicit Types (l : list A) (i j : Z) (x y : A).

Lemma zget_Some l i x :
  l.[i] = Some x ↔ 0 ≤ i ∧ l !! Z.to_nat i = Some x.
Proof. unfold zget. zcase; intuition (done || lia). Qed.

Lemma zget_bound l i x : l.[i] = Some x → 0 ≤ i < Z.of_nat (length l).
Proof.
  intros [? H]%zget_Some. apply lookup_lt_Some in H. lia.
Qed.

Lemma zget_is_Some l i : 0 ≤ i < Z.of_nat (length l) → ∃ x, l.[i] = Some x.
Proof.
  intros [??]. destruct (lookup_lt_is_Some_2 l (Z.to_nat i)) as [x Hx]; [lia|].
  exists x. by apply zget_Some.
Qed.

Lemma zget_None l i : ¬ (0 ≤ i < Z.of_nat (length l)) → l.[i] = None.
Proof.
  intros H. destruct (l.[i]) eqn:E; [|done]. apply zget_bound in E. lia.
Qed.

Lemma zset_Some l i x l' :
  l.[i := x] = Some l' ↔
  0 ≤ i < Z.of_nat (length l) ∧ l' = <[Z.to_nat i := x]> l.
Proof.
  unfold zset. zcases; (split; [intros [= <-]|intros [? ->]]); (done || lia).
Qed.

Lemma zset_ok l i x :
  0 ≤ i < Z.of_nat (length l) → l.[i := x] = Some (<[Z.to_nat i := x]> l).
Proof. intros ?. by apply zset_Some. Qed.

Lemma zset_length l i x l' : l.[i := x] = Some l' → length l' = length l.
Proof. intros [_ ->]%zset_Some. apply length_insert. Qed.

Lemma zget_insert_eq l i x :
  0 ≤ i < Z.of_nat (length l) → (<[Z.to_nat i := x]> l).[i] = Some x.
Proof.
  intros. apply zget_Some. split; [lia|]. apply list_lookup_insert_eq. lia.
Qed.

Lemma zget_insert_ne l i j x :
  0 ≤ i → i ≠ j → (<[Z.to_nat i := x]> l).[j] = l.[j].
Proof.
  intros. unfold zget. zcase; [|done]. apply list_lookup_insert_ne. lia.
Qed.

Lemma zget_zset l i j x l' :
  l.[i := x] = Some l' → l'.[j] = if i =? j then Some x else l.[j].
Proof.
  intros [? ->]%zset_Some. zcase; subst.
  - by apply zget_insert_eq.
  - apply zget_insert_ne; lia.
Qed.

Lemma zget_replicate n x i :
  0 ≤ i < Z.of_nat n → (replicate n x).[i] = Some x.
Proof. intros. apply zget_Some. split; [lia|]. apply lookup_replicate_2. lia. Qed.

Lemma zget_app_l l k i :
  0 ≤ i < Z.of_nat (length l) → (l ++ k).[i] = l.[i].
Proof. intros. unfold zget. zcase; [|done]. apply lookup_app_l. lia. Qed.

Lemma zget_app_r l k i :
  Z.of_nat (length l) ≤ i → (l ++ k).[i] = k.[i - Z.of_nat (length l)].
Proof.
  intros. unfold zget. zcases; try lia.
  rewrite lookup_app_r by lia. f_equal. lia.
Qed.

Lemma zget_ext l k :
  length l = length k →
  (∀ i, 0 ≤ i < Z.of_nat (length l) → l.[i] = k.[i]) → l = k.
Proof.
  intros Hlen H. apply list_eq. intros n.
  destruct (decide (n < length l)%nat).
  - specialize (H (Z.of_nat n)). unfold zget in H.
    rewrite Nat2Z.id in H. destruct (Z.leb_spec 0 (Z.of_nat n)); [|lia].
    apply H. lia.
  - rewrite !lookup_ge_None_2 by lia. done.
Qed.
End arrays.

#[export] Hint Resolve zget_bound zset_length : zarr.

Lemma zget_fmap {A B} (f : A → B) (l : list A) i :
  (f <$> l).[i] = f <$> l.[i].
Proof. unfold zget. zcase; [|done]. apply list_lookup_fmap. Qed.

Lemma zget_seqZ m n i :
  0 ≤ i < n → (seqZ m n).[i] = Some (m + i).
Proof.
  intros. apply zget_Some. split; [lia|]. apply lookup_seqZ. lia.
Qed.

Lemma zget_take {A} (l : list A) (n : nat) i :
  i < Z.of_nat n → (take n l).[i] = l.[i].
Proof. intros. unfold zget. zcase; [|done]. apply lookup_take_lt. lia. Qed.

Lemma zget_drop {A} (l : list A) (n : nat) i :
  0 ≤ i → (drop n l).[i] = l.[Z.of_nat n + i].
Proof.
  intros. unfold zget. zcases; try lia. rewrite lookup_drop. f_equal. lia.
Qed.

(** ** Lengths

    [len] rewrites the length of a composite list and calls [lia]. *)
Create Rewrite HintDb len.
#[export] Hint Rewrite @length_app @length_take @length_drop @length_fmap
  @length_replicate @length_insert @length_seqZ @length_nil @length_cons
  @length_seq : len.

Ltac len := autorewrite with len in *; try lia.

(** ** Reflexive-transitive closure of a step relation *)
Inductive steps {S : Type} (R : S → S → Prop) : S → S → Prop :=
| steps_refl s : steps R s s
| steps_cons s1 s2 s3 : R s1 s2 → steps R s2 s3 → steps R s1 s3.

Lemma steps_invariant {S} (R : S → S → Prop) (I : S → Prop) :
  (∀ s s', R s s' → I s → I s') → ∀ s s', steps R s s' → I s → I s'.
Proof. intros HR s s' Hs. induction Hs; eauto. Qed.
