(* ===== verification/Cint.v ===== *)
(** * C integers and bytes

    Fixed-width unsigned arithmetic as [Z] with the wrap-around written
    out, conversion to signed 32-bit, and little-endian byte encodings. *)

From S2P Require Import Prelude.

(** Conversion to an unsigned type of the given width. *)
Definition u8 (x : Z) : Z := x mod 256.
Definition u16 (x : Z) : Z := x mod 65536.
Definition u32 (x : Z) : Z := x mod 4294967296.
Definition u64 (x : Z) : Z := x mod 18446744073709551616.

(** Conversion to [int32_t] (two's complement). *)
Definition i32 (x : Z) : Z :=
  let y := x mod 4294967296 in if y <? 2147483648 then y else y - 4294967296.

Definition byte (x : Z) : Prop := 0 ≤ x < 256.
Abbreviation bytes := (Forall byte).

Create HintDb cint.
Create Rewrite HintDb cint.

Lemma u8_range x : 0 ≤ u8 x < 256.
Proof. unfold u8. zdm. Qed.
Lemma u16_range x : 0 ≤ u16 x < 65536.
Proof. unfold u16. zdm. Qed.
Lemma u32_range x : 0 ≤ u32 x < 4294967296.
Proof. unfold u32. zdm. Qed.
Lemma u64_range x : 0 ≤ u64 x < 18446744073709551616.
Proof. unfold u64. zdm. Qed.

Lemma u8_small x : 0 ≤ x < 256 → u8 x = x.
Proof. apply Z.mod_small. Qed.
Lemma u16_small x : 0 ≤ x < 65536 → u16 x = x.
Proof. apply Z.mod_small. Qed.
Lemma u32_small x : 0 ≤ x < 4294967296 → u32 x = x.
Proof. apply Z.mod_small. Qed.
Lemma u64_small x : 0 ≤ x < 18446744073709551616 → u64 x = x.
Proof. apply Z.mod_small. Qed.
Lemma i32_small x : 0 ≤ x < 2147483648 → i32 x = x.
Proof. intros. unfold i32. rewrite Z.mod_small by lia. zcase; lia. Qed.

#[export] Hint Resolve u8_range u16_range u32_range u64_range : cint.
#[export] Hint Rewrite u8_small u16_small u32_small u64_small i32_small
  using lia : cint.

Ltac csmall := autorewrite with cint.

Lemma testbit_high n a i :
  0 ≤ a < 2 ^ n → 0 ≤ n ≤ i → Z.testbit a i = false.
Proof.
  intros. rewrite <- (Z.mod_small a (2 ^ n)) by done.
  apply Z.mod_pow2_bits_high. lia.
Qed.

(** ** Little-endian encoding *)

Fixpoint le_bytes (n : nat) (z : Z) : list Z :=
  match n with
  | O => []
  | S n => z mod 256 :: le_bytes n (z / 256)
  end.

Fixpoint le_val (bs : list Z) : Z :=
  match bs with
  | [] => 0
  | b :: bs => b + 256 * le_val bs
  end.

Lemma le_bytes_length n z : length (le_bytes n z) = n.
Proof. revert z. induction n; cbn; auto. Qed.

Lemma le_bytes_bytes n z : bytes (le_bytes n z).
Proof.
  revert z. induction n; cbn; intros; constructor; auto.
  unfold byte. zdm.
Qed.

Lemma pow256_S (n : nat) : 256 ^ Z.of_nat (S n) = 256 * 256 ^ Z.of_nat n.
Proof. rewrite Nat2Z.inj_succ, Z.pow_succ_r by lia. lia. Qed.

Lemma le_val_bytes n z : 0 ≤ z < 256 ^ Z.of_nat n → le_val (le_bytes n z) = z.
Proof.
  revert z. induction n as [|n IH]; intros z Hz; cbn [le_bytes le_val].
  - cbn in Hz. lia.
  - rewrite pow256_S in Hz. rewrite IH; zdm.
Qed.

Lemma le_val_range bs :
  bytes bs → 0 ≤ le_val bs < 256 ^ Z.of_nat (length bs).
Proof.
  induction 1 as [|b bs Hb _ IH]; cbn [le_val length]; [cbn; lia|].
  rewrite pow256_S. unfold byte in Hb. lia.
Qed.

Lemma le_bytes_val bs : bytes bs → le_bytes (length bs) (le_val bs) = bs.
Proof.
  induction 1 as [|b bs Hb _ IH]; cbn [le_val length le_bytes]; [done|].
  unfold byte in Hb. f_equal; [zdm|].
  replace ((b + 256 * le_val bs) / 256) with (le_val bs) by zdm. done.
Qed.

#[export] Hint Resolve le_bytes_bytes : cint.
#[export] Hint Rewrite le_bytes_length : len.

(** Conversion to [int64_t], [off_t], [time_t]. *)
Definition i64 (x : Z) : Z :=
  let y := x mod 18446744073709551616 in
  if y <? 9223372036854775808 then y else y - 18446744073709551616.

Lemma i64_small x : 0 ≤ x < 9223372036854775808 → i64 x = x.
Proof. intros. unfold i64. rewrite Z.mod_small by lia. zcase; lia. Qed.
#[export] Hint Rewrite i64_small using lia : cint.
