(* ===== verification/CString.v ===== *)
(** * C strings and the string functions the sources call

    A [const char *] argument is the list of its bytes before the
    terminating NUL ([cstring]); a [char] array is the list of all its
    bytes.  [strlen], [strncpy], [strncmp], [strchr] are translated on
    these. *)

From S2P Require Import Prelude Cint.

(** The bytes of a C string: non-NUL bytes. *)
Definition cstring (s : list Z) : Prop := Forall (λ b, 0 < b < 256) s.

Definition strlen (s : list Z) : Z := Z.of_nat (length s).

(** The bytes of an array up to its first NUL. *)
Fixpoint c_str (bs : list Z) : list Z :=
  match bs with
  | [] => []
  | b :: bs => if b =? 0 then [] else b :: c_str bs
  end.

(** [strncpy(dst, src, n)]: the [n] bytes written, NUL-padded. *)
Definition strncpy_bytes (src : list Z) (n : nat) : list Z :=
  take n (src ++ replicate n 0).

(** [strncpy] into an array at least [n] bytes long. *)
Definition strncpy (dst src : list Z) (n : nat) : list Z :=
  strncpy_bytes src n ++ drop n dst.

(** [strncmp(a, b, n)]; a missing byte is the terminating NUL. *)
Fixpoint strncmp (a b : list Z) (n : nat) : Z :=
  match n with
  | O => 0
  | S n =>
      let x := List.hd 0 a in
      let y := List.hd 0 b in
      if x =? y then (if x =? 0 then 0 else strncmp (tail a) (tail b) n)
      else x - y
  end.

(** [strcmp(a, b)] on two C strings, zero exactly on equal strings. *)
Definition strcmp (a b : list Z) : Z :=
  strncmp a b (S (Nat.max (length a) (length b))).

(** ** Lemmas *)

Lemma cstring_bytes s : cstring s → bytes s.
Proof. intros H. eapply Forall_impl; [exact H|]. unfold byte. lia. Qed.

Lemma strncpy_bytes_length src n : length (strncpy_bytes src n) = n.
Proof. unfold strncpy_bytes. len. Qed.
#[export] Hint Rewrite strncpy_bytes_length : len.

Lemma strncpy_bytes_bytes src n : cstring src → bytes (strncpy_bytes src n).
Proof.
  intros H. unfold strncpy_bytes. apply Forall_take, Forall_app. split.
  - by apply cstring_bytes.
  - apply Forall_replicate. unfold byte. lia.
Qed.

Lemma strncpy_length dst src n :
  (n ≤ length dst)%nat → length (strncpy dst src n) = length dst.
Proof. intros. unfold strncpy. len. Qed.

Lemma strncpy_bytes_cons x s n :
  strncpy_bytes (x :: s) (S n) = x :: strncpy_bytes s n.
Proof.
  unfold strncpy_bytes. cbn [take app]. f_equal.
  rewrite !take_app. f_equal. rewrite !take_replicate. f_equal. lia.
Qed.

Lemma strncpy_bytes_nil n : strncpy_bytes [] n = replicate n 0.
Proof. unfold strncpy_bytes. cbn [app]. rewrite take_replicate. f_equal. lia. Qed.

(** Comparing a stored name with a string compares their first [n] bytes. *)
Lemma strncmp_strncpy (s t : list Z) n m :
  (n ≤ m)%nat → cstring s → cstring t →
  strncmp (strncpy_bytes s m) t n = 0 ↔ take n s = take n t.
Proof.
  revert s t m. induction n as [|n IH]; intros s t m Hm Hs Ht.
  { cbn. by rewrite !take_0. }
  destruct m as [|m]; [lia|].
  destruct Hs as [|x s Hx Hs].
  - rewrite strncpy_bytes_nil. cbn [strncmp replicate List.hd tail].
    destruct Ht as [|y t Hy Ht]; cbn [List.hd]; [done|].
    destruct (Z.eqb_spec 0 y); [lia|]. cbn [take]. split; [intros ?; lia|intros [=]].
  - rewrite strncpy_bytes_cons. cbn [strncmp List.hd tail take].
    destruct Ht as [|y t Hy Ht]; cbn [List.hd take tail].
    + destruct (Z.eqb_spec x 0); [lia|]. split; [intros ?; lia|intros [=]].
    + destruct (Z.eqb_spec x y).
      * subst. destruct (Z.eqb_spec y 0); [lia|]. rewrite IH by (done || lia).
        split; [by intros ->|by intros [=]].
      * split; [intros ?; lia|intros [=]; lia].
Qed.

Lemma c_str_strncpy_bytes s n :
  cstring s → c_str (strncpy_bytes s n) = take n s.
Proof.
  revert s. induction n as [|n IH]; intros s Hs; [by rewrite take_0|].
  destruct Hs as [|x s Hx Hs].
  - rewrite strncpy_bytes_nil. done.
  - rewrite strncpy_bytes_cons. cbn [c_str take]. zcase; [lia|].
    by rewrite IH.
Qed.

Lemma strncmp_refl s n : strncmp s s n = 0.
Proof.
  revert s. induction n; intros; cbn [strncmp]; [done|].
  rewrite Z.eqb_refl. by zcase.
Qed.
