(* ===== verification/Libc.v ===== *)
(** * Library functions of the configuration loader and the snapshot tool

    [strchr], [atoi], the [%d] conversions of [fprintf] and [fscanf],
    [snprintf] into a fixed buffer, [fgets], and [fnmatch].  Strings are the
    lists of their bytes, as in CString.v.  What a bracket expression of a
    pattern matches depends on the locale: [Locale] is its interface. *)

From stdpp Require Export strings.
From S2P Require Import Prelude Cint CString.

#[global] Open Scope Z_scope.
#[global] Open Scope idkfs_scope.

(** A string literal of the sources. *)
Definition lit (s : string) : list Z :=
  (λ a, Z.of_N (Ascii.N_of_ascii a)) <$> String.list_ascii_of_string s.

(** The string in a [char] array; [None] when nothing terminates it. *)
Definition cstr_of (a : list Z) : option (list Z) :=
  if bool_decide (0 ∈ a) then Some (c_str a) else None.

(** ** Characters *)

Definition isdigit (c : Z) : bool := (48 <=? c) && (c <=? 57).
(** Space, [\t], [\n], [\v], [\f], [\r]. *)
Definition isspace (c : Z) : bool := (c =? 32) || ((9 <=? c) && (c <=? 13)).

(** [strchr(s, c)]: the parts before and after the first [c]. *)
Fixpoint strchr (s : list Z) (c : Z) : option (list Z * list Z) :=
  match s with
  | [] => None
  | x :: s =>
      if x =? c then Some ([], s)
      else match strchr s c with
           | Some (pre, post) => Some (x :: pre, post)
           | None => None
           end
  end.

(** [snprintf] into a buffer of [n] bytes: what is stored. *)
Definition snprintf_buf (n : Z) (s : list Z) : list Z := take (Z.to_nat (n - 1)) s.

(** ** Decimal numbers *)

(** The decimal digits of [z], before [acc]; [n] bounds their number. *)
Fixpoint dec_digits (n : nat) (z : Z) (acc : list Z) : list Z :=
  match n with
  | O => acc
  | S n =>
      let acc := (48 + z mod 10) :: acc in
      if z <? 10 then acc else dec_digits n (z / 10) acc
  end.

(** Ten digits suffice for an [int]. *)
Definition print_u (z : Z) : list Z := dec_digits 10 z [].
(** [%d] *)
Definition print_d (z : Z) : list Z :=
  if z <? 0 then 45 :: print_u (- z) else print_u z.
(** [%04d]: zeros after the sign up to a width of four. *)
Definition print_04d (z : Z) : list Z :=
  let digits := print_u (Z.abs z) in
  let sign := if z <? 0 then [45] else [] in
  sign ++ replicate (4 - length sign - length digits) 48 ++ digits.

Fixpoint skip_space (s : list Z) : list Z :=
  match s with
  | c :: t => if isspace c then skip_space t else s
  | [] => []
  end.

Fixpoint scan_dec (s : list Z) (acc : Z) : Z :=
  match s with
  | c :: s => if isdigit c then scan_dec s (10 * acc + (c - 48)) else acc
  | [] => acc
  end.

(** [strtol] saturates to [long]; the conversion to [int] then wraps. *)
Definition clamp_long (z : Z) : Z :=
  Z.max (- 9223372036854775808) (Z.min 9223372036854775807 z).

(** The number [fscanf(f, "%d", &id)] stores, [None] when nothing matches. *)
Definition scan_int (s : list Z) : option Z :=
  let s := skip_space s in
  let c := List.hd 0 s in
  let digits := if (c =? 45) || (c =? 43) then tail s else s in
  if isdigit (List.hd 0 digits) then
    let v := scan_dec digits 0 in
    Some (i32 (clamp_long (if c =? 45 then - v else v)))
  else None.

Definition atoi (s : list Z) : Z := default 0 (scan_int s).

(** ** [fgets] *)

(** [fgets] with room for [n] bytes besides the NUL: the bytes read, through
    the first newline, and the rest of the stream. *)
Fixpoint fgets_take (n : nat) (s : list Z) : list Z * list Z :=
  match n, s with
  | O, _ => ([], s)
  | _, [] => ([], [])
  | S n, c :: s =>
      if c =? 10 then ([c], s)
      else let '(l, rest) := fgets_take n s in (c :: l, rest)
  end.

(** ** [fnmatch] *)

(** What a locale makes of the bracket expression that follows a ['\[']: the
    bytes it matches and the rest of the pattern, or [None] when none
    follows and the bracket stands for itself. *)
Class Locale := bracket : list Z → option ((Z → bool) * list Z).

Inductive pat :=
| PStar
| PAny
| PChar (c : Z)
| PSet (test : Z → bool).

(** The elements of a pattern under [FNM_NOESCAPE]: a backslash is an
    ordinary character. *)
Fixpoint pat_parse `{Locale} (fuel : nat) (p : list Z) : list pat :=
  match fuel, p with
  | S n, c :: p =>
      if c =? 42 then PStar :: pat_parse n p
      else if c =? 63 then PAny :: pat_parse n p
      else if c =? 91 then
        match bracket p with
        | Some (test, p') => PSet test :: pat_parse n p'
        | None => PChar c :: pat_parse n p
        end
      else PChar c :: pat_parse n p
  | _, _ => []
  end.

Fixpoint pat_match (ps : list pat) : list Z → bool :=
  match ps with
  | [] => λ s, bool_decide (s = [])
  | PStar :: ps =>
      fix star (s : list Z) : bool :=
        pat_match ps s || match s with [] => false | _ :: s => star s end
  | PAny :: ps => λ s, match s with [] => false | _ :: s => pat_match ps s end
  | PChar c :: ps =>
      λ s, match s with [] => false | x :: s => (x =? c) && pat_match ps s end
  | PSet test :: ps =>
      λ s, match s with [] => false | x :: s => test x && pat_match ps s end
  end.

(** [fnmatch(pattern, string, FNM_NOESCAPE)]; 1 is [FNM_NOMATCH]. *)
Definition fnmatch `{Locale} (pattern s : list Z) : Z :=
  if pat_match (pat_parse (length pattern) pattern) s then 0 else 1.

(** ** Lemmas on [strchr] *)

Lemma strchr_app pre c post :
  c ∉ pre → strchr (pre ++ c :: post) c = Some (pre, post).
Proof.
  induction pre as [|x pre IH]; cbn [strchr app].
  - by rewrite Z.eqb_refl.
  - intros [Hx Hp]%not_elem_of_cons. destruct (Z.eqb_spec x c); [congruence|].
    by rewrite IH.
Qed.

Lemma strchr_none s c : c ∉ s → strchr s c = None.
Proof.
  induction s as [|x s IH]; cbn [strchr]; [done|].
  intros [Hx Hp]%not_elem_of_cons. destruct (Z.eqb_spec x c); [congruence|].
  by rewrite IH.
Qed.

(** ** Printing and scanning numbers *)

Lemma isdigit_iff c : isdigit c = true ↔ 48 ≤ c ≤ 57.
Proof. unfold isdigit. rewrite andb_true_iff. lia. Qed.

Lemma dec_digits_acc n z acc : dec_digits n z acc = dec_digits n z [] ++ acc.
Proof.
  revert z acc. induction n as [|n IH]; intros z acc; cbn [dec_digits]; [done|].
  destruct (z <? 10); [done|]. rewrite IH, (IH _ [_]), <- app_assoc. done.
Qed.

Lemma dec_digits_isdigit n z : Forall (λ c, isdigit c = true) (dec_digits n z []).
Proof.
  revert z. induction n as [|n IH]; intros z; cbn [dec_digits]; [done|].
  assert (isdigit (48 + z mod 10) = true) as Hd by (apply isdigit_iff; zdm).
  destruct (z <? 10); [by constructor|].
  rewrite dec_digits_acc. apply Forall_app. split; [apply IH|by constructor].
Qed.

Lemma dec_digits_nonnil n z : dec_digits (S n) z [] ≠ [].
Proof.
  cbn [dec_digits]. destruct (z <? 10); [done|].
  rewrite dec_digits_acc. by intros [_ [=]]%app_nil.
Qed.

Lemma dec_digits_length n z : (length (dec_digits n z []) ≤ n)%nat.
Proof.
  revert z. induction n as [|n IH]; intros z; cbn [dec_digits]; [done|].
  destruct (z <? 10); [cbn; lia|]. rewrite dec_digits_acc. len.
  specialize (IH (z / 10)). lia.
Qed.

Lemma scan_dec_app ds s acc :
  Forall (λ c, isdigit c = true) ds →
  scan_dec (ds ++ s) acc = scan_dec s (scan_dec ds acc).
Proof.
  intros Hd. revert acc. induction Hd as [|c ds Hc _ IH]; intros acc; [done|].
  cbn [app scan_dec]. rewrite Hc. apply IH.
Qed.

Lemma scan_dec_digits n z :
  0 ≤ z < 10 ^ Z.of_nat n → scan_dec (dec_digits n z []) 0 = z.
Proof.
  revert z. induction n as [|n IH]; intros z Hz; [cbn in Hz |- *; lia|].
  rewrite Nat2Z.inj_succ, Z.pow_succ_r in Hz by lia. cbn [dec_digits].
  assert (isdigit (48 + z mod 10) = true) as Hd by (apply isdigit_iff; zdm).
  destruct (Z.ltb_spec z 10).
  - cbn [scan_dec]. rewrite Hd. zdm.
  - rewrite dec_digits_acc, scan_dec_app by apply dec_digits_isdigit.
    rewrite IH by (split; [zdm|apply Z.div_lt_upper_bound; lia]).
    cbn [scan_dec]. rewrite Hd. zdm.
Qed.

Lemma print_u_digits z : Forall (λ c, isdigit c = true) (print_u z).
Proof. apply dec_digits_isdigit. Qed.

Lemma print_u_hd z s : isdigit (List.hd 0 (print_u z ++ s)) = true.
Proof.
  pose proof (print_u_digits z) as H. pose proof (dec_digits_nonnil 9 z) as Hn.
  fold (print_u z) in Hn. destruct H as [|c l Hc _]; [done|exact Hc].
Qed.

Lemma scan_print_u z s :
  0 ≤ z < 10000000000 → isdigit (List.hd 0 s) = false →
  scan_dec (print_u z ++ s) 0 = z.
Proof.
  intros Hz Hs. rewrite scan_dec_app by apply print_u_digits.
  unfold print_u. rewrite scan_dec_digits by done.
  destruct s as [|c s]; [done|]. cbn [List.hd scan_dec] in *. by rewrite Hs.
Qed.

Lemma skip_space_hd s : isspace (List.hd 0 s) = false → skip_space s = s.
Proof. destruct s as [|c s]; [done|]. cbn [List.hd skip_space]. by intros ->. Qed.

Lemma i32_id z : - 2147483648 ≤ z < 2147483648 → i32 z = z.
Proof. intros. unfold i32. cbv zeta. zcase; zdm. Qed.

(** Scanning a printed [int] gives it back. *)
Lemma scan_print_d z s :
  - 2147483648 ≤ z < 2147483648 → isdigit (List.hd 0 s) = false →
  scan_int (print_d z ++ s) = Some z.
Proof.
  intros Hz Hs. unfold scan_int, print_d. destruct (Z.ltb_spec z 0).
  - rewrite skip_space_hd by done. cbn [app List.hd tail Z.eqb Pos.eqb orb].
    rewrite print_u_hd, scan_print_u by (done || lia). f_equal.
    unfold clamp_long. rewrite i32_id; lia.
  - pose proof (print_u_hd z s) as Hd. pose proof Hd as Hr. rewrite isdigit_iff in Hr.
    rewrite skip_space_hd by (unfold isspace; zcases; lia).
    set (c := List.hd 0 (print_u z ++ s)) in *.
    destruct (Z.eqb_spec c 45); [lia|]. destruct (Z.eqb_spec c 43); [lia|]. cbn [orb].
    fold c. rewrite Hd, scan_print_u by (done || lia). f_equal.
    unfold clamp_long. rewrite i32_id; lia.
Qed.

Lemma atoi_print_d z s :
  - 2147483648 ≤ z < 2147483648 → isdigit (List.hd 0 s) = false →
  atoi (print_d z ++ s) = z.
Proof. intros. unfold atoi. by rewrite scan_print_d. Qed.

(** The bytes of a printed number: digits and the sign. *)
Lemma print_d_chars z c : c ∈ print_d z → 45 ≤ c ≤ 57 ∧ c ≠ 46 ∧ c ≠ 47.
Proof.
  assert (∀ u, c ∈ print_u u → 48 ≤ c ≤ 57) as Hu.
  { intros u Hc. pose proof (print_u_digits u) as H. rewrite Forall_forall in H.
    by apply isdigit_iff, H. }
  unfold print_d. destruct (z <? 0).
  - intros [->|Hc%Hu]%elem_of_cons; lia.
  - intros Hc%Hu. lia.
Qed.

Lemma print_d_length z : (length (print_d z) ≤ 11)%nat.
Proof.
  unfold print_d, print_u. pose proof (dec_digits_length 10 z).
  pose proof (dec_digits_length 10 (- z)). destruct (z <? 0); cbn [length]; lia.
Qed.

(** ** [fgets] on a short line *)
Lemma fgets_line n l rest :
  10 ∉ l → (length l < n)%nat → fgets_take n (l ++ 10 :: rest) = (l ++ [10], rest).
Proof.
  revert n. induction l as [|x l IH]; intros [|n] Hl Hn; cbn [length] in Hn; try lia; [done|].
  apply not_elem_of_cons in Hl as [Hx Hl]. cbn [app fgets_take].
  destruct (Z.eqb_spec x 10); [congruence|]. rewrite IH by (done || lia). done.
Qed.

Lemma fgets_shorter n s l rest :
  fgets_take (S n) s = (l, rest) → s ≠ [] → (length rest < length s)%nat.
Proof.
  revert s l rest. induction n as [|n IH]; intros [|c s] l rest; try done.
  - cbn. destruct (c =? 10); intros [= <- <-]; cbn; lia.
  - change (fgets_take (S (S n)) (c :: s)) with
      (if c =? 10 then ([c], s)
       else let '(l, rest) := fgets_take (S n) s in (c :: l, rest)).
    destruct (c =? 10); [intros [= <- <-]; cbn; lia|].
    destruct (fgets_take (S n) s) as [l' r'] eqn:E. intros [= <- <-] _.
    destruct s as [|x s]; [injection E as <- <-; cbn; lia|].
    specialize (IH _ _ _ E ltac:(done)). cbn [length] in *. lia.
Qed.

(** ** What patterns match *)

Inductive pat_matches : list pat → list Z → Prop :=
| pm_nil : pat_matches [] []
| pm_star_nil ps s : pat_matches ps s → pat_matches (PStar :: ps) s
| pm_star_cons ps x s : pat_matches (PStar :: ps) s → pat_matches (PStar :: ps) (x :: s)
| pm_any ps x s : pat_matches ps s → pat_matches (PAny :: ps) (x :: s)
| pm_char ps x s : pat_matches ps s → pat_matches (PChar x :: ps) (x :: s)
| pm_set ps test x s :
    test x = true → pat_matches ps s → pat_matches (PSet test :: ps) (x :: s).

Lemma pat_match_star ps s :
  pat_match (PStar :: ps) s =
  pat_match ps s || match s with [] => false | _ :: s => pat_match (PStar :: ps) s end.
Proof. by destruct s. Qed.

Lemma pat_match_spec ps s : pat_match ps s = true ↔ pat_matches ps s.
Proof.
  split.
  - revert s. induction ps as [|p ps IH]; intros s.
    + cbn. rewrite bool_decide_eq_true. intros ->. constructor.
    + destruct p as [| |c|test].
      * induction s as [|x s IHs]; rewrite pat_match_star, orb_true_iff.
        -- intros [H|[=]]. constructor. by apply IH.
        -- intros [H|H]; [apply pm_star_nil; by apply IH|apply pm_star_cons; by apply IHs].
      * destruct s as [|x s]; cbn; [done|]. intros H. constructor. by apply IH.
      * destruct s as [|x s]; cbn; [done|]. intros [->%Z.eqb_eq H]%andb_true_iff.
        constructor. by apply IH.
      * destruct s as [|x s]; cbn; [done|]. intros [Ht H]%andb_true_iff.
        constructor; [done|]. by apply IH.
  - induction 1 as [|ps s _ IH|ps x s _ IH|ps x s _ IH|ps x s _ IH|ps test x s Ht _ IH].
    + done.
    + by rewrite pat_match_star, IH.
    + by rewrite pat_match_star, IH, orb_true_r.
    + done.
    + cbn. by rewrite Z.eqb_refl.
    + cbn. by rewrite Ht.
Qed.

Lemma pat_matches_star_app ps t s :
  pat_matches ps s → pat_matches (PStar :: ps) (t ++ s).
Proof. intros H. induction t; cbn; by constructor. Qed.

Lemma pat_matches_star_inv ps s :
  pat_matches (PStar :: ps) s → ∃ t u, s = t ++ u ∧ pat_matches ps u.
Proof.
  remember (PStar :: ps) as qs eqn:E. induction 1; simplify_eq.
  - by exists [], s.
  - destruct IHpat_matches as (t & u & -> & Hu); [done|]. by exists (x :: t), u.
Qed.

Lemma pat_matches_chars_inv cs ps s :
  pat_matches ((PChar <$> cs) ++ ps) s → ∃ u, s = cs ++ u ∧ pat_matches ps u.
Proof.
  revert s. induction cs as [|c cs IH]; intros s; cbn; [eauto|].
  inversion 1; simplify_eq. destruct (IH _ H3) as (u & -> & Hu). eauto.
Qed.

Lemma pat_matches_chars cs ps s :
  pat_matches ps s → pat_matches ((PChar <$> cs) ++ ps) (cs ++ s).
Proof. intros H. induction cs; cbn; [done|by constructor]. Qed.

(** A star before a text matches the strings that end with it. *)
Lemma pat_match_suffix cs s :
  pat_match (PStar :: (PChar <$> cs)) s = true ↔ cs `suffix_of` s.
Proof.
  rewrite pat_match_spec. split.
  - intros (t & u & -> & Hu)%pat_matches_star_inv. exists t. f_equal.
    rewrite <- (app_nil_r (PChar <$> cs)) in Hu.
    apply pat_matches_chars_inv in Hu as (u' & -> & Hu). inversion Hu. by rewrite app_nil_r.
  - intros [t ->]. apply pat_matches_star_app.
    pose proof (pat_matches_chars cs [] [] pm_nil) as H. by rewrite !app_nil_r in H.
Qed.

(** A text between two stars matches the strings that contain it. *)
Lemma pat_match_infix cs s :
  pat_match (PStar :: (PChar <$> cs) ++ [PStar]) s = true ↔ ∃ t u, s = t ++ cs ++ u.
Proof.
  rewrite pat_match_spec. split.
  - intros (t & u & -> & Hu)%pat_matches_star_inv.
    apply pat_matches_chars_inv in Hu as (u' & -> & _). eauto.
  - intros (t & u & ->). apply pat_matches_star_app, pat_matches_chars.
    rewrite <- (app_nil_r u). apply pat_matches_star_app. repeat constructor.
Qed.

(** ** [strncpy] into a terminated array *)

Lemma cstr_of_app s t : cstring s → cstr_of (s ++ 0 :: t) = Some s.
Proof.
  intros Hs. unfold cstr_of. rewrite bool_decide_true by set_solver. f_equal.
  induction Hs as [|x s Hx _ IH]; cbn [app c_str]; [done|].
  destruct (Z.eqb_spec x 0); [lia|]. by rewrite IH.
Qed.

(** A copy of at most [n] bytes before a NUL reads back truncated. *)
Lemma strncpy_cstr dst s n :
  cstring s → dst.[Z.of_nat n] = Some 0 →
  cstr_of (strncpy dst s n) = Some (take n s).
Proof.
  intros Hs [_ Hd]%zget_Some. rewrite Nat2Z.id in Hd. apply drop_S in Hd.
  unfold strncpy, strncpy_bytes. rewrite Hd, take_app. rewrite take_replicate.
  destruct ((n - length s) `min` n)%nat as [|m] eqn:E; cbn [replicate].
  - rewrite app_nil_r. apply cstr_of_app. by apply Forall_take.
  - rewrite <- app_assoc. apply cstr_of_app. by apply Forall_take.
Qed.

Lemma strncpy_last dst s n : (strncpy dst s n).[Z.of_nat n] = dst.[Z.of_nat n].
Proof.
  unfold strncpy. rewrite zget_app_r by len. rewrite zget_drop by len. f_equal. len.
Qed.

Lemma cstr_of_c_str a s : cstr_of a = Some s → c_str a = s.
Proof. unfold cstr_of. case_bool_decide; congruence. Qed.

Lemma c_str_cstring s : cstring s → c_str s = s.
Proof.
  induction 1 as [|x s Hx _ IH]; cbn [c_str]; [done|].
  destruct (Z.eqb_spec x 0); [lia|]. by rewrite IH.
Qed.
