(* ===== verification/Codec.v ===== *)
(** * Layout of C structures

    A [codec A] is the byte layout of a C type whose values are modelled
    by [A]: its [sizeof], the bytes of a value, and the value a byte
    sequence represents.  [CodecOk] states the laws a layout promises to
    the code that copies structures with [memcpy]; instances build the
    layout of a packed structure from those of its fields. *)

From S2P Require Import Prelude Cint.

Record codec (A : Type) := Codec {
  csize : nat;
  cenc : A → list Z;
  cdec : list Z → A;
  cvalid : A → Prop;
}.
Arguments Codec {A}.
Arguments csize {A}.
Arguments cenc {A}.
Arguments cdec {A}.
Arguments cvalid {A}.

Class CodecOk {A} (c : codec A) := {
  cenc_length a : cvalid c a → length (cenc c a) = csize c;
  cenc_bytes a : cvalid c a → bytes (cenc c a);
  cdec_enc a rest : cvalid c a → cdec c (cenc c a ++ rest) = a;
  cenc_dec bs : length bs = csize c → bytes bs → cenc c (cdec c bs) = bs;
  cdec_valid bs : length bs = csize c → bytes bs → cvalid c (cdec c bs);
  cdec_take bs : cdec c (take (csize c) bs) = cdec c bs;
}.

(** ** Layouts *)

(** An unsigned little-endian integer of [n] bytes. *)
Definition c_le (n : nat) : codec Z := {|
  csize := n;
  cenc := le_bytes n;
  cdec bs := le_val (take n bs);
  cvalid z := 0 ≤ z < 256 ^ Z.of_nat n;
|}.
Abbreviation c_u8 := (c_le 1).
Abbreviation c_u16 := (c_le 2).
Abbreviation c_u32 := (c_le 4).
Abbreviation c_u64 := (c_le 8).

(** A byte array [uint8_t a\[n\]] or [char a\[n\]]. *)
Definition c_raw (n : nat) : codec (list Z) := {|
  csize := n;
  cenc := id;
  cdec := take n;
  cvalid bs := length bs = n ∧ bytes bs;
|}.

(** Two consecutive fields. *)
Definition c_pair {A B} (c : codec A) (d : codec B) : codec (A * B) := {|
  csize := (csize c + csize d)%nat;
  cenc p := cenc c p.1 ++ cenc d p.2;
  cdec bs := (cdec c bs, cdec d (drop (csize c) bs));
  cvalid p := cvalid c p.1 ∧ cvalid d p.2;
|}.

Fixpoint vec_dec {A} (c : codec A) (n : nat) (bs : list Z) : list A :=
  match n with
  | O => []
  | S n => cdec c bs :: vec_dec c n (drop (csize c) bs)
  end.

(** An array of [n] elements. *)
Definition c_vec {A} (n : nat) (c : codec A) : codec (list A) := {|
  csize := (n * csize c)%nat;
  cenc l := mjoin (cenc c <$> l);
  cdec := vec_dec c n;
  cvalid l := length l = n ∧ Forall (cvalid c) l;
|}.

(** A structure, from the tuple of its fields. *)
Definition c_iso {A B} (f : A → B) (g : B → A) (c : codec A) : codec B := {|
  csize := csize c;
  cenc b := cenc c (g b);
  cdec bs := f (cdec c bs);
  cvalid b := cvalid c (g b);
|}.

Infix "⨟" := c_pair (at level 60, right associativity) : idkfs_scope.

(** ** The laws *)

#[export] Instance c_le_ok n : CodecOk (c_le n).
Proof.
  split; cbn; intros.
  - apply le_bytes_length.
  - apply le_bytes_bytes.
  - rewrite take_app_length' by (by rewrite le_bytes_length). by apply le_val_bytes.
  - subst n. rewrite firstn_all. by apply le_bytes_val.
  - subst n. rewrite firstn_all. by apply le_val_range.
  - rewrite take_take. f_equal. f_equal. lia.
Qed.

#[export] Instance c_raw_ok n : CodecOk (c_raw n).
Proof.
  split; cbn; unfold id.
  - by intros ? [? ?].
  - by intros ? [? ?].
  - intros a rest [<- ?]. apply take_app_length.
  - intros bs <- _. apply firstn_all.
  - intros bs <- ?. rewrite firstn_all. done.
  - intros. rewrite take_take. f_equal. lia.
Qed.

#[export] Instance c_pair_ok {A B} (c : codec A) (d : codec B) :
  CodecOk c → CodecOk d → CodecOk (c_pair c d).
Proof.
  intros Hc Hd. split; cbn.
  - intros [a b] [Ha Hb]; cbn in *. rewrite length_app.
    by rewrite (cenc_length a), (cenc_length b).
  - intros [a b] [Ha Hb]. apply Forall_app. split; by apply cenc_bytes.
  - intros [a b] rest [Ha Hb]; cbn in *. rewrite <- app_assoc. f_equal.
    + by apply cdec_enc.
    + rewrite drop_app_length' by (by rewrite cenc_length). by apply cdec_enc.
  - intros bs Hlen Hbs. rewrite <- (cdec_take (c := c)).
    rewrite !cenc_dec; [apply take_drop|len..]; auto using Forall_take, Forall_drop.
  - intros bs Hlen Hbs. rewrite <- (cdec_take (c := c)).
    split; apply cdec_valid; len; auto using Forall_take, Forall_drop.
  - intros bs. f_equal.
    + rewrite <- (cdec_take (take _ _)), take_take, <- (cdec_take bs).
      do 2 f_equal. lia.
    + rewrite skipn_firstn_comm.
      rewrite Nat.add_comm, Nat.add_sub. apply cdec_take.
Qed.

Lemma vec_dec_length {A} (c : codec A) n bs : length (vec_dec c n bs) = n.
Proof. revert bs. induction n; cbn; intros; auto. Qed.

#[export] Instance c_vec_ok {A} n (c : codec A) : CodecOk c → CodecOk (c_vec n c).
Proof.
  intros Hc. split; cbn.
  - intros l [<- Hl]. induction Hl as [|a l Ha Hl IH]; cbn; [done|].
    rewrite length_app, (cenc_length a) by done. f_equal. apply IH.
  - intros l [_ Hl]. induction Hl as [|a l Ha Hl IH]; cbn; [constructor|].
    apply Forall_app. split; [by apply cenc_bytes|apply IH].
  - intros l rest [<- Hl]. induction Hl as [|a l Ha Hl IH]; cbn; [done|].
    rewrite <- app_assoc. f_equal; [by apply cdec_enc|].
    rewrite drop_app_length' by (by rewrite cenc_length). apply IH.
  - induction n as [|n IH]; intros bs Hlen Hbs; cbn in *.
    { by destruct bs. }
    rewrite <- (cdec_take (c := c)).
    rewrite cenc_dec by (len; auto using Forall_take).
    etrans; [|apply (take_drop (csize c))]. f_equal. apply IH; len.
    by apply Forall_drop.
  - intros bs Hlen Hbs. split; [apply vec_dec_length|].
    revert bs Hlen Hbs. induction n as [|n IH]; intros bs Hlen Hbs; cbn in *;
      constructor.
    + rewrite <- (cdec_take (c := c)). apply cdec_valid; len.
      by apply Forall_take.
    + apply IH; len. by apply Forall_drop.
  - induction n as [|n IH]; intros bs; cbn; [done|]. f_equal.
    + rewrite <- (cdec_take (take _ _)), take_take, <- (cdec_take bs).
      do 2 f_equal. lia.
    + rewrite skipn_firstn_comm, Nat.add_comm, Nat.add_sub. apply IH.
Qed.

Lemma c_iso_ok {A B} (f : A → B) (g : B → A) (c : codec A) :
  (∀ a, g (f a) = a) → (∀ b, f (g b) = b) → CodecOk c → CodecOk (c_iso f g c).
Proof.
  intros Hgf Hfg Hc. split; cbn; intros; rewrite ?Hgf.
  - by apply cenc_length.
  - by apply cenc_bytes.
  - by rewrite cdec_enc, Hfg.
  - by apply cenc_dec.
  - by apply cdec_valid.
  - by rewrite cdec_take.
Qed.

(** Discharges [CodecOk] for a structure declared with [c_iso]. *)
Ltac solve_codec :=
  apply c_iso_ok; [by intros; destruct_and?; repeat case_match; subst|by intros []|
                   typeclasses eauto].

(** Decoding exactly the bytes of a value. *)
Lemma cdec_enc' {A} (c : codec A) `{!CodecOk c} a :
  cvalid c a → cdec c (cenc c a) = a.
Proof. intros. by rewrite <- (app_nil_r (cenc c a)), cdec_enc. Qed.
