(* ===== verification/Mem.v ===== *)
(** * Byte-addressed memory

    The disk image of [idkfs_core.c] ([calloc]ed buffer or [mmap]ed file)
    and the [backing_map] of the block driver: [m_size] bytes, zero where
    nothing was written.  [mread] and [mwrite] are [memcpy] from and to the
    memory; an access outside [0, m_size) is undefined behaviour. *)

From S2P Require Import Prelude Cint Codec.

Record mem := Mem { m_size : Z; m_cells : gmap Z Z }.

Definition mget (m : mem) (a : Z) : Z := default 0 (m_cells m !! a).

Definition mzero (size : Z) : mem := {| m_size := size; m_cells := ∅ |}.

Fixpoint write_cells (cells : gmap Z Z) (off : Z) (bs : list Z) : gmap Z Z :=
  match bs with
  | [] => cells
  | b :: bs => write_cells (<[off := b]> cells) (off + 1) bs
  end.

Definition in_bounds (m : mem) (off n : Z) : bool :=
  (0 <=? off) && (off + n <=? m_size m).

Definition mread (m : mem) (off : Z) (n : nat) : option (list Z) :=
  if in_bounds m off (Z.of_nat n)
  then Some (mget m <$> seqZ off (Z.of_nat n)) else None.

Definition mwrite (m : mem) (off : Z) (bs : list Z) : option mem :=
  if in_bounds m off (Z.of_nat (length bs))
  then Some {| m_size := m_size m; m_cells := write_cells (m_cells m) off bs |}
  else None.

(** Reading and writing a structure. *)
Definition mload {A} (c : codec A) (m : mem) (off : Z) : option A :=
  cdec c <$> mread m off (csize c).
Definition mstore {A} (c : codec A) (m : mem) (off : Z) (a : A) : option mem :=
  mwrite m off (cenc c a).

(** Every cell holds a byte. *)
Definition mem_ok (m : mem) : Prop := ∀ a, byte (mget m a).

(** ** Lemmas *)

Lemma write_cells_lookup bs cells off a :
  default 0 (write_cells cells off bs !! a) =
  if (off <=? a) && (a <? off + Z.of_nat (length bs))
  then default 0 (bs.[a - off]) else default 0 (cells !! a).
Proof.
  revert cells off. induction bs as [|b bs IH]; intros; cbn [write_cells length].
  - zcases; try lia; done.
  - rewrite IH, lookup_insert. case_decide as Ha.
    + subst. rewrite Z.sub_diag. zcases; try lia. done.
    + zcases; try lia; try done.
      unfold zget. zcases; try lia.
      by replace (Z.to_nat (a - off)) with (S (Z.to_nat (a - (off + 1)))) by lia.
Qed.

Lemma mwrite_Some m off bs m' :
  mwrite m off bs = Some m' →
  (0 ≤ off ∧ off + Z.of_nat (length bs) ≤ m_size m) ∧ m_size m' = m_size m ∧
  ∀ a, mget m' a = if (off <=? a) && (a <? off + Z.of_nat (length bs))
                   then default 0 (bs.[a - off]) else mget m a.
Proof.
  unfold mwrite, in_bounds. zcases; intros [= <-]. split; [lia|].
  split; [done|]. intros a. unfold mget. apply write_cells_lookup.
Qed.

Lemma mwrite_ok m off bs :
  0 ≤ off → off + Z.of_nat (length bs) ≤ m_size m → ∃ m', mwrite m off bs = Some m'.
Proof. intros. unfold mwrite, in_bounds. zcases; [eauto|lia..]. Qed.

Lemma mread_ok m off n :
  0 ≤ off → off + Z.of_nat n ≤ m_size m →
  mread m off n = Some (mget m <$> seqZ off (Z.of_nat n)).
Proof. intros. unfold mread, in_bounds. by zcases; try lia. Qed.

Lemma mread_Some m off n bs :
  mread m off n = Some bs →
  (0 ≤ off ∧ off + Z.of_nat n ≤ m_size m) ∧
  bs = mget m <$> seqZ off (Z.of_nat n).
Proof. unfold mread, in_bounds. zcases; intros [= <-]. split; [lia|done]. Qed.

Lemma mread_length m off n bs : mread m off n = Some bs → length bs = n.
Proof. intros [_ ->]%mread_Some. len. Qed.

(** A write is read back. *)
Lemma mread_mwrite_same m off bs m' :
  mwrite m off bs = Some m' → mread m' off (length bs) = Some bs.
Proof.
  intros (Hb & Hs & Hg)%mwrite_Some. rewrite mread_ok by lia. f_equal.
  apply zget_ext; [len|]. intros i Hi. len.
  rewrite zget_fmap, zget_seqZ by lia. cbn. rewrite Hg.
  destruct (zget_is_Some bs i) as [x Hx]; [lia|].
  zcases; try lia. replace (off + i - off) with i by lia. by rewrite Hx.
Qed.

(** A write leaves disjoint reads unchanged. *)
Lemma mread_mwrite_disjoint m off bs m' a n :
  mwrite m off bs = Some m' →
  a + Z.of_nat n ≤ off ∨ off + Z.of_nat (length bs) ≤ a →
  mread m' a n = mread m a n.
Proof.
  intros (Hb & Hs & Hg)%mwrite_Some Hd. unfold mread, in_bounds. rewrite Hs.
  zcases; try done. f_equal. apply zget_ext; [len|]. intros i Hi. len.
  rewrite !zget_fmap, !zget_seqZ by lia. cbn. rewrite Hg. by zcases; try lia.
Qed.

Lemma mwrite_mem_ok m off bs m' :
  mwrite m off bs = Some m' → mem_ok m → bytes bs → mem_ok m'.
Proof.
  intros (Hb & Hs & Hg)%mwrite_Some Hm Hbs a. rewrite Hg. zcases; auto.
  destruct (zget_is_Some bs (a - off)) as [x Hx]; [lia|]. rewrite Hx.
  apply zget_Some in Hx as [_ Hx]. by eapply Forall_lookup_1 in Hx.
Qed.

Lemma mzero_ok n : mem_ok (mzero n).
Proof. intros a. unfold mget, mzero, byte. cbn. rewrite lookup_empty. cbn. lia. Qed.

Lemma mload_mstore {A} (c : codec A) `{!CodecOk c} m off a m' :
  cvalid c a → mstore c m off a = Some m' → mload c m' off = Some a.
Proof.
  intros Hv Hm. unfold mload, mstore in *.
  rewrite <- (cenc_length (c := c) a) by done.
  erewrite mread_mwrite_same by done. cbn. by rewrite cdec_enc'.
Qed.

(** ** Structures at disjoint addresses *)

Lemma mstore_ok {A} (c : codec A) `{!CodecOk c} m off a :
  cvalid c a → 0 ≤ off → off + Z.of_nat (csize c) ≤ m_size m →
  ∃ m', mstore c m off a = Some m' ∧ m_size m' = m_size m ∧
    ∀ x, ¬ (off ≤ x < off + Z.of_nat (csize c)) → mget m' x = mget m x.
Proof.
  intros Hv Ho Hs. unfold mstore.
  assert (length (cenc c a) = csize c) as Hl by by apply cenc_length.
  destruct (mwrite_ok m off (cenc c a)) as [m' Hm]; [lia|lia|].
  pose proof (mwrite_Some _ _ _ _ Hm) as (_ & Hsz & Hg).
  exists m'. split_and!; [done|done|]. intros x Hx. rewrite Hg, Hl. by zcases; try lia.
Qed.

(** A load depends on the bytes it reads only. *)
Lemma mload_ext {A} (c : codec A) m m' off :
  m_size m' = m_size m →
  (∀ x, off ≤ x < off + Z.of_nat (csize c) → mget m' x = mget m x) →
  mload c m' off = mload c m off.
Proof.
  intros Hs Hg. unfold mload, mread, in_bounds. rewrite Hs. zcases; try done.
  cbn. do 2 f_equal. apply list_fmap_ext. intros i x Hx.
  apply lookup_seqZ in Hx. apply Hg. lia.
Qed.

Lemma mload_mstore_ne {A B} (c : codec A) (d : codec B) `{!CodecOk d} m off a m' off' :
  cvalid d a → mstore d m off a = Some m' →
  off' + Z.of_nat (csize c) ≤ off ∨ off + Z.of_nat (csize d) ≤ off' →
  mload c m' off' = mload c m off'.
Proof.
  intros Hv Hm Hd. unfold mstore in Hm. unfold mload.
  erewrite mread_mwrite_disjoint; [done|exact Hm|].
  rewrite (cenc_length a) by done. done.
Qed.

(** Copying the first [n] bytes of a memory over another. *)
Definition mcopy (dst src : mem) (n : Z) : option mem :=
  bs ← mread src 0 (Z.to_nat n); mwrite dst 0 bs.

Lemma mcopy_ok dst src n :
  0 ≤ n ≤ m_size src → n ≤ m_size dst →
  ∃ m, mcopy dst src n = Some m ∧ m_size m = m_size dst ∧
    ∀ a, mget m a = if (0 <=? a) && (a <? n) then mget src a else mget dst a.
Proof.
  intros Hn Hd. unfold mcopy. rewrite mread_ok by lia. rewrite obind_some.
  destruct (mwrite_ok dst 0 (mget src <$> seqZ 0 (Z.of_nat (Z.to_nat n)))) as [m Hm];
    [lia|len|].
  pose proof (mwrite_Some _ _ _ _ Hm) as (_ & Hs & Hg). exists m.
  split_and!; [done|done|]. intros a. rewrite Hg.
  rewrite length_fmap, length_seqZ, Z.add_0_l, Z.sub_0_r.
  replace (Z.of_nat (Z.to_nat (Z.of_nat (Z.to_nat n)))) with n by lia.
  zcases; try done. rewrite zget_fmap, zget_seqZ by lia. cbn. f_equal.
Qed.
