(* ===== verification/CoreTypes.v ===== *)
(** * Data types of [idkfs_core.c]

    The constants, enumerations and structures of [src/idkfs_core.c] with
    the byte layout of the packed on-disk structures. *)

From S2P Require Import Prelude Cint Codec Mem.

Definition IDKFS_MAGIC : Z := 0x49444B46.
Definition IDKFS_VERSION : Z := 1.
Definition IDKFS_BLOCK_SIZE : Z := 4096.
Definition IDKFS_TOTAL_BLOCKS : Z := 65536.
Definition IDKFS_MAX_INODES : Z := 4096.
Definition IDKFS_MAX_FILENAME : Z := 255.
Definition IDKFS_DIRECT_BLOCKS : Z := 12.
Definition IDKFS_MAX_DIRENTS : Z := 128.
Definition IDKFS_ROOT_INODE : Z := 0.
Definition IDKFS_NULL_BLOCK : Z := 4294967295.
Definition IDKFS_NULL_INODE : Z := 4294967295.
Definition BITMAP_SIZE : Z := 8192.

(** [enum SpeedTier] *)
Inductive SpeedTier := TIER_FAST | TIER_NORMAL | TIER_SLOW.
Definition tier_val (t : SpeedTier) : Z :=
  match t with TIER_FAST => 0 | TIER_NORMAL => 1 | TIER_SLOW => 2 end.

(** [enum FileType] *)
Inductive FileType :=
| IDKFS_FT_UNKNOWN | IDKFS_FT_FILE | IDKFS_FT_DIR | IDKFS_FT_SYMLINK
| IDKFS_FT_DEVICE.
Definition ft_val (t : FileType) : Z :=
  match t with
  | IDKFS_FT_UNKNOWN => 0 | IDKFS_FT_FILE => 1 | IDKFS_FT_DIR => 2
  | IDKFS_FT_SYMLINK => 3 | IDKFS_FT_DEVICE => 4
  end.

#[export] Instance SpeedTier_eq_dec : EqDecision SpeedTier.
Proof. solve_decision. Defined.
#[export] Instance FileType_eq_dec : EqDecision FileType.
Proof. solve_decision. Defined.

Record FeatureFlags := mkFeatureFlags {
  journaling : bool; checksums : bool; timestamps : bool; compression : bool;
  encryption : bool; dedup : bool; prefetch : bool; lua_hooks : bool;
  sorting : bool;
}.

Definition features_default : FeatureFlags :=
  mkFeatureFlags true true true false false false true true true.
Definition features_ludicrous_speed : FeatureFlags :=
  mkFeatureFlags false false false false false false false false false.

Record Superblock := mkSuperblock {
  sb_magic : Z;
  sb_version : Z;
  sb_block_size : Z;
  sb_total_blocks : Z;
  sb_free_blocks : Z;
  sb_total_inodes : Z;
  sb_free_inodes : Z;
  sb_inode_table_block : Z;
  sb_bitmap_block : Z;
  sb_data_start_block : Z;
  sb_root_inode : Z;
  sb_created_at : Z;
  sb_last_mounted : Z;
  sb_last_written : Z;
  sb_mount_count : Z;
  sb_flags : Z;
  sb_uuid : list Z;
  sb_label : list Z;
  sb_checksum : Z;
  sb__pad : list Z;
}.

Record Inode := mkInode {
  i_ino : Z;
  i_type : Z;
  i_tier : Z;
  i_mode : Z;
  i_uid : Z;
  i_gid : Z;
  i_size : Z;
  i_atime : Z;
  i_mtime : Z;
  i_ctime : Z;
  i_link_count : Z;
  i_block_count : Z;
  i_direct : list Z;
  i_indirect1 : Z;
  i_indirect2 : Z;
  i_flags : Z;
  i_checksum : Z;
  i__pad : list Z;
}.

Record DirEntry := mkDirEntry {
  e_inode : Z;
  e_type : Z;
  e_name_len : Z;
  e_name : list Z;
}.

Record Directory := mkDirectory {
  d_count : Z;
  d_entries : list DirEntry;
}.

Record BlockBitmap := mkBlockBitmap { bits : list Z }.

(** [struct IDKFS]; [disk] carries [disk_size] as its [m_size]. *)
Record IDKFS := mkIDKFS {
  fs_sb : Superblock;
  fs_bitmap : BlockBitmap;
  fs_inodes : list Inode;
  fs_block_csum : list Z;
  fs_block_mirror : list Z;
  fs_disk : mem;
  fs_features : FeatureFlags;
  fs_dirty : bool;
  fs_redundancy_enabled : bool;
}.

(** ** Field assignments *)

Definition set_sb_free_blocks (v : Z) (x : Superblock) : Superblock :=
  mkSuperblock (sb_magic x) (sb_version x) (sb_block_size x) (sb_total_blocks x) v (sb_total_inodes x) (sb_free_inodes x) (sb_inode_table_block x) (sb_bitmap_block x) (sb_data_start_block x) (sb_root_inode x) (sb_created_at x) (sb_last_mounted x) (sb_last_written x) (sb_mount_count x) (sb_flags x) (sb_uuid x) (sb_label x) (sb_checksum x) (sb__pad x).
Definition set_sb_free_inodes (v : Z) (x : Superblock) : Superblock :=
  mkSuperblock (sb_magic x) (sb_version x) (sb_block_size x) (sb_total_blocks x) (sb_free_blocks x) (sb_total_inodes x) v (sb_inode_table_block x) (sb_bitmap_block x) (sb_data_start_block x) (sb_root_inode x) (sb_created_at x) (sb_last_mounted x) (sb_last_written x) (sb_mount_count x) (sb_flags x) (sb_uuid x) (sb_label x) (sb_checksum x) (sb__pad x).
Definition set_sb_checksum (v : Z) (x : Superblock) : Superblock :=
  mkSuperblock (sb_magic x) (sb_version x) (sb_block_size x) (sb_total_blocks x) (sb_free_blocks x) (sb_total_inodes x) (sb_free_inodes x) (sb_inode_table_block x) (sb_bitmap_block x) (sb_data_start_block x) (sb_root_inode x) (sb_created_at x) (sb_last_mounted x) (sb_last_written x) (sb_mount_count x) (sb_flags x) (sb_uuid x) (sb_label x) v (sb__pad x).
Definition set_sb_last_mounted (v : Z) (x : Superblock) : Superblock :=
  mkSuperblock (sb_magic x) (sb_version x) (sb_block_size x) (sb_total_blocks x) (sb_free_blocks x) (sb_total_inodes x) (sb_free_inodes x) (sb_inode_table_block x) (sb_bitmap_block x) (sb_data_start_block x) (sb_root_inode x) (sb_created_at x) v (sb_last_written x) (sb_mount_count x) (sb_flags x) (sb_uuid x) (sb_label x) (sb_checksum x) (sb__pad x).
Definition set_sb_mount_count (v : Z) (x : Superblock) : Superblock :=
  mkSuperblock (sb_magic x) (sb_version x) (sb_block_size x) (sb_total_blocks x) (sb_free_blocks x) (sb_total_inodes x) (sb_free_inodes x) (sb_inode_table_block x) (sb_bitmap_block x) (sb_data_start_block x) (sb_root_inode x) (sb_created_at x) (sb_last_mounted x) (sb_last_written x) v (sb_flags x) (sb_uuid x) (sb_label x) (sb_checksum x) (sb__pad x).
Definition set_sb_label (v : list Z) (x : Superblock) : Superblock :=
  mkSuperblock (sb_magic x) (sb_version x) (sb_block_size x) (sb_total_blocks x) (sb_free_blocks x) (sb_total_inodes x) (sb_free_inodes x) (sb_inode_table_block x) (sb_bitmap_block x) (sb_data_start_block x) (sb_root_inode x) (sb_created_at x) (sb_last_mounted x) (sb_last_written x) (sb_mount_count x) (sb_flags x) (sb_uuid x) v (sb_checksum x) (sb__pad x).

Definition set_i_ino (v : Z) (x : Inode) : Inode :=
  mkInode v (i_type x) (i_tier x) (i_mode x) (i_uid x) (i_gid x) (i_size x) (i_atime x) (i_mtime x) (i_ctime x) (i_link_count x) (i_block_count x) (i_direct x) (i_indirect1 x) (i_indirect2 x) (i_flags x) (i_checksum x) (i__pad x).
Definition set_i_type (v : Z) (x : Inode) : Inode :=
  mkInode (i_ino x) v (i_tier x) (i_mode x) (i_uid x) (i_gid x) (i_size x) (i_atime x) (i_mtime x) (i_ctime x) (i_link_count x) (i_block_count x) (i_direct x) (i_indirect1 x) (i_indirect2 x) (i_flags x) (i_checksum x) (i__pad x).
Definition set_i_tier (v : Z) (x : Inode) : Inode :=
  mkInode (i_ino x) (i_type x) v (i_mode x) (i_uid x) (i_gid x) (i_size x) (i_atime x) (i_mtime x) (i_ctime x) (i_link_count x) (i_block_count x) (i_direct x) (i_indirect1 x) (i_indirect2 x) (i_flags x) (i_checksum x) (i__pad x).
Definition set_i_mode (v : Z) (x : Inode) : Inode :=
  mkInode (i_ino x) (i_type x) (i_tier x) v (i_uid x) (i_gid x) (i_size x) (i_atime x) (i_mtime x) (i_ctime x) (i_link_count x) (i_block_count x) (i_direct x) (i_indirect1 x) (i_indirect2 x) (i_flags x) (i_checksum x) (i__pad x).
Definition set_i_size (v : Z) (x : Inode) : Inode :=
  mkInode (i_ino x) (i_type x) (i_tier x) (i_mode x) (i_uid x) (i_gid x) v (i_atime x) (i_mtime x) (i_ctime x) (i_link_count x) (i_block_count x) (i_direct x) (i_indirect1 x) (i_indirect2 x) (i_flags x) (i_checksum x) (i__pad x).
Definition set_i_atime (v : Z) (x : Inode) : Inode :=
  mkInode (i_ino x) (i_type x) (i_tier x) (i_mode x) (i_uid x) (i_gid x) (i_size x) v (i_mtime x) (i_ctime x) (i_link_count x) (i_block_count x) (i_direct x) (i_indirect1 x) (i_indirect2 x) (i_flags x) (i_checksum x) (i__pad x).
Definition set_i_mtime (v : Z) (x : Inode) : Inode :=
  mkInode (i_ino x) (i_type x) (i_tier x) (i_mode x) (i_uid x) (i_gid x) (i_size x) (i_atime x) v (i_ctime x) (i_link_count x) (i_block_count x) (i_direct x) (i_indirect1 x) (i_indirect2 x) (i_flags x) (i_checksum x) (i__pad x).
Definition set_i_ctime (v : Z) (x : Inode) : Inode :=
  mkInode (i_ino x) (i_type x) (i_tier x) (i_mode x) (i_uid x) (i_gid x) (i_size x) (i_atime x) (i_mtime x) v (i_link_count x) (i_block_count x) (i_direct x) (i_indirect1 x) (i_indirect2 x) (i_flags x) (i_checksum x) (i__pad x).
Definition set_i_link_count (v : Z) (x : Inode) : Inode :=
  mkInode (i_ino x) (i_type x) (i_tier x) (i_mode x) (i_uid x) (i_gid x) (i_size x) (i_atime x) (i_mtime x) (i_ctime x) v (i_block_count x) (i_direct x) (i_indirect1 x) (i_indirect2 x) (i_flags x) (i_checksum x) (i__pad x).
Definition set_i_block_count (v : Z) (x : Inode) : Inode :=
  mkInode (i_ino x) (i_type x) (i_tier x) (i_mode x) (i_uid x) (i_gid x) (i_size x) (i_atime x) (i_mtime x) (i_ctime x) (i_link_count x) v (i_direct x) (i_indirect1 x) (i_indirect2 x) (i_flags x) (i_checksum x) (i__pad x).
Definition set_i_direct (v : list Z) (x : Inode) : Inode :=
  mkInode (i_ino x) (i_type x) (i_tier x) (i_mode x) (i_uid x) (i_gid x) (i_size x) (i_atime x) (i_mtime x) (i_ctime x) (i_link_count x) (i_block_count x) v (i_indirect1 x) (i_indirect2 x) (i_flags x) (i_checksum x) (i__pad x).
Definition set_i_indirect1 (v : Z) (x : Inode) : Inode :=
  mkInode (i_ino x) (i_type x) (i_tier x) (i_mode x) (i_uid x) (i_gid x) (i_size x) (i_atime x) (i_mtime x) (i_ctime x) (i_link_count x) (i_block_count x) (i_direct x) v (i_indirect2 x) (i_flags x) (i_checksum x) (i__pad x).
Definition set_i_indirect2 (v : Z) (x : Inode) : Inode :=
  mkInode (i_ino x) (i_type x) (i_tier x) (i_mode x) (i_uid x) (i_gid x) (i_size x) (i_atime x) (i_mtime x) (i_ctime x) (i_link_count x) (i_block_count x) (i_direct x) (i_indirect1 x) v (i_flags x) (i_checksum x) (i__pad x).
Definition set_i_checksum (v : Z) (x : Inode) : Inode :=
  mkInode (i_ino x) (i_type x) (i_tier x) (i_mode x) (i_uid x) (i_gid x) (i_size x) (i_atime x) (i_mtime x) (i_ctime x) (i_link_count x) (i_block_count x) (i_direct x) (i_indirect1 x) (i_indirect2 x) (i_flags x) v (i__pad x).

Definition set_fs_sb (v : Superblock) (x : IDKFS) : IDKFS :=
  mkIDKFS v (fs_bitmap x) (fs_inodes x) (fs_block_csum x) (fs_block_mirror x) (fs_disk x) (fs_features x) (fs_dirty x) (fs_redundancy_enabled x).
Definition set_fs_bitmap (v : BlockBitmap) (x : IDKFS) : IDKFS :=
  mkIDKFS (fs_sb x) v (fs_inodes x) (fs_block_csum x) (fs_block_mirror x) (fs_disk x) (fs_features x) (fs_dirty x) (fs_redundancy_enabled x).
Definition set_fs_inodes (v : list Inode) (x : IDKFS) : IDKFS :=
  mkIDKFS (fs_sb x) (fs_bitmap x) v (fs_block_csum x) (fs_block_mirror x) (fs_disk x) (fs_features x) (fs_dirty x) (fs_redundancy_enabled x).
Definition set_fs_disk (v : mem) (x : IDKFS) : IDKFS :=
  mkIDKFS (fs_sb x) (fs_bitmap x) (fs_inodes x) (fs_block_csum x) (fs_block_mirror x) v (fs_features x) (fs_dirty x) (fs_redundancy_enabled x).
Definition set_fs_dirty (v : bool) (x : IDKFS) : IDKFS :=
  mkIDKFS (fs_sb x) (fs_bitmap x) (fs_inodes x) (fs_block_csum x) (fs_block_mirror x) (fs_disk x) (fs_features x) v (fs_redundancy_enabled x).

(** ** Layout of the packed structures *)

Definition Superblock_tuple (x : Superblock) :=
  (sb_magic x, (sb_version x, (sb_block_size x, (sb_total_blocks x, (sb_free_blocks x, (sb_total_inodes x, (sb_free_inodes x, (sb_inode_table_block x, (sb_bitmap_block x, (sb_data_start_block x, (sb_root_inode x, (sb_created_at x, (sb_last_mounted x, (sb_last_written x, (sb_mount_count x, (sb_flags x, (sb_uuid x, (sb_label x, (sb_checksum x, sb__pad x))))))))))))))))))).
Definition Superblock_codec : codec Superblock :=
  c_iso (λ '(a0, (a1, (a2, (a3, (a4, (a5, (a6, (a7, (a8, (a9, (a10, (a11, (a12, (a13, (a14, (a15, (a16, (a17, (a18, a19))))))))))))))))))), mkSuperblock a0 a1 a2 a3 a4 a5 a6 a7 a8 a9 a10 a11 a12 a13 a14 a15 a16 a17 a18 a19) Superblock_tuple
    (c_u32 ⨟ c_u32 ⨟ c_u32 ⨟ c_u32 ⨟ c_u32 ⨟ c_u32 ⨟ c_u32 ⨟ c_u32 ⨟ c_u32 ⨟ c_u32 ⨟ c_u32 ⨟ c_u64 ⨟ c_u64 ⨟ c_u64 ⨟ c_u32 ⨟ c_u32 ⨟ c_raw 16 ⨟ c_raw 64 ⨟ c_u32 ⨟ c_raw (Z.to_nat 3820)).

Definition Inode_tuple (x : Inode) :=
  (i_ino x, (i_type x, (i_tier x, (i_mode x, (i_uid x, (i_gid x, (i_size x, (i_atime x, (i_mtime x, (i_ctime x, (i_link_count x, (i_block_count x, (i_direct x, (i_indirect1 x, (i_indirect2 x, (i_flags x, (i_checksum x, i__pad x))))))))))))))))).
Definition Inode_codec : codec Inode :=
  c_iso (λ '(a0, (a1, (a2, (a3, (a4, (a5, (a6, (a7, (a8, (a9, (a10, (a11, (a12, (a13, (a14, (a15, (a16, a17))))))))))))))))), mkInode a0 a1 a2 a3 a4 a5 a6 a7 a8 a9 a10 a11 a12 a13 a14 a15 a16 a17) Inode_tuple
    (c_u32 ⨟ c_u8 ⨟ c_u8 ⨟ c_u16 ⨟ c_u32 ⨟ c_u32 ⨟ c_u64 ⨟ c_u64 ⨟ c_u64 ⨟ c_u64 ⨟ c_u32 ⨟ c_u32 ⨟ c_vec 12 c_u32 ⨟ c_u32 ⨟ c_u32 ⨟ c_u32 ⨟ c_u32 ⨟ c_raw 16).

Definition DirEntry_tuple (x : DirEntry) :=
  (e_inode x, (e_type x, (e_name_len x, e_name x))).
Definition DirEntry_codec : codec DirEntry :=
  c_iso (λ '(a0, (a1, (a2, a3))), mkDirEntry a0 a1 a2 a3) DirEntry_tuple
    (c_u32 ⨟ c_u8 ⨟ c_u8 ⨟ c_raw 255).

Definition Directory_tuple (x : Directory) :=
  (d_count x, d_entries x).
Definition Directory_codec : codec Directory :=
  c_iso (λ '(a0, a1), mkDirectory a0 a1) Directory_tuple
    (c_u32 ⨟ c_vec 128 DirEntry_codec).

Definition BlockBitmap_codec : codec BlockBitmap :=
  c_iso mkBlockBitmap bits (c_raw (Z.to_nat 8192)).

#[export] Instance Superblock_codec_ok : CodecOk Superblock_codec.
Proof. solve_codec. Qed.
#[export] Instance Inode_codec_ok : CodecOk Inode_codec.
Proof. solve_codec. Qed.
#[export] Instance DirEntry_codec_ok : CodecOk DirEntry_codec.
Proof. solve_codec. Qed.
#[export] Instance Directory_codec_ok : CodecOk Directory_codec.
Proof. solve_codec. Qed.
#[export] Instance BlockBitmap_codec_ok : CodecOk BlockBitmap_codec.
Proof. solve_codec. Qed.

(** [sizeof] of the structures. *)
Lemma sizeof_structs :
  Z.of_nat (csize Superblock_codec) = 3980 ∧
  Z.of_nat (csize Inode_codec) = 136 ∧ Z.of_nat (csize DirEntry_codec) = 261 ∧
  Z.of_nat (csize Directory_codec) = 33412.
Proof. repeat split; vm_compute; reflexivity. Qed.

(** [memset(p, 0, sizeof *p)] *)
Definition Superblock_zero : Superblock :=
  mkSuperblock 0 0 0 0 0 0 0 0 0 0 0 0 0 0 0 0 (replicate 16 0) (replicate 64 0) 0
    (replicate (Z.to_nat 3820) 0).
Definition Inode_zero : Inode :=
  mkInode 0 0 0 0 0 0 0 0 0 0 0 0 (replicate 12 0) 0 0 0 0 (replicate 16 0).
Definition DirEntry_zero : DirEntry := mkDirEntry 0 0 0 (replicate 255 0).
Definition Directory_zero : Directory := mkDirectory 0 (replicate 128 DirEntry_zero).
Definition BlockBitmap_zero : BlockBitmap := mkBlockBitmap (replicate (Z.to_nat 8192) 0).

(** ** Well-formed values

    [cvalid] of a structure says that every field is in the range of its C
    type; assignments of in-range values preserve it. *)

Ltac pow256 :=
  change (256 ^ Z.of_nat 1) with 256 in *;
  change (256 ^ Z.of_nat 2) with 65536 in *;
  change (256 ^ Z.of_nat 4) with 4294967296 in *;
  change (256 ^ Z.of_nat 8) with 18446744073709551616 in *.

Ltac unfold_valid :=
  unfold Inode_codec, Superblock_codec, DirEntry_codec, Directory_codec,
    BlockBitmap_codec, Inode_tuple, Superblock_tuple, DirEntry_tuple,
    Directory_tuple in *;
  cbn -[Z.pow Z.of_nat Z.to_nat replicate] in *; pow256.

Ltac solve_valid := intros; unfold_valid; intuition (auto; lia).

Create HintDb valid.

Lemma set_sb_free_blocks_valid v x :
  0 ≤ v < 4294967296 → cvalid Superblock_codec x → cvalid Superblock_codec (set_sb_free_blocks v x).
Proof. solve_valid. Qed.
Lemma set_sb_free_inodes_valid v x :
  0 ≤ v < 4294967296 → cvalid Superblock_codec x → cvalid Superblock_codec (set_sb_free_inodes v x).
Proof. solve_valid. Qed.
Lemma set_sb_checksum_valid v x :
  0 ≤ v < 4294967296 → cvalid Superblock_codec x → cvalid Superblock_codec (set_sb_checksum v x).
Proof. solve_valid. Qed.
Lemma set_sb_last_mounted_valid v x :
  0 ≤ v < 18446744073709551616 → cvalid Superblock_codec x → cvalid Superblock_codec (set_sb_last_mounted v x).
Proof. solve_valid. Qed.
Lemma set_sb_mount_count_valid v x :
  0 ≤ v < 4294967296 → cvalid Superblock_codec x → cvalid Superblock_codec (set_sb_mount_count v x).
Proof. solve_valid. Qed.
Lemma set_sb_label_valid v x :
  cvalid (c_raw 64) v → cvalid Superblock_codec x → cvalid Superblock_codec (set_sb_label v x).
Proof. solve_valid. Qed.
Lemma set_i_ino_valid v x :
  0 ≤ v < 4294967296 → cvalid Inode_codec x → cvalid Inode_codec (set_i_ino v x).
Proof. solve_valid. Qed.
Lemma set_i_type_valid v x :
  0 ≤ v < 256 → cvalid Inode_codec x → cvalid Inode_codec (set_i_type v x).
Proof. solve_valid. Qed.
Lemma set_i_tier_valid v x :
  0 ≤ v < 256 → cvalid Inode_codec x → cvalid Inode_codec (set_i_tier v x).
Proof. solve_valid. Qed.
Lemma set_i_mode_valid v x :
  0 ≤ v < 65536 → cvalid Inode_codec x → cvalid Inode_codec (set_i_mode v x).
Proof. solve_valid. Qed.
Lemma set_i_size_valid v x :
  0 ≤ v < 18446744073709551616 → cvalid Inode_codec x → cvalid Inode_codec (set_i_size v x).
Proof. solve_valid. Qed.
Lemma set_i_atime_valid v x :
  0 ≤ v < 18446744073709551616 → cvalid Inode_codec x → cvalid Inode_codec (set_i_atime v x).
Proof. solve_valid. Qed.
Lemma set_i_mtime_valid v x :
  0 ≤ v < 18446744073709551616 → cvalid Inode_codec x → cvalid Inode_codec (set_i_mtime v x).
Proof. solve_valid. Qed.
Lemma set_i_ctime_valid v x :
  0 ≤ v < 18446744073709551616 → cvalid Inode_codec x → cvalid Inode_codec (set_i_ctime v x).
Proof. solve_valid. Qed.
Lemma set_i_link_count_valid v x :
  0 ≤ v < 4294967296 → cvalid Inode_codec x → cvalid Inode_codec (set_i_link_count v x).
Proof. solve_valid. Qed.
Lemma set_i_block_count_valid v x :
  0 ≤ v < 4294967296 → cvalid Inode_codec x → cvalid Inode_codec (set_i_block_count v x).
Proof. solve_valid. Qed.
Lemma set_i_direct_valid v x :
  cvalid (c_vec 12 c_u32) v → cvalid Inode_codec x → cvalid Inode_codec (set_i_direct v x).
Proof. solve_valid. Qed.
Lemma set_i_indirect1_valid v x :
  0 ≤ v < 4294967296 → cvalid Inode_codec x → cvalid Inode_codec (set_i_indirect1 v x).
Proof. solve_valid. Qed.
Lemma set_i_indirect2_valid v x :
  0 ≤ v < 4294967296 → cvalid Inode_codec x → cvalid Inode_codec (set_i_indirect2 v x).
Proof. solve_valid. Qed.
Lemma set_i_checksum_valid v x :
  0 ≤ v < 4294967296 → cvalid Inode_codec x → cvalid Inode_codec (set_i_checksum v x).
Proof. solve_valid. Qed.
#[export] Hint Resolve set_sb_free_blocks_valid set_sb_free_inodes_valid set_sb_checksum_valid set_sb_last_mounted_valid set_sb_mount_count_valid set_sb_label_valid set_i_ino_valid set_i_type_valid set_i_tier_valid set_i_mode_valid set_i_size_valid set_i_atime_valid set_i_mtime_valid set_i_ctime_valid set_i_link_count_valid set_i_block_count_valid set_i_direct_valid set_i_indirect1_valid set_i_indirect2_valid set_i_checksum_valid : valid.

Lemma zero_bytes n : bytes (replicate n 0).
Proof. apply Forall_replicate. unfold byte. lia. Qed.
#[export] Hint Resolve zero_bytes : valid.

Lemma Inode_zero_valid : cvalid Inode_codec Inode_zero.
Proof.
  unfold Inode_zero. unfold_valid.
  split_and!; try lia; try (by len); auto with valid.
  apply Forall_replicate. lia.
Qed.

Lemma DirEntry_zero_valid : cvalid DirEntry_codec DirEntry_zero.
Proof. unfold DirEntry_zero. unfold_valid. split_and!; try lia; auto with valid. Qed.

Lemma Directory_zero_valid : cvalid Directory_codec Directory_zero.
Proof.
  split; [cbn; lia|]. split; [done|].
  apply Forall_replicate, DirEntry_zero_valid.
Qed.
#[export] Hint Resolve Inode_zero_valid DirEntry_zero_valid Directory_zero_valid : valid.
