(* ===== verification/Crc.v ===== *)
(** * CRC-32 of [idkfs_core.c]

    The lazily initialised table ([crc32_init]) and the table-driven
    checksum ([crc32]), with the bit-serial CRC as reference. *)

From S2P Require Import Prelude Cint.

Definition POLY : Z := 0xEDB88320.

(** One iteration of the inner loop of [crc32_init]. *)
Definition crc32_bit (c : Z) : Z :=
  if negb (Z.land c 1 =? 0) then Z.lxor POLY (Z.shiftr c 1) else Z.shiftr c 1.

Definition crc32_entry (i : Z) : Z := Nat.iter 8 crc32_bit i.

(** The globals [crc32_initialized] and [crc32_table]. *)
Record crc_state := CrcState { crc32_initialized : bool; crc32_table : list Z }.

Definition crc_state0 : crc_state := CrcState false (replicate 256 0).

Definition crc32_init (st : crc_state) : crc_state :=
  CrcState true (crc32_entry <$> seqZ 0 256).

(** One byte: [c = crc32_table[(c ^ p[i]) & 0xFF] ^ (c >> 8)]. *)
Definition crc32_byte (table : list Z) (c b : Z) : option Z :=
  t ← table.[Z.land (Z.lxor c b) 255]; Some (Z.lxor t (Z.shiftr c 8)).

Fixpoint crc32_bytes (table : list Z) (c : Z) (bs : list Z) : option Z :=
  match bs with
  | [] => Some c
  | b :: bs => c ← crc32_byte table c b; crc32_bytes table c bs
  end.

Definition crc32_run (st : crc_state) (data : list Z) : option (crc_state * Z) :=
  let st := if crc32_initialized st then st else crc32_init st in
  c ← crc32_bytes (crc32_table st) 0xFFFFFFFF data;
  Some (st, Z.lxor c 0xFFFFFFFF).

(** The reference: eight shift steps per byte, no table. *)
Definition crc32_ref_byte (c b : Z) : Z := Nat.iter 8 crc32_bit (Z.lxor c b).

Definition crc32 (data : list Z) : Z :=
  Z.lxor (foldl crc32_ref_byte 0xFFFFFFFF data) 0xFFFFFFFF.

(** The states the two globals can be in. *)
Definition crc_ok (st : crc_state) : Prop :=
  crc32_initialized st = true → crc32_table st = crc32_entry <$> seqZ 0 256.

(** ** Linearity of the shift step *)

Lemma crc32_bit_alt c :
  crc32_bit c = Z.lxor (if Z.testbit c 0 then POLY else 0) (Z.shiftr c 1).
Proof.
  unfold crc32_bit.
  replace (Z.land c 1) with (Z.b2z (Z.testbit c 0)).
  2: { change 1 with (Z.ones 1). rewrite Z.land_ones by lia.
       rewrite Z.bit0_mod. done. }
  destruct (Z.testbit c 0); cbn [Z.b2z Z.eqb negb]; [done|].
  by rewrite Z.lxor_0_l.
Qed.

Lemma crc32_bit_lxor a b :
  crc32_bit (Z.lxor a b) = Z.lxor (crc32_bit a) (crc32_bit b).
Proof.
  rewrite !crc32_bit_alt, Z.lxor_spec, Z.shiftr_lxor.
  apply Z.bits_inj'. intros n Hn. rewrite !Z.lxor_spec.
  destruct (Z.testbit a 0), (Z.testbit b 0); cbn [xorb];
    rewrite ?Z.bits_0; repeat (destruct (Z.testbit _ n)); done.
Qed.

Lemma crc32_iter_lxor n a b :
  Nat.iter n crc32_bit (Z.lxor a b) =
  Z.lxor (Nat.iter n crc32_bit a) (Nat.iter n crc32_bit b).
Proof. induction n as [|n IH]; [done|]. rewrite !Nat.iter_succ, IH. apply crc32_bit_lxor. Qed.

Lemma crc32_bit_shiftl x k :
  0 < k → crc32_bit (Z.shiftl x k) = Z.shiftl x (k - 1).
Proof.
  intros. rewrite crc32_bit_alt, Z.shiftl_spec_low by lia.
  rewrite Z.lxor_0_l, Z.shiftr_shiftl_l by lia. done.
Qed.

Lemma crc32_iter_shiftl n x :
  Nat.iter n crc32_bit (Z.shiftl x (Z.of_nat n)) = x.
Proof.
  induction n as [|n IH]; [apply Z.shiftl_0_r|].
  rewrite Nat.iter_succ_r, crc32_bit_shiftl by lia.
  by replace (Z.of_nat (S n) - 1) with (Z.of_nat n) by lia.
Qed.

Lemma low_high_byte c : c = Z.lxor (Z.land c 255) (Z.shiftl (Z.shiftr c 8) 8).
Proof.
  apply Z.bits_inj'. intros n Hn. rewrite Z.lxor_spec, Z.land_spec.
  change 255 with (Z.ones 8). destruct (Z.lt_ge_cases n 8).
  - rewrite Z.ones_spec_low, Z.shiftl_spec_low by lia. 
    by rewrite andb_true_r, xorb_false_r.
  - rewrite Z.ones_spec_high, Z.shiftl_spec_high, Z.shiftr_spec by lia.
    rewrite andb_false_r, xorb_false_l. f_equal. lia.
Qed.

(** The table entry replaces the eight steps. *)
Lemma crc32_table_step c :
  Nat.iter 8 crc32_bit c = Z.lxor (crc32_entry (Z.land c 255)) (Z.shiftr c 8).
Proof.
  rewrite (low_high_byte c) at 1. rewrite crc32_iter_lxor. f_equal.
  apply (crc32_iter_shiftl 8).
Qed.

Lemma land_255_range c : 0 ≤ Z.land c 255 < 256.
Proof. change 255 with (Z.ones 8). rewrite Z.land_ones by lia. zdm. Qed.

Lemma shiftr_lxor_byte c b : byte b → Z.shiftr (Z.lxor c b) 8 = Z.shiftr c 8.
Proof.
  unfold byte. intros. rewrite Z.shiftr_lxor.
  replace (Z.shiftr b 8) with 0; [apply Z.lxor_0_r|].
  rewrite Z.shiftr_div_pow2 by lia. change (2 ^ 8) with 256. zdm.
Qed.

Lemma crc32_byte_ref c b :
  byte b →
  crc32_byte (crc32_entry <$> seqZ 0 256) c b = Some (crc32_ref_byte c b).
Proof.
  intros. unfold crc32_byte, crc32_ref_byte.
  pose proof (land_255_range (Z.lxor c b)).
  rewrite zget_fmap, zget_seqZ by lia. cbn [fmap option_fmap option_map mbind option_bind].
  rewrite (crc32_table_step (Z.lxor c b)), shiftr_lxor_byte by done.
  by rewrite Z.add_0_l.
Qed.

Lemma crc32_bytes_ref c bs :
  bytes bs →
  crc32_bytes (crc32_entry <$> seqZ 0 256) c bs = Some (foldl crc32_ref_byte c bs).
Proof.
  intros Hbs. revert c. induction Hbs as [|b bs Hb Hbs IH]; intros c; [done|].
  cbn [crc32_bytes foldl]. rewrite crc32_byte_ref by done. apply IH.
Qed.

(** ** Range and injectivity *)

Lemma lxor_range n a b :
  0 ≤ n → 0 ≤ a < 2 ^ n → 0 ≤ b < 2 ^ n → 0 ≤ Z.lxor a b < 2 ^ n.
Proof.
  intros Hn Ha Hb. assert (0 ≤ Z.lxor a b) by (apply Z.lxor_nonneg; lia).
  split; [done|].
  replace (Z.lxor a b) with (Z.lxor a b mod 2 ^ n); [apply Z.mod_pos_bound; lia|].
  apply Z.bits_inj'. intros i Hi. destruct (Z.lt_ge_cases i n).
  - by apply Z.mod_pow2_bits_low.
  - rewrite Z.mod_pow2_bits_high by lia. rewrite Z.lxor_spec.
    by rewrite !(testbit_high n) by lia.
Qed.

Lemma crc32_bit_range c : 0 ≤ c < 2 ^ 32 → 0 ≤ crc32_bit c < 2 ^ 32.
Proof.
  intros. rewrite crc32_bit_alt. apply lxor_range; [lia| |].
  - unfold POLY. destruct (Z.testbit c 0); lia.
  - rewrite Z.shiftr_div_pow2 by lia. change (2 ^ 1) with 2. zdm.
Qed.

Lemma crc32_iter_range n c :
  0 ≤ c < 2 ^ 32 → 0 ≤ Nat.iter n crc32_bit c < 2 ^ 32.
Proof.
  intros. induction n; [done|]. rewrite Nat.iter_succ. by apply crc32_bit_range.
Qed.

Lemma crc32_ref_byte_range c b :
  0 ≤ c < 2 ^ 32 → byte b → 0 ≤ crc32_ref_byte c b < 2 ^ 32.
Proof.
  unfold byte. intros. apply crc32_iter_range, lxor_range; lia.
Qed.

Lemma crc32_fold_range bs c :
  bytes bs → 0 ≤ c < 2 ^ 32 → 0 ≤ foldl crc32_ref_byte c bs < 2 ^ 32.
Proof.
  intros Hbs. revert c. induction Hbs as [|b bs Hb Hbs IH]; intros c Hc; [done|].
  cbn [foldl]. apply IH. by apply crc32_ref_byte_range.
Qed.

Lemma crc32_range data : bytes data → 0 ≤ crc32 data < 2 ^ 32.
Proof. intros. apply lxor_range; [lia|by apply crc32_fold_range|lia]. Qed.

Lemma lxor_cancel_r a b c : Z.lxor a c = Z.lxor b c → a = b.
Proof.
  intros H. rewrite <- (Z.lxor_0_r a), <- (Z.lxor_0_r b), <- (Z.lxor_nilpotent c).
  by rewrite <- !Z.lxor_assoc, H.
Qed.

(** The top bit of the polynomial records the bit shifted out. *)
Lemma crc32_bit_top c : 0 ≤ c < 2 ^ 32 → Z.testbit (crc32_bit c) 31 = Z.testbit c 0.
Proof.
  intros. rewrite crc32_bit_alt, Z.lxor_spec, Z.shiftr_spec by lia.
  replace (Z.testbit c (31 + 1)) with false.
  2: { by rewrite (testbit_high 32) by lia. }
  rewrite xorb_false_r. by destruct (Z.testbit c 0).
Qed.

Lemma crc32_bit_inj a b :
  0 ≤ a < 2 ^ 32 → 0 ≤ b < 2 ^ 32 → crc32_bit a = crc32_bit b → a = b.
Proof.
  intros Ha Hb H.
  assert (Z.testbit a 0 = Z.testbit b 0) as H0.
  { by rewrite <- (crc32_bit_top a), <- (crc32_bit_top b), H. }
  rewrite !crc32_bit_alt, H0, !(Z.lxor_comm (if Z.testbit b 0 then POLY else 0)) in H.
  apply lxor_cancel_r in H. apply Z.bits_inj'. intros n Hn.
  destruct (decide (n = 0)) as [->|]; [done|].
  apply (f_equal (λ x, Z.testbit x (n - 1))) in H.
  rewrite !Z.shiftr_spec in H by lia. by rewrite Z.sub_add in H.
Qed.

Lemma crc32_iter_inj n a b :
  0 ≤ a < 2 ^ 32 → 0 ≤ b < 2 ^ 32 →
  Nat.iter n crc32_bit a = Nat.iter n crc32_bit b → a = b.
Proof.
  intros Ha Hb. induction n as [|n IH]; [done|]. rewrite !Nat.iter_succ.
  intros H%crc32_bit_inj; auto using crc32_iter_range.
Qed.

Lemma crc32_fold_inj bs a b :
  bytes bs → 0 ≤ a < 2 ^ 32 → 0 ≤ b < 2 ^ 32 →
  foldl crc32_ref_byte a bs = foldl crc32_ref_byte b bs → a = b.
Proof.
  intros Hbs. revert a b. induction Hbs as [|x bs Hx Hbs IH]; intros a b Ha Hb;
    [done|].
  cbn [foldl]. intros H%IH; auto using crc32_ref_byte_range.
  apply crc32_iter_inj in H; [by apply lxor_cancel_r in H| |];
    apply lxor_range; unfold byte in *; lia.
Qed.

(** ** Properties *)

(** C30: The lazily initialised table-driven routine computes the bit-serial
    CRC-32 on every call and keeps its globals consistent. *)
Theorem crc32_run_correct st data :
  crc_ok st → bytes data →
  ∃ st', crc32_run st data = Some (st', crc32 data) ∧ crc_ok st'.
Proof.
  intros Hst Hbs. unfold crc32_run.
  set (st' := if crc32_initialized st then st else crc32_init st).
  assert (crc32_table st' = crc32_entry <$> seqZ 0 256) as Ht.
  { unfold st', crc_ok in *. destruct (crc32_initialized st); auto. }
  exists st'. rewrite Ht, crc32_bytes_ref by done. split; [done|].
  intros _. apply Ht.
Qed.

Lemma crc32_run_correct_witness :
  ∃ st', crc32_run crc_state0 [0x31; 0x32; 0x33; 0x34; 0x35; 0x36; 0x37; 0x38; 0x39]
         = Some (st', 0xCBF43926) ∧ crc_ok st'.
Proof.
  apply (crc32_run_correct crc_state0
           [0x31; 0x32; 0x33; 0x34; 0x35; 0x36; 0x37; 0x38; 0x39]);
    [by intros ?|repeat constructor; done].
Defined.

(** A corruption of a single byte of a structure changes its checksum. *)
Theorem crc32_detects_byte l r a b :
  bytes l → bytes r → byte a → byte b → a ≠ b →
  crc32 (l ++ a :: r) ≠ crc32 (l ++ b :: r).
Proof.
  intros Hl Hr Ha Hb Hne H. apply Hne. unfold crc32 in H.
  apply lxor_cancel_r in H. rewrite !foldl_app in H. cbn [foldl] in H.
  assert (0 ≤ foldl crc32_ref_byte 0xFFFFFFFF l < 2 ^ 32).
  { by apply crc32_fold_range. }
  apply crc32_fold_inj in H; auto using crc32_ref_byte_range.
  apply crc32_iter_inj in H; try (apply lxor_range; unfold byte in *; lia).
  rewrite !(Z.lxor_comm _ a), !(Z.lxor_comm _ b) in H.
  by apply lxor_cancel_r in H.
Qed.

Lemma crc32_detects_byte_witness : crc32 ([1; 2] ++ 3 :: [4]) ≠ crc32 ([1; 2] ++ 7 :: [4]).
Proof. apply crc32_detects_byte; repeat constructor; done. Defined.
