(* ===== verification/Bitmap.v ===== *)
(** * The block bitmap of [idkfs_core.c]

    [bitmap_set], [bitmap_clear], [bitmap_test] and the first-fit
    allocator [bitmap_alloc].  [BlockAllocator] is the contract the block
    layer relies on: the allocated blocks form a set, an allocation hands
    out a block that was not in it, and fails only when all are. *)

From S2P Require Import Prelude Cint Codec Mem CoreTypes.

Definition bitmap_set (bm : BlockBitmap) (b : Z) : option BlockBitmap :=
  x ← (bits bm).[b / 8];
  bs ← (bits bm).[b / 8 := u8 (Z.lor x (Z.shiftl 1 (b mod 8)))];
  Some (mkBlockBitmap bs).

Definition bitmap_clear (bm : BlockBitmap) (b : Z) : option BlockBitmap :=
  x ← (bits bm).[b / 8];
  bs ← (bits bm).[b / 8 := u8 (Z.land x (Z.lnot (Z.shiftl 1 (b mod 8))))];
  Some (mkBlockBitmap bs).

Definition bitmap_test (bm : BlockBitmap) (b : Z) : option bool :=
  x ← (bits bm).[b / 8];
  Some (negb (Z.land (Z.shiftr x (b mod 8)) 1 =? 0)).

(** The body of both loops of [bitmap_alloc]: the first clear bit among
    the [n] bits from [i], which it sets. *)
Fixpoint alloc_scan (bm : BlockBitmap) (i : Z) (n : nat) :
    option (option (BlockBitmap * Z)) :=
  match n with
  | O => Some None
  | S n =>
      t ← bitmap_test bm i;
      if negb t then
        bm ← bitmap_set bm i;
        Some (Some (bm, i32 i))
      else alloc_scan bm (i + 1) n
  end.

Definition bitmap_alloc (bm : BlockBitmap) (hint : Z) : option (BlockBitmap * Z) :=
  r ← alloc_scan bm hint (Z.to_nat (IDKFS_TOTAL_BLOCKS - hint));
  match r with
  | Some x => Some x
  | None =>
      r ← alloc_scan bm 0 (Z.to_nat hint);
      match r with
      | Some x => Some x
      | None => Some (bm, -1)
      end
  end.

(** ** Specification *)

Definition bitmap_ok (bm : BlockBitmap) : Prop :=
  length (bits bm) = Z.to_nat 8192 ∧ bytes (bits bm).

Definition block_range (b : Z) : Prop := 0 ≤ b < IDKFS_TOTAL_BLOCKS.

(** All block numbers of the image. *)
Definition all_blocks : list Z := seqZ 0 IDKFS_TOTAL_BLOCKS.

(** The set of allocated blocks, and the number of free ones. *)
Definition used (bm : BlockBitmap) (b : Z) : bool :=
  default true (bitmap_test bm b).
Definition bitmap_free_count (bm : BlockBitmap) : Z :=
  Z.of_nat (length (filter (λ b, used bm b = false) all_blocks)).

(** ** Bits of a byte *)

Lemma land_1_testbit x : negb (Z.land x 1 =? 0) = Z.testbit x 0.
Proof.
  replace (Z.land x 1) with (Z.b2z (Z.testbit x 0)).
  2: { change 1 with (Z.ones 1). rewrite Z.land_ones by lia.
       rewrite Z.bit0_mod. done. }
  by destruct (Z.testbit x 0).
Qed.

Lemma test_byte x k : 0 ≤ k → negb (Z.land (Z.shiftr x k) 1 =? 0) = Z.testbit x k.
Proof.
  intros. rewrite land_1_testbit, Z.shiftr_spec by lia. f_equal; lia.
Qed.

Lemma u8_testbit x k : 0 ≤ k < 8 → Z.testbit (u8 x) k = Z.testbit x k.
Proof. intros. unfold u8. change 256 with (2 ^ 8). apply Z.mod_pow2_bits_low. lia. Qed.

Lemma bit_testbit k j : 0 ≤ k → 0 ≤ j → Z.testbit (Z.shiftl 1 k) j = (j =? k).
Proof.
  intros. rewrite Z.shiftl_1_l, Z.pow2_bits_eqb by lia. apply Z.eqb_sym.
Qed.

Lemma bitmap_index b : block_range b → 0 ≤ b / 8 < 8192.
Proof. unfold block_range, IDKFS_TOTAL_BLOCKS. zdm. Qed.

Section ops.
Context (bm : BlockBitmap) (Hbm : bitmap_ok bm).

Lemma bitmap_byte b : block_range b → ∃ x, (bits bm).[b / 8] = Some x.
Proof.
  intros Hb%bitmap_index. apply zget_is_Some. destruct Hbm as [-> _]. lia.
Qed.

Lemma bitmap_test_used b : block_range b → bitmap_test bm b = Some (used bm b).
Proof.
  intros Hb. unfold used, bitmap_test. destruct (bitmap_byte b Hb) as [x ->]. done.
Qed.

(** An update [f] of the byte holding bit [b] that acts on that bit as
    [v] and leaves the others alone. *)
Lemma bitmap_update b x bs (v : bool) :
  block_range b → (bits bm).[b / 8 := u8 x] = Some bs →
  (∀ y k, (bits bm).[b / 8] = Some y → 0 ≤ k < 8 →
     Z.testbit x k = if k =? b mod 8 then v else Z.testbit y k) →
  bitmap_ok (mkBlockBitmap bs) ∧
  ∀ b', block_range b' →
    used (mkBlockBitmap bs) b' = if b' =? b then v else used bm b'.
Proof.
  intros Hb Hset Hx. split.
  { split; cbn; [rewrite (zset_length _ _ _ _ Hset); apply Hbm|].
    apply zset_Some in Hset as [_ ->]. apply Forall_insert; [apply Hbm|].
    unfold byte. apply u8_range. }
  intros b' Hb'. unfold used, bitmap_test. cbn [bits].
  rewrite (zget_zset _ _ _ _ _ Hset).
  destruct (Z.eqb_spec (b / 8) (b' / 8)) as [E|E]; cbn -[Z.land].
  - destruct (bitmap_byte b Hb) as [y Hy]. rewrite <- E, Hy. cbn -[Z.land].
    rewrite !test_byte by zdm. rewrite u8_testbit by zdm.
    rewrite (Hx y) by (done || zdm).
    destruct (Z.eqb_spec (b' mod 8) (b mod 8)), (Z.eqb_spec b' b); zdm || done.
  - destruct (Z.eqb_spec b' b); [congruence|done].
Qed.

Lemma bitmap_set_ok b :
  block_range b →
  ∃ bm', bitmap_set bm b = Some bm' ∧ bitmap_ok bm' ∧
    ∀ b', block_range b' → used bm' b' = if b' =? b then true else used bm b'.
Proof.
  intros Hb. unfold bitmap_set. destruct (bitmap_byte b Hb) as [x Hx].
  rewrite Hx. cbn [mbind option_bind].
  rewrite (zset_ok (bits bm)) by (by eapply zget_bound).
  eexists. split; [done|]. eapply bitmap_update; [done| |].
  - apply zset_ok. by eapply zget_bound.
  - intros y k Hy Hk. simplify_eq. rewrite Z.lor_spec, bit_testbit by zdm.
    zcase; [apply orb_true_r|apply orb_false_r].
Qed.

Lemma bitmap_clear_ok b :
  block_range b →
  ∃ bm', bitmap_clear bm b = Some bm' ∧ bitmap_ok bm' ∧
    ∀ b', block_range b' → used bm' b' = if b' =? b then false else used bm b'.
Proof.
  intros Hb. unfold bitmap_clear. destruct (bitmap_byte b Hb) as [x Hx].
  rewrite Hx. cbn [mbind option_bind].
  rewrite (zset_ok (bits bm)) by (by eapply zget_bound).
  eexists. split; [done|]. eapply bitmap_update; [done| |].
  - apply zset_ok. by eapply zget_bound.
  - intros y k Hy Hk. simplify_eq.
    rewrite Z.land_spec, Z.lnot_spec, bit_testbit by zdm.
    zcase; [apply andb_false_r|apply andb_true_r].
Qed.

Lemma alloc_scan_ok i n :
  0 ≤ i → i + Z.of_nat n ≤ IDKFS_TOTAL_BLOCKS →
  (∃ bm' r, alloc_scan bm i n = Some (Some (bm', r)) ∧
     i ≤ r < i + Z.of_nat n ∧ used bm r = false ∧
     (∀ b, i ≤ b < r → used bm b = true) ∧ bitmap_ok bm' ∧
     ∀ b, block_range b → used bm' b = if b =? r then true else used bm b) ∨
  (alloc_scan bm i n = Some None ∧
     ∀ b, i ≤ b < i + Z.of_nat n → used bm b = true).
Proof.
  revert i. induction n as [|n IH]; intros i Hi Hn.
  { right. split; [done|]. lia. }
  cbn [alloc_scan]. rewrite bitmap_test_used by (unfold block_range; lia).
  cbn [mbind option_bind]. destruct (used bm i) eqn:E; cbn [negb].
  - destruct (IH (i + 1)) as [(bm' & r & ? & ? & ? & Hlt & ? & ?)|[? Hall]]; [lia..| |].
    + left. exists bm', r. split_and!; try lia; try done.
      intros b Hb. destruct (decide (b = i)) as [->|]; [done|]. apply Hlt. lia.
    + right. split; [done|]. intros b Hb.
      destruct (decide (b = i)) as [->|]; [done|]. apply Hall. lia.
  - left. destruct (bitmap_set_ok i) as (bm' & -> & ? & ?); [unfold block_range; lia|].
    cbn [mbind option_bind]. exists bm', i. unfold IDKFS_TOTAL_BLOCKS in *.
    rewrite i32_small by lia. split_and!; try lia; done.
Qed.
End ops.

(** ** The allocator contract *)

Class BlockAllocator {S : Type} (ok : S → Prop) (in_use : S → Z → bool)
    (avail : S → Z) (alloc : S → Z → option (S * Z))
    (release : S → Z → option S) := {
  (** An allocation succeeds when a block is available ... *)
  alloc_fresh s hint :
    ok s → block_range hint → 0 < avail s →
    ∃ s' r, alloc s hint = Some (s', r) ∧ ok s' ∧ block_range r ∧
      in_use s r = false ∧ avail s' = avail s - 1 ∧
      ∀ b, block_range b → in_use s' b = if b =? r then true else in_use s b;
  (** ... and otherwise reports [-1] and changes nothing. *)
  alloc_full s hint :
    ok s → block_range hint → avail s = 0 → alloc s hint = Some (s, -1);
  avail_nonneg s : 0 ≤ avail s;
  release_used s b :
    ok s → block_range b → in_use s b = true →
    ∃ s', release s b = Some s' ∧ ok s' ∧ avail s' = avail s + 1 ∧
      ∀ b', block_range b' → in_use s' b' = if b' =? b then false else in_use s b';
}.

(** ** Counting *)

Lemma filter_length_ext {A} (P Q : A → Prop) {HPd : ∀ x, Decision (P x)}
    {HQd : ∀ x, Decision (Q x)} (l : list A) :
  (∀ x, x ∈ l → P x ↔ Q x) → length (filter P l) = length (filter Q l).
Proof.
  induction l as [|x l IH]; intros H; [done|]. rewrite !filter_cons.
  assert (length (filter P l) = length (filter Q l)) as E.
  { apply IH. intros. apply H. by constructor. }
  destruct (H x) as [H1 H2]; [by constructor|].
  repeat case_decide; cbn; auto with lia; tauto.
Qed.

Lemma filter_length_flip {A} (P Q : A → Prop) {HPd : ∀ x, Decision (P x)}
    {HQd : ∀ x, Decision (Q x)} (l : list A) (r : A) :
  NoDup l → r ∈ l → P r → ¬ Q r → (∀ x, x ∈ l → x ≠ r → P x ↔ Q x) →
  length (filter P l) = S (length (filter Q l)).
Proof.
  intros Hnd Hr HP HQ H. induction Hnd as [|x l Hx Hnd IH].
  { by apply not_elem_of_nil in Hr. }
  rewrite !filter_cons. apply elem_of_cons in Hr as [->|Hr].
  - destruct (decide (P x)); [|done]. destruct (decide (Q x)); [done|]. cbn.
    f_equal. apply filter_length_ext. intros y Hy. apply H; [by constructor|].
    by intros ->.
  - assert (length (filter P l) = S (length (filter Q l))) as E.
    { apply IH; [done|]. intros. apply H; [by constructor|done]. }
    destruct (H x) as [H1 H2]; [by constructor|by intros ->|].
    repeat case_decide; cbn; try tauto; lia.
Qed.

Lemma filter_length_pos {A} (P : A → Prop) {HPd : ∀ x, Decision (P x)} (l : list A) :
  (0 < length (filter P l))%nat ↔ ∃ x, x ∈ l ∧ P x.
Proof.
  split.
  - destruct (filter P l) as [|x k] eqn:E; cbn; [lia|]. intros _. exists x.
    assert (x ∈ filter P l) as Hx by (rewrite E; constructor).
    by apply list_elem_of_filter in Hx as [??].
  - intros (x & Hx & HP).
    assert (x ∈ filter P l) as Hf by by apply list_elem_of_filter.
    destruct (filter P l); cbn; [by apply not_elem_of_nil in Hf|lia].
Qed.

Lemma filter_all {A} (P : A → Prop) {HPd : ∀ x, Decision (P x)} (l : list A) :
  Forall P l → filter P l = l.
Proof.
  induction 1 as [|x l Hx Hl IH]; [done|]. rewrite filter_cons, decide_True by done.
  by rewrite IH.
Qed.

Lemma elem_of_all_blocks b : b ∈ all_blocks ↔ block_range b.
Proof. unfold all_blocks. rewrite elem_of_seqZ. unfold block_range. lia. Qed.

Lemma NoDup_all_blocks : NoDup all_blocks.
Proof. apply NoDup_seqZ. Qed.

Lemma all_blocks_length : Z.of_nat (length all_blocks) = IDKFS_TOTAL_BLOCKS.
Proof. unfold all_blocks. rewrite length_seqZ. done. Qed.

#[global] Opaque all_blocks.

Lemma free_count_nonneg bm : 0 ≤ bitmap_free_count bm.
Proof. apply Nat2Z.is_nonneg. Qed.

(** Flipping one block changes the count by one. *)
Lemma free_count_flip bm bm' r :
  block_range r → used bm r = false → used bm' r = true →
  (∀ b, block_range b → b ≠ r → used bm' b = used bm b) →
  bitmap_free_count bm = bitmap_free_count bm' + 1.
Proof.
  intros Hr H1 H2 H. unfold bitmap_free_count.
  rewrite (filter_length_flip _ (λ b, used bm' b = false) _ r); [lia|..].
  - apply NoDup_all_blocks.
  - by apply elem_of_all_blocks.
  - done.
  - congruence.
  - intros x Hx%elem_of_all_blocks Hne. by rewrite H.
Qed.

Lemma free_count_pos bm :
  0 < bitmap_free_count bm ↔ ∃ b, block_range b ∧ used bm b = false.
Proof.
  unfold bitmap_free_count. rewrite <- (Nat2Z.inj_lt 0), filter_length_pos.
  by setoid_rewrite elem_of_all_blocks.
Qed.

Lemma free_count_zero bm b :
  bitmap_free_count bm = 0 → block_range b → used bm b = true.
Proof.
  intros H Hb. destruct (used bm b) eqn:E; [done|].
  assert (0 < bitmap_free_count bm) by (apply free_count_pos; eauto). lia.
Qed.

(** First fit from the hint, wrapping around to the blocks below it. *)
Lemma bitmap_alloc_cases bm hint :
  bitmap_ok bm → block_range hint →
  (∃ bm' r, bitmap_alloc bm hint = Some (bm', r) ∧ block_range r ∧
     used bm r = false ∧
     (∀ b, block_range b → (hint ≤ b < r ∨ r < hint ≤ b ∨ b < r < hint) →
        used bm b = true) ∧
     bitmap_ok bm' ∧
     ∀ b, block_range b → used bm' b = if b =? r then true else used bm b) ∨
  (bitmap_alloc bm hint = Some (bm, -1) ∧
     ∀ b, block_range b → used bm b = true).
Proof.
  unfold block_range, IDKFS_TOTAL_BLOCKS. intros Hbm Hh. unfold bitmap_alloc.
  destruct (alloc_scan_ok bm Hbm hint (Z.to_nat (IDKFS_TOTAL_BLOCKS - hint)))
    as [(bm' & r & -> & Hr & Hu & Hlt & Hok & Hspec)|[-> Hhi]];
    unfold IDKFS_TOTAL_BLOCKS in *; [lia..| |]; cbn [mbind option_bind].
  { left. exists bm', r. split_and!; try lia; try done.
    intros b Hb ?. apply Hlt. lia. }
  destruct (alloc_scan_ok bm Hbm 0 (Z.to_nat hint))
    as [(bm' & r & -> & Hr & Hu & Hlt & Hok & Hspec)|[-> Hlo]];
    unfold IDKFS_TOTAL_BLOCKS in *; [lia..| |]; cbn [mbind option_bind].
  - left. exists bm', r. split_and!; try lia; try done.
    intros b Hb Hc. destruct (Z.lt_ge_cases b hint).
    + apply Hlt. lia.
    + apply Hhi. lia.
  - right. split; [done|]. intros b Hb. destruct (Z.lt_ge_cases b hint).
    + apply Hlo. lia.
    + apply Hhi. lia.
Qed.

#[export] Instance bitmap_allocator :
  BlockAllocator bitmap_ok used bitmap_free_count bitmap_alloc bitmap_clear.
Proof.
  split.
  - intros bm hint Hok Hh Hav.
    destruct (bitmap_alloc_cases bm hint Hok Hh)
      as [(bm' & r & -> & Hr & Hu & _ & Hok' & Hspec)|[_ Hall]].
    + exists bm', r. split_and!; try done.
      rewrite (free_count_flip bm bm' r); try done; [lia| |].
      * by rewrite Hspec, Z.eqb_refl.
      * intros b Hb Hne. rewrite Hspec by done. by zcase.
    + exfalso. apply free_count_pos in Hav as (b & Hb & Hu). by rewrite Hall in Hu.
  - intros bm hint Hok Hh Hz.
    destruct (bitmap_alloc_cases bm hint Hok Hh)
      as [(bm' & r & _ & Hr & Hu & _)|[? _]]; [|done].
    by rewrite (free_count_zero bm r) in Hu.
  - apply free_count_nonneg.
  - intros bm b Hok Hb Hu. destruct (bitmap_clear_ok bm Hok b Hb) as (bm' & ? & ? & Hspec).
    exists bm'. split_and!; try done.
    rewrite (free_count_flip bm' bm b); try done.
    + by rewrite Hspec, Z.eqb_refl.
    + intros b' Hb' Hne. rewrite Hspec by done. by zcase.
Qed.

(** The all-zero bitmap. *)
Lemma bitmap_zero_ok : bitmap_ok BlockBitmap_zero.
Proof.
  split; cbn [bits BlockBitmap_zero].
  - apply length_replicate.
  - apply Forall_replicate. unfold byte. lia.
Qed.

Lemma used_zero b : block_range b → used BlockBitmap_zero b = false.
Proof.
  intros Hb%bitmap_index. unfold used, bitmap_test, BlockBitmap_zero. cbn [bits].
  rewrite zget_replicate by lia. cbn [mbind option_bind default].
  rewrite Z.shiftr_0_l. done.
Qed.

Lemma free_count_all_free bm :
  (∀ b, block_range b → used bm b = false) → bitmap_free_count bm = IDKFS_TOTAL_BLOCKS.
Proof.
  intros H. rewrite <- all_blocks_length. unfold bitmap_free_count.
  rewrite filter_all; [done|]. apply Forall_forall. intros b Hb%elem_of_all_blocks. auto.
Qed.

#[global] Opaque bitmap_free_count.

(** ** Properties *)

(** C29: First-fit allocation always returns.  When every bit is set it
    returns [-1] and the bitmap as it was; otherwise it returns the first free
    block at or above the hint, or, when there is none, the first free one
    below it, and sets that bit and no other. *)
Theorem bitmap_alloc_first_fit bm hint :
  bitmap_ok bm → block_range hint →
  ∃ bm' r, bitmap_alloc bm hint = Some (bm', r) ∧ bitmap_ok bm' ∧
    (r = -1 ↔ ∀ b, block_range b → bitmap_test bm b = Some true) ∧ (r = -1 → bm' = bm) ∧
    (r ≠ -1 →
       block_range r ∧ bitmap_test bm r = Some false ∧ bitmap_test bm' r = Some true ∧
       (∀ b, block_range b → b ≠ r → bitmap_test bm' b = bitmap_test bm b) ∧
       (∀ b, block_range b → bitmap_test bm b = Some false →
          (hint ≤ r → hint ≤ b → r ≤ b) ∧ (r < hint → b < hint ∧ r ≤ b))).
Proof.
  intros Hok Hh. destruct (bitmap_alloc_cases bm hint Hok Hh)
    as [(bm' & r & -> & Hr & Hu & Hfirst & Hok' & Hspec)|[-> Hall]].
  - assert (r ≠ -1) as Hne by (unfold block_range in Hr; lia).
    exists bm', r. split; [done|]. split; [done|]. split; [|split; [done|intros _]].
    { split; [done|]. intros Hall. specialize (Hall r Hr).
      rewrite bitmap_test_used, Hu in Hall by done. done. }
    rewrite !bitmap_test_used, Hspec, Hu, Z.eqb_refl by done. split_and!; [done..| |].
    + intros b Hb Hbr. rewrite !bitmap_test_used, Hspec by done. by zcase.
    + intros b Hb Hf. rewrite bitmap_test_used in Hf by done.
      assert (¬ (hint ≤ b < r ∨ r < hint ≤ b ∨ b < r < hint)); [|lia].
      intros Hc. by rewrite Hfirst in Hf.
  - exists bm, (-1). split_and!; [done|done| |done|done]. split; [|done].
    intros _ b Hb. by rewrite bitmap_test_used, Hall.
Qed.

(** The last eight blocks are taken: a search from there wraps around. *)
Definition demo_bitmap : BlockBitmap :=
  mkBlockBitmap (replicate (Z.to_nat 8191) 0 ++ [255]).

Lemma bitmap_alloc_first_fit_witness :
  ∃ bm, bitmap_alloc demo_bitmap 65528 = Some (bm, 0) ∧ bitmap_test demo_bitmap 65528 = Some true ∧
    bitmap_test bm 0 = Some true ∧ bitmap_test bm 1 = Some false.
Proof.
  assert (bitmap_ok demo_bitmap) as Hok.
  { split; [by vm_compute|]. apply Forall_app. split; [apply Forall_replicate; unfold byte; lia|].
    constructor; [unfold byte; lia|constructor]. }
  assert (block_range 0 ∧ block_range 1 ∧ block_range 65528) as (Hb0 & Hb1 & Hb7) by done.
  assert (bitmap_test demo_bitmap 0 = Some false) as H0 by by vm_compute.
  assert (bitmap_test demo_bitmap 1 = Some false) as H1 by by vm_compute.
  assert (bitmap_test demo_bitmap 65528 = Some true) as H7 by by vm_compute.
  assert (snd <$> bitmap_alloc demo_bitmap 65528 = Some 0) as Hsnd by by vm_compute.
  destruct (bitmap_alloc_first_fit demo_bitmap 65528 Hok Hb7) as (bm & r & Ha & _ & _ & _ & Hr).
  rewrite Ha in Hsnd. injection Hsnd as ->.
  destruct Hr as (_ & _ & Ht & Hsame & _); [discriminate|].
  exists bm. split; [exact Ha|]. split; [exact H7|]. split; [exact Ht|].
  rewrite Hsame; [exact H1|exact Hb1|discriminate].
Defined.
