(* ===== verification/Core.v ===== *)
(** * Inodes and blocks of [idkfs_core.c]

    [inode_alloc], [inode_free], [block_read], [block_write],
    [block_zero], [inode_get_block] and [inode_map_block], and the
    invariant [fs_wf] of the file-system state.

    An [Inode *] of the source always points into [fs->inodes]; it is
    modelled by the index of that entry, so that the aliasing between the
    pointer and the table is kept. *)

From S2P Require Import Prelude Cint Codec Mem CoreTypes Bitmap.

(** Assignment through an [Inode *]. *)
Definition upd_inode (fs : IDKFS) (k : Z) (f : Inode → Inode) : option IDKFS :=
  i ← (fs_inodes fs).[k];
  l ← (fs_inodes fs).[k := f i];
  Some (set_fs_inodes l fs).

Definition upd_sb (f : Superblock → Superblock) (fs : IDKFS) : IDKFS :=
  set_fs_sb (f (fs_sb fs)) fs.

(** [fs->sb.free_blocks--] and the like, on [uint32_t]. *)
Definition add_free_blocks (d : Z) : IDKFS → IDKFS :=
  upd_sb (λ sb, set_sb_free_blocks (u32 (sb_free_blocks sb + d)) sb).
Definition add_free_inodes (d : Z) : IDKFS → IDKFS :=
  upd_sb (λ sb, set_sb_free_inodes (u32 (sb_free_inodes sb + d)) sb).

(** The inode [inode_alloc] prepares: zeroed, then numbered, with no block. *)
Definition fresh_inode (i : Z) : Inode :=
  set_i_indirect1 IDKFS_NULL_BLOCK (set_i_indirect2 IDKFS_NULL_BLOCK
    (set_i_direct (replicate (Z.to_nat IDKFS_DIRECT_BLOCKS) IDKFS_NULL_BLOCK)
      (set_i_ino i Inode_zero))).

(** The search loop of [inode_alloc], over [n] inodes from [i]. *)
Fixpoint inode_scan (fs : IDKFS) (i : Z) (n : nat) : option (IDKFS * Z) :=
  match n with
  | O => Some (fs, -1)
  | S n =>
      ino ← (fs_inodes fs).[i];
      if i_link_count ino =? 0 then
        fs ← upd_inode fs i (λ _, fresh_inode i);
        Some (add_free_inodes (-1) fs, i32 i)
      else inode_scan fs (i + 1) n
  end.

Definition inode_alloc (fs : IDKFS) : option (IDKFS * Z) :=
  inode_scan fs 1 (Z.to_nat (IDKFS_MAX_INODES - 1)).

Definition inode_free (fs : IDKFS) (ino : Z) : option IDKFS :=
  fs ← upd_inode fs ino (λ _, Inode_zero);
  Some (add_free_inodes 1 fs).

(** ** Blocks *)

Definition block_ptr (b : Z) : Z := b * IDKFS_BLOCK_SIZE.

Definition block_read (fs : IDKFS) (b : Z) : option (list Z) :=
  mread (fs_disk fs) (block_ptr b) (Z.to_nat IDKFS_BLOCK_SIZE).

Definition block_write (fs : IDKFS) (b : Z) (buf : list Z) : option IDKFS :=
  d ← mwrite (fs_disk fs) (block_ptr b) (take (Z.to_nat IDKFS_BLOCK_SIZE) buf);
  Some (set_fs_dirty true (set_fs_disk d fs)).

Definition block_zero (fs : IDKFS) (b : Z) : option IDKFS :=
  d ← mwrite (fs_disk fs) (block_ptr b) (replicate (Z.to_nat IDKFS_BLOCK_SIZE) 0);
  Some (set_fs_disk d fs).

(** [uint32_t ptrs\[ppb\]] *)
Definition IDKFS_PTRS_PER_BLOCK : Z := 1024.
Definition ptrs_codec : codec (list Z) := c_vec (Z.to_nat IDKFS_PTRS_PER_BLOCK) c_u32.

Definition inode_get_block (fs : IDKFS) (ino : Inode) (logical : Z) : option Z :=
  if logical <? IDKFS_DIRECT_BLOCKS then (i_direct ino).[logical]
  else
    let idx := u32 (logical - IDKFS_DIRECT_BLOCKS) in
    if idx <? IDKFS_PTRS_PER_BLOCK then
      if i_indirect1 ino =? IDKFS_NULL_BLOCK then Some IDKFS_NULL_BLOCK
      else
        buf ← block_read fs (i_indirect1 ino);
        (cdec ptrs_codec buf).[idx]
    else Some IDKFS_NULL_BLOCK.

(** The allocation of the single-indirect block: [-1] when the disk is
    full, otherwise the inode has one afterwards. *)
Definition inode_map_indirect (fs : IDKFS) (k : Z) : option (IDKFS * Z) :=
  ino ← (fs_inodes fs).[k];
  if i_indirect1 ino =? IDKFS_NULL_BLOCK then
    '(bm, ib) ← bitmap_alloc (fs_bitmap fs) (sb_data_start_block (fs_sb fs));
    let fs := set_fs_bitmap bm fs in
    if ib <? 0 then Some (fs, -1)
    else
      fs ← block_zero fs (u32 ib);
      fs ← upd_inode fs k (set_i_indirect1 (u32 ib));
      Some (add_free_blocks (-1) fs, u32 ib)
  else Some (fs, i_indirect1 ino).

Definition inode_map_block (fs : IDKFS) (k : Z) (logical : Z) : option (IDKFS * Z) :=
  '(bm, nb) ← bitmap_alloc (fs_bitmap fs) (sb_data_start_block (fs_sb fs));
  let fs := set_fs_bitmap bm fs in
  if nb <? 0 then Some (fs, -1)
  else
    fs ← block_zero fs (u32 nb);
    let fs := add_free_blocks (-1) fs in
    if logical <? IDKFS_DIRECT_BLOCKS then
      ino ← (fs_inodes fs).[k];
      d ← (i_direct ino).[logical := u32 nb];
      fs ← upd_inode fs k (set_i_direct d);
      Some (fs, nb)
    else
      let idx := u32 (logical - IDKFS_DIRECT_BLOCKS) in
      if idx <? IDKFS_PTRS_PER_BLOCK then
        '(fs, ib) ← inode_map_indirect fs k;
        if ib <? 0 then Some (fs, -1)
        else
          buf ← block_read fs ib;
          ptrs ← (cdec ptrs_codec buf).[idx := u32 nb];
          fs ← block_write fs ib (cenc ptrs_codec ptrs);
          Some (fs, nb)
      else Some (fs, -1).

(** ** Views of the state *)

Definition live (i : Inode) : Prop := i_link_count i ≠ 0.
Definition live_at (fs : IDKFS) (k : Z) : Prop :=
  ∃ i, (fs_inodes fs).[k] = Some i ∧ live i.

(** Direct block [j] of inode [k], if mapped. *)
Definition fblock (fs : IDKFS) (k j : Z) : option Z :=
  i ← (fs_inodes fs).[k];
  b ← (i_direct i).[j];
  if b =? IDKFS_NULL_BLOCK then None else Some b.

(** Byte [p] of the file of inode [k], if its block is mapped. *)
Definition fbyte (fs : IDKFS) (k p : Z) : option Z :=
  b ← fblock fs k (p / IDKFS_BLOCK_SIZE);
  Some (mget (fs_disk fs) (block_ptr b + p mod IDKFS_BLOCK_SIZE)).

(** Number of blocks an inode maps directly. *)
Definition mapped (i : Inode) : Z :=
  Z.of_nat (length (filter (λ b, b ≠ IDKFS_NULL_BLOCK) (i_direct i))).
Definition mapped_at (fs : IDKFS) (k : Z) : Z :=
  default 0 (mapped <$> (fs_inodes fs).[k]).

(** Block [b] belongs to live inode [k], as its direct block [j]. *)
Definition owns (fs : IDKFS) (k j b : Z) : Prop :=
  live_at fs k ∧ fblock fs k j = Some b.

(** First data block: superblock, bitmap block and 136 inode blocks. *)
Definition DATA_START : Z := 138.
(** Bytes addressable through the direct blocks. *)
Definition DIRECT_BYTES : Z := 49152.

(** The invariant of the state, for files within their direct blocks. *)
Record fs_wf (fs : IDKFS) : Prop := {
  wf_bitmap : bitmap_ok (fs_bitmap fs);
  wf_ninodes : Z.of_nat (length (fs_inodes fs)) = IDKFS_MAX_INODES;
  wf_inodes : Forall (cvalid Inode_codec) (fs_inodes fs);
  wf_sb : cvalid Superblock_codec (fs_sb fs);
  wf_size : IDKFS_TOTAL_BLOCKS * IDKFS_BLOCK_SIZE ≤ m_size (fs_disk fs);
  wf_disk : mem_ok (fs_disk fs);
  wf_start : sb_data_start_block (fs_sb fs) = DATA_START;
  (** the free-block counter is exact *)
  wf_free : sb_free_blocks (fs_sb fs) = bitmap_free_count (fs_bitmap fs);
  (** the metadata blocks are never handed out *)
  wf_meta b : 0 ≤ b < DATA_START → used (fs_bitmap fs) b = true;
  (** the blocks of live inodes are allocated data blocks ... *)
  wf_owned k j b : owns fs k j b →
    DATA_START ≤ b < IDKFS_TOTAL_BLOCKS ∧ used (fs_bitmap fs) b = true;
  (** ... each belongs to one place ... *)
  wf_inj k j k' j' b : owns fs k j b → owns fs k' j' b → k = k' ∧ j = j';
  (** ... and no data block is leaked *)
  wf_noleak b : DATA_START ≤ b < IDKFS_TOTAL_BLOCKS →
    used (fs_bitmap fs) b = true → ∃ k j, owns fs k j b;
  wf_indirect k i : (fs_inodes fs).[k] = Some i → live i →
    i_indirect1 i = IDKFS_NULL_BLOCK;
}.

(** What an operation on the file of inode [k] may change. *)
Definition same_attr (i i' : Inode) : Prop :=
  i_ino i' = i_ino i ∧ i_type i' = i_type i ∧ i_tier i' = i_tier i ∧
  i_mode i' = i_mode i ∧ i_uid i' = i_uid i ∧ i_gid i' = i_gid i ∧
  i_link_count i' = i_link_count i.

Record modifies (k : Z) (fs fs' : IDKFS) : Prop := {
  mod_others k' : k' ≠ k → (fs_inodes fs').[k'] = (fs_inodes fs).[k'];
  mod_attr i : (fs_inodes fs).[k] = Some i →
    ∃ i', (fs_inodes fs').[k] = Some i' ∧ same_attr i i';
  mod_length : length (fs_inodes fs') = length (fs_inodes fs);
  mod_features : fs_features fs' = fs_features fs;
  mod_sb : set_sb_free_blocks 0 (fs_sb fs') = set_sb_free_blocks 0 (fs_sb fs);
  mod_bytes k' p : k' ≠ k → live_at fs k' → fbyte fs' k' p = fbyte fs k' p;
  mod_mono j b : fblock fs k j = Some b → fblock fs' k j = Some b;
  mod_count : bitmap_free_count (fs_bitmap fs') + mapped_at fs' k =
              bitmap_free_count (fs_bitmap fs) + mapped_at fs k;
}.

(** ** Lemmas on views *)

Ltac fs_unfold :=
  unfold block_range, block_ptr, IDKFS_TOTAL_BLOCKS, IDKFS_BLOCK_SIZE, DATA_START,
    IDKFS_NULL_BLOCK, IDKFS_DIRECT_BLOCKS, DIRECT_BYTES, IDKFS_MAX_INODES in *.

Lemma live_at_inode fs k i :
  (fs_inodes fs).[k] = Some i → live_at fs k ↔ live i.
Proof. intros H. unfold live_at. rewrite H. split; [by intros (? & [= <-] & ?)|eauto]. Qed.

Lemma fblock_inodes fs fs' k j :
  (fs_inodes fs').[k] = (fs_inodes fs).[k] → fblock fs' k j = fblock fs k j.
Proof. intros H. unfold fblock. by rewrite H. Qed.

Lemma live_at_inodes fs fs' k :
  (fs_inodes fs').[k] = (fs_inodes fs).[k] → live_at fs' k ↔ live_at fs k.
Proof. intros H. unfold live_at. by rewrite H. Qed.

Lemma mapped_at_inodes fs fs' k :
  (fs_inodes fs').[k] = (fs_inodes fs).[k] → mapped_at fs' k = mapped_at fs k.
Proof. intros H. unfold mapped_at. by rewrite H. Qed.

Lemma fblock_Some fs k j b :
  fblock fs k j = Some b ↔
  ∃ i, (fs_inodes fs).[k] = Some i ∧ (i_direct i).[j] = Some b ∧
       b ≠ IDKFS_NULL_BLOCK.
Proof.
  unfold fblock. rewrite bind_Some. setoid_rewrite bind_Some. split.
  - intros (i & Hi & x & Hx & H). zcase_in H; simplify_eq. eauto.
  - intros (i & Hi & Hx & H). exists i. split; [done|]. exists b.
    split; [done|]. by zcase.
Qed.

Lemma Inode_valid_direct i : cvalid Inode_codec i → length (i_direct i) = 12%nat.
Proof. solve_valid. Qed.

Lemma Inode_valid_direct_range i j b :
  cvalid Inode_codec i → (i_direct i).[j] = Some b → 0 ≤ b < 4294967296.
Proof.
  intros Hv Hb. assert (Forall (λ b, 0 ≤ b < 4294967296) (i_direct i)) as Hf.
  { revert Hv. solve_valid. }
  apply zget_Some in Hb as [_ Hb]. by eapply Forall_lookup_1 in Hf.
Qed.

Lemma wf_inode fs k i :
  fs_wf fs → (fs_inodes fs).[k] = Some i → cvalid Inode_codec i.
Proof.
  intros Hwf Hi. apply zget_Some in Hi as [_ Hi].
  eapply Forall_lookup_1; [apply (wf_inodes _ Hwf)|done].
Qed.

Lemma fblock_range fs k j b : fblock fs k j = Some b → fs_wf fs → 0 ≤ j < 12.
Proof.
  intros (i & Hi & Hb & _)%fblock_Some Hwf. apply zget_bound in Hb.
  rewrite Inode_valid_direct in Hb; [done|]. by eapply wf_inode.
Qed.

Lemma inode_get_block_direct fs k i j :
  fs_wf fs → (fs_inodes fs).[k] = Some i → 0 ≤ j < 12 →
  inode_get_block fs i j = Some (default IDKFS_NULL_BLOCK (fblock fs k j)).
Proof.
  intros Hwf Hi Hj. unfold inode_get_block, fblock, IDKFS_DIRECT_BLOCKS. rewrite Hi.
  zcase; [|lia].
  destruct (zget_is_Some (i_direct i) j) as [b Hb].
  { rewrite Inode_valid_direct by (by eapply wf_inode). lia. }
  cbn [mbind option_bind]. rewrite Hb. cbn [mbind option_bind]. by zcase; subst.
Qed.

(** ** Updates *)

Lemma upd_inode_ok fs k i f :
  (fs_inodes fs).[k] = Some i →
  upd_inode fs k f =
    Some (set_fs_inodes (<[Z.to_nat k := f i]> (fs_inodes fs)) fs).
Proof.
  intros Hi. unfold upd_inode. rewrite Hi. cbn [mbind option_bind].
  by rewrite zset_ok by (by eapply zget_bound).
Qed.

Lemma inodes_insert fs k i i' k' :
  (fs_inodes fs).[k] = Some i →
  (<[Z.to_nat k := i']> (fs_inodes fs)).[k'] =
  if k' =? k then Some i' else (fs_inodes fs).[k'].
Proof.
  intros Hi%zget_bound. zcase; subst.
  - by apply zget_insert_eq.
  - apply zget_insert_ne; lia.
Qed.

Lemma block_addr b off : 0 ≤ off < 4096 → 
  (block_ptr b + off) / 4096 = b ∧ (block_ptr b + off) mod 4096 = off.
Proof. fs_unfold. split; zdm. Qed.

Lemma mwrite_block m b buf :
  IDKFS_TOTAL_BLOCKS * IDKFS_BLOCK_SIZE ≤ m_size m →
  block_range b → length buf = Z.to_nat IDKFS_BLOCK_SIZE →
  ∃ d, mwrite m (block_ptr b) buf = Some d ∧ m_size d = m_size m ∧
    (mem_ok m → bytes buf → mem_ok d) ∧
    ∀ b' off, 0 ≤ off < IDKFS_BLOCK_SIZE →
      mget d (block_ptr b' + off) =
      if b' =? b then default 0 (buf.[off]) else mget m (block_ptr b' + off).
Proof.
  fs_unfold. intros Hsz Hb Hlen. unfold block_ptr, IDKFS_BLOCK_SIZE.
  destruct (mwrite_ok m (b * 4096) buf) as [d Hd]; [lia..|].
  exists d. split; [done|].
  pose proof (mwrite_Some _ _ _ _ Hd) as (_ & Hs & Hg). split; [done|]. split.
  { intros. by eapply mwrite_mem_ok. }
  intros b' off Hoff. rewrite Hg. rewrite Hlen.
  destruct (Z.eqb_spec b' b) as [->|]; zcases; try lia.
  by replace (b * 4096 + off - b * 4096) with off by lia.
Qed.

Lemma block_write_ok fs b buf :
  IDKFS_TOTAL_BLOCKS * IDKFS_BLOCK_SIZE ≤ m_size (fs_disk fs) →
  block_range b → length buf = Z.to_nat IDKFS_BLOCK_SIZE →
  ∃ d, block_write fs b buf = Some (set_fs_dirty true (set_fs_disk d fs)) ∧
    m_size d = m_size (fs_disk fs) ∧
    (mem_ok (fs_disk fs) → bytes buf → mem_ok d) ∧
    ∀ b' off, 0 ≤ off < IDKFS_BLOCK_SIZE →
      mget d (block_ptr b' + off) =
      if b' =? b then default 0 (buf.[off]) else mget (fs_disk fs) (block_ptr b' + off).
Proof.
  intros Hsz Hb Hlen. unfold block_write. rewrite take_ge by lia.
  destruct (mwrite_block (fs_disk fs) b buf) as (d & -> & ?); [done..|].
  by exists d.
Qed.

Lemma block_zero_ok fs b :
  IDKFS_TOTAL_BLOCKS * IDKFS_BLOCK_SIZE ≤ m_size (fs_disk fs) → block_range b →
  ∃ d, block_zero fs b = Some (set_fs_disk d fs) ∧
    m_size d = m_size (fs_disk fs) ∧ (mem_ok (fs_disk fs) → mem_ok d) ∧
    ∀ b' off, 0 ≤ off < IDKFS_BLOCK_SIZE →
      mget d (block_ptr b' + off) =
      if b' =? b then 0 else mget (fs_disk fs) (block_ptr b' + off).
Proof.
  intros Hsz Hb. unfold block_zero.
  destruct (mwrite_block (fs_disk fs) b (replicate (Z.to_nat IDKFS_BLOCK_SIZE) 0))
    as (d & -> & Hs & Hok & Hg); [done|done|len|].
  exists d. split_and!; [done|done|auto using zero_bytes|].
  intros b' off Hoff. rewrite Hg by done. zcase; [|done].
  rewrite zget_replicate; [done|]. fs_unfold. lia.
Qed.

Lemma block_read_ok fs b :
  IDKFS_TOTAL_BLOCKS * IDKFS_BLOCK_SIZE ≤ m_size (fs_disk fs) → block_range b →
  ∃ buf, block_read fs b = Some buf ∧ length buf = Z.to_nat IDKFS_BLOCK_SIZE ∧
    ∀ off, 0 ≤ off < IDKFS_BLOCK_SIZE →
      buf.[off] = Some (mget (fs_disk fs) (block_ptr b + off)).
Proof.
  fs_unfold. intros Hsz Hb. unfold block_read, block_ptr, IDKFS_BLOCK_SIZE.
  rewrite mread_ok by lia. eexists. split; [done|]. split; [len|].
  intros off Hoff. rewrite zget_fmap, zget_seqZ by lia. done.
Qed.

(** ** The invariant under updates *)

(** Changing bytes of data blocks. *)
Lemma fs_wf_set_disk fs d :
  m_size d = m_size (fs_disk fs) → mem_ok d → fs_wf fs → fs_wf (set_fs_disk d fs).
Proof. intros Hs Hd []. split; cbn; try done. by rewrite Hs. Qed.

Lemma fs_wf_set_dirty fs v : fs_wf fs → fs_wf (set_fs_dirty v fs).
Proof. intros []. by split. Qed.

(** Replacing the inode table by one with the same block ownership. *)
Lemma fs_wf_set_inodes fs l :
  fs_wf fs → length l = length (fs_inodes fs) → Forall (cvalid Inode_codec) l →
  (∀ k j b, owns (set_fs_inodes l fs) k j b ↔ owns fs k j b) →
  (∀ k i, l.[k] = Some i → live i → i_indirect1 i = IDKFS_NULL_BLOCK) →
  fs_wf (set_fs_inodes l fs).
Proof.
  intros Hwf Hlen Hv Ho Hind.
  split; cbn [set_fs_inodes fs_inodes fs_bitmap fs_sb fs_disk]; try apply Hwf; try done.
  - rewrite Hlen. apply Hwf.
  - intros k j b. rewrite Ho. apply (wf_owned _ Hwf).
  - intros k1 j1 k2 j2 b. rewrite !Ho. apply (wf_inj _ Hwf).
  - intros b Hb Hu. destruct (wf_noleak _ Hwf b Hb Hu) as (k & j & Hkj).
    exists k, j. by apply Ho.
Qed.

(** Replacing an inode by one owning the same blocks. *)
Lemma fs_wf_replace_inode fs k i i' :
  fs_wf fs → (fs_inodes fs).[k] = Some i → cvalid Inode_codec i' →
  (∀ j b, b ≠ IDKFS_NULL_BLOCK →
     live i' ∧ (i_direct i').[j] = Some b ↔ live i ∧ (i_direct i).[j] = Some b) →
  (live i' → i_indirect1 i' = IDKFS_NULL_BLOCK) →
  fs_wf (set_fs_inodes (<[Z.to_nat k := i']> (fs_inodes fs)) fs).
Proof.
  intros Hwf Hi Hv Hb Hind. apply fs_wf_set_inodes; [exact Hwf|..].
  - apply length_insert.
  - apply Forall_insert; [apply Hwf|done].
  - intros k' j b. unfold owns, live_at. rewrite !fblock_Some.
    cbn [set_fs_inodes fs_inodes]. rewrite (inodes_insert _ _ i) by done.
    destruct (Z.eqb_spec k' k) as [->|]; [|done]. rewrite Hi. split.
    + intros [(? & [= <-] & ?) (? & [= <-] & ? & ?)].
      destruct (proj1 (Hb j b ltac:(done))) as [? ?]; eauto 10.
    + intros [(? & [= <-] & ?) (? & [= <-] & ? & ?)].
      destruct (proj2 (Hb j b ltac:(done))) as [? ?]; eauto 10.
  - intros k' i0. rewrite (inodes_insert _ _ i) by done.
    destruct (Z.eqb_spec k' k) as [->|]; [intros [= <-]; apply Hind|].
    apply (wf_indirect _ Hwf).
Qed.

(** Replacing an inode by one with the same liveness and blocks. *)
Lemma fs_wf_upd_inode fs k i i' :
  fs_wf fs → (fs_inodes fs).[k] = Some i → cvalid Inode_codec i' →
  (live i' ↔ live i) → i_direct i' = i_direct i → i_indirect1 i' = i_indirect1 i →
  fs_wf (set_fs_inodes (<[Z.to_nat k := i']> (fs_inodes fs)) fs).
Proof.
  intros Hwf Hi Hv Hl Hd Hind. apply fs_wf_replace_inode with i; [exact Hwf|done..| |].
  - intros. by rewrite Hd, Hl.
  - rewrite Hind, Hl. by apply (wf_indirect _ Hwf k).
Qed.

(** Replacing the superblock. *)
Lemma fs_wf_set_sb fs sb :
  fs_wf fs → cvalid Superblock_codec sb →
  sb_data_start_block sb = sb_data_start_block (fs_sb fs) →
  sb_free_blocks sb = sb_free_blocks (fs_sb fs) → fs_wf (set_fs_sb sb fs).
Proof.
  intros Hwf Hv Hs Hf. split; try apply Hwf.
  - exact Hv.
  - cbn. rewrite Hs. apply Hwf.
  - cbn. rewrite Hf. apply Hwf.
Qed.

Lemma fs_wf_add_free_inodes fs d : fs_wf fs → fs_wf (add_free_inodes d fs).
Proof.
  intros Hwf. apply fs_wf_set_sb; [exact Hwf| |done|done].
  apply set_sb_free_inodes_valid; [apply u32_range|apply Hwf].
Qed.

Lemma direct_insert_mapped (l : list Z) j nb :
  l.[j] = Some IDKFS_NULL_BLOCK → nb ≠ IDKFS_NULL_BLOCK →
  length (filter (λ b, b ≠ IDKFS_NULL_BLOCK) (<[Z.to_nat j := nb]> l)) =
  S (length (filter (λ b, b ≠ IDKFS_NULL_BLOCK) l)).
Proof.
  intros [_ Hj]%zget_Some Hnb. revert Hj. generalize (Z.to_nat j) as n. clear j.
  induction l as [|x l IH]; intros [|n] Hn; try done; cbn in Hn.
  - simplify_eq. cbn [insert list_insert]. rewrite !filter_cons.
    by rewrite decide_True, decide_False by (done || tauto).
  - cbn [insert list_insert]. rewrite !filter_cons.
    case_decide; cbn; rewrite IH by done; done.
Qed.

(** ** [modifies] is a preorder *)

Lemma same_attr_refl i : same_attr i i.
Proof. by unfold same_attr. Qed.

Lemma same_attr_trans i1 i2 i3 : same_attr i1 i2 → same_attr i2 i3 → same_attr i1 i3.
Proof. unfold same_attr. intuition congruence. Qed.

Lemma modifies_refl k fs : modifies k fs fs.
Proof. split; eauto using same_attr_refl. Qed.

Lemma modifies_trans k fs1 fs2 fs3 :
  modifies k fs1 fs2 → modifies k fs2 fs3 → modifies k fs1 fs3.
Proof.
  intros [Ho1 Ha1 Hn1 Hf1 Hs1 Hb1 Hm1 Hc1] [Ho2 Ha2 Hn2 Hf2 Hs2 Hb2 Hm2 Hc2].
  split; try congruence; auto.
  - intros k' Hk. rewrite Ho2, Ho1; auto.
  - intros i Hi. destruct (Ha1 i Hi) as (i2 & Hi2 & ?).
    destruct (Ha2 i2 Hi2) as (i3 & Hi3 & ?). eauto using same_attr_trans.
  - intros k' p Hk Hl. rewrite Hb2, Hb1; auto.
    apply live_at_inodes with fs1; auto.
Qed.

Lemma modifies_live k fs fs' k' : modifies k fs fs' → live_at fs k' → live_at fs' k'.
Proof.
  intros Hm Hl. destruct (decide (k' = k)) as [->|].
  - destruct Hl as (i & Hi & Hl). destruct (mod_attr _ _ _ Hm i Hi) as (i' & Hi' & Ha).
    exists i'. split; [done|]. unfold live, same_attr in *. intuition congruence.
  - apply live_at_inodes with fs; [by apply (mod_others _ _ _ Hm)|done].
Qed.

Lemma fblock_insert_direct fs k i j nb i' fs' :
  (fs_inodes fs).[k] = Some i → (i_direct i).[j] = Some IDKFS_NULL_BLOCK →
  nb ≠ IDKFS_NULL_BLOCK → i_direct i' = <[Z.to_nat j := nb]> (i_direct i) →
  fs_inodes fs' = <[Z.to_nat k := i']> (fs_inodes fs) →
  ∀ k' j', fblock fs' k' j' =
    if (k' =? k) && (j' =? j) then Some nb else fblock fs k' j'.
Proof.
  intros Hi Hj Hnb Hd Hfs k' j'. unfold fblock. rewrite Hfs.
  rewrite (inodes_insert _ _ i) by done.
  destruct (Z.eqb_spec k' k) as [->|]; [|done]. cbn [mbind option_bind andb].
  rewrite Hi, Hd. cbn [mbind option_bind]. apply zget_bound in Hj as Hjb.
  destruct (Z.eqb_spec j' j) as [->|].
  - rewrite zget_insert_eq by done. cbn [mbind option_bind]. by zcase.
  - by rewrite zget_insert_ne by lia.
Qed.

(** ** Attaching a newly allocated block [nb] as direct block [j] of the
    live inode [k] *)
Section attach.
Context (fs : IDKFS) (k j nb : Z) (i : Inode) (bm : BlockBitmap) (fs' : IDKFS).
Let i' := set_i_direct (<[Z.to_nat j := nb]> (i_direct i)) i.
Context (Hwf : fs_wf fs) (Hi : (fs_inodes fs).[k] = Some i) (Hl : live i)
  (Hj : (i_direct i).[j] = Some IDKFS_NULL_BLOCK)
  (Hnb : block_range nb) (Hu : used (fs_bitmap fs) nb = false)
  (Hbm : bitmap_ok bm)
  (Hcnt : bitmap_free_count bm = bitmap_free_count (fs_bitmap fs) - 1)
  (Hspec : ∀ b, block_range b →
     used bm b = if b =? nb then true else used (fs_bitmap fs) b)
  (Hinodes : fs_inodes fs' = <[Z.to_nat k := i']> (fs_inodes fs))
  (Hbm' : fs_bitmap fs' = bm)
  (Hsb : fs_sb fs' = fs_sb (add_free_blocks (-1) fs))
  (Hsz : m_size (fs_disk fs') = m_size (fs_disk fs))
  (Hmem : mem_ok (fs_disk fs'))
  (Hfeat : fs_features fs' = fs_features fs)
  (Hzero : ∀ b off, 0 ≤ off < IDKFS_BLOCK_SIZE →
     mget (fs_disk fs') (block_ptr b + off) =
     if b =? nb then 0 else mget (fs_disk fs) (block_ptr b + off)).

Lemma attach_not_null : nb ≠ IDKFS_NULL_BLOCK.
Proof using Hnb. fs_unfold. lia. Qed.

Lemma attach_data : DATA_START ≤ nb.
Proof using Hwf Hnb Hu.
  destruct (Z.lt_ge_cases nb DATA_START); [|done].
  rewrite (wf_meta _ Hwf nb) in Hu; [done|fs_unfold; lia].
Qed.

Lemma attach_fblock k' j' :
  fblock fs' k' j' = if (k' =? k) && (j' =? j) then Some nb else fblock fs k' j'.
Proof using Hi Hj Hnb Hinodes.
  by eapply (fblock_insert_direct fs k i j nb i'); eauto using attach_not_null.
Qed.

Lemma attach_live k' : live_at fs' k' ↔ live_at fs k'.
Proof using Hi Hinodes.
  unfold live_at. rewrite Hinodes, (inodes_insert _ _ i) by done.
  destruct (Z.eqb_spec k' k) as [->|]; [|done]. rewrite Hi.
  split; intros (? & [= <-] & ?); eauto.
Qed.

Lemma attach_owns k' j' b :
  owns fs' k' j' b ↔
  (k' = k ∧ j' = j ∧ b = nb) ∨ (¬ (k' = k ∧ j' = j) ∧ owns fs k' j' b).
Proof using Hi Hl Hj Hnb Hinodes.
  unfold owns. rewrite attach_live, attach_fblock.
  assert (live_at fs k) by by exists i. clear Hwf Hu Hspec Hbm Hbm' Hcnt Hsb Hsz Hmem Hfeat Hzero.
  destruct (Z.eqb_spec k' k), (Z.eqb_spec j' j); subst; cbn [andb];
    intuition congruence.
Qed.

Lemma attach_fresh k' j' : ¬ owns fs k' j' nb.
Proof using Hwf Hu. intros [_ ?]%(wf_owned _ Hwf). congruence. Qed.

Lemma attach_unmapped b : ¬ owns fs k j b.
Proof using Hi Hj. intros [_ (i0 & Hi0 & Hb & ?)%fblock_Some]. congruence. Qed.

Lemma attach_inode_valid : cvalid Inode_codec i'.
Proof using Hwf Hi Hnb.
  assert (cvalid Inode_codec i) as Hv by by eapply wf_inode.
  apply set_i_direct_valid; [|done]. cbn. split.
  - rewrite length_insert. by apply Inode_valid_direct.
  - apply Forall_insert; [revert Hv; solve_valid|]. fs_unfold. pow256. lia.
Qed.

Lemma attach_sb : sb_free_blocks (fs_sb fs') = bitmap_free_count bm.
Proof using Hwf Hcnt Hsb.
  rewrite Hsb. cbn. rewrite (wf_free _ Hwf), Hcnt. apply u32_small.
  pose proof (free_count_nonneg bm). pose proof (wf_free _ Hwf).
  pose proof (wf_sb _ Hwf) as Hv. unfold_valid. lia.
Qed.

Lemma attach_wf : fs_wf fs'.
Proof using Hwf Hi Hl Hj Hnb Hu Hbm Hcnt Hspec Hinodes Hbm' Hsb Hsz Hmem.
  pose proof attach_data as Hlo.
  split; rewrite ?Hbm'; rewrite ?Hinodes; rewrite ?Hsz; try done; try apply Hwf.
  - rewrite length_insert. apply Hwf.
  - apply Forall_insert; [apply Hwf|apply attach_inode_valid].
  - rewrite Hsb. apply set_sb_free_blocks_valid; [apply u32_range|apply Hwf].
  - rewrite Hsb. apply Hwf.
  - apply attach_sb.
  - intros b Hb. rewrite Hspec by (fs_unfold; lia). zcase; [done|].
    by apply (wf_meta _ Hwf).
  - intros k' j' b [(-> & -> & ->)|[_ Hown]]%attach_owns.
    + rewrite Hspec, Z.eqb_refl by done. fs_unfold. split; [lia|done].
    + apply (wf_owned _ Hwf) in Hown as [? Hu']. split; [done|].
      rewrite Hspec by (fs_unfold; lia). by zcase.
  - intros k1 j1 k2 j2 b [(-> & -> & ->)|[? H1]]%attach_owns
      [(-> & -> & Hb)|[? H2]]%attach_owns; subst; try done;
      try (by exfalso; eapply attach_fresh).
    by eapply (wf_inj _ Hwf).
  - intros b Hb. rewrite Hspec by (fs_unfold; lia).
    destruct (Z.eqb_spec b nb) as [->|]; intros Hub.
    + exists k, j. apply attach_owns. by left.
    + destruct (wf_noleak _ Hwf b Hb Hub) as (k' & j' & Hown). exists k', j'.
      apply attach_owns. right. split; [|done]. intros [-> ->]. by eapply attach_unmapped.
  - intros k' i0. rewrite (inodes_insert _ _ i) by done.
    destruct (Z.eqb_spec k' k) as [->|].
    + intros [= <-] _. exact (wf_indirect _ Hwf k i Hi Hl).
    + apply (wf_indirect _ Hwf).
Qed.

Lemma attach_mapped : mapped_at fs' k = mapped_at fs k + 1.
Proof using Hi Hj Hnb Hinodes.
  unfold mapped_at. rewrite Hinodes, (inodes_insert _ _ i), Z.eqb_refl by done.
  rewrite Hi. cbn. unfold mapped. cbn [i' set_i_direct i_direct].
  rewrite direct_insert_mapped by (done || apply attach_not_null). lia.
Qed.

Lemma attach_fbyte k' p :
  live_at fs k' →
  fbyte fs' k' p =
  if (k' =? k) && (p / IDKFS_BLOCK_SIZE =? j) then Some 0 else fbyte fs k' p.
Proof using Hwf Hi Hj Hnb Hu Hinodes Hzero.
  intros Hl'. unfold fbyte. rewrite attach_fblock.
  destruct ((k' =? k) && _); cbn [mbind option_bind].
  { rewrite Hzero, Z.eqb_refl by (fs_unfold; zdm). done. }
  destruct (fblock fs k' (p / IDKFS_BLOCK_SIZE)) as [b|] eqn:Eb; [|done].
  cbn [mbind option_bind]. rewrite Hzero by (fs_unfold; zdm).
  destruct (Z.eqb_spec b nb) as [->|]; [|done].
  by destruct (attach_fresh k' (p / IDKFS_BLOCK_SIZE)).
Qed.

Lemma attach_modifies : modifies k fs fs'.
Proof using Hwf Hi Hj Hnb Hu Hcnt Hinodes Hbm' Hsb Hfeat Hzero.
  clear Hspec Hbm Hmem Hsz. split; try done.
  - intros k' Hk. rewrite Hinodes. apply zget_insert_ne; [|done].
    apply zget_bound in Hi. lia.
  - intros i0 Hi0. simplify_eq. rewrite Hinodes, (inodes_insert _ _ i), Z.eqb_refl by done.
    by eexists.
  - by rewrite Hinodes, length_insert.
  - by rewrite Hsb.
  - intros k' p Hk Hl'. rewrite attach_fbyte by done. by destruct (Z.eqb_spec k' k).
  - intros j0 b Hb. rewrite attach_fblock, Z.eqb_refl. cbn [andb].
    destruct (Z.eqb_spec j0 j) as [->|]; [|done].
    apply fblock_Some in Hb as (i0 & Hi0 & Hb & Hnn). congruence.
  - rewrite Hbm', Hcnt, attach_mapped. lia.
Qed.
End attach.
