(* ===== verification/FileIO.v ===== *)
(** * File input and output of [idkfs_core.c]

    [idkfs_read] and [idkfs_write].  The result of a read is the list of
    the bytes stored into the caller's buffer (its length is the C return
    value).  [now] is the value of [time(NULL)].  The loops carry a fuel of
    one unit per byte still to transfer, which suffices because every
    iteration transfers at least one byte. *)

From S2P Require Import Prelude Cint Codec Mem CoreTypes Crc Bitmap Core.

(** The chunk an iteration transfers: the rest of the block or of the
    request, whichever is shorter. *)
Definition io_chunk (count total blk_off : Z) : Z :=
  let can := u32 (IDKFS_BLOCK_SIZE - blk_off) in
  if count - total <? can then u32 (count - total) else can.

Fixpoint read_loop (fs : IDKFS) (ino : Inode) (count offset total : Z)
    (fuel : nat) : option (list Z) :=
  if total <? count then
    match fuel with
    | O => None
    | S fuel =>
        let logical := u32 (u64 (offset + total) / IDKFS_BLOCK_SIZE) in
        let blk_off := u32 (u64 (offset + total) mod IDKFS_BLOCK_SIZE) in
        let can := io_chunk count total blk_off in
        db ← inode_get_block fs ino logical;
        if db =? IDKFS_NULL_BLOCK then Some []
        else
          tmp ← block_read fs db;
          rest ← read_loop fs ino count offset (total + can) fuel;
          Some (take (Z.to_nat can) (drop (Z.to_nat blk_off) tmp) ++ rest)
    end
  else Some [].

Definition idkfs_read (fs : IDKFS) (k count offset now : Z) :
    option (IDKFS * list Z) :=
  ino ← (fs_inodes fs).[k];
  if i_size ino <=? offset then Some (fs, [])
  else
    let count := if i_size ino <? u64 (offset + count)
                 then i_size ino - offset else count in
    out ← read_loop fs ino count offset 0 (Z.to_nat count);
    fs ← (if timestamps (fs_features fs)
          then upd_inode fs k (set_i_atime (u64 now)) else Some fs);
    Some (fs, out).

(** The block of the file to write to, allocated if missing; negative when
    [inode_map_block] fails. *)
Definition write_target (fs : IDKFS) (k logical : Z) : option (IDKFS * Z) :=
  ino ← (fs_inodes fs).[k];
  db ← inode_get_block fs ino logical;
  if db =? IDKFS_NULL_BLOCK then
    '(fs, nb) ← inode_map_block fs k logical;
    if nb <? 0 then Some (fs, nb)
    else
      fs ← upd_inode fs k (λ i, set_i_block_count (u32 (i_block_count i + 1)) i);
      Some (fs, u32 nb)
  else Some (fs, db).

(** The read-modify-write of one block. *)
Definition block_patch (fs : IDKFS) (db blk_off : Z) (data : list Z) : option IDKFS :=
  tmp ← block_read fs db;
  block_write fs db
    (take (Z.to_nat blk_off) tmp ++ data ++
     drop (Z.to_nat blk_off + length data) tmp).

(** The loop of [idkfs_write]; [false] is its [return -1]. *)
Fixpoint write_loop (fs : IDKFS) (k : Z) (buf : list Z) (offset total : Z)
    (fuel : nat) : option (IDKFS * bool) :=
  let count := Z.of_nat (length buf) in
  if total <? count then
    match fuel with
    | O => None
    | S fuel =>
        let logical := u32 (u64 (offset + total) / IDKFS_BLOCK_SIZE) in
        let blk_off := u32 (u64 (offset + total) mod IDKFS_BLOCK_SIZE) in
        let can := io_chunk count total blk_off in
        '(fs, db) ← write_target fs k logical;
        if db <? 0 then Some (fs, false)
        else
          fs ← block_patch fs db blk_off
                 (take (Z.to_nat can) (drop (Z.to_nat total) buf));
          write_loop fs k buf offset (total + can) fuel
    end
  else Some (fs, true).

(** The bookkeeping at the end of [idkfs_write]: size, times, checksum. *)
Definition write_size (fin : Z) (i : Inode) : Inode :=
  if i_size i <? fin then set_i_size fin i else i.
Definition write_times (feat : FeatureFlags) (now : Z) (i : Inode) : Inode :=
  if timestamps feat then set_i_mtime (u64 now) (set_i_ctime (u64 now) i) else i.
Definition write_checksum (feat : FeatureFlags) (i : Inode) : Inode :=
  if checksums feat
  then set_i_checksum (crc32 (take (csize Inode_codec - 4) (cenc Inode_codec i))) i
  else i.
Definition write_inode (feat : FeatureFlags) (count offset now : Z) (i : Inode) : Inode :=
  write_checksum feat (write_times feat now (write_size (u64 (offset + count)) i)).

Definition idkfs_write (fs : IDKFS) (k : Z) (buf : list Z) (offset now : Z) :
    option (IDKFS * Z) :=
  let count := Z.of_nat (length buf) in
  '(fs, ok) ← write_loop fs k buf offset 0 (length buf);
  if ok : bool then
    fs ← upd_inode fs k (write_inode (fs_features fs) count offset now);
    Some (set_fs_dirty true fs, count)
  else Some (fs, -1).

(** ** Mapping a direct block *)

Lemma inode_map_block_full fs k j :
  fs_wf fs → bitmap_free_count (fs_bitmap fs) = 0 →
  inode_map_block fs k j = Some (set_fs_bitmap (fs_bitmap fs) fs, -1).
Proof.
  intros Hwf Hz. unfold inode_map_block. rewrite (wf_start _ Hwf).
  rewrite (alloc_full (fs_bitmap fs) DATA_START); [done|apply Hwf|fs_unfold; lia|done].
Qed.

Lemma u32_block nb : block_range nb → u32 nb = nb.
Proof. fs_unfold. intros. apply u32_small. lia. Qed.

(** With a free block, mapping direct block [j] of a live inode yields a
    zeroed block and touches nothing else. *)
Lemma inode_map_block_direct fs k i j :
  fs_wf fs → (fs_inodes fs).[k] = Some i → live i → 0 ≤ j < 12 →
  fblock fs k j = None → 0 < bitmap_free_count (fs_bitmap fs) →
  ∃ fs' nb d,
    inode_map_block fs k j = Some (fs', nb) ∧ block_range nb ∧ fs_wf fs' ∧
    modifies k fs fs' ∧
    (fs_inodes fs').[k] = Some (set_i_direct d i) ∧
    (∀ j', fblock fs' k j' = if j' =? j then Some nb else fblock fs k j') ∧
    (∀ p, fbyte fs' k p =
       if p / IDKFS_BLOCK_SIZE =? j then Some 0 else fbyte fs k p).
Proof.
  intros Hwf Hi Hl Hj Hnone Hfree. unfold inode_map_block. rewrite (wf_start _ Hwf).
  destruct (alloc_fresh (fs_bitmap fs) DATA_START)
    as (bm & nb & Ha & Hbm & Hnb & Hu & Hcnt & Hspec);
    [apply Hwf|fs_unfold; lia|done|].
  rewrite Ha. cbn [mbind option_bind]. rewrite u32_block by done.
  destruct (Z.ltb_spec nb 0); [fs_unfold; lia|].
  destruct (block_zero_ok (set_fs_bitmap bm fs) nb) as (d & -> & Hs & Hok & Hg);
    [apply Hwf|done|]. cbn [mbind option_bind].
  destruct (Z.ltb_spec j IDKFS_DIRECT_BLOCKS); [|fs_unfold; lia].
  cbn [add_free_blocks upd_sb set_fs_sb set_fs_disk set_fs_bitmap fs_inodes].
  rewrite Hi. cbn [mbind option_bind].
  assert ((i_direct i).[j] = Some IDKFS_NULL_BLOCK) as Hnull.
  { destruct (zget_is_Some (i_direct i) j) as [b Hb].
    { rewrite Inode_valid_direct by (by eapply wf_inode). lia. }
    unfold fblock in Hnone. rewrite Hi in Hnone. cbn in Hnone. rewrite Hb in *.
    cbn in Hnone. zcase_in Hnone; by subst. }
  rewrite zset_ok by (by eapply zget_bound). cbn [mbind option_bind].
  erewrite upd_inode_ok by done. cbn [mbind option_bind].
  set (fs' := set_fs_inodes _ _).
  assert (Hatt : fs_inodes fs' =
    <[Z.to_nat k := set_i_direct (<[Z.to_nat j := nb]> (i_direct i)) i]> (fs_inodes fs))
    by done.
  assert (live_at fs k) by by exists i.
  eexists fs', nb, _. split_and!; [done|done|..].
  - eapply attach_wf; try done. by apply Hok, Hwf.
  - by eapply attach_modifies.
  - rewrite Hatt, (inodes_insert _ _ i), Z.eqb_refl by done. done.
  - intros j'. by rewrite (attach_fblock fs k j nb i fs'), Z.eqb_refl.
  - intros p. by rewrite (attach_fbyte fs k j nb i fs'), Z.eqb_refl.
Qed.

Lemma set_fs_bitmap_id fs : set_fs_bitmap (fs_bitmap fs) fs = fs.
Proof. by destruct fs. Qed.

Definition size_at (fs : IDKFS) (k : Z) : Z := default 0 (i_size <$> (fs_inodes fs).[k]).

(** ** Updating the attributes of an inode *)

Lemma upd_inode_spec fs k i f :
  fs_wf fs → (fs_inodes fs).[k] = Some i → cvalid Inode_codec (f i) →
  same_attr i (f i) → i_direct (f i) = i_direct i → i_indirect1 (f i) = i_indirect1 i →
  ∃ fs', upd_inode fs k f = Some fs' ∧ fs_wf fs' ∧ modifies k fs fs' ∧
    (fs_inodes fs').[k] = Some (f i) ∧ fs_bitmap fs' = fs_bitmap fs ∧
    fs_disk fs' = fs_disk fs ∧ fs_features fs' = fs_features fs ∧
    (∀ k' j, fblock fs' k' j = fblock fs k' j) ∧
    (∀ k' p, fbyte fs' k' p = fbyte fs k' p).
Proof.
  intros Hwf Hi Hv Ha Hd Hind. rewrite (upd_inode_ok _ _ i) by done.
  set (fs' := set_fs_inodes _ fs).
  assert (Hg : ∀ k', (fs_inodes fs').[k'] =
      if k' =? k then Some (f i) else (fs_inodes fs).[k'])
    by (intros; by apply inodes_insert with i).
  assert (Hfb : ∀ k' j, fblock fs' k' j = fblock fs k' j).
  { intros k' j. unfold fblock. rewrite Hg. zcase; [|done]. subst. rewrite Hi.
    cbn [mbind option_bind]. by rewrite Hd. }
  assert (Hfy : ∀ k' p, fbyte fs' k' p = fbyte fs k' p).
  { intros k' p. unfold fbyte. by rewrite Hfb. }
  exists fs'. split_and!; try reflexivity; try assumption.
  - apply fs_wf_upd_inode with i; try assumption. unfold live, same_attr in *.
    intuition congruence.
  - split; intros.
    + rewrite Hg. by zcase.
    + simplify_eq. rewrite Hg, Z.eqb_refl. eauto.
    + cbn. by rewrite length_insert.
    + reflexivity.
    + reflexivity.
    + apply Hfy.
    + by rewrite Hfb.
    + assert (mapped_at fs' k = mapped_at fs k) as ->; [|reflexivity].
      unfold mapped_at. rewrite Hg, Z.eqb_refl, Hi. cbn. unfold mapped. by rewrite Hd.
  - by rewrite Hg, Z.eqb_refl.
Qed.

(** ** Writing within a mapped block *)

(** The patched block: the old one with [data] at [blk_off]. *)
Lemma patched_get (tmp data : list Z) off x :
  0 ≤ off → off + Z.of_nat (length data) ≤ Z.of_nat (length tmp) →
  (take (Z.to_nat off) tmp ++ data ++ drop (Z.to_nat off + length data) tmp).[x] =
  if (off <=? x) && (x <? off + Z.of_nat (length data)) then data.[x - off] else tmp.[x].
Proof.
  intros Hoff Hlen. destruct (Z.lt_ge_cases x 0).
  { rewrite !(zget_None _ x) by lia. by zcases; try lia. }
  destruct (Z.lt_ge_cases x off).
  { rewrite zget_app_l by len. rewrite zget_take by lia. by zcases; try lia. }
  rewrite zget_app_r by len. len. rewrite Nat.min_l, Z2Nat.id by lia.
  destruct (Z.lt_ge_cases x (off + Z.of_nat (length data))).
  - rewrite zget_app_l by lia. by zcases; try lia.
  - rewrite zget_app_r by lia. rewrite zget_drop by lia. zcases; try lia.
    f_equal. lia.
Qed.

Lemma patched_length (tmp data : list Z) off n :
  0 ≤ off → off + Z.of_nat (length data) ≤ Z.of_nat n → length tmp = n →
  length (take (Z.to_nat off) tmp ++ data ++ drop (Z.to_nat off + length data) tmp) = n.
Proof. intros. len. Qed.

Lemma mread_bytes m off n bs : mread m off n = Some bs → mem_ok m → bytes bs.
Proof.
  intros [_ ->]%mread_Some Hm. apply Forall_forall. intros x Hx.
  apply list_elem_of_fmap in Hx as (a & -> & _). apply Hm.
Qed.

Lemma block_patch_ok fs k j db blk_off data :
  fs_wf fs → live_at fs k → fblock fs k j = Some db → 0 ≤ blk_off →
  blk_off + Z.of_nat (length data) ≤ IDKFS_BLOCK_SIZE → bytes data →
  ∃ fs', block_patch fs db blk_off data = Some fs' ∧ fs_wf fs' ∧ modifies k fs fs' ∧
    fs_inodes fs' = fs_inodes fs ∧ fs_bitmap fs' = fs_bitmap fs ∧
    ∀ p, fbyte fs' k p =
      if (p / IDKFS_BLOCK_SIZE =? j) &&
         ((blk_off <=? p mod IDKFS_BLOCK_SIZE) &&
          (p mod IDKFS_BLOCK_SIZE <? blk_off + Z.of_nat (length data)))
      then data.[p mod IDKFS_BLOCK_SIZE - blk_off] else fbyte fs k p.
Proof.
  intros Hwf Hl Hb Hoff Hlen Hdata.
  destruct (wf_owned _ Hwf k j db) as [Hdb _]; [by split|].
  assert (block_range db) by (fs_unfold; lia). unfold block_patch.
  destruct (block_read_ok fs db) as (tmp & Hr & Htl & Hg); [apply Hwf|done|].
  rewrite Hr. cbn [mbind option_bind]. set (buf := take _ tmp ++ _).
  destruct (block_write_ok fs db buf) as (d & -> & Hs & Hok & Hgd);
    [apply Hwf|done|by apply patched_length; [done|fs_unfold; lia|]|].
  assert (mem_ok d).
  { apply Hok; [apply Hwf|]. assert (bytes tmp) by (by eapply mread_bytes, Hwf).
    unfold buf. rewrite !Forall_app. auto using Forall_take, Forall_drop. }
  eexists. split; [done|]. set (fs' := set_fs_dirty _ _).
  assert (Hfy : ∀ k' p, live_at fs k' → fbyte fs' k' p =
    if (k' =? k) && (p / IDKFS_BLOCK_SIZE =? j)
    then buf.[p mod IDKFS_BLOCK_SIZE] else fbyte fs k' p).
  { intros k' p Hl'. unfold fbyte. change (fblock fs' k') with (fblock fs k').
    destruct (fblock fs k' (p / IDKFS_BLOCK_SIZE)) as [b|] eqn:Eb; cbn [mbind option_bind].
    2: { destruct (Z.eqb_spec k' k), (Z.eqb_spec (p / IDKFS_BLOCK_SIZE) j); try done.
         subst. congruence. }
    change (fs_disk fs') with d. rewrite Hgd by (fs_unfold; zdm).
    destruct (Z.eqb_spec b db) as [->|Hne].
    - destruct (wf_inj _ Hwf k' (p / IDKFS_BLOCK_SIZE) k j db) as [-> ->]; [by split..|].
      rewrite !Z.eqb_refl. cbn [andb].
      destruct (zget_is_Some buf (p mod IDKFS_BLOCK_SIZE)) as [x Hx]; [|by rewrite Hx].
      unfold buf. rewrite (patched_length _ _ _ (Z.to_nat IDKFS_BLOCK_SIZE));
        fs_unfold; try done; try lia. zdm.
    - destruct (Z.eqb_spec k' k), (Z.eqb_spec (p / IDKFS_BLOCK_SIZE) j); try done.
      subst. congruence. }
  split_and!; try reflexivity.
  - by apply fs_wf_set_dirty, fs_wf_set_disk.
  - split; eauto using same_attr_refl; try reflexivity.
    intros k' p Hk Hl'. rewrite Hfy by done. by destruct (Z.eqb_spec k' k).
  - intros p. rewrite Hfy, Z.eqb_refl by done. cbn [andb].
    destruct (Z.eqb_spec (p / IDKFS_BLOCK_SIZE) j) as [Hp|]; [|done].
    unfold buf. rewrite patched_get by (fs_unfold; lia). cbn [andb].
    destruct (_ && _); [done|]. unfold fbyte. rewrite Hp, Hb. cbn [mbind option_bind].
    apply Hg. fs_unfold. zdm.
Qed.

(** ** The block an iteration writes to *)

Lemma mapped_at_none fs k i j :
  fs_wf fs → (fs_inodes fs).[k] = Some i → 0 ≤ j < 12 → fblock fs k j = None →
  mapped_at fs k < 12.
Proof.
  intros Hwf Hi Hj Hn. unfold mapped_at, mapped. rewrite Hi. cbn.
  assert (length (i_direct i) = 12%nat) as Hlen
    by (apply Inode_valid_direct; by eapply wf_inode).
  unfold fblock in Hn. rewrite Hi in Hn. cbn in Hn.
  destruct (zget_is_Some (i_direct i) j) as [b Hb]; [lia|]. rewrite Hb in Hn.
  cbn in Hn. zcase_in Hn; [|done]. subst.
  pose proof (direct_insert_mapped (i_direct i) j 0 Hb ltac:(done)) as Hs.
  pose proof (length_filter (λ b, b ≠ IDKFS_NULL_BLOCK)
    (<[Z.to_nat j := 0]> (i_direct i))) as Hf.
  rewrite Hs, length_insert in Hf. lia.
Qed.

Lemma write_target_ok fs k i j :
  fs_wf fs → (fs_inodes fs).[k] = Some i → live i → 0 ≤ j < 12 →
  ∃ fs' db, write_target fs k j = Some (fs', db) ∧ fs_wf fs' ∧ modifies k fs fs' ∧
    size_at fs' k = size_at fs k ∧
    ((0 ≤ db ∧ fblock fs' k j = Some db ∧
      ∀ p, fbyte fs' k p = if p / IDKFS_BLOCK_SIZE =? j
                           then Some (default 0 (fbyte fs k p)) else fbyte fs k p) ∨
     (db < 0 ∧ fs' = fs ∧ bitmap_free_count (fs_bitmap fs) = 0 ∧ fblock fs k j = None)).
Proof.
  intros Hwf Hi Hl Hj. unfold write_target. rewrite Hi. cbn [mbind option_bind].
  rewrite (inode_get_block_direct fs k) by done. cbn [mbind option_bind].
  destruct (fblock fs k j) as [b|] eqn:Eb; cbn [from_option id].
  { pose proof Eb as (i0 & Hi0 & Hb & Hnn)%fblock_Some. simplify_eq.
    destruct (Z.eqb_spec b IDKFS_NULL_BLOCK); [done|].
    exists fs, b. split_and!; [done|exact Hwf|apply modifies_refl|done|]. left.
    split; [|split; [done|]].
    - assert (owns fs k j b) as Ho by (split; [by exists i|done]).
      apply (wf_owned _ Hwf) in Ho. fs_unfold. lia.
    - intros p. zcase; [|done]. subst. unfold fbyte. by rewrite Eb. }
  rewrite Z.eqb_refl.
  destruct (Z.eq_dec (bitmap_free_count (fs_bitmap fs)) 0) as [Hz|Hz].
  { rewrite inode_map_block_full by done. cbn [mbind option_bind]. zcase; [|lia].
    rewrite set_fs_bitmap_id. exists fs, (-1).
    split_and!; [done|exact Hwf|apply modifies_refl|done|]. right.
    split_and!; [lia|done..]. }
  destruct (inode_map_block_direct fs k i j)
    as (fs1 & nb & d & -> & Hnb & Hwf1 & Hm1 & Hi1 & Hfb1 & Hfy1); try done.
  { pose proof (free_count_nonneg (fs_bitmap fs)). lia. }
  cbn [mbind option_bind]. destruct (Z.ltb_spec nb 0); [fs_unfold; lia|].
  destruct (upd_inode_spec fs1 k _
    (λ i, set_i_block_count (u32 (i_block_count i + 1)) i) Hwf1 Hi1)
    as (fs2 & -> & Hwf2 & Hm2 & Hi2 & Hbm2 & Hd2 & Hf2 & Hfb2 & Hfy2);
    [|done|done|done|].
  { apply set_i_block_count_valid; [apply u32_range|]. by eapply wf_inode. }
  cbn [mbind option_bind]. rewrite u32_block by done. exists fs2, nb.
  split_and!; [done|exact Hwf2|by eapply modifies_trans| |].
  { unfold size_at. by rewrite Hi2, Hi. }
  left. split_and!; [lia| |].
  - rewrite Hfb2, Hfb1, Z.eqb_refl. done.
  - intros p. rewrite Hfy2, Hfy1. zcase; [|done]. subst. unfold fbyte. by rewrite Eb.
Qed.

(** ** The write loop *)

Lemma io_chunk_min count total blk_off :
  0 ≤ blk_off < IDKFS_BLOCK_SIZE → total < count →
  io_chunk count total blk_off =
    Z.min (IDKFS_BLOCK_SIZE - blk_off) (count - total).
Proof.
  fs_unfold. intros. unfold io_chunk, IDKFS_BLOCK_SIZE.
  rewrite (u32_small (4096 - blk_off)) by lia. zcase; [|lia].
  rewrite u32_small by lia. lia.
Qed.

(** The position arithmetic of an iteration does not wrap below 2{^44}. *)
Lemma io_position x :
  0 ≤ x < 17592186044416 →
  u32 (u64 x / IDKFS_BLOCK_SIZE) = x / IDKFS_BLOCK_SIZE ∧
  u32 (u64 x mod IDKFS_BLOCK_SIZE) = x mod IDKFS_BLOCK_SIZE.
Proof.
  fs_unfold. intros. rewrite (u64_small x) by lia.
  split; apply u32_small; zdm.
Qed.

Lemma direct_position x :
  0 ≤ x < DIRECT_BYTES →
  0 ≤ x / IDKFS_BLOCK_SIZE < 12 ∧ 0 ≤ x mod IDKFS_BLOCK_SIZE < IDKFS_BLOCK_SIZE.
Proof. fs_unfold. zdm. Qed.

(** Byte [p] after writing [data] at [x], inside the block of [x]. *)
Lemma chunk_test p x j off len :
  j = x / IDKFS_BLOCK_SIZE → off = x mod IDKFS_BLOCK_SIZE → off + len ≤ IDKFS_BLOCK_SIZE →
  0 ≤ len →
  (p / IDKFS_BLOCK_SIZE =? j) &&
    ((off <=? p mod IDKFS_BLOCK_SIZE) && (p mod IDKFS_BLOCK_SIZE <? off + len)) =
  ((x <=? p) && (p <? x + len)).
Proof.
  fs_unfold. intros -> -> Hlen Hl.
  destruct (Z.eqb_spec (p / 4096) (x / 4096)), (Z.leb_spec (x mod 4096) (p mod 4096)),
    (Z.ltb_spec (p mod 4096) (x mod 4096 + len)), (Z.leb_spec x p),
    (Z.ltb_spec p (x + len)); try done; exfalso; zdm.
Qed.

Lemma write_step fs k i x data :
  fs_wf fs → (fs_inodes fs).[k] = Some i → live i → bytes data →
  0 ≤ x < DIRECT_BYTES →
  x mod IDKFS_BLOCK_SIZE + Z.of_nat (length data) ≤ IDKFS_BLOCK_SIZE →
  (∃ fs1 db fs', write_target fs k (x / IDKFS_BLOCK_SIZE) = Some (fs1, db) ∧ 0 ≤ db ∧
     block_patch fs1 db (x mod IDKFS_BLOCK_SIZE) data = Some fs' ∧
     fs_wf fs' ∧ modifies k fs fs' ∧ size_at fs' k = size_at fs k ∧
     (∀ p, (x <= p < x + Z.of_nat (length data)) → fbyte fs' k p = data.[p - x]) ∧
     (∀ p, ¬ (x <= p < x + Z.of_nat (length data)) →
        fbyte fs' k p = fbyte fs k p ∨ fbyte fs k p = None ∧ fbyte fs' k p = Some 0)) ∨
  (∃ db, write_target fs k (x / IDKFS_BLOCK_SIZE) = Some (fs, db) ∧ db < 0 ∧
     bitmap_free_count (fs_bitmap fs) = 0 ∧ mapped_at fs k < 12 ∧ fbyte fs k x = None).
Proof.
  intros Hwf Hi Hl Hdata Hx Hlen. destruct (direct_position x Hx) as [Hj Hoff].
  destruct (write_target_ok fs k i (x / IDKFS_BLOCK_SIZE) Hwf Hi Hl Hj)
    as (fs1 & db & Ht & Hwf1 & Hm1 & Hs1 & [(Hdb & Hfb1 & Hfy1)|(Hdb & -> & Hz & Hnb)]).
  2: { right. exists db. split_and!; [done|done|done|by eapply mapped_at_none|].
       unfold fbyte. by rewrite Hnb. }
  left.
  assert (live_at fs1 k) as Hl1 by (eapply modifies_live; [done|by exists i]).
  destruct (block_patch_ok fs1 k (x / IDKFS_BLOCK_SIZE) db (x mod IDKFS_BLOCK_SIZE) data)
    as (fs' & Hp & Hwf' & Hm' & Hin & Hbm & Hfy'); try done; [lia|].
  exists fs1, db, fs'. split_and!; [done|done|done|exact Hwf'|by eapply modifies_trans|..].
  - unfold size_at in *. by rewrite Hin.
  - intros p Hp'. rewrite Hfy'.
    rewrite (chunk_test p x) by (done || lia).
    rewrite (proj2 (Z.leb_le x p)), (proj2 (Z.ltb_lt p _)) by lia. cbn [andb].
    f_equal. fs_unfold. zdm.
  - intros p Hp'. rewrite Hfy', (chunk_test p x) by (done || lia).
    zcases; try lia; rewrite Hfy1; (zcase; [|by left]);
      (destruct (fbyte fs k p) eqn:E; [by left|by right]).
Qed.

Lemma write_loop_ok k buf offset fuel : bytes buf → 0 ≤ offset →
  offset + Z.of_nat (length buf) ≤ DIRECT_BYTES →
  ∀ fs total, fs_wf fs → live_at fs k → 0 ≤ total ≤ Z.of_nat (length buf) →
  Z.of_nat (length buf) - total ≤ Z.of_nat fuel →
  ∃ fs' ok, write_loop fs k buf offset total fuel = Some (fs', ok) ∧
    fs_wf fs' ∧ modifies k fs fs' ∧ size_at fs' k = size_at fs k ∧
    (∀ p, ¬ (offset + total ≤ p < offset + Z.of_nat (length buf)) →
       fbyte fs' k p = fbyte fs k p ∨ fbyte fs k p = None ∧ fbyte fs' k p = Some 0) ∧
    (if ok : bool
     then ∀ p, offset + total ≤ p < offset + Z.of_nat (length buf) →
            fbyte fs' k p = buf.[p - offset]
     else bitmap_free_count (fs_bitmap fs') = 0 ∧ mapped_at fs' k < 12 ∧
          ∃ p, offset + total ≤ p < offset + Z.of_nat (length buf) ∧ fbyte fs k p = None).
Proof.
  intros Hbuf Hoff Hmax. induction fuel as [|fuel IH]; intros fs total Hwf Hl Ht Hf;
    cbn [write_loop].
  { destruct (Z.ltb_spec total (Z.of_nat (length buf))); [lia|].
    exists fs, true. split_and!; [done|exact Hwf|apply modifies_refl|done|by left|lia]. }
  destruct (Z.ltb_spec total (Z.of_nat (length buf))).
  2: { exists fs, true. split_and!; [done|exact Hwf|apply modifies_refl|done|by left|lia]. }
  assert (0 ≤ offset + total < DIRECT_BYTES) as Hx by lia.
  destruct (io_position (offset + total)) as [-> ->]; [fs_unfold; lia|].
  destruct (direct_position (offset + total)) as [Hj Ho]; [done|].
  rewrite io_chunk_min by done. set (can := Z.min _ _).
  set (data := take (Z.to_nat can) (drop (Z.to_nat total) buf)).
  assert (Z.of_nat (length data) = can ∧ 0 < can) as [Hdl Hcan].
  { unfold data, can in *. len. }
  destruct Hl as (i & Hi & Hl).
  destruct (write_step fs k i (offset + total) data)
    as [(fs1 & db & fs2 & -> & Hdb & Hp & Hwf2 & Hm2 & Hs2 & Hin2 & Hout2)
       |(db & -> & Hdb & Hz & Hmp & Hnx)]; try done.
  { by apply Forall_take, Forall_drop. }
  { unfold can in *. lia. }
  2: { cbn [mbind option_bind]. zcase; [|lia]. exists fs, false.
       split_and!; [done|exact Hwf|apply modifies_refl|done|by left|done|done|].
       exists (offset + total). split; [lia|done]. }
  cbn [mbind option_bind]. destruct (Z.ltb_spec db 0); [lia|]. rewrite Hp.
  cbn [mbind option_bind].
  destruct (IH fs2 (total + can)) as (fs' & ok & Hw & Hwf' & Hm' & Hs' & Hout' & Hok);
    [exact Hwf2|eapply modifies_live; [done|by exists i]|unfold can; lia|lia|].
  exists fs', ok. split_and!; [done|exact Hwf'|by eapply modifies_trans|congruence|..].
  - intros p Hpp. destruct (Hout' p) as [E|[E1 E2]]; [lia| |];
      (destruct (Hout2 p) as [E'|[E3 E4]]; [lia| |]).
    + left. congruence.
    + right. split; congruence.
    + right. split; congruence.
    + congruence.
  - destruct ok.
    2: { destruct Hok as (? & ? & p & Hpp & Hnp). split_and!; [done|done|].
         exists p. split; [lia|]. destruct (Hout2 p) as [?|[??]]; [lia|congruence|done]. }
    intros p Hpp. destruct (Z.lt_ge_cases p (offset + total + can)).
    + destruct (Hout' p) as [->|[E _]]; [lia| |]; rewrite Hin2 in * by lia.
      * unfold data. rewrite zget_take, zget_drop by lia. f_equal. lia.
      * destruct (zget_is_Some data (p - (offset + total))) as [y Hy]; [lia|congruence].
    + apply Hok. lia.
Qed.

(** ** [idkfs_write] *)

Lemma cenc_inode_bytes i n : cvalid Inode_codec i → bytes (take n (cenc Inode_codec i)).
Proof. intros. apply Forall_take. by apply cenc_bytes. Qed.

Lemma write_checksum_valid feat i :
  cvalid Inode_codec i → cvalid Inode_codec (write_checksum feat i).
Proof.
  intros. unfold write_checksum. destruct (checksums feat); [|done].
  apply set_i_checksum_valid; [|done]. by apply crc32_range, cenc_inode_bytes.
Qed.

Lemma write_inode_spec feat count offset now i :
  cvalid Inode_codec i → 0 ≤ offset + count < 18446744073709551616 →
  cvalid Inode_codec (write_inode feat count offset now i) ∧
  same_attr i (write_inode feat count offset now i) ∧
  i_direct (write_inode feat count offset now i) = i_direct i ∧
  i_indirect1 (write_inode feat count offset now i) = i_indirect1 i ∧
  i_size (write_inode feat count offset now i) = Z.max (i_size i) (offset + count).
Proof.
  intros Hv Hr. unfold write_inode. rewrite u64_small by done. split.
  - apply write_checksum_valid. unfold write_times, write_size.
    destruct (timestamps feat); zcase;
      auto using set_i_mtime_valid, set_i_ctime_valid, set_i_size_valid, u64_range.
  - unfold write_checksum, write_times, write_size, same_attr.
    destruct (checksums feat), (timestamps feat); zcase;
      cbn -[crc32 cenc csize]; intuition lia.
Qed.

Lemma modifies_set_dirty k fs v : modifies k fs (set_fs_dirty v fs).
Proof. split; eauto using same_attr_refl; reflexivity. Qed.

Lemma size_at_inode fs k i : (fs_inodes fs).[k] = Some i → size_at fs k = i_size i.
Proof. intros Hi. unfold size_at. by rewrite Hi. Qed.

(** Total correctness of [idkfs_write] within the direct blocks: it either
    stores every byte, or fails on a full disk. *)
Lemma idkfs_write_ok fs k buf offset now :
  fs_wf fs → live_at fs k → bytes buf → 0 ≤ offset →
  offset + Z.of_nat (length buf) ≤ DIRECT_BYTES →
  ∃ fs' r, idkfs_write fs k buf offset now = Some (fs', r) ∧
    fs_wf fs' ∧ modifies k fs fs' ∧
    (∀ p, ¬ (offset ≤ p < offset + Z.of_nat (length buf)) →
       fbyte fs' k p = fbyte fs k p ∨ fbyte fs k p = None ∧ fbyte fs' k p = Some 0) ∧
    ((r = Z.of_nat (length buf) ∧
      (∀ p, offset ≤ p < offset + Z.of_nat (length buf) → fbyte fs' k p = buf.[p - offset]) ∧
      size_at fs' k = Z.max (size_at fs k) (offset + Z.of_nat (length buf))) ∨
     (r = -1 ∧ bitmap_free_count (fs_bitmap fs') = 0 ∧ mapped_at fs' k < 12 ∧
      size_at fs' k = size_at fs k ∧
      ∃ p, offset ≤ p < offset + Z.of_nat (length buf) ∧ fbyte fs k p = None)).
Proof.
  intros Hwf Hl Hbuf Hoff Hmax. unfold idkfs_write.
  destruct (write_loop_ok k buf offset (length buf) Hbuf Hoff Hmax fs 0 Hwf Hl)
    as (fs1 & ok & -> & Hwf1 & Hm1 & Hs1 & Hout1 & Hok1); [lia..|].
  rewrite Z.add_0_r in *. cbn [mbind option_bind]. destruct ok.
  2: { destruct Hok1 as (? & ? & ?). exists fs1, (-1).
       split_and!; [done|exact Hwf1|exact Hm1|exact Hout1|]. right. done. }
  destruct (modifies_live _ _ _ k Hm1 Hl) as (i & Hi & Hli).
  destruct (write_inode_spec (fs_features fs1) (Z.of_nat (length buf)) offset now i)
    as (Hv & Ha & Hd & Hind & Hsz); [by eapply wf_inode|fs_unfold; lia|].
  destruct (upd_inode_spec fs1 k i
    (write_inode (fs_features fs1) (Z.of_nat (length buf)) offset now) Hwf1 Hi Hv Ha Hd Hind)
    as (fs2 & -> & Hwf2 & Hm2 & Hi2 & _ & _ & _ & _ & Hfy2).
  cbn [mbind option_bind]. exists (set_fs_dirty true fs2), (Z.of_nat (length buf)).
  split_and!; [done|by apply fs_wf_set_dirty| | |].
  - eapply modifies_trans; [exact Hm1|]. eapply modifies_trans; [exact Hm2|].
    apply modifies_set_dirty.
  - intros p Hp. change (fbyte (set_fs_dirty true fs2)) with (fbyte fs2).
    rewrite Hfy2. by apply Hout1.
  - left. split_and!; [done| |].
    + intros p Hp. change (fbyte (set_fs_dirty true fs2)) with (fbyte fs2).
      rewrite Hfy2. by apply Hok1.
    + change (size_at (set_fs_dirty true fs2)) with (size_at fs2).
      rewrite <- Hs1, (size_at_inode fs2 k _ Hi2), (size_at_inode fs1 k i Hi). done.
Qed.

(** A write cannot fail while the free blocks cover the unmapped direct
    blocks of the file. *)
Lemma idkfs_write_room fs k buf offset now :
  fs_wf fs → live_at fs k → bytes buf → 0 ≤ offset →
  offset + Z.of_nat (length buf) ≤ DIRECT_BYTES →
  12 ≤ bitmap_free_count (fs_bitmap fs) + mapped_at fs k →
  ∃ fs', idkfs_write fs k buf offset now = Some (fs', Z.of_nat (length buf)) ∧
    fs_wf fs' ∧ modifies k fs fs' ∧
    (∀ p, ¬ (offset ≤ p < offset + Z.of_nat (length buf)) →
       fbyte fs' k p = fbyte fs k p ∨ fbyte fs k p = None ∧ fbyte fs' k p = Some 0) ∧
    (∀ p, offset ≤ p < offset + Z.of_nat (length buf) → fbyte fs' k p = buf.[p - offset]) ∧
    size_at fs' k = Z.max (size_at fs k) (offset + Z.of_nat (length buf)).
Proof.
  intros Hwf Hl Hbuf Hoff Hmax Hroom.
  destruct (idkfs_write_ok fs k buf offset now)
    as (fs' & r & Hw & Hwf' & Hm & Hout & [(-> & Hin & Hs)|(-> & Hz & Hmp & _ & _)]); try done.
  - exists fs'. split_and!; [exact Hw|exact Hwf'|done..].
  - pose proof (mod_count _ _ _ Hm). lia.
Qed.

(** ** [idkfs_read] *)

Lemma read_chunk (tmp : list Z) off can x :
  0 ≤ off → 0 ≤ x < can → off + can ≤ Z.of_nat (length tmp) →
  (take (Z.to_nat can) (drop (Z.to_nat off) tmp)).[x] = tmp.[off + x].
Proof. intros. rewrite zget_take, zget_drop by lia. f_equal. lia. Qed.

Lemma read_loop_ok fs k i count offset :
  fs_wf fs → (fs_inodes fs).[k] = Some i → live i →
  0 ≤ offset → offset + count ≤ DIRECT_BYTES →
  ∀ fuel total, 0 ≤ total ≤ count → count - total ≤ Z.of_nat fuel →
  ∃ out, read_loop fs i count offset total fuel = Some out ∧
    Z.of_nat (length out) ≤ count - total ∧
    (∀ x, 0 ≤ x < Z.of_nat (length out) → fbyte fs k (offset + total + x) = out.[x]) ∧
    (Z.of_nat (length out) < count - total →
       fbyte fs k (offset + total + Z.of_nat (length out)) = None).
Proof.
  intros Hwf Hi Hl Hoff Hmax. induction fuel as [|fuel IH]; intros total Ht Hf;
    cbn [read_loop].
  { destruct (Z.ltb_spec total count); [lia|]. exists []. split_and!; cbn; [done|lia|intros; lia..]. }
  destruct (Z.ltb_spec total count).
  2: { exists []. split_and!; cbn; [done|lia|intros; lia..]. }
  assert (0 ≤ offset + total < DIRECT_BYTES) as Hx by lia.
  destruct (io_position (offset + total)) as [-> ->]; [fs_unfold; lia|].
  destruct (direct_position (offset + total)) as [Hj Ho]; [done|].
  rewrite io_chunk_min by done. set (can := Z.min _ _).
  rewrite (inode_get_block_direct fs k) by done. cbn [mbind option_bind].
  destruct (fblock fs k ((offset + total) / IDKFS_BLOCK_SIZE)) as [db|] eqn:Eb;
    cbn [from_option id].
  2: { rewrite Z.eqb_refl. exists []. split_and!; cbn; [done|lia|intros; lia|]. intros _.
       rewrite Z.add_0_r. unfold fbyte. by rewrite Eb. }
  destruct (wf_owned _ Hwf k ((offset + total) / IDKFS_BLOCK_SIZE) db) as [Hdb _];
    [split; [by exists i|done]|].
  destruct (Z.eqb_spec db IDKFS_NULL_BLOCK); [fs_unfold; lia|].
  destruct (block_read_ok fs db) as (tmp & -> & Htl & Hg); [apply Hwf|fs_unfold; lia|].
  cbn [mbind option_bind].
  destruct (IH (total + can)) as (rest & -> & Hrl & Hrx & Hrn);
    [unfold can; lia|unfold can; lia|].
  cbn [mbind option_bind]. eexists. split; [done|].
  set (chunk := take _ _).
  assert (Z.of_nat (length chunk) = can) as Hcl.
  { unfold chunk, can in *. rewrite length_take, length_drop. fs_unfold. lia. }
  rewrite length_app. split_and!; [lia| |].
  - intros x Hx'. destruct (Z.lt_ge_cases x can).
    + rewrite zget_app_l by lia. unfold chunk. rewrite read_chunk by (unfold can in *; fs_unfold; lia).
      rewrite Hg by (unfold can in *; lia). unfold fbyte.
      replace ((offset + total + x) / IDKFS_BLOCK_SIZE)
        with ((offset + total) / IDKFS_BLOCK_SIZE) by (unfold can in *; fs_unfold; zdm).
      rewrite Eb. cbn [mbind option_bind]. do 2 f_equal.
      unfold can in *. fs_unfold. zdm.
    + rewrite zget_app_r by lia. rewrite Hcl, <- Hrx by lia. f_equal. lia.
  - intros Hlt. rewrite <- Hrn by lia. f_equal. lia.
Qed.

Lemma idkfs_read_ok fs k i count offset now :
  fs_wf fs → (fs_inodes fs).[k] = Some i → live i → i_size i ≤ DIRECT_BYTES →
  0 ≤ offset → 0 ≤ count → offset + count < 18446744073709551616 →
  let n := Z.max 0 (Z.min count (i_size i - offset)) in
  ∃ fs' out, idkfs_read fs k count offset now = Some (fs', out) ∧
    fs_wf fs' ∧ modifies k fs fs' ∧ size_at fs' k = size_at fs k ∧
    fs_bitmap fs' = fs_bitmap fs ∧
    (∀ k' p, fbyte fs' k' p = fbyte fs k' p) ∧
    Z.of_nat (length out) ≤ n ∧
    (∀ x, 0 ≤ x < Z.of_nat (length out) → fbyte fs k (offset + x) = out.[x]) ∧
    (Z.of_nat (length out) < n → fbyte fs k (offset + Z.of_nat (length out)) = None).
Proof.
  intros Hwf Hi Hl Hsz Hoff Hc Hov n. unfold idkfs_read. rewrite Hi. cbn [mbind option_bind].
  destruct (Z.leb_spec (i_size i) offset).
  { exists fs, []. unfold n.
    split_and!; [done|exact Hwf|apply modifies_refl|done..| | |]; cbn; lia. }
  rewrite (u64_small (offset + count)) by lia.
  set (c := if i_size i <? offset + count then _ else count).
  assert (c = n ∧ 0 ≤ c ∧ offset + c ≤ i_size i) as (Hcn & Hc0 & Hcs).
  { unfold c, n. zcase; lia. }
  destruct (read_loop_ok fs k i c offset Hwf Hi Hl Hoff ltac:(lia) (Z.to_nat c) 0)
    as (out & -> & Hlen & Hx & Hn); [lia..|].
  cbn [mbind option_bind]. rewrite Z.add_0_r, Z.sub_0_r in *. rewrite Hcn in *.
  destruct (timestamps (fs_features fs)); cbn [mbind option_bind].
  - destruct (upd_inode_spec fs k i (set_i_atime (u64 now)) Hwf Hi)
      as (fs' & -> & Hwf' & Hm & Hi' & Hbm & _ & _ & _ & Hfy); try done.
    { apply set_i_atime_valid; [apply u64_range|]. by eapply wf_inode. }
    cbn [mbind option_bind]. exists fs', out.
    split_and!; [done|exact Hwf'|exact Hm| |done..].
    by rewrite (size_at_inode fs' k _ Hi'), (size_at_inode fs k i Hi).
  - exists fs, out. split_and!; [done|exact Hwf|apply modifies_refl|done..].
Qed.
