(* ===== verification/Dir.v ===== *)
(** * Directories of [idkfs_core.c]

    [idkfs_dir_add], [idkfs_dir_lookup] and [idkfs_dir_remove] on the
    [Directory] structure a directory inode holds as its file.

    A [Directory] local of the source starts indeterminate; using it after
    a short [idkfs_read] is undefined behaviour, hence [None]. *)

From S2P Require Import Prelude Cint CString Codec Mem CoreTypes Bitmap Core.
From S2P Require Import FileIO.

Definition ENOENT : Z := 2.
Definition ENOTDIR : Z := 20.

Definition DIR_BYTES : Z := 33412.

(** [Directory dir; idkfs_read(fs, dir_ino, &dir, sizeof(dir), 0);] *)
Definition dir_load (fs : IDKFS) (k now : Z) : option (IDKFS * Directory) :=
  '(fs, out) ← idkfs_read fs k DIR_BYTES 0 now;
  if Z.of_nat (length out) =? DIR_BYTES
  then Some (fs, cdec Directory_codec out) else None.

(** [idkfs_write(fs, dir_ino, &dir, sizeof(dir), 0);], result ignored. *)
Definition dir_store (fs : IDKFS) (k : Z) (d : Directory) (now : Z) : option IDKFS :=
  '(fs, _) ← idkfs_write fs k (cenc Directory_codec d) 0 now;
  Some fs.

Definition dir_entry (old : DirEntry) (name : list Z) (ino : Z) (type : FileType) :
    DirEntry :=
  mkDirEntry (u32 ino) (u8 (ft_val type)) (u8 (strlen name))
    (strncpy (e_name old) name (Z.to_nat IDKFS_MAX_FILENAME)).

Definition idkfs_dir_add (fs : IDKFS) (k : Z) (name : list Z) (ino : Z)
    (type : FileType) (now : Z) : option (IDKFS * Z) :=
  i ← (fs_inodes fs).[k];
  '(fs, dir) ← (if i_size i =? 0 then Some (fs, Directory_zero)
                else dir_load fs k now);
  if IDKFS_MAX_DIRENTS <=? d_count dir then Some (fs, -1)
  else
    e ← (d_entries dir).[d_count dir];
    es ← (d_entries dir).[d_count dir := dir_entry e name ino type];
    fs ← dir_store fs k (mkDirectory (u32 (d_count dir + 1)) es) now;
    Some (fs, 0).

(** The search loop of lookup and remove: the index and entry of the first
    name equal to [name] among the [n] entries from [i]. *)
Fixpoint dir_find (es : list DirEntry) (name : list Z) (i : Z) (n : nat) :
    option (option (Z * DirEntry)) :=
  match n with
  | O => Some None
  | S n =>
      e ← es.[i];
      if strncmp (e_name e) name (Z.to_nat IDKFS_MAX_FILENAME) =? 0
      then Some (Some (i, e)) else dir_find es name (i + 1) n
  end.

Definition idkfs_dir_lookup (fs : IDKFS) (k : Z) (name : list Z) (now : Z) :
    option (IDKFS * Z) :=
  i ← (fs_inodes fs).[k];
  if i_size i =? 0 then Some (fs, -1)
  else
    '(fs, dir) ← dir_load fs k now;
    r ← dir_find (d_entries dir) name 0 (Z.to_nat (d_count dir));
    match r with
    | Some (_, e) => Some (fs, i32 (e_inode e))
    | None => Some (fs, -1)
    end.

(** [for (i = idx; i + 1 < count; i++) entries[i] = entries[i + 1];] *)
Fixpoint dir_shift (es : list DirEntry) (i : Z) (n : nat) : option (list DirEntry) :=
  match n with
  | O => Some es
  | S n =>
      e ← es.[i + 1];
      es ← es.[i := e];
      dir_shift es (i + 1) n
  end.

Definition dir_delete (d : Directory) (idx : Z) : option Directory :=
  es ← dir_shift (d_entries d) idx (Z.to_nat (d_count d - 1 - idx));
  let count := u32 (d_count d - 1) in
  es ← es.[count := DirEntry_zero];
  Some (mkDirectory count es).

Definition idkfs_dir_remove (fs : IDKFS) (k : Z) (name : list Z) (now : Z) :
    option (IDKFS * Z) :=
  i ← (fs_inodes fs).[k];
  if negb (i_type i =? ft_val IDKFS_FT_DIR) then Some (fs, - ENOTDIR)
  else if i_size i =? 0 then Some (fs, - ENOENT)
  else
    '(fs, dir) ← dir_load fs k now;
    r ← dir_find (d_entries dir) name 0 (Z.to_nat (d_count dir));
    match r with
    | None => Some (fs, - ENOENT)
    | Some (idx, _) =>
        dir ← dir_delete dir idx;
        fs ← dir_store fs k dir now;
        Some (fs, 0)
    end.

(** ** Specification

    A directory is the list of its entries; an entry is found by the first
    255 bytes of the name looked up. *)

Definition d_list (d : Directory) : list DirEntry :=
  take (Z.to_nat (d_count d)) (d_entries d).
Definition entry_name (e : DirEntry) : list Z := c_str (e_name e).
Definition name_key (name : list Z) : list Z := take (Z.to_nat IDKFS_MAX_FILENAME) name.
Definition named (name : list Z) (e : DirEntry) : Prop := entry_name e = name_key name.
(** The name a listing shows is the whole name. *)
Definition entry_full (e : DirEntry) : Prop :=
  c_str (take (Z.to_nat (e_name_len e)) (e_name e)) = entry_name e.
(** An entry made for [name] with a type; a longer name is cut by its length
    byte. *)
Definition entry_as (type : FileType) (name : list Z) (e : DirEntry) : Prop :=
  e_type e = ft_val type ∧ ((length name ≤ 255)%nat → entry_full e).
#[export] Instance named_dec name e : Decision (named name e) := list_eq_dec _ _.

(** The entry a list of entries maps [name] to: the first one so named. *)
Definition list_lookup_name (name : list Z) (l : list DirEntry) : option (nat * DirEntry) :=
  list_find (named name) l.

Definition dir_ok (d : Directory) : Prop :=
  cvalid Directory_codec d ∧ d_count d ≤ IDKFS_MAX_DIRENTS.

(** Inode [k] is live and its file holds directory [d]. *)
Definition dir_is (fs : IDKFS) (k : Z) (d : Directory) : Prop :=
  live_at fs k ∧ dir_ok d ∧
  ((size_at fs k = 0 ∧ d = Directory_zero) ∨
   (size_at fs k = DIR_BYTES ∧
    ∀ p, 0 ≤ p < DIR_BYTES → fbyte fs k p = (cenc Directory_codec d).[p])).

(** ** Names *)

Lemma strncmp_c_str a t n :
  length a = n → cstring t → strncmp a t n = 0 ↔ c_str a = take n t.
Proof.
  intros <-. revert t. induction a as [|x a IH]; intros t Ht; cbn [length strncmp c_str].
  { by rewrite take_0. }
  destruct Ht as [|y t Hy Ht]; cbn [List.hd tail take].
  - destruct (Z.eqb_spec x 0); split; intros; done || lia.
  - destruct (Z.eqb_spec x y) as [->|].
    + destruct (Z.eqb_spec y 0); [lia|]. rewrite IH by done.
      split; [by intros ->|by intros [=]].
    + destruct (Z.eqb_spec x 0); (split; [lia|intros [=]; lia]).
Qed.

Lemma DirEntry_name_length e : cvalid DirEntry_codec e → length (e_name e) = 255%nat.
Proof. solve_valid. Qed.

Lemma strncmp_named e name :
  cvalid DirEntry_codec e → cstring name →
  strncmp (e_name e) name (Z.to_nat IDKFS_MAX_FILENAME) = 0 ↔ named name e.
Proof.
  intros He Hn. apply strncmp_c_str; [|done]. by rewrite DirEntry_name_length.
Qed.

Lemma dir_entry_named old name ino type :
  cvalid DirEntry_codec old → cstring name → named name (dir_entry old name ino type).
Proof.
  intros Ho Hn. unfold named, entry_name, dir_entry, strncpy. cbn [e_name].
  rewrite drop_ge by (by rewrite DirEntry_name_length).
  rewrite app_nil_r. by apply c_str_strncpy_bytes.
Qed.

Lemma dir_entry_as old name ino type :
  cvalid DirEntry_codec old → cstring name → entry_as type name (dir_entry old name ino type).
Proof.
  intros Ho Hn. split; [by destruct type|]. intros Hlen. unfold entry_full, entry_name.
  cbn [e_name e_name_len dir_entry]. unfold strncpy.
  rewrite drop_ge by (by rewrite DirEntry_name_length). rewrite app_nil_r.
  unfold strlen. rewrite u8_small, Nat2Z.id by lia.
  change (Z.to_nat IDKFS_MAX_FILENAME) with 255%nat.
  rewrite c_str_strncpy_bytes by done. unfold strncpy_bytes.
  rewrite take_take, Nat.min_l by lia. rewrite take_app_length.
  rewrite take_ge by lia. clear Hlen. induction Hn as [|x s Hx _ IH]; [done|].
  cbn [c_str]. destruct (Z.eqb_spec x 0); [lia|]. by rewrite IH.
Qed.

Lemma dir_entry_valid old name ino type :
  cvalid DirEntry_codec old → cstring name →
  cvalid DirEntry_codec (dir_entry old name ino type).
Proof.
  intros Ho Hn. assert (length (e_name old) = 255%nat) as Hlen
    by by apply DirEntry_name_length.
  unfold dir_entry, strncpy.
  rewrite (drop_ge (e_name old)) by (by rewrite Hlen). rewrite app_nil_r.
  pose proof (u32_range ino). pose proof (u8_range (ft_val type)).
  pose proof (u8_range (strlen name)).
  assert (length (strncpy_bytes name (Z.to_nat IDKFS_MAX_FILENAME)) = 255%nat)
    by apply strncpy_bytes_length.
  pose proof (strncpy_bytes_bytes name (Z.to_nat IDKFS_MAX_FILENAME) Hn).
  unfold_valid. split_and!; done || lia.
Qed.

(** ** The search loop *)

Lemma dir_find_ok es name i n :
  Forall (cvalid DirEntry_codec) es → cstring name → 0 ≤ i →
  i + Z.of_nat n ≤ Z.of_nat (length es) →
  dir_find es name i n =
    Some (match list_lookup_name name (take n (drop (Z.to_nat i) es)) with
          | Some (x, e) => Some (i + Z.of_nat x, e)
          | None => None
          end).
Proof.
  intros Hes Hn. revert i. induction n as [|n IH]; intros i Hi Hlen; [done|].
  cbn [dir_find]. destruct (zget_is_Some es i) as [e He]; [lia|]. rewrite He.
  cbn [mbind option_bind]. pose proof He as [_ He']%zget_Some.
  rewrite (drop_S es e) by done. cbn [take]. unfold list_lookup_name.
  cbn [list_find]. assert (cvalid DirEntry_codec e) as Hv
    by (by eapply Forall_lookup_1 in Hes).
  pose proof (strncmp_named e name Hv Hn) as Hs.
  destruct (Z.eqb_spec (strncmp (e_name e) name (Z.to_nat IDKFS_MAX_FILENAME)) 0) as [E|E].
  - rewrite decide_True by (by apply Hs). cbn. by rewrite Z.add_0_r.
  - rewrite decide_False by tauto. rewrite IH by lia.
    replace (Z.to_nat (i + 1)) with (S (Z.to_nat i)) by lia.
    fold (list_lookup_name name (take n (drop (S (Z.to_nat i)) es))).
    unfold list_lookup_name at 2.
    destruct (list_lookup_name _ _) as [[x e']|] eqn:El; unfold list_lookup_name in El;
      rewrite El; cbn; [|done]. do 3 f_equal. lia.
Qed.

Lemma dir_find_d_list d name :
  dir_ok d → cstring name →
  dir_find (d_entries d) name 0 (Z.to_nat (d_count d)) =
    Some (match list_lookup_name name (d_list d) with
          | Some (x, e) => Some (Z.of_nat x, e)
          | None => None
          end).
Proof.
  intros [Hv Hc] Hn. destruct Hv as (Hv1 & Hv2 & Hv3). unfold IDKFS_MAX_DIRENTS in Hc.
  rewrite dir_find_ok; [done|exact Hv3|done|done|].
  change (length (d_entries d) = 128%nat) in Hv2. lia.
Qed.

(** ** Removal from the entry array *)

Lemma dir_shift_ok es i n :
  0 ≤ i → i + Z.of_nat n < Z.of_nat (length es) →
  ∃ es', dir_shift es i n = Some es' ∧ length es' = length es ∧
    (∀ P, Forall P es → Forall P es') ∧
    ∀ x, es'.[x] = if (i <=? x) && (x <? i + Z.of_nat n) then es.[x + 1] else es.[x].
Proof.
  revert es i. induction n as [|n IH]; intros es i Hi Hn; cbn [dir_shift].
  { exists es. split_and!; auto. intros x. by zcases; try lia. }
  destruct (zget_is_Some es (i + 1)) as [e He]; [lia|]. rewrite He.
  cbn [mbind option_bind]. rewrite zset_ok by lia. cbn [mbind option_bind].
  destruct (IH (<[Z.to_nat i := e]> es) (i + 1)) as (es' & -> & Hl & HP & Hg);
    [lia|rewrite length_insert; lia|].
  exists es'. split; [done|]. rewrite length_insert in Hl. split; [done|]. split.
  { intros P HPes. apply HP, Forall_insert; [done|].
    apply zget_Some in He as [_ He]. by eapply Forall_lookup_1 in HPes. }
  intros x. rewrite Hg. destruct (Z.eq_dec x i) as [->|].
  - zcases; try lia. by rewrite zget_insert_eq by lia.
  - zcases; try lia; apply zget_insert_ne; lia.
Qed.

Lemma d_list_get d x :
  (d_list d).[x] = if (x <? d_count d) then (d_entries d).[x] else None.
Proof.
  unfold d_list. zcase.
  - apply zget_take. lia.
  - apply zget_None. len.
Qed.

Lemma dir_valid_fields d :
  dir_ok d → 0 ≤ d_count d ≤ 128 ∧ length (d_entries d) = 128%nat ∧
  Forall (cvalid DirEntry_codec) (d_entries d).
Proof.
  intros [(Hv1 & Hv2 & Hv3) Hc]. unfold IDKFS_MAX_DIRENTS in Hc.
  change (0 ≤ d_count d < 256 ^ Z.of_nat 4) in Hv1.
  split_and!; [lia|lia|exact Hv2|exact Hv3].
Qed.

Lemma dir_ok_intro c es :
  0 ≤ c ≤ 128 → length es = 128%nat → Forall (cvalid DirEntry_codec) es →
  dir_ok (mkDirectory c es).
Proof.
  intros Hc Hl Hv. split; [|unfold IDKFS_MAX_DIRENTS; cbn; lia].
  split; [cbn -[Z.pow Z.of_nat]; pow256; lia|]. split; [exact Hl|exact Hv].
Qed.

Lemma d_list_length d : dir_ok d → Z.of_nat (length (d_list d)) = d_count d.
Proof. intros (? & ? & _)%dir_valid_fields. unfold d_list. len. Qed.

Lemma zget_delete {A} (l : list A) (i : nat) x :
  (delete i l).[x] = if x <? Z.of_nat i then l.[x] else if 0 <=? x then l.[x + 1] else None.
Proof.
  unfold zget. zcases; try lia; try done.
  - apply list_lookup_delete_lt. lia.
  - rewrite list_lookup_delete_ge by lia. f_equal. lia.
Qed.

Lemma dir_delete_ok d idx :
  dir_ok d → 0 ≤ idx < d_count d →
  ∃ d', dir_delete d idx = Some d' ∧ dir_ok d' ∧
    d_list d' = delete (Z.to_nat idx) (d_list d).
Proof.
  intros Hd Hidx. destruct (dir_valid_fields d Hd) as (Hc & Hl & Hv).
  unfold dir_delete.
  destruct (dir_shift_ok (d_entries d) idx (Z.to_nat (d_count d - 1 - idx)))
    as (es & -> & Hes & HP & Hg); [lia|lia|].
  cbn [mbind option_bind]. rewrite u32_small by lia. rewrite zset_ok by lia.
  cbn [mbind option_bind]. eexists. split; [done|].
  set (es' := <[_ := _]> es).
  assert (dir_ok (mkDirectory (d_count d - 1) es')) as Hok'.
  { apply dir_ok_intro; [lia|unfold es'; rewrite length_insert; lia|].
    apply Forall_insert; [by apply HP|apply DirEntry_zero_valid]. }
  split; [exact Hok'|].
  pose proof (d_list_length _ Hd). pose proof (d_list_length _ Hok') as Hl'.
  cbn [d_count] in Hl'. apply zget_ext.
  { rewrite length_delete by (apply lookup_lt_is_Some_2; lia). lia. }
  intros x Hx. rewrite d_list_get, zget_delete, !d_list_get. cbn [d_count d_entries].
  unfold es'. rewrite zget_insert_ne by lia. rewrite Hg.
  zcases; try lia; try done; (f_equal; lia).
Qed.

(** ** Reading and writing the structure *)

Lemma Directory_size : Z.of_nat (csize Directory_codec) = DIR_BYTES.
Proof. vm_compute. reflexivity. Qed.

Lemma dir_cenc_length d : dir_ok d → Z.of_nat (length (cenc Directory_codec d)) = DIR_BYTES.
Proof.
  intros [Hv _]. rewrite cenc_length by done. apply Directory_size.
Qed.

(** The file bytes and size of inode [k] are those of [fs]. *)
Definition same_file (fs fs' : IDKFS) (k : Z) : Prop :=
  (∀ p, fbyte fs' k p = fbyte fs k p) ∧ size_at fs' k = size_at fs k.

Lemma dir_is_same fs fs' k d :
  same_file fs fs' k → (live_at fs k → live_at fs' k) → dir_is fs k d → dir_is fs' k d.
Proof.
  intros [Hb Hs] Hl (Hlive & Hok & Hd). split; [auto|]. split; [done|].
  rewrite Hs. by setoid_rewrite Hb.
Qed.

Lemma modifies_other_dir k fs fs' k' d :
  modifies k fs fs' → k' ≠ k → dir_is fs k' d → dir_is fs' k' d.
Proof.
  intros Hm Hne Hd. pose proof Hd as (Hl & _ & _). apply (dir_is_same fs); [| |exact Hd].
  - split.
    + intros p. by apply (mod_bytes _ _ _ Hm).
    + unfold size_at. by rewrite (mod_others _ _ _ Hm).
  - by apply (modifies_live k fs).
Qed.

Lemma dir_load_ok fs k d now :
  fs_wf fs → dir_is fs k d → size_at fs k ≠ 0 →
  ∃ fs', dir_load fs k now = Some (fs', d) ∧ fs_wf fs' ∧ modifies k fs fs' ∧
    same_file fs fs' k ∧ fs_bitmap fs' = fs_bitmap fs.
Proof.
  intros Hwf (Hl & Hok & Hd) Hs0. destruct Hd as [[? _]|[Hs Hb]]; [done|].
  destruct Hl as (i & Hi & Hl). rewrite (size_at_inode _ _ _ Hi) in Hs.
  unfold dir_load.
  destruct (idkfs_read_ok fs k i DIR_BYTES 0 now)
    as (fs' & out & -> & Hwf' & Hm & Hsz & Hbm & Hby & Hlen & Hx & Hn);
    try done; [fs_unfold; unfold DIR_BYTES in *; lia|].
  rewrite Hs in Hlen, Hn. cbn [mbind option_bind].
  assert (Z.of_nat (length out) = DIR_BYTES) as Hlo.
  { destruct (Z.lt_ge_cases (Z.of_nat (length out)) DIR_BYTES) as [Hlt|].
    - exfalso. assert (fbyte fs k (0 + Z.of_nat (length out)) = None) as Hnone
        by (apply Hn; unfold DIR_BYTES in *; lia).
      rewrite Z.add_0_l, Hb in Hnone by lia.
      destruct (zget_is_Some (cenc Directory_codec d) (Z.of_nat (length out)))
        as [y Hy]; [rewrite dir_cenc_length by done; lia|congruence].
    - unfold DIR_BYTES in *. lia. }
  rewrite Hlo, Z.eqb_refl. exists fs'. split_and!; [|exact Hwf'|exact Hm|by split|done].
  do 2 f_equal. replace out with (cenc Directory_codec d); [exact (cdec_enc' Directory_codec d (proj1 Hok))|].
  apply zget_ext.
  - pose proof (dir_cenc_length d Hok). lia.
  - intros x Hxr. rewrite dir_cenc_length in Hxr by done.
    rewrite <- Hb, <- Hx by lia. done.
Qed.

(** Room for a directory: enough free blocks, or its blocks are mapped. *)
Definition dir_room (fs : IDKFS) (k : Z) : Prop :=
  size_at fs k ≠ 0 ∨ 12 ≤ bitmap_free_count (fs_bitmap fs) + mapped_at fs k.

Lemma dir_store_ok fs k d0 d now :
  fs_wf fs → dir_is fs k d0 → dir_ok d →
  ∃ fs', dir_store fs k d now = Some fs' ∧ fs_wf fs' ∧ modifies k fs fs' ∧
    (dir_room fs k → dir_is fs' k d ∧ size_at fs' k = DIR_BYTES).
Proof.
  intros Hwf (Hl & Hok0 & Hd0) Hok. unfold dir_store.
  pose proof (dir_cenc_length d Hok) as Hlen. pose proof Hok as [Hv _].
  destruct (idkfs_write_ok fs k (cenc Directory_codec d) 0 now)
    as (fs' & r & -> & Hwf' & Hm & _ & Hr); try done.
  { by apply cenc_bytes. }
  { rewrite Hlen. unfold DIR_BYTES. fs_unfold. lia. }
  cbn [mbind option_bind]. exists fs'. split_and!; [done|exact Hwf'|exact Hm|].
  rewrite Hlen in Hr. intros Hroom.
  destruct Hr as [(_ & Hin & Hs)|(_ & Hz & Hmp & _ & p & Hp & Hnone)].
  - assert (size_at fs' k = DIR_BYTES) as Hs'.
    { rewrite Hs. destruct Hd0 as [[-> _]|[-> _]]; unfold DIR_BYTES; lia. }
    split; [|done]. split; [by eapply modifies_live|]. split; [done|]. right.
    split; [done|]. intros p Hp. rewrite Hin by lia. by rewrite Z.sub_0_r.
  - exfalso. destruct Hroom as [Hne|Hroom].
    + destruct Hd0 as [[? _]|[_ Hb]]; [done|]. rewrite Hb in Hnone by lia.
      destruct (zget_is_Some (cenc Directory_codec d0) p) as [y Hy];
        [rewrite dir_cenc_length by done; lia|congruence].
    + pose proof (mod_count _ _ _ Hm). lia.
Qed.

Lemma dir_zero_ok : dir_ok Directory_zero.
Proof. split; [apply Directory_zero_valid|done]. Qed.

(** The directory an operation works on: the zeroed structure for an empty
    file, the stored one otherwise. *)
Lemma dir_fetch_ok fs k i d now :
  fs_wf fs → dir_is fs k d → (fs_inodes fs).[k] = Some i →
  ∃ fs', (if i_size i =? 0 then Some (fs, Directory_zero) else dir_load fs k now) =
      Some (fs', d) ∧ fs_wf fs' ∧ modifies k fs fs' ∧ dir_is fs' k d ∧
      same_file fs fs' k ∧ (dir_room fs k → dir_room fs' k).
Proof.
  intros Hwf Hd Hi. pose proof (size_at_inode _ _ _ Hi) as Hs.
  destruct (Z.eqb_spec (i_size i) 0) as [E|E].
  - pose proof Hd as (Hl & Hok & [[? ->]|[Hs' _]]).
    + exists fs. split_and!; [done|exact Hwf|apply modifies_refl|exact Hd|done|done].
    + rewrite Hs in Hs'. unfold DIR_BYTES in Hs'. lia.
  - destruct (dir_load_ok fs k d now Hwf Hd) as (fs' & -> & Hwf' & Hm & Hsame & Hbm);
      [congruence|].
    assert (dir_is fs' k d) as Hd' by (eapply dir_is_same; eauto using modifies_live).
    exists fs'. split_and!; [done|exact Hwf'|exact Hm|exact Hd'|exact Hsame|].
    intros _. left. destruct Hsame as [_ ->]. congruence.
Qed.

(** ** The operations *)

Definition dir_append (d : Directory) (e : DirEntry) : Directory :=
  mkDirectory (d_count d + 1) (<[Z.to_nat (d_count d) := e]> (d_entries d)).

Lemma dir_append_ok d e :
  dir_ok d → d_count d < 128 → cvalid DirEntry_codec e →
  dir_ok (dir_append d e) ∧ d_list (dir_append d e) = d_list d ++ [e].
Proof.
  intros Hd Hc He. destruct (dir_valid_fields d Hd) as (Hc' & Hl & Hv).
  assert (dir_ok (dir_append d e)) as Hok.
  { apply dir_ok_intro; [lia|by rewrite length_insert|by apply Forall_insert]. }
  split; [exact Hok|]. pose proof (d_list_length d Hd) as Hdl.
  pose proof (d_list_length _ Hok) as Hdl'. cbn [d_count dir_append] in Hdl'.
  apply zget_ext; [rewrite length_app; cbn; lia|]. intros x Hx.
  rewrite d_list_get. cbn [d_count d_entries dir_append].
  destruct (Z.lt_ge_cases x (d_count d)).
  - rewrite zget_app_l, d_list_get, zget_insert_ne by lia. by zcases; try lia.
  - assert (x = d_count d) as -> by lia.
    rewrite zget_app_r, Hdl, Z.sub_diag, zget_insert_eq by lia. by zcases; try lia.
Qed.

Lemma idkfs_dir_add_ok fs k d name ino type now :
  fs_wf fs → dir_is fs k d → cstring name →
  ∃ fs' r, idkfs_dir_add fs k name ino type now = Some (fs', r) ∧
    fs_wf fs' ∧ modifies k fs fs' ∧
    ((d_count d = 128 ∧ r = -1 ∧ dir_is fs' k d) ∨
     (d_count d < 128 ∧ r = 0 ∧
      (dir_room fs k → ∃ e, dir_is fs' k (dir_append d e) ∧ named name e ∧
         e_inode e = u32 ino ∧ e_type e = ft_val type ∧
         cvalid DirEntry_codec e ∧ size_at fs' k = DIR_BYTES ∧ entry_as type name e))).
Proof.
  intros Hwf Hd Hn. pose proof Hd as ((i & Hi & Hl) & Hok & _).
  destruct (dir_valid_fields d Hok) as (Hc & Hel & Hev).
  unfold idkfs_dir_add. rewrite Hi. cbn [mbind option_bind].
  destruct (dir_fetch_ok fs k i d now Hwf Hd Hi)
    as (fs1 & -> & Hwf1 & Hm1 & Hd1 & _ & Hroom1).
  cbn [mbind option_bind]. unfold IDKFS_MAX_DIRENTS.
  destruct (Z.leb_spec 128 (d_count d)).
  { exists fs1, (-1). split_and!; [done|exact Hwf1|exact Hm1|]. left.
    split_and!; [lia|done|exact Hd1]. }
  destruct (zget_is_Some (d_entries d) (d_count d)) as [e0 He0]; [lia|].
  rewrite He0. cbn [mbind option_bind]. rewrite zset_ok by lia.
  cbn [mbind option_bind]. rewrite u32_small by lia.
  assert (cvalid DirEntry_codec e0) as Hv0.
  { apply zget_Some in He0 as [_ He0]. by eapply Forall_lookup_1 in Hev. }
  set (e := dir_entry e0 name ino type).
  assert (cvalid DirEntry_codec e) as Hve by by apply dir_entry_valid.
  destruct (dir_append_ok d e Hok ltac:(lia) Hve) as [Hok' _].
  destruct (dir_store_ok fs1 k d (dir_append d e) now Hwf1 Hd1 Hok')
    as (fs2 & Hst & Hwf2 & Hm2 & Hd2).
  unfold dir_append in Hst. rewrite Hst. cbn [mbind option_bind].
  exists fs2, 0. split_and!; [done|exact Hwf2|by eapply modifies_trans|]. right.
  split_and!; [lia|done|]. intros Hroom. destruct (Hd2 (Hroom1 Hroom)) as [Hd' Hs'].
  exists e. split_and!; [exact Hd'|by apply dir_entry_named|done| |exact Hve|exact Hs'|
    by apply dir_entry_as].
  destruct type; reflexivity.
Qed.

Lemma idkfs_dir_lookup_ok fs k d name now :
  fs_wf fs → dir_is fs k d → cstring name →
  ∃ fs', idkfs_dir_lookup fs k name now =
      Some (fs', match list_lookup_name name (d_list d) with
                 | Some (_, e) => i32 (e_inode e)
                 | None => -1
                 end) ∧
    fs_wf fs' ∧ modifies k fs fs' ∧ dir_is fs' k d ∧ same_file fs fs' k.
Proof.
  intros Hwf Hd Hn. pose proof Hd as ((i & Hi & Hl) & Hok & Hcase).
  unfold idkfs_dir_lookup. rewrite Hi. cbn [mbind option_bind].
  pose proof (size_at_inode _ _ _ Hi) as Hs.
  destruct (Z.eqb_spec (i_size i) 0) as [E|E].
  - destruct Hcase as [[_ ->]|[Hs' _]]; [|rewrite Hs in Hs'; unfold DIR_BYTES in Hs'; lia].
    exists fs. split_and!; [done|exact Hwf|apply modifies_refl|exact Hd|done].
  - destruct (dir_load_ok fs k d now Hwf Hd) as (fs' & -> & Hwf' & Hm & Hsame & _);
      [congruence|].
    cbn [mbind option_bind]. rewrite dir_find_d_list by done. cbn [mbind option_bind].
    exists fs'. split_and!; [|exact Hwf'|exact Hm| |exact Hsame].
    + by destruct (list_lookup_name name (d_list d)) as [[x e]|].
    + eapply dir_is_same; eauto using modifies_live.
Qed.

Definition type_at (fs : IDKFS) (k : Z) : Z := default 0 (i_type <$> (fs_inodes fs).[k]).

Lemma idkfs_dir_remove_ok fs k d name now :
  fs_wf fs → dir_is fs k d → type_at fs k = ft_val IDKFS_FT_DIR → cstring name →
  ∃ fs' r, idkfs_dir_remove fs k name now = Some (fs', r) ∧
    fs_wf fs' ∧ modifies k fs fs' ∧
    match list_lookup_name name (d_list d) with
    | None => r = - ENOENT ∧ dir_is fs' k d
    | Some (x, _) => r = 0 ∧ ∃ d', dir_is fs' k d' ∧ d_list d' = delete x (d_list d)
    end.
Proof.
  intros Hwf Hd Ht Hn. pose proof Hd as ((i & Hi & Hl) & Hok & Hcase).
  unfold idkfs_dir_remove. unfold type_at in Ht. rewrite Hi in *. cbn in Ht.
  cbn [mbind option_bind]. rewrite Ht. cbn [ft_val Z.eqb negb Pos.eqb].
  pose proof (size_at_inode _ _ _ Hi) as Hs.
  destruct (Z.eqb_spec (i_size i) 0) as [E|E].
  { destruct Hcase as [[_ ->]|[Hs' _]]; [|rewrite Hs in Hs'; unfold DIR_BYTES in Hs'; lia].
    exists fs, (- ENOENT). split_and!; [done|exact Hwf|apply modifies_refl|].
    split; [done|exact Hd]. }
  destruct (dir_load_ok fs k d now Hwf Hd) as (fs1 & -> & Hwf1 & Hm1 & Hsame & _);
    [congruence|].
  assert (dir_is fs1 k d) as Hd1 by (eapply dir_is_same; eauto using modifies_live).
  cbn [mbind option_bind]. rewrite dir_find_d_list by done. cbn [mbind option_bind].
  destruct (list_lookup_name name (d_list d)) as [[x e]|] eqn:El.
  2: { exists fs1, (- ENOENT). split_and!; [done|exact Hwf1|exact Hm1|done|exact Hd1]. }
  assert (Z.of_nat x < d_count d) as Hx.
  { apply list_find_Some in El as (Hx & _). apply lookup_lt_Some in Hx.
    pose proof (d_list_length d Hok). lia. }
  destruct (dir_delete_ok d (Z.of_nat x) Hok ltac:(lia)) as (d' & -> & Hok' & Hl').
  cbn [mbind option_bind].
  destruct (dir_store_ok fs1 k d d' now Hwf1 Hd1 Hok') as (fs2 & -> & Hwf2 & Hm2 & Hd2).
  cbn [mbind option_bind]. exists fs2, 0.
  split_and!; [done|exact Hwf2|by eapply modifies_trans|done|].
  exists d'. rewrite Nat2Z.id in Hl'. split; [|done]. apply Hd2. left.
  destruct Hsame as [_ ->]. congruence.
Qed.

(** ** Lookup in lists of entries *)

Lemma list_lookup_name_app_new name l e :
  list_lookup_name name l = None → named name e →
  list_lookup_name name (l ++ [e]) = Some (length l, e).
Proof.
  intros Hl He. unfold list_lookup_name in *. apply list_find_Some.
  split_and!.
  - by rewrite lookup_app_r, Nat.sub_diag by lia.
  - done.
  - intros j y Hj Hlt. rewrite lookup_app_l in Hj by done.
    apply list_find_None in Hl. by eapply Forall_lookup_1 in Hl.
Qed.

Lemma list_lookup_name_app_other name l e :
  ¬ named name e → list_lookup_name name (l ++ [e]) = list_lookup_name name l.
Proof.
  intros He. unfold list_lookup_name.
  destruct (list_find (named name) l) as [[x y]|] eqn:E.
  - apply list_find_Some in E as (Hx & Hy & Hlt). apply list_find_Some.
    split_and!; [by rewrite lookup_app_l by (by eapply lookup_lt_Some)|done|].
    intros j z Hj Hjx. eapply Hlt; [|done].
    rewrite lookup_app_l in Hj; [done|]. apply lookup_lt_Some in Hx. lia.
  - apply list_find_None in E. apply list_find_None. apply Forall_app.
    split; [done|]. by constructor.
Qed.

Lemma list_find_snd_map {A} (o : option (nat * A)) :
  snd <$> (prod_map S id <$> o) = snd <$> o.
Proof. by destruct o as [[]|]. Qed.

Lemma list_find_delete {A} (P : A → Prop) {HP : ∀ x, Decision (P x)} l x e :
  l !! x = Some e → ¬ P e →
  snd <$> list_find P (delete x l) = snd <$> list_find P l.
Proof.
  revert x. induction l as [|a l IH]; intros [|x] Hx He; simplify_eq/=.
  - by rewrite decide_False, list_find_snd_map by done.
  - change (delete (S x) (a :: l)) with (a :: delete x l). cbn [list_find].
    case_decide; [done|]. rewrite !list_find_snd_map. by apply IH.
Qed.

Lemma list_lookup_name_delete_other name name' l x e :
  list_lookup_name name l = Some (x, e) → name_key name' ≠ name_key name →
  snd <$> list_lookup_name name' (delete x l) = snd <$> list_lookup_name name' l.
Proof.
  unfold list_lookup_name. intros (Hx & Hn & _)%list_find_Some Hne.
  apply list_find_delete with e; [done|]. unfold named in *. congruence.
Qed.
