(* ===== verification/Fs.v ===== *)
(** * Creating files and directories: [idkfs_create], [idkfs_mkdir]

    Also the capacity of a well-formed file system, the counting of free
    inodes, and the state invariant [fs_inv] kept by every operation. *)

From S2P Require Import Prelude Cint CString Codec Mem CoreTypes Bitmap Core.
From S2P Require Import FileIO Dir.

(** The assignments after [inode_alloc] in [idkfs_create]/[idkfs_mkdir]. *)
Definition init_inode (type : FileType) (tier : SpeedTier) (mode links now : Z)
    (i : Inode) : Inode :=
  set_i_ctime (u64 now) (set_i_mtime (u64 now) (set_i_atime (u64 now)
    (set_i_link_count links (set_i_mode (u16 mode)
      (set_i_tier (u8 (tier_val tier)) (set_i_type (ft_val type) i)))))).

Definition idkfs_create (fs : IDKFS) (parent : Z) (name : list Z) (tier : SpeedTier)
    (mode now : Z) : option (IDKFS * Z) :=
  '(fs, ino) ← inode_alloc fs;
  if ino <? 0 then Some (fs, -1)
  else
    fs ← upd_inode fs ino (init_inode IDKFS_FT_FILE tier mode 1 now);
    '(fs, r) ← idkfs_dir_add fs parent name (u32 ino) IDKFS_FT_FILE now;
    if r <? 0 then
      fs ← inode_free fs (u32 ino);
      Some (fs, -1)
    else Some (fs, ino).

(** ["."] and [".."] *)
Definition DOT : list Z := [46].
Definition DOTDOT : list Z := [46; 46].

Definition idkfs_mkdir (fs : IDKFS) (parent : Z) (name : list Z) (mode now : Z) :
    option (IDKFS * Z) :=
  '(fs, ino) ← inode_alloc fs;
  if ino <? 0 then Some (fs, -1)
  else
    fs ← upd_inode fs ino (init_inode IDKFS_FT_DIR TIER_NORMAL mode 2 now);
    '(fs, _) ← idkfs_dir_add fs ino DOT (u32 ino) IDKFS_FT_DIR now;
    '(fs, _) ← idkfs_dir_add fs ino DOTDOT parent IDKFS_FT_DIR now;
    '(fs, _) ← idkfs_dir_add fs parent name (u32 ino) IDKFS_FT_DIR now;
    fs ← upd_inode fs parent (λ i, set_i_link_count (u32 (i_link_count i + 1)) i);
    Some (fs, ino).

(** ** Capacity

    A well-formed file system cannot run out of blocks: 4096 inodes of 12
    blocks each are fewer than the data blocks. *)

Lemma used_data_owned fs b :
  fs_wf fs → DATA_START ≤ b < IDKFS_TOTAL_BLOCKS → used (fs_bitmap fs) b = true →
  b ∈ mjoin (i_direct <$> fs_inodes fs).
Proof.
  intros Hwf Hb Hu. destruct (wf_noleak _ Hwf b Hb Hu) as (k & j & [_ Hkj]).
  apply fblock_Some in Hkj as (i & [_ Hi]%zget_Some & [_ Hj]%zget_Some & _).
  apply list_elem_of_join. exists (i_direct i).
  split; [by eapply list_elem_of_lookup_2|].
  apply list_elem_of_fmap. exists i. split; [done|]. by eapply list_elem_of_lookup_2.
Qed.

Lemma direct_join_length l :
  Forall (cvalid Inode_codec) l → length (mjoin (i_direct <$> l)) = (12 * length l)%nat.
Proof.
  induction 1 as [|i l Hi Hl IH]; [done|]. rewrite fmap_cons.
  change (mjoin (i_direct i :: (i_direct <$> l)))
    with (i_direct i ++ mjoin (i_direct <$> l)).
  rewrite length_app, (Inode_valid_direct i Hi), IH. cbn [length]. lia.
Qed.

Lemma filter_complement {A} (P : A → Prop) {HP : ∀ x, Decision (P x)} (l : list A) :
  (length (filter P l) + length (filter (λ x, ¬ P x) l) = length l)%nat.
Proof.
  induction l as [|x l IH]; [done|]. rewrite !filter_cons.
  repeat case_decide; try tauto; cbn [length]; lia.
Qed.

Lemma NoDup_incl_length_le {A} (l k : list A) :
  NoDup l → (∀ x, x ∈ l → x ∈ k) → (length l ≤ length k)%nat.
Proof. intros Hl Hk. apply submseteq_length, NoDup_submseteq; done. Qed.

Lemma fs_wf_capacity fs : fs_wf fs → 16246 ≤ bitmap_free_count (fs_bitmap fs).
Proof.
  intros Hwf.
  pose proof (filter_complement (λ b, used (fs_bitmap fs) b = false) all_blocks) as Hc.
  assert ((length (filter (λ b, ¬ used (fs_bitmap fs) b = false) all_blocks) ≤
    length (seqZ 0 138 ++ mjoin (i_direct <$> fs_inodes fs)))%nat) as Hle.
  { apply NoDup_incl_length_le; [apply NoDup_filter, NoDup_all_blocks|].
    intros b [Hu Hb%elem_of_all_blocks]%list_elem_of_filter. apply elem_of_app.
    destruct (Z.lt_ge_cases b DATA_START).
    - left. apply elem_of_seqZ. fs_unfold. lia.
    - right. apply used_data_owned; [exact Hwf|fs_unfold; lia|].
      by destruct (used (fs_bitmap fs) b). }
  rewrite length_app, length_seqZ, direct_join_length in Hle by apply Hwf.
  pose proof (wf_ninodes _ Hwf). pose proof all_blocks_length.
  change (bitmap_free_count (fs_bitmap fs)) with
    (Z.of_nat (length (filter (λ b, used (fs_bitmap fs) b = false) all_blocks))).
  fs_unfold. lia.
Qed.

Lemma fs_wf_room fs k : fs_wf fs → dir_room fs k.
Proof.
  intros Hwf. right. pose proof (fs_wf_capacity fs Hwf).
  assert (0 ≤ mapped_at fs k); [|lia].
  unfold mapped_at. destruct ((fs_inodes fs).[k]); cbn; [unfold mapped; lia|lia].
Qed.

(** ** Counting free inodes *)

(** The inodes [inode_alloc] searches. *)
Definition all_inodes : list Z := seqZ 1 4095.

Lemma elem_of_all_inodes k : k ∈ all_inodes ↔ 1 ≤ k < IDKFS_MAX_INODES.
Proof. unfold all_inodes. rewrite elem_of_seqZ. fs_unfold. lia. Qed.
Lemma NoDup_all_inodes : NoDup all_inodes.
Proof. apply NoDup_seqZ. Qed.
Lemma all_inodes_length : Z.of_nat (length all_inodes) = 4095.
Proof. unfold all_inodes. by rewrite length_seqZ. Qed.
#[global] Opaque all_inodes.

Definition ino_free (fs : IDKFS) (k : Z) : bool :=
  match (fs_inodes fs).[k] with
  | Some i => i_link_count i =? 0
  | None => false
  end.

Definition free_inode_count (fs : IDKFS) : Z :=
  Z.of_nat (length (filter (λ k, ino_free fs k = true) all_inodes)).

Lemma free_inode_count_ext fs fs' :
  (∀ k, 1 ≤ k < IDKFS_MAX_INODES → ino_free fs' k = ino_free fs k) →
  free_inode_count fs' = free_inode_count fs.
Proof.
  intros H. unfold free_inode_count. f_equal. apply filter_length_ext.
  intros k Hk%elem_of_all_inodes. by rewrite H.
Qed.

Lemma free_inode_count_take fs fs' k :
  1 ≤ k < IDKFS_MAX_INODES → ino_free fs k = true → ino_free fs' k = false →
  (∀ k', k' ≠ k → ino_free fs' k' = ino_free fs k') →
  free_inode_count fs = free_inode_count fs' + 1.
Proof.
  intros Hk H1 H2 H. unfold free_inode_count.
  rewrite (filter_length_flip _ (λ k, ino_free fs' k = true) _ k); [lia|..].
  - apply NoDup_all_inodes.
  - by apply elem_of_all_inodes.
  - done.
  - congruence.
  - intros x _ Hne. by rewrite H.
Qed.

Lemma free_inode_count_range fs : 0 ≤ free_inode_count fs < 4294967296.
Proof.
  split; [apply Nat2Z.is_nonneg|]. unfold free_inode_count.
  pose proof (length_filter (λ k, ino_free fs k = true) all_inodes) as H.
  pose proof all_inodes_length. lia.
Qed.

(** The invariant of the file system, counters included. *)
Record fs_inv (fs : IDKFS) : Prop := {
  inv_wf : fs_wf fs;
  inv_free_inodes : sb_free_inodes (fs_sb fs) = free_inode_count fs;
}.

Lemma modifies_ino_free k fs fs' k' : modifies k fs fs' → ino_free fs' k' = ino_free fs k'.
Proof.
  intros Hm. unfold ino_free. destruct (Z.eq_dec k' k) as [->|].
  - destruct ((fs_inodes fs).[k]) as [i|] eqn:E.
    + destruct (mod_attr _ _ _ Hm i E) as (i' & -> & Ha). unfold same_attr in Ha.
      f_equal. tauto.
    + rewrite zget_None; [done|]. rewrite (mod_length _ _ _ Hm). intros Hr.
      destruct (zget_is_Some (fs_inodes fs) k Hr). congruence.
  - by rewrite (mod_others _ _ _ Hm).
Qed.

(** Operations on the file of one inode keep the counters. *)
Lemma fs_inv_modifies k fs fs' : modifies k fs fs' → fs_wf fs' → fs_inv fs → fs_inv fs'.
Proof.
  intros Hm Hwf' [Hwf Hfi]. split; [exact Hwf'|].
  rewrite (free_inode_count_ext fs fs') by (intros; by eapply modifies_ino_free).
  rewrite <- Hfi. pose proof (mod_sb _ _ _ Hm) as Hsb.
  by apply (f_equal sb_free_inodes) in Hsb.
Qed.

(** ** [inode_alloc] *)

Lemma fresh_inode_valid k :
  0 ≤ k < 4294967296 → cvalid Inode_codec (fresh_inode k).
Proof.
  intros Hk. unfold fresh_inode.
  assert (cvalid (c_vec 12 c_u32)
    (replicate (Z.to_nat IDKFS_DIRECT_BLOCKS) IDKFS_NULL_BLOCK)) as Hd.
  { split; [done|]. apply Forall_replicate. cbn -[Z.pow Z.of_nat]. pow256.
    unfold IDKFS_NULL_BLOCK. lia. }
  assert (0 ≤ IDKFS_NULL_BLOCK < 4294967296) by (unfold IDKFS_NULL_BLOCK; lia).
  apply set_i_indirect1_valid; [done|]. apply set_i_indirect2_valid; [done|].
  apply set_i_direct_valid; [exact Hd|]. apply set_i_ino_valid; [done|].
  apply Inode_zero_valid.
Qed.

Lemma fresh_inode_direct k j b :
  (i_direct (fresh_inode k)).[j] = Some b → b = IDKFS_NULL_BLOCK.
Proof.
  intros [_ H]%zget_Some. cbn [fresh_inode set_i_direct set_i_indirect1
    set_i_indirect2 i_direct] in H.
  by apply lookup_replicate in H as [-> _].
Qed.

(** Replacing inode [k] by one that owns no block, when the old one owned
    none either. *)
Lemma fs_wf_blockless fs k i i' :
  fs_wf fs → (fs_inodes fs).[k] = Some i → cvalid Inode_codec i' →
  (∀ j b, live i → (i_direct i).[j] = Some b → b = IDKFS_NULL_BLOCK) →
  (∀ j b, live i' → (i_direct i').[j] = Some b → b = IDKFS_NULL_BLOCK) →
  (live i' → i_indirect1 i' = IDKFS_NULL_BLOCK) →
  fs_wf (set_fs_inodes (<[Z.to_nat k := i']> (fs_inodes fs)) fs).
Proof.
  intros Hwf Hi Hv H H' Hind. apply fs_wf_replace_inode with i; [exact Hwf|done..| |done].
  intros j b Hb. split; intros [Hl Hj]; exfalso; eauto.
Qed.

Lemma inode_scan_ok fs i n :
  fs_wf fs → 0 ≤ i → i + Z.of_nat n ≤ IDKFS_MAX_INODES →
  (inode_scan fs i n = Some (fs, -1) ∧
     ∀ k, i ≤ k < i + Z.of_nat n → ino_free fs k = false) ∨
  (∃ k, i ≤ k < i + Z.of_nat n ∧ ino_free fs k = true ∧
     (∀ k', i ≤ k' < k → ino_free fs k' = false) ∧
     inode_scan fs i n = Some (add_free_inodes (-1)
       (set_fs_inodes (<[Z.to_nat k := fresh_inode k]> (fs_inodes fs)) fs), k)).
Proof.
  intros Hwf. revert i. induction n as [|n IH]; intros i Hi Hn.
  { left. split; [done|]. lia. }
  cbn [inode_scan]. pose proof (wf_ninodes _ Hwf) as Hlen.
  destruct (zget_is_Some (fs_inodes fs) i) as [x Hx]; [lia|].
  rewrite Hx. cbn [mbind option_bind].
  assert (ino_free fs i = (i_link_count x =? 0)) as Hfi by (unfold ino_free; by rewrite Hx).
  destruct (i_link_count x =? 0) eqn:E.
  - right. exists i. split_and!; [lia|lia|done|lia|].
    rewrite (upd_inode_ok _ _ x) by done. cbn [mbind option_bind].
    rewrite i32_small by (fs_unfold; lia). done.
  - destruct (IH (i + 1)) as [[-> Hall]|(k & Hk & Hf & Hlt & ->)]; [lia..| |].
    + left. split; [done|]. intros k Hk. destruct (Z.eq_dec k i) as [->|]; [done|].
      apply Hall. lia.
    + right. exists k. split_and!; [lia|lia|done| |done].
      intros k' Hk'. destruct (Z.eq_dec k' i) as [->|]; [done|]. apply Hlt. lia.
Qed.

(** The state after allocating inode [k] and giving it attributes [i']. *)
Definition with_new_inode (fs : IDKFS) (k : Z) (i' : Inode) : IDKFS :=
  set_fs_inodes (<[Z.to_nat k := i']> (fs_inodes fs)) (add_free_inodes (-1) fs).

Lemma alloc_then_init fs f :
  fs_wf fs →
  (inode_alloc fs = Some (fs, -1) ∧
     ∀ k, 1 ≤ k < IDKFS_MAX_INODES → ino_free fs k = false) ∨
  (∃ k fs1, 1 ≤ k < IDKFS_MAX_INODES ∧ ino_free fs k = true ∧
     (∀ k', 1 ≤ k' < k → ino_free fs k' = false) ∧
     inode_alloc fs = Some (fs1, k) ∧
     upd_inode fs1 k f = Some (with_new_inode fs k (f (fresh_inode k)))).
Proof.
  intros Hwf. unfold inode_alloc.
  destruct (inode_scan_ok fs 1 (Z.to_nat (IDKFS_MAX_INODES - 1)) Hwf)
    as [[-> Hall]|(k & Hk & Hf & Hlt & ->)]; [lia|fs_unfold; lia| |].
  - left. split; [done|]. intros k Hk. apply Hall. fs_unfold. lia.
  - right. eexists k, _. split_and!; [fs_unfold; lia|fs_unfold; lia|done|done|done|].
    pose proof (wf_ninodes _ Hwf).
    rewrite (upd_inode_ok _ k (fresh_inode k)).
    + cbn. by rewrite list_insert_insert_eq.
    + cbn. apply zget_insert_eq. fs_unfold. lia.
Qed.

Section new_inode.
Context (fs : IDKFS) (k : Z) (i' : Inode).
Context (Hinv : fs_inv fs) (Hk : 1 ≤ k < IDKFS_MAX_INODES)
  (Hfree : ino_free fs k = true) (Hv : cvalid Inode_codec i') (Hl : live i')
  (Hd : i_direct i' = i_direct (fresh_inode k))
  (Hind : i_indirect1 i' = IDKFS_NULL_BLOCK) (Hsize : i_size i' = 0).
Let fs' := with_new_inode fs k i'.

Lemma new_inode_old : ∃ i, (fs_inodes fs).[k] = Some i ∧ ¬ live i.
Proof using Hfree.
  unfold ino_free in Hfree. destruct ((fs_inodes fs).[k]) as [i|]; [|done].
  exists i. split; [done|]. unfold live. zcase_in Hfree; [lia|done].
Qed.

Lemma new_inode_get k' :
  (fs_inodes fs').[k'] = if k' =? k then Some i' else (fs_inodes fs).[k'].
Proof using Hfree.
  destruct new_inode_old as (i & Hi & _). by apply inodes_insert with i.
Qed.

Lemma new_inode_inv : fs_inv fs'.
Proof using All.
  destruct new_inode_old as (i & Hi & Hnl). destruct Hinv as [Hwf Hfi]. split.
  - unfold fs', with_new_inode.
    change (fs_inodes fs) with (fs_inodes (add_free_inodes (-1) fs)).
    apply fs_wf_blockless with i; [by apply fs_wf_add_free_inodes|done|done|done| |done].
    intros j b _. rewrite Hd. apply fresh_inode_direct.
  - pose proof (free_inode_count_range fs').
    rewrite (free_inode_count_take fs fs' k Hk Hfree) in Hfi.
    + cbn. rewrite Hfi. rewrite u32_small by lia. lia.
    + unfold ino_free. rewrite new_inode_get, Z.eqb_refl. unfold live in Hl.
      by apply Z.eqb_neq.
    + intros k' Hne. unfold ino_free. rewrite new_inode_get. by zcase.
Qed.

Lemma new_inode_live : live_at fs' k.
Proof using Hfree Hl. exists i'. by rewrite new_inode_get, Z.eqb_refl. Qed.

Lemma new_inode_other k' : k' ≠ k →
  (live_at fs k' → live_at fs' k') ∧ same_file fs fs' k' ∧
  (fs_inodes fs').[k'] = (fs_inodes fs).[k'].
Proof using Hfree.
  intros Hne. assert ((fs_inodes fs').[k'] = (fs_inodes fs).[k']) as Hg.
  { rewrite new_inode_get. by zcase. }
  split_and!; [|split|done].
  - by apply live_at_inodes.
  - intros p. unfold fbyte, fblock. by rewrite Hg.
  - unfold size_at. by rewrite Hg.
Qed.

Lemma new_inode_empty_dir : dir_is fs' k Directory_zero.
Proof using Hfree Hl Hsize.
  split; [apply new_inode_live|]. split; [apply dir_zero_ok|]. left.
  split; [|done]. unfold size_at. rewrite new_inode_get, Z.eqb_refl. done.
Qed.

Lemma new_inode_dir k' d : k' ≠ k → dir_is fs k' d → dir_is fs' k' d.
Proof using Hfree.
  intros Hne Hdir. destruct (new_inode_other k' Hne) as (Hlv & Hsame & _).
  by apply (dir_is_same fs).
Qed.
End new_inode.

Lemma init_inode_valid type tier mode links now i :
  0 ≤ links < 4294967296 → cvalid Inode_codec i →
  cvalid Inode_codec (init_inode type tier mode links now i).
Proof.
  intros Hl Hi. unfold init_inode.
  apply set_i_ctime_valid, set_i_mtime_valid, set_i_atime_valid,
    set_i_link_count_valid, set_i_mode_valid, set_i_tier_valid, set_i_type_valid;
    auto using u64_range, u16_range, u8_range.
  destruct type; cbn; lia.
Qed.

(** ** Freeing an inode that owns no block *)

Lemma inode_free_ok fs k i :
  fs_inv fs → 1 ≤ k < IDKFS_MAX_INODES → (fs_inodes fs).[k] = Some i → live i →
  (∀ j b, (i_direct i).[j] = Some b → b = IDKFS_NULL_BLOCK) →
  ∃ fs', inode_free fs k = Some fs' ∧ fs_inv fs' ∧ fs_bitmap fs' = fs_bitmap fs ∧
    fs_disk fs' = fs_disk fs ∧
    ∀ k', (fs_inodes fs').[k'] = if k' =? k then Some Inode_zero else (fs_inodes fs).[k'].
Proof.
  intros [Hwf Hfi] Hk Hi Hl Hb. unfold inode_free. rewrite (upd_inode_ok _ _ i) by done.
  cbn [mbind option_bind]. set (fs0 := set_fs_inodes _ fs).
  assert (Hg : ∀ k', (fs_inodes fs0).[k'] =
      if k' =? k then Some Inode_zero else (fs_inodes fs).[k'])
    by (intros; by apply inodes_insert with i).
  exists (add_free_inodes 1 fs0). split_and!; [done| |done|done|exact Hg]. split.
  - apply fs_wf_add_free_inodes. unfold fs0.
    apply fs_wf_blockless with i; [exact Hwf|done|apply Inode_zero_valid|eauto| |].
    + intros j b []. done.
    + intros []. done.
  - pose proof (free_inode_count_range fs0) as Hr.
    assert (free_inode_count fs0 = free_inode_count fs + 1) as Hc.
    { apply (free_inode_count_take fs0 fs k Hk); unfold ino_free.
      - by rewrite Hg, Z.eqb_refl.
      - rewrite Hi. by apply Z.eqb_neq.
      - intros k' Hne. rewrite Hg. by zcase. }
    change (free_inode_count (add_free_inodes 1 fs0)) with (free_inode_count fs0).
    cbn. rewrite Hfi, <- Hc. apply u32_small. lia.
Qed.

(** Inode [k] and the bytes of its file are as before. *)
Definition kept (k : Z) (fs fs' : IDKFS) : Prop :=
  (fs_inodes fs').[k] = (fs_inodes fs).[k] ∧ ∀ p, fbyte fs' k p = fbyte fs k p.

Lemma kept_trans k fs1 fs2 fs3 : kept k fs1 fs2 → kept k fs2 fs3 → kept k fs1 fs3.
Proof.
  intros [Hi Hb] [Hi' Hb']. split; [congruence|]. intros p. by rewrite Hb', Hb.
Qed.

Lemma kept_live k fs fs' : kept k fs fs' → live_at fs k → live_at fs' k.
Proof. intros [Hi _]. by apply live_at_inodes. Qed.

Lemma modifies_type k fs fs' k' :
  modifies k fs fs' → live_at fs k' → type_at fs' k' = type_at fs k'.
Proof.
  intros Hm (i & Hi & _). unfold type_at. destruct (Z.eq_dec k' k) as [->|Hne].
  - destruct (mod_attr _ _ _ Hm i Hi) as (i' & Hi' & Ha). rewrite Hi, Hi'. cbn.
    unfold same_attr in Ha. tauto.
  - by rewrite (mod_others _ _ _ Hm).
Qed.

Lemma kept_type k fs fs' : kept k fs fs' → type_at fs' k = type_at fs k.
Proof. intros [Hi _]. unfold type_at. by rewrite Hi. Qed.

Lemma kept_dir k fs fs' d : kept k fs fs' → dir_is fs k d → dir_is fs' k d.
Proof.
  intros Hk. apply dir_is_same; [|by apply kept_live].
  destruct Hk as [Hi Hb]. split; [done|]. unfold size_at. by rewrite Hi.
Qed.

(** Files of live inodes other than [k] are as before. *)
Definition others_kept (k : Z) (fs fs' : IDKFS) : Prop :=
  ∀ k', k' ≠ k → live_at fs k' → kept k' fs fs'.

Lemma others_kept_modifies k fs fs' : modifies k fs fs' → others_kept k fs fs'.
Proof.
  intros Hm k' Hne Hl. split; [by apply (mod_others _ _ _ Hm)|].
  intros p. by apply (mod_bytes _ _ _ Hm).
Qed.

Lemma others_kept_live k fs fs' k' :
  others_kept k fs fs' → k' ≠ k → live_at fs k' → live_at fs' k'.
Proof. intros H Hne Hl. apply (kept_live k' fs); auto. Qed.

Lemma others_kept_trans k fs1 fs2 fs3 :
  others_kept k fs1 fs2 → others_kept k fs2 fs3 → others_kept k fs1 fs3.
Proof.
  intros H12 H23 k' Hne Hl. eapply kept_trans; [by apply H12|].
  apply H23; [done|]. by eapply others_kept_live.
Qed.

Lemma ino_free_not_live fs k : ino_free fs k = true → ¬ live_at fs k.
Proof.
  unfold ino_free. intros Hf (i & Hi & Hl). rewrite Hi in Hf. unfold live in Hl.
  zcase_in Hf; lia.
Qed.

(** ** [idkfs_create] *)

Definition link_count_at (fs : IDKFS) (k : Z) : Z :=
  default 0 (i_link_count <$> (fs_inodes fs).[k]).

Lemma modifies_link_count k fs fs' k' :
  modifies k fs fs' → live_at fs k' → link_count_at fs' k' = link_count_at fs k'.
Proof.
  intros Hm (i & Hi & _). unfold link_count_at.
  destruct (Z.eq_dec k' k) as [->|Hne].
  - destruct (mod_attr _ _ _ Hm i Hi) as (i' & Hi' & Ha). rewrite Hi, Hi'. cbn.
    unfold same_attr in Ha. tauto.
  - by rewrite (mod_others _ _ _ Hm).
Qed.

(** [k] is the inode number [inode_alloc] hands out. *)
Definition first_free (fs : IDKFS) (k : Z) : Prop :=
  1 ≤ k < IDKFS_MAX_INODES ∧ ino_free fs k = true ∧
  ∀ k', 1 ≤ k' < k → ino_free fs k' = false.

(** [k] is taken, and no other inode changes hands. *)
Definition takes_inode (fs fs' : IDKFS) (k : Z) : Prop :=
  first_free fs k ∧ ∀ k', ino_free fs' k' = if k' =? k then false else ino_free fs k'.
Definition no_free_inode (fs : IDKFS) : Prop :=
  ∀ k, 1 ≤ k < IDKFS_MAX_INODES → ino_free fs k = false.
Definition same_free (fs fs' : IDKFS) : Prop := ∀ k, ino_free fs' k = ino_free fs k.

Lemma live_not_free fs k i : (fs_inodes fs).[k] = Some i → live i → ino_free fs k = false.
Proof. intros Hi Hl. unfold ino_free. rewrite Hi. unfold live in Hl. zcase; lia. Qed.

Lemma with_new_inode_kept fs k i' k0 :
  ino_free fs k = true → others_kept k0 fs (with_new_inode fs k i').
Proof.
  intros Hf k' _ Hl. assert (k' ≠ k) as Hne.
  { intros ->. by eapply ino_free_not_live. }
  destruct (new_inode_other fs k i' Hf k' Hne) as (_ & [Hb _] & Hi). done.
Qed.

(** The inode both operations make: the state with it, in which [parent] is
    the directory it was. *)
Lemma new_node_ok fs parent d type tier mode links now :
  fs_inv fs → dir_is fs parent d → 0 < links < 4294967296 →
  let init := init_inode type tier mode links now in
  (inode_alloc fs = Some (fs, -1) ∧
   no_free_inode fs) ∨
  ∃ k fs0, let fs1 := with_new_inode fs k (init (fresh_inode k)) in
    inode_alloc fs = Some (fs0, k) ∧ first_free fs k ∧ (k <? 0) = false ∧ u32 k = k ∧
    upd_inode fs0 k init = Some fs1 ∧ fs_inv fs1 ∧ live (init (fresh_inode k)) ∧
    parent ≠ k ∧ dir_is fs1 parent d ∧ type_at fs1 parent = type_at fs parent ∧
    link_count_at fs1 parent = link_count_at fs parent ∧
    (fs_inodes fs1).[k] = Some (init (fresh_inode k)) ∧ (∀ k0, others_kept k0 fs fs1) ∧
    ∀ k', k' ≠ k → ino_free fs1 k' = ino_free fs k'.
Proof.
  intros Hinv Hd Hlinks init. pose proof Hinv as [Hwf _].
  destruct (alloc_then_init fs init Hwf) as [[Ha Hall]|(k & fs0 & Hk & Hf & Hlt & Ha & Hu)].
  { by left. }
  right. exists k, fs0. cbn zeta. set (i' := init (fresh_inode k)) in *.
  assert (cvalid Inode_codec i') as Hv.
  { apply init_inode_valid; [lia|]. apply fresh_inode_valid. fs_unfold. lia. }
  assert (live i') as Hli by (unfold live; cbn; lia).
  assert (parent ≠ k) as Hne by (intros ->; eapply ino_free_not_live, Hd; done).
  assert (∀ k', (fs_inodes (with_new_inode fs k i')).[k'] =
    if k' =? k then Some i' else (fs_inodes fs).[k']) as Hg by (intros; by apply new_inode_get).
  pose proof (new_inode_inv fs k i' Hinv Hk Hf Hv Hli eq_refl eq_refl eq_refl).
  split_and!; try done.
  - zcase; lia.
  - apply u32_small. fs_unfold. lia.
  - by apply new_inode_dir.
  - unfold type_at. rewrite Hg. by zcase.
  - unfold link_count_at. rewrite Hg. by zcase.
  - by rewrite Hg, Z.eqb_refl.
  - intros k0. by apply with_new_inode_kept.
  - intros k' Hk'. unfold ino_free. rewrite Hg. by zcase.
Qed.

(** Giving back an inode that owns no block. *)
Lemma inode_free_undo fs k i :
  fs_inv fs → 1 ≤ k < IDKFS_MAX_INODES → (fs_inodes fs).[k] = Some i → live i →
  (∀ j b, (i_direct i).[j] = Some b → b = IDKFS_NULL_BLOCK) →
  ∃ fs', inode_free fs k = Some fs' ∧ fs_inv fs' ∧ (∀ k', k' ≠ k → kept k' fs fs') ∧
    ∀ k', ino_free fs' k' = if k' =? k then true else ino_free fs k'.
Proof.
  intros Hinv Hk Hi Hl Hd.
  destruct (inode_free_ok fs k i Hinv Hk Hi Hl Hd) as (fs' & Hfr & Hinv' & _ & Hdk & Hg).
  exists fs'. split_and!; [done|done| |].
  - intros k' Hne. assert ((fs_inodes fs').[k'] = (fs_inodes fs).[k']) as E
      by (rewrite Hg; by zcase).
    split; [done|]. intros p. unfold fbyte, fblock. by rewrite E, Hdk.
  - intros k'. unfold ino_free. rewrite Hg. by zcase.
Qed.

Lemma idkfs_create_ok fs parent d name tier mode now :
  fs_inv fs → dir_is fs parent d → cstring name →
  ∃ fs' r, idkfs_create fs parent name tier mode now = Some (fs', r) ∧
    fs_inv fs' ∧ others_kept parent fs fs' ∧
    (type_at fs' parent = type_at fs parent ∧
     link_count_at fs' parent = link_count_at fs parent) ∧
    ((r = -1 ∧ fs' = fs ∧ no_free_inode fs) ∨
     (r = -1 ∧ d_count d = 128 ∧ dir_is fs' parent d ∧ same_free fs fs') ∨
     (takes_inode fs fs' r ∧ d_count d < 128 ∧
      ∃ e, dir_is fs' parent (dir_append d e) ∧ named name e ∧ e_inode e = r ∧
        cvalid DirEntry_codec e ∧
        (fs_inodes fs').[r] =
          Some (init_inode IDKFS_FT_FILE tier mode 1 now (fresh_inode r)) ∧
        entry_as IDKFS_FT_FILE name e)).
Proof.
  intros Hinv Hd Hn. pose proof Hinv as [Hwf Hfi]. unfold idkfs_create.
  destruct (new_node_ok fs parent d IDKFS_FT_FILE tier mode 1 now Hinv Hd)
    as [[-> Hall]|(k & fs0 & -> & Hff & Hpos & Hu32 & Hu & Hinv1 & Hli & Hne & Hd1 & Hty1 & Hlc1 &
      Hik & Hkept1 & Hfree1)]; [lia|ostep|ostep].
  { exists fs, (-1). split_and!; [done|done|by intros ? _ ?|done|done|]. by left. }
  rewrite Hpos, Hu. ostep. rewrite Hu32. pose proof Hinv1 as [Hwf1 _].
  destruct (idkfs_dir_add_ok _ parent d name k IDKFS_FT_FILE now Hwf1 Hd1 Hn)
    as (fs2 & r & -> & Hwf2 & Hm & Hcase). ostep.
  pose proof (fs_inv_modifies _ _ _ Hm Hwf2 Hinv1) as Hinv2.
  rewrite <- (mod_others _ _ _ Hm) in Hik by done.
  rewrite <- (modifies_type _ _ _ _ Hm (proj1 Hd1)) in Hty1.
  rewrite <- (modifies_link_count _ _ _ _ Hm (proj1 Hd1)) in Hlc1.
  assert (others_kept parent fs fs2) as Hkept2
    by (eapply others_kept_trans; [apply Hkept1|by apply others_kept_modifies]).
  assert (∀ k', k' ≠ k → ino_free fs2 k' = ino_free fs k') as Hfree2
    by (intros; by rewrite (modifies_ino_free _ _ _ _ Hm), Hfree1).
  destruct Hcase as [(Hfull & -> & Hd2)|(Hroom & -> & Hadd)]; cbn [Z.ltb Z.compare].
  - destruct (inode_free_undo fs2 k _ Hinv2 (proj1 Hff) Hik Hli (fresh_inode_direct k))
      as (fs3 & -> & Hinv3 & Hk3 & Hf3). ostep.
    exists fs3, (-1). split_and!; [done|exact Hinv3| | | |].
    { intros k' Hk' Hl'. eapply kept_trans; [by apply Hkept2|]. apply Hk3. intros ->.
      by eapply ino_free_not_live; [apply Hff|]. }
    { by rewrite (kept_type _ _ _ (Hk3 parent Hne)). }
    { unfold link_count_at in *. by rewrite (proj1 (Hk3 parent Hne)). }
    right. left. split_and!; [done|done|by eapply kept_dir; [by apply Hk3|]|].
    intros k'. rewrite Hf3. zcase; [subst; by apply eq_sym, Hff|by apply Hfree2].
  - exists fs2, k. split_and!; [done|exact Hinv2|done|done|done|]. right. right.
    split; [split; [done|]|split; [done|]].
    { intros k'. zcase; [subst; by eapply live_not_free|by apply Hfree2]. }
    destruct (Hadd (fs_wf_room _ _ Hwf1)) as (e & Hde & Hne' & Hei & _ & Hve & _ & Has).
    exists e. by split_and!; [exact Hde| |rewrite Hei| |exact Hik|exact Has].
Qed.

(** ** Changing the attributes of an inode

    [chmod], [utimens], link counts: same liveness, same blocks. *)

Lemma upd_attr_ok fs k i f :
  fs_inv fs → (fs_inodes fs).[k] = Some i → cvalid Inode_codec (f i) →
  (live (f i) ↔ live i) → i_direct (f i) = i_direct i →
  i_indirect1 (f i) = i_indirect1 i →
  ∃ fs', upd_inode fs k f = Some fs' ∧ fs_inv fs' ∧
    fs' = set_fs_inodes (<[Z.to_nat k := f i]> (fs_inodes fs)) fs ∧
    (∀ k', (fs_inodes fs').[k'] = if k' =? k then Some (f i) else (fs_inodes fs).[k']) ∧
    (∀ k' p, fbyte fs' k' p = fbyte fs k' p).
Proof.
  intros [Hwf Hfi] Hi Hv Hl Hd Hind. rewrite (upd_inode_ok _ _ i) by done.
  set (fs' := set_fs_inodes _ fs).
  assert (Hg : ∀ k', (fs_inodes fs').[k'] =
      if k' =? k then Some (f i) else (fs_inodes fs).[k'])
    by (intros; by apply inodes_insert with i).
  exists fs'. split_and!; [done| |done|exact Hg|].
  - split; [by apply fs_wf_upd_inode with i|].
    change (fs_sb fs') with (fs_sb fs). rewrite Hfi. symmetry.
    apply free_inode_count_ext. intros k' _. unfold ino_free. rewrite Hg.
    zcase; [|done]. subst. rewrite Hi. unfold live in Hl. by zcases; try lia; tauto.
  - intros k' p. unfold fbyte, fblock. rewrite Hg. zcase; [|done]. subst.
    rewrite Hi. cbn [mbind option_bind]. by rewrite Hd.
Qed.

(** Such a change that keeps the size keeps every directory. *)
Lemma upd_attr_dir fs fs' k i i' :
  (fs_inodes fs).[k] = Some i → (live i' ↔ live i) → i_size i' = i_size i →
  (∀ k', (fs_inodes fs').[k'] = if k' =? k then Some i' else (fs_inodes fs).[k']) →
  (∀ k' p, fbyte fs' k' p = fbyte fs k' p) →
  ∀ k' d, dir_is fs k' d → dir_is fs' k' d.
Proof.
  intros Hi Hl Hs Hg Hb k' d. apply dir_is_same.
  - split; [done|]. unfold size_at. rewrite Hg. zcase; [|done]. subst. rewrite Hi. cbn.
    by rewrite Hs.
  - unfold live_at. rewrite Hg. zcase; [|done]. subst. rewrite Hi.
    intros (? & [= <-] & ?). exists i'. tauto.
Qed.

Lemma set_i_link_count_valid' i n :
  cvalid Inode_codec i → cvalid Inode_codec (set_i_link_count (u32 n) i).
Proof. intros. apply set_i_link_count_valid; [apply u32_range|done]. Qed.

(** ** [idkfs_mkdir] *)

Lemma dir_add_room fs k d name ino type now :
  fs_inv fs → dir_is fs k d → cstring name →
  ∃ fs' r, idkfs_dir_add fs k name ino type now = Some (fs', r) ∧
    fs_inv fs' ∧ modifies k fs fs' ∧
    ((d_count d = 128 ∧ r = -1 ∧ dir_is fs' k d) ∨
     (d_count d < 128 ∧ r = 0 ∧ ∃ e, dir_is fs' k (dir_append d e) ∧ named name e ∧
         e_inode e = u32 ino ∧ e_type e = ft_val type ∧ cvalid DirEntry_codec e ∧
         entry_as type name e)).
Proof.
  intros Hinv Hd Hn. pose proof (inv_wf _ Hinv) as Hwf.
  destruct (idkfs_dir_add_ok fs k d name ino type now Hwf Hd Hn)
    as (fs' & r & Ha & Hwf' & Hm & Hcase).
  exists fs', r. split_and!; [exact Ha|by eapply fs_inv_modifies|exact Hm|].
  destruct Hcase as [Hfull|(Hc & Hr & Hadd)]; [by left|right].
  split; [done|]. split; [done|].
  destruct (Hadd (fs_wf_room _ _ Hwf)) as (e & ? & ? & ? & ? & ? & _ & ?). by exists e.
Qed.

Lemma DOT_cstring : cstring DOT.
Proof. repeat constructor. Qed.
Lemma DOTDOT_cstring : cstring DOTDOT.
Proof. repeat constructor. Qed.

(** The two entries of a new directory. *)
Lemma mkdir_dots fs k parent now :
  fs_inv fs → dir_is fs k Directory_zero →
  ∃ fs1 fs2 d e1 e2,
    idkfs_dir_add fs k DOT k IDKFS_FT_DIR now = Some (fs1, 0) ∧
    idkfs_dir_add fs1 k DOTDOT parent IDKFS_FT_DIR now = Some (fs2, 0) ∧
    fs_inv fs2 ∧ modifies k fs fs2 ∧ dir_is fs2 k d ∧ d_list d = [e1; e2] ∧
    named DOT e1 ∧ named DOTDOT e2 ∧ e_inode e1 = u32 k ∧ e_inode e2 = u32 parent ∧
    entry_as IDKFS_FT_DIR DOT e1 ∧ entry_as IDKFS_FT_DIR DOTDOT e2.
Proof.
  intros Hinv Hd.
  destruct (dir_add_room fs k _ DOT k IDKFS_FT_DIR now Hinv Hd DOT_cstring)
    as (fs1 & r1 & H1 & Hinv1 & Hm1 & [(Hc & _)|(_ & -> & e1 & Hd1 & Hn1 & Hi1 & _ & Hv1 & Ha1)]);
    [done|].
  destruct (dir_append_ok Directory_zero e1 dir_zero_ok) as [Hok1 Hl1]; [done|done|].
  destruct (dir_add_room fs1 k _ DOTDOT parent IDKFS_FT_DIR now Hinv1 Hd1 DOTDOT_cstring)
    as (fs2 & r2 & H2 & Hinv2 & Hm2 & [(Hc & _)|(_ & -> & e2 & Hd2 & Hn2 & Hi2 & _ & Hv2 & Ha2)]);
    [done|].
  destruct (dir_append_ok _ e2 Hok1) as [_ Hl2]; [done|done|].
  exists fs1, fs2, (dir_append (dir_append Directory_zero e1) e2), e1, e2.
  split_and!; [done|done|exact Hinv2|by eapply modifies_trans|exact Hd2| |done|done|done|done|exact Ha1|exact Ha2].
  rewrite Hl2, Hl1. done.
Qed.

(** The last step: the link count of the parent. *)
Lemma link_bump_ok fs k :
  fs_inv fs → live_at fs k → link_count_at fs k + 1 < 4294967296 →
  ∃ fs', upd_inode fs k (λ i, set_i_link_count (u32 (i_link_count i + 1)) i) = Some fs' ∧
    fs_inv fs' ∧ others_kept k fs fs' ∧
    link_count_at fs' k = link_count_at fs k + 1 ∧ type_at fs' k = type_at fs k ∧
    same_free fs fs' ∧ ∀ k' d, dir_is fs k' d → dir_is fs' k' d.
Proof.
  intros Hinv (i & Hi & Hl) Hlt. unfold link_count_at in *. rewrite Hi in *. cbn in Hlt.
  assert (cvalid Inode_codec i) as Hv by (eapply wf_inode, Hi; apply Hinv).
  assert (0 ≤ i_link_count i) by (unfold_valid; lia).
  assert (u32 (i_link_count i + 1) = i_link_count i + 1) as Hu by (apply u32_small; lia).
  destruct (upd_attr_ok fs k i (λ i, set_i_link_count (u32 (i_link_count i + 1)) i))
    as (fs' & -> & Hinv' & _ & Hg & Hb); try done.
  { by apply set_i_link_count_valid'. }
  { unfold live in *. cbn. rewrite Hu. lia. }
  exists fs'. split_and!; [done|exact Hinv'| | | | |].
  - intros k' Hne _. split; [rewrite Hg; by zcase|done].
  - rewrite Hg, Z.eqb_refl. cbn. lia.
  - unfold type_at. by rewrite Hg, Z.eqb_refl, Hi.
  - intros k'. unfold ino_free. rewrite Hg. zcase; [|done]. subst. rewrite Hi. cbn. rewrite Hu.
    unfold live in Hl. zcases; lia.
  - apply (upd_attr_dir fs fs' k i _ Hi) with (4 := Hb) (3 := Hg); [|done].
    unfold live in *. cbn. rewrite Hu. lia.
Qed.

(** What [idkfs_mkdir] changes between two states: the files and directories
    of other live inodes, and types and link counts, are as they were. *)
Record nodes_kept (k parent : Z) (fs fs' : IDKFS) : Prop := {
  nk_kept k' : k' ≠ k → k' ≠ parent → live_at fs k' → kept k' fs fs';
  nk_live k' : live_at fs k' → live_at fs' k';
  nk_type k' : live_at fs k' → type_at fs' k' = type_at fs k';
  nk_links k' : live_at fs k' → link_count_at fs' k' = link_count_at fs k';
  nk_free : same_free fs fs';
}.

Lemma nodes_kept_modifies k parent fs fs' k0 :
  modifies k0 fs fs' → k0 = k ∨ k0 = parent → nodes_kept k parent fs fs'.
Proof.
  intros Hm Hk0. split; intros k'.
  - intros H1 H2. apply (others_kept_modifies _ _ _ Hm). by destruct Hk0; congruence.
  - by apply modifies_live with k0.
  - by apply modifies_type with k0.
  - by apply modifies_link_count with k0.
  - by apply modifies_ino_free with k0.
Qed.

Lemma nodes_kept_trans k parent fs1 fs2 fs3 :
  nodes_kept k parent fs1 fs2 → nodes_kept k parent fs2 fs3 → nodes_kept k parent fs1 fs3.
Proof.
  intros [K1 L1 T1 C1 F1] [K2 L2 T2 C2 F2]. split; intros k'.
  - intros H1 H2 Hl. eapply kept_trans; [by apply K1|apply K2; auto].
  - auto.
  - intros Hl. rewrite T2, T1; auto.
  - intros Hl. rewrite C2, C1; auto.
  - by rewrite F2, F1.
Qed.

(** The three uses of [idkfs_dir_add] in [idkfs_mkdir]. *)
Lemma mkdir_adds fs k parent d name now :
  fs_inv fs → dir_is fs k Directory_zero → dir_is fs parent d → parent ≠ k → cstring name →
  ∃ fs1 fs2 fs3 r d' e1 e2,
    idkfs_dir_add fs k DOT k IDKFS_FT_DIR now = Some (fs1, 0) ∧
    idkfs_dir_add fs1 k DOTDOT parent IDKFS_FT_DIR now = Some (fs2, 0) ∧
    idkfs_dir_add fs2 parent name k IDKFS_FT_DIR now = Some (fs3, r) ∧
    fs_inv fs3 ∧ nodes_kept k parent fs fs3 ∧
    (dir_is fs3 k d' ∧ d_list d' = [e1; e2] ∧ named DOT e1 ∧ named DOTDOT e2 ∧
     e_inode e1 = u32 k ∧ e_inode e2 = u32 parent ∧
     entry_as IDKFS_FT_DIR DOT e1 ∧ entry_as IDKFS_FT_DIR DOTDOT e2) ∧
    ((d_count d = 128 ∧ dir_is fs3 parent d) ∨
     (d_count d < 128 ∧ ∃ e, dir_is fs3 parent (dir_append d e) ∧ named name e ∧
        e_inode e = u32 k ∧ e_type e = ft_val IDKFS_FT_DIR ∧ cvalid DirEntry_codec e ∧
        entry_as IDKFS_FT_DIR name e)).
Proof.
  intros Hinv Hk Hd Hne Hn. destruct (mkdir_dots fs k parent now Hinv Hk)
    as (fs1 & fs2 & d' & e1 & e2 & H1 & H2 & Hinv2 & Hm2 & Hdk & Hnew).
  pose proof (modifies_other_dir _ _ _ _ _ Hm2 Hne Hd) as Hd2.
  destruct (dir_add_room fs2 parent d name k IDKFS_FT_DIR now Hinv2 Hd2 Hn)
    as (fs3 & r & H3 & Hinv3 & Hm3 & Hcase).
  exists fs1, fs2, fs3, r, d', e1, e2. split_and!; try done.
  - eapply nodes_kept_trans; eapply nodes_kept_modifies; eauto.
  - eapply modifies_other_dir; [exact Hm3|done|exact Hdk].
  - by apply Hnew.
  - by apply Hnew.
  - by apply Hnew.
  - by apply Hnew.
  - by apply Hnew.
  - by apply Hnew.
  - by apply Hnew.
  - destruct Hcase as [(Hc & _ & Hf)|(Hc & _ & He)]; [by left|by right].
Qed.

Lemma idkfs_mkdir_ok fs parent d name mode now :
  fs_inv fs → dir_is fs parent d → cstring name →
  link_count_at fs parent + 1 < 4294967296 →
  ∃ fs' r, idkfs_mkdir fs parent name mode now = Some (fs', r) ∧
    fs_inv fs' ∧ others_kept parent fs fs' ∧ type_at fs' parent = type_at fs parent ∧
    ((r = -1 ∧ fs' = fs ∧ no_free_inode fs) ∨
     (takes_inode fs fs' r ∧ type_at fs' r = ft_val IDKFS_FT_DIR ∧
      (∃ d' e1 e2, dir_is fs' r d' ∧ d_list d' = [e1; e2] ∧
         named DOT e1 ∧ named DOTDOT e2 ∧ e_inode e1 = r ∧ e_inode e2 = parent ∧
         entry_as IDKFS_FT_DIR DOT e1 ∧ entry_as IDKFS_FT_DIR DOTDOT e2) ∧
      link_count_at fs' parent = link_count_at fs parent + 1 ∧
      ((d_count d = 128 ∧ dir_is fs' parent d) ∨
       (d_count d < 128 ∧ ∃ e, dir_is fs' parent (dir_append d e) ∧ named name e ∧
          e_inode e = r ∧ e_type e = ft_val IDKFS_FT_DIR ∧ cvalid DirEntry_codec e ∧
          entry_as IDKFS_FT_DIR name e)))).
Proof.
  intros Hinv Hd Hn Hlc. pose proof Hinv as [Hwf _]. unfold idkfs_mkdir.
  destruct (new_node_ok fs parent d IDKFS_FT_DIR TIER_NORMAL mode 2 now Hinv Hd)
    as [[-> Hall]|(k & fs0 & -> & Hff & Hpos & Hu32 & Hu & Hinv1 & Hli & Hne & Hd1 & Hty1 & Hlc1 &
      Hik & Hkept1 & Hfree1)]; [lia|ostep|ostep].
  { exists fs, (-1). split_and!; [done|done|by intros ? _ ?|done|]. by left. }
  rewrite Hpos, Hu. ostep. rewrite Hu32.
  set (fs1 := with_new_inode _ _ _) in *.
  assert (live_at fs1 k) as Lk1 by (eexists; split; [exact Hik|exact Hli]).
  assert (dir_is fs1 k Directory_zero) as Hd0
    by (by apply new_inode_empty_dir; [apply Hff|..]).
  destruct (mkdir_adds fs1 k parent d name now Hinv1 Hd0 Hd1 Hne Hn)
    as (fs2 & fs3 & fs4 & r & d' & e1 & e2 & -> & H3 & H4 & Hinv4 & Hnk & Hnew & Hcase).
  ostep. rewrite H3. ostep. rewrite H4. ostep.
  assert (live_at fs1 parent) as Hl1 by apply Hd1.
  assert (link_count_at fs4 parent = link_count_at fs parent) as Hlc4
    by by rewrite (nk_links _ _ _ _ Hnk).
  destruct (link_bump_ok fs4 parent Hinv4 (nk_live _ _ _ _ Hnk _ Hl1))
    as (fs5 & -> & Hinv5 & Hk5 & Hlc5 & Hty5 & Hf5 & Hd5); [by rewrite Hlc4|]. ostep.
  exists fs5, k. split_and!; [done|exact Hinv5| | |].
  { intros k' Hk' Hl'.
    assert (k' ≠ k) as Hkk by (intros ->; by eapply ino_free_not_live; [apply Hff|]).
    pose proof (Hkept1 parent k' Hk' Hl') as K1.
    pose proof (nk_kept _ _ _ _ Hnk k' Hkk Hk' (kept_live _ _ _ K1 Hl')) as K2.
    eapply kept_trans, kept_trans; [exact K1|exact K2|]. apply Hk5; eauto using kept_live. }
  { by rewrite Hty5, (nk_type _ _ _ _ Hnk). }
  right. split; [split; [exact Hff|]|].
  { intros k'. rewrite Hf5, (nk_free _ _ _ _ Hnk). zcase; [subst; by eapply live_not_free|].
    by apply Hfree1. }
  split_and!.
  - rewrite (kept_type _ _ _ (Hk5 k ltac:(done) (nk_live _ _ _ _ Hnk _ Lk1))).
    rewrite (nk_type _ _ _ _ Hnk) by done. unfold type_at. by rewrite Hik.
  - destruct Hnew as (Hdk & Hl & Hn1 & Hn2 & Hi1 & Hi2 & Ha1 & Ha2).
    exists d', e1, e2. split_and!; [by apply Hd5|done|done|done|by rewrite Hi1| |done|done].
    rewrite Hi2. apply u32_small. pose proof (proj1 Hd) as (ip & Hip%zget_bound & _).
    rewrite (wf_ninodes _ Hwf) in Hip. fs_unfold. lia.
  - lia.
  - destruct Hcase as [(Hc & Hd4)|(Hc & e & Hd4 & Hne4 & Hi4 & Hrest)]; [left; auto|right].
    split; [done|]. exists e. split; [by apply Hd5|]. split; [done|]. by rewrite Hi4, Hu32.
Qed.
