(* ===== verification/Mkfs.v ===== *)
(** * Formatting and flushing: [idkfs_mkfs], [idkfs_flush], [idkfs_destroy]

    A formatted file system satisfies [fs_inv] and its root directory holds
    ["."] and [".."].  [idkfs_mount_image] of [idkfs_persist.c] contains the
    same statements for a new image; [idkfs_format] is their common model,
    for any contents of the disk. *)

From S2P Require Import Prelude Cint CString Codec Mem CoreTypes Crc Bitmap.
From S2P Require Import Core FileIO Dir Fs.

Definition inode_blocks : Z :=
  u32 ((IDKFS_MAX_INODES * Z.of_nat (csize Inode_codec) + IDKFS_BLOCK_SIZE - 1) /
       IDKFS_BLOCK_SIZE).
Definition data_start : Z := u32 (2 + inode_blocks).

(** [calloc(1, sizeof(IDKFS))] with its [disk] and [features] set. *)
Definition IDKFS_calloc (disk : mem) (features : FeatureFlags) : IDKFS :=
  mkIDKFS Superblock_zero BlockBitmap_zero (replicate (Z.to_nat IDKFS_MAX_INODES) Inode_zero)
    (replicate (Z.to_nat IDKFS_TOTAL_BLOCKS) 0) (replicate (Z.to_nat IDKFS_TOTAL_BLOCKS) 0)
    disk features false false.

(** The superblock literal and the [strncpy] of the label. *)
Definition format_sb (label : list Z) (now : Z) : Superblock :=
  mkSuperblock IDKFS_MAGIC IDKFS_VERSION IDKFS_BLOCK_SIZE IDKFS_TOTAL_BLOCKS
    (u32 (IDKFS_TOTAL_BLOCKS - data_start)) IDKFS_MAX_INODES (IDKFS_MAX_INODES - 1)
    2 1 data_start IDKFS_ROOT_INODE (u64 now) (u64 now) 0 1 0 (replicate 16 0)
    (strncpy (replicate 64 0) label 63) 0 (replicate (Z.to_nat 3820) 0).

(** [for (i = 0; i < data_start; i++) bitmap_set(&fs->bitmap, i);] *)
Fixpoint bitmap_set_from (bm : BlockBitmap) (i : Z) (n : nat) : option BlockBitmap :=
  match n with
  | O => Some bm
  | S n => bm ← bitmap_set bm i; bitmap_set_from bm (i + 1) n
  end.

Definition format_root (now : Z) (i : Inode) : Inode :=
  set_i_indirect1 IDKFS_NULL_BLOCK (set_i_indirect2 IDKFS_NULL_BLOCK
    (set_i_direct (replicate (Z.to_nat IDKFS_DIRECT_BLOCKS) IDKFS_NULL_BLOCK)
      (init_inode IDKFS_FT_DIR TIER_NORMAL 493 2 now (set_i_ino IDKFS_ROOT_INODE i)))).

Definition idkfs_format (fs : IDKFS) (label : list Z) (now : Z) : option IDKFS :=
  let fs := set_fs_sb (format_sb label now) fs in
  bm ← bitmap_set_from (fs_bitmap fs) 0 (Z.to_nat data_start);
  let fs := set_fs_bitmap bm fs in
  fs ← upd_inode fs IDKFS_ROOT_INODE (format_root now);
  '(fs, _) ← idkfs_dir_add fs IDKFS_ROOT_INODE DOT IDKFS_ROOT_INODE IDKFS_FT_DIR now;
  '(fs, _) ← idkfs_dir_add fs IDKFS_ROOT_INODE DOTDOT IDKFS_ROOT_INODE IDKFS_FT_DIR now;
  Some fs.

(** [crc32(&fs->sb, sizeof(Superblock) - sizeof(uint32_t))] *)
Definition sb_crc (sb : Superblock) : Z :=
  crc32 (take (csize Superblock_codec - 4) (cenc Superblock_codec sb)).
Definition sb_checksummed (fs : IDKFS) : IDKFS :=
  if checksums (fs_features fs)
  then upd_sb (λ sb, set_sb_checksum (sb_crc sb) sb) fs else fs.

(** [alloc_fs] and [alloc_disk] tell whether the two [calloc] succeed; the
    inner [None] is the [NULL] returned when one does not. *)
Definition idkfs_mkfs (alloc_fs alloc_disk : bool) (label : list Z)
    (features : FeatureFlags) (now : Z) : option (option IDKFS) :=
  if alloc_fs && alloc_disk then
    fs ← idkfs_format
           (IDKFS_calloc (mzero (IDKFS_TOTAL_BLOCKS * IDKFS_BLOCK_SIZE)) features) label now;
    Some (Some (sb_checksummed fs))
  else Some None.

Definition inode_table_codec : codec (list Inode) :=
  c_vec (Z.to_nat IDKFS_MAX_INODES) Inode_codec.

(** The three [memcpy] to the head of the disk. *)
Definition flush_metadata (fs : IDKFS) : option IDKFS :=
  d ← mstore Superblock_codec (fs_disk fs) 0 (fs_sb fs);
  d ← mstore BlockBitmap_codec d IDKFS_BLOCK_SIZE (fs_bitmap fs);
  d ← mstore inode_table_codec d (2 * IDKFS_BLOCK_SIZE) (fs_inodes fs);
  Some (set_fs_disk d fs).

Definition idkfs_flush (fs : IDKFS) : option IDKFS :=
  if fs_dirty fs then
    fs ← flush_metadata (sb_checksummed fs);
    Some (set_fs_dirty false fs)
  else Some fs.

(** [idkfs_destroy]: the disk as the flush left it, before it is freed. *)
Definition idkfs_destroy (fs : option IDKFS) : option (option mem) :=
  match fs with
  | None => Some None
  | Some fs => fs ← idkfs_flush fs; Some (Some (fs_disk fs))
  end.

(** ** The formatted state *)

Lemma data_start_138 : data_start = DATA_START.
Proof. vm_compute. reflexivity. Qed.

Lemma bitmap_set_from_ok n bm i :
  bitmap_ok bm → 0 ≤ i → i + Z.of_nat n ≤ IDKFS_TOTAL_BLOCKS →
  (∀ b, i ≤ b < IDKFS_TOTAL_BLOCKS → used bm b = false) →
  ∃ bm', bitmap_set_from bm i n = Some bm' ∧ bitmap_ok bm' ∧
    bitmap_free_count bm' = bitmap_free_count bm - Z.of_nat n ∧
    ∀ b, block_range b →
      used bm' b = if (i <=? b) && (b <? i + Z.of_nat n) then true else used bm b.
Proof.
  revert bm i. induction n as [|n IH]; intros bm i Hok Hi Hn Hfree; cbn [bitmap_set_from].
  { exists bm. split_and!; [done|done|lia|]. intros b _. by zcases; try lia. }
  destruct (bitmap_set_ok bm Hok i) as (bm1 & -> & Hok1 & Hu1); [fs_unfold; lia|].
  cbn [mbind option_bind].
  destruct (IH bm1 (i + 1)) as (bm' & -> & Hok' & Hc & Hu'); [done|lia|lia| |].
  { intros b Hb. rewrite Hu1 by (fs_unfold; lia). zcase; [lia|]. apply Hfree. lia. }
  exists bm'. split_and!; [done|done| |].
  - rewrite Hc, (free_count_flip bm bm1 i); [lia|fs_unfold; lia|apply Hfree; lia| |].
    + by rewrite Hu1, Z.eqb_refl by (fs_unfold; lia).
    + intros b Hb Hne. rewrite Hu1 by done. by zcase.
  - intros b Hb. rewrite Hu', Hu1 by done. zcases; try lia; done.
Qed.

Lemma format_sb_valid label now :
  cstring label → cvalid Superblock_codec (format_sb label now).
Proof.
  intros Hl. unfold format_sb. pose proof (u64_range now) as Hn.
  pose proof (u32_range (IDKFS_TOTAL_BLOCKS - data_start)). rewrite data_start_138 in *.
  assert (cvalid (c_raw 64) (strncpy (replicate 64 0) label 63)) as [Hlen Hb].
  { cbn [cvalid c_raw]. rewrite strncpy_length by (rewrite length_replicate; lia).
    split; [done|]. apply Forall_app.
    split; [by apply strncpy_bytes_bytes|]. apply Forall_drop, zero_bytes. }
  unfold_valid. unfold IDKFS_MAGIC, IDKFS_VERSION, IDKFS_ROOT_INODE. fs_unfold.
  split_and!; try lia; try done; auto using zero_bytes.
Qed.

Lemma format_root_valid now i : cvalid Inode_codec i → cvalid Inode_codec (format_root now i).
Proof.
  intros Hi. unfold format_root.
  assert (0 ≤ IDKFS_NULL_BLOCK < 4294967296) by (unfold IDKFS_NULL_BLOCK; lia).
  apply set_i_indirect1_valid; [done|]. apply set_i_indirect2_valid; [done|].
  apply set_i_direct_valid.
  { split; [done|]. apply Forall_replicate. cbn -[Z.pow Z.of_nat]. pow256. done. }
  apply init_inode_valid; [lia|]. apply set_i_ino_valid; [unfold IDKFS_ROOT_INODE; lia|done].
Qed.

(** The state before the entries of the root are added. *)
Definition blank_fs (disk : mem) (features : FeatureFlags) (label : list Z) (now : Z)
    (bm : BlockBitmap) : IDKFS :=
  let fs := set_fs_bitmap bm (set_fs_sb (format_sb label now) (IDKFS_calloc disk features)) in
  set_fs_inodes
    (<[Z.to_nat IDKFS_ROOT_INODE := format_root now Inode_zero]> (fs_inodes fs)) fs.

Section blank.
Context (disk : mem) (features : FeatureFlags) (label : list Z) (now : Z)
  (bm : BlockBitmap).
Context (Hlabel : cstring label) (Hdisk : mem_ok disk)
  (Hsize : IDKFS_TOTAL_BLOCKS * IDKFS_BLOCK_SIZE ≤ m_size disk)
  (Hbm : bitmap_ok bm)
  (Hcount : bitmap_free_count bm = IDKFS_TOTAL_BLOCKS - DATA_START)
  (Hused : ∀ b, block_range b → used bm b = (b <? DATA_START)).
Let fs := blank_fs disk features label now bm.

Lemma blank_inode k :
  (fs_inodes fs).[k] =
  if k =? 0 then Some (format_root now Inode_zero)
  else (replicate (Z.to_nat IDKFS_MAX_INODES) Inode_zero).[k].
Proof using.
  clear. unfold fs, IDKFS_ROOT_INODE.
  cbn [blank_fs set_fs_inodes set_fs_bitmap set_fs_sb IDKFS_calloc fs_inodes].
  unfold IDKFS_ROOT_INODE.
  zcase; subst.
  - apply zget_insert_eq. rewrite length_replicate. fs_unfold. lia.
  - by apply zget_insert_ne.
Qed.

Lemma blank_dead k i : k ≠ 0 → (fs_inodes fs).[k] = Some i → i = Inode_zero.
Proof using.
  clear. intros Hk. rewrite blank_inode. zcase; [done|]. intros [_ H]%zget_Some.
  by apply lookup_replicate in H as [-> _].
Qed.

Lemma blank_owns k j b : ¬ owns fs k j b.
Proof using.
  clear. intros [(i & Hi & Hl) (i' & Hi' & Hb & Hne)%fblock_Some]. simplify_eq.
  destruct (Z.eq_dec k 0) as [->|Hk].
  - rewrite blank_inode in Hi. cbn [Z.eqb] in Hi. simplify_eq.
    apply zget_Some in Hb as [_ Hb].
    cbn [format_root init_inode set_i_indirect1 set_i_indirect2 set_i_direct i_direct] in Hb.
    by apply lookup_replicate in Hb as [-> _].
  - by rewrite (blank_dead k i Hk Hi) in Hl.
Qed.

Lemma blank_wf : fs_wf fs.
Proof using All.
  split.
  - exact Hbm.
  - cbn [fs blank_fs set_fs_inodes set_fs_bitmap set_fs_sb IDKFS_calloc fs_inodes]. rewrite length_insert, length_replicate. done.
  - cbn [fs blank_fs set_fs_inodes set_fs_bitmap set_fs_sb IDKFS_calloc fs_inodes].
    apply Forall_insert; [|apply format_root_valid, Inode_zero_valid].
    apply Forall_replicate, Inode_zero_valid.
  - by apply format_sb_valid.
  - exact Hsize.
  - exact Hdisk.
  - apply data_start_138.
  - change (u32 (IDKFS_TOTAL_BLOCKS - data_start) = bitmap_free_count bm).
    rewrite Hcount, data_start_138. done.
  - intros b Hb. cbn. rewrite Hused by (fs_unfold; lia). zcase; [done|lia].
  - intros k j b []%blank_owns.
  - intros k j k' j' b []%blank_owns.
  - intros b Hb. cbn. rewrite Hused by (fs_unfold; lia). intros Hlt%Z.ltb_lt. lia.
  - intros k i Hi Hl. destruct (Z.eq_dec k 0) as [->|Hk].
    + rewrite blank_inode in Hi. cbn [Z.eqb] in Hi. by simplify_eq.
    + by rewrite (blank_dead k i Hk Hi) in Hl.
Qed.

Lemma blank_ino_free k : 1 ≤ k < IDKFS_MAX_INODES → ino_free fs k = true.
Proof using.
  clear. intros Hk. unfold ino_free. rewrite blank_inode. zcase; [lia|].
  rewrite zget_replicate; [done|fs_unfold; lia].
Qed.

Lemma blank_inv : fs_inv fs.
Proof using All.
  split; [apply blank_wf|]. change (sb_free_inodes (fs_sb fs)) with 4095.
  unfold free_inode_count. rewrite filter_all.
  - symmetry. apply all_inodes_length.
  - apply Forall_forall. intros k Hk%elem_of_all_inodes. by apply blank_ino_free.
Qed.

Lemma blank_root : dir_is fs IDKFS_ROOT_INODE Directory_zero.
Proof using.
  clear. split; [|split; [apply dir_zero_ok|left; split; [|done]]].
  - exists (format_root now Inode_zero). rewrite blank_inode. done.
  - unfold size_at. rewrite blank_inode. done.
Qed.
End blank.

Lemma calloc_root disk features label now bm :
  (fs_inodes (set_fs_bitmap bm (set_fs_sb (format_sb label now)
    (IDKFS_calloc disk features)))).[IDKFS_ROOT_INODE] = Some Inode_zero.
Proof. apply zget_replicate. unfold IDKFS_ROOT_INODE. fs_unfold. lia. Qed.

(** Formatting is adding the two entries to the blank state. *)
Lemma idkfs_format_blank disk features label now bm :
  bitmap_set_from BlockBitmap_zero 0 (Z.to_nat DATA_START) = Some bm →
  idkfs_format (IDKFS_calloc disk features) label now =
    '(fs, _) ← idkfs_dir_add (blank_fs disk features label now bm)
                 IDKFS_ROOT_INODE DOT IDKFS_ROOT_INODE IDKFS_FT_DIR now;
    '(fs, _) ← idkfs_dir_add fs IDKFS_ROOT_INODE DOTDOT IDKFS_ROOT_INODE
                 IDKFS_FT_DIR now;
    Some fs.
Proof.
  intros Hset. unfold idkfs_format. cbv zeta.
  assert (bitmap_set_from (fs_bitmap (set_fs_sb (format_sb label now)
    (IDKFS_calloc disk features))) 0 (Z.to_nat data_start) = Some bm) as ->.
  { rewrite data_start_138. exact Hset. }
  ostep. rewrite (upd_inode_ok _ _ Inode_zero) by apply calloc_root. ostep. reflexivity.
Qed.

(** The state of a fresh file system. *)
Record formatted (fs : IDKFS) : Prop := {
  fmt_inv : fs_inv fs;
  fmt_root : ∃ d e1 e2, dir_is fs IDKFS_ROOT_INODE d ∧ d_list d = [e1; e2] ∧
    named DOT e1 ∧ named DOTDOT e2 ∧ e_inode e1 = 0 ∧ e_inode e2 = 0 ∧
    entry_as IDKFS_FT_DIR DOT e1 ∧ entry_as IDKFS_FT_DIR DOTDOT e2;
  fmt_root_type : type_at fs IDKFS_ROOT_INODE = ft_val IDKFS_FT_DIR;
  fmt_root_links : link_count_at fs IDKFS_ROOT_INODE = 2;
  fmt_free k : 1 ≤ k < IDKFS_MAX_INODES → ino_free fs k = true;
  fmt_magic : sb_magic (fs_sb fs) = IDKFS_MAGIC;
}.

Lemma idkfs_format_ok disk features label now :
  cstring label → mem_ok disk → IDKFS_TOTAL_BLOCKS * IDKFS_BLOCK_SIZE ≤ m_size disk →
  ∃ fs, idkfs_format (IDKFS_calloc disk features) label now = Some fs ∧ formatted fs ∧
    fs_features fs = features ∧
    set_sb_free_blocks 0 (fs_sb fs) = set_sb_free_blocks 0 (format_sb label now).
Proof.
  intros Hlabel Hdisk Hsize.
  destruct (bitmap_set_from_ok (Z.to_nat data_start) BlockBitmap_zero 0)
    as (bm & Hset & Hbm & Hc & Hu);
    [apply bitmap_zero_ok|lia|rewrite data_start_138; fs_unfold; lia| |].
  { intros b Hb. by apply used_zero. }
  rewrite data_start_138, Z2Nat.id, Z.add_0_l in * by (fs_unfold; lia).
  rewrite (idkfs_format_blank _ _ _ _ bm Hset). clear Hset.
  rewrite (free_count_all_free BlockBitmap_zero used_zero) in Hc.
  assert (fs_inv (blank_fs disk features label now bm)) as Hinv.
  { apply (blank_inv disk features label now bm Hlabel Hdisk Hsize Hbm Hc). intros b Hb. rewrite Hu by done. rewrite used_zero by done.
    unfold block_range in Hb. zcases; try lia; done. }
  destruct (mkdir_dots _ IDKFS_ROOT_INODE IDKFS_ROOT_INODE now Hinv)
    as (fs1 & fs2 & d & e1 & e2 & -> & H2 & Hinv2 & Hm & Hd & Hl & Hn1 & Hn2 & Hi1 & Hi2 & Has1 & Has2).
  { apply blank_root. }
  ostep. rewrite H2. ostep. exists fs2.
  split_and!; [done| |apply (mod_features _ _ _ Hm)|apply (mod_sb _ _ _ Hm)].
  split; [exact Hinv2| | | | |].
  - exists d, e1, e2. split_and!; done.
  - unfold type_at. destruct (mod_attr _ _ _ Hm (format_root now Inode_zero))
      as (i' & -> & Ha); [by rewrite blank_inode|]. unfold same_attr in Ha. cbn.
    by destruct Ha as (_ & -> & _).
  - rewrite (modifies_link_count _ _ _ _ Hm); [|apply blank_root].
    unfold link_count_at. by rewrite blank_inode.
  - intros k Hk. rewrite (modifies_ino_free _ _ _ _ Hm). by apply blank_ino_free.
  - exact (f_equal sb_magic (mod_sb _ _ _ Hm)).
Qed.

(** ** [idkfs_mkfs] *)

Lemma sb_crc_range sb : cvalid Superblock_codec sb → 0 ≤ sb_crc sb < 4294967296.
Proof. intros Hv. apply crc32_range, Forall_take. by apply cenc_bytes. Qed.

Lemma sb_checksummed_inv fs : fs_inv fs → fs_inv (sb_checksummed fs).
Proof.
  intros [Hwf Hfi]. unfold sb_checksummed. destruct (checksums (fs_features fs)); [|by split].
  split; [|exact Hfi]. apply fs_wf_set_sb; [exact Hwf| |done|done].
  apply set_sb_checksum_valid; [|apply Hwf]. apply sb_crc_range, Hwf.
Qed.

Lemma sb_checksummed_formatted fs : formatted fs → formatted (sb_checksummed fs).
Proof.
  intros [Hinv Hroot Ht Hl Hf Hmagic]. pose proof (sb_checksummed_inv fs Hinv) as Hinv'.
  unfold sb_checksummed in *. destruct (checksums (fs_features fs)); by split.
Qed.

Lemma idkfs_mkfs_ok label features now :
  cstring label →
  ∃ fs, idkfs_mkfs true true label features now = Some (Some fs) ∧ formatted fs ∧
    fs_features fs = features.
Proof.
  intros Hl. unfold idkfs_mkfs. cbn [andb].
  destruct (idkfs_format_ok (mzero (IDKFS_TOTAL_BLOCKS * IDKFS_BLOCK_SIZE)) features label now)
    as (fs & -> & Hfmt & Hfeat & _); [done|apply mzero_ok|done|].
  ostep. exists (sb_checksummed fs).
  split_and!; [done|by apply sb_checksummed_formatted|].
  rewrite <- Hfeat. unfold sb_checksummed. by destruct (checksums (fs_features fs)).
Qed.
