(* ===== verification/Spec.v ===== *)
(** * What the core promises: abstract directories and files

    An abstract directory is the list of its names and inode numbers, and
    its operations are functions on such lists.  The theorems show that the
    directory operations of [idkfs_core.c] implement them, that creation
    composes them with inode allocation, and that files read back what was
    written. *)

From S2P Require Import Prelude Cint CString Codec Mem CoreTypes Bitmap Core.
From S2P Require Import FileIO Dir Fs Mkfs.

(** ** Abstract directories *)

Definition adir := list (list Z * Z).

Definition abs_entry (e : DirEntry) : list Z * Z := (entry_name e, e_inode e).
Definition abs_dir (d : Directory) : adir := abs_entry <$> d_list d.

Definition adir_add (name : list Z) (ino : Z) (l : adir) : option adir :=
  if 128 <=? Z.of_nat (length l) then None else Some (l ++ [(name_key name, ino)]).

Fixpoint adir_lookup (name : list Z) (l : adir) : option Z :=
  match l with
  | [] => None
  | (n, ino) :: l => if decide (n = name_key name) then Some ino else adir_lookup name l
  end.

Fixpoint adir_remove (name : list Z) (l : adir) : adir :=
  match l with
  | [] => []
  | (n, ino) :: l =>
      if decide (n = name_key name) then l else (n, ino) :: adir_remove name l
  end.

(** Inode [k] of [fs] holds the abstract directory [l]. *)
Definition dir_rep (fs : IDKFS) (k : Z) (l : adir) : Prop :=
  ∃ d, dir_is fs k d ∧ abs_dir d = l.

Lemma adir_lookup_abs name l :
  adir_lookup name (abs_entry <$> l) = e_inode ∘ snd <$> list_lookup_name name l.
Proof.
  unfold list_lookup_name. induction l as [|e l IH]; [done|]. cbn [fmap list_fmap adir_lookup].
  change (abs_entry e) with (entry_name e, e_inode e). cbn [list_find].
  change (decide (entry_name e = name_key name)) with (decide (named name e)).
  destruct (decide (named name e)); [done|]. rewrite IH. by destruct (list_find _ l) as [[]|].
Qed.

Lemma adir_remove_abs name l :
  adir_remove name (abs_entry <$> l) =
  match list_lookup_name name l with
  | Some (x, _) => abs_entry <$> delete x l
  | None => abs_entry <$> l
  end.
Proof.
  unfold list_lookup_name. induction l as [|e l IH]; [done|].
  cbn [fmap list_fmap adir_remove]. change (abs_entry e) with (entry_name e, e_inode e) at 1.
  cbn [list_find]. change (decide (entry_name e = name_key name)) with (decide (named name e)).
  destruct (decide (named name e)); [done|].
  rewrite IH. by destruct (list_find _ l) as [[]|].
Qed.

Lemma abs_dir_append d e :
  dir_ok d → d_count d < 128 → cvalid DirEntry_codec e →
  abs_dir (dir_append d e) = abs_dir d ++ [abs_entry e].
Proof.
  intros Hok Hc He. unfold abs_dir.
  destruct (dir_append_ok d e Hok Hc He) as [_ ->].
  exact (fmap_app abs_entry (d_list d) [e]).
Qed.

Lemma abs_dir_length d : dir_ok d → Z.of_nat (length (abs_dir d)) = d_count d.
Proof. intros Hd. unfold abs_dir. rewrite length_fmap. by apply d_list_length. Qed.

Lemma dir_rep_append fs k d e name ino :
  dir_ok d → d_count d < 128 → cvalid DirEntry_codec e → named name e → e_inode e = ino →
  dir_is fs k (dir_append d e) →
  adir_add name ino (abs_dir d) = Some (abs_dir d ++ [(name_key name, ino)]) ∧
  dir_rep fs k (abs_dir d ++ [(name_key name, ino)]).
Proof.
  intros Hok Hc He Hn Hi Hd. split.
  - unfold adir_add. rewrite abs_dir_length by done. by zcase; [lia|].
  - exists (dir_append d e). split; [exact Hd|]. rewrite abs_dir_append by done.
    unfold abs_entry. by rewrite Hn, Hi.
Qed.

Lemma adir_add_full d name ino :
  dir_ok d → d_count d = 128 → adir_add name ino (abs_dir d) = None.
Proof. intros Hok Hc. unfold adir_add. rewrite abs_dir_length, Hc by done. done. Qed.

Lemma dir_rep_kept fs fs' k l : kept k fs fs' → dir_rep fs k l → dir_rep fs' k l.
Proof. intros Hk (d & Hd & Hl). exists d. split; [by eapply kept_dir|done]. Qed.

(** A formatted file system to evaluate the theorems at. *)
Definition demo_label : list Z := [105; 100; 107].
Definition demo_name : list Z := [102; 111; 111].

Lemma demo_fs :
  ∃ fs, idkfs_mkfs true true demo_label features_default 1700000000 = Some (Some fs) ∧
    formatted fs ∧ dir_rep fs 0 [(DOT, 0); (DOTDOT, 0)].
Proof.
  destruct (idkfs_mkfs_ok demo_label features_default 1700000000) as (fs & Hmk & Hf & _).
  { repeat constructor. }
  exists fs. split; [exact Hmk|]. split; [exact Hf|].
  destruct (fmt_root _ Hf) as (d & e1 & e2 & Hd & Hl & Hn1 & Hn2 & Hi1 & Hi2 & _).
  exists d. split; [exact Hd|]. unfold abs_dir. rewrite Hl. cbn. unfold abs_entry.
  by rewrite Hn1, Hn2, Hi1, Hi2.
Qed.

Lemma demo_name_ok : cstring demo_name.
Proof. repeat constructor. Qed.

Lemma formatted_root_live fs : formatted fs → live_at fs 0.
Proof. intros Hf. by destruct (fmt_root _ Hf) as (d & ? & ? & [? _] & _). Qed.

(** ** Directories refine their specification *)

(** C26: [idkfs_dir_add] appends the name (its first 255 bytes) and the inode
    number to the directory and returns 0, or returns -1 and changes nothing
    when it already holds 128 entries; the invariant and the other files are
    kept. *)
Theorem idkfs_dir_add_refines fs k l name ino type now :
  fs_inv fs → dir_rep fs k l → cstring name → 0 ≤ ino < 4294967296 →
  ∃ fs', idkfs_dir_add fs k name ino type now =
      Some (fs', if adir_add name ino l is Some _ then 0 else -1) ∧
    fs_inv fs' ∧ others_kept k fs fs' ∧ dir_rep fs' k (default l (adir_add name ino l)).
Proof.
  intros Hinv (d & Hd & <-) Hn Hi. pose proof Hd as (_ & Hok & _).
  destruct (dir_add_room fs k d name ino type now Hinv Hd Hn)
    as (fs' & r & -> & Hinv' & Hm & Hcase).
  exists fs'. destruct Hcase as [(Hc & -> & Hd')|(Hc & -> & e & Hd' & Hne & Hie & _ & Hve & _)].
  - rewrite adir_add_full by done.
    split_and!; [done|exact Hinv'|by apply others_kept_modifies|by exists d].
  - rewrite (u32_small ino) in Hie by done.
    destruct (dir_rep_append fs' k d e name ino) as [-> Hr]; try done.
    split_and!; [done|exact Hinv'|by apply others_kept_modifies|exact Hr].
Qed.

Lemma idkfs_dir_add_refines_witness :
  ∃ fs fs', idkfs_dir_add fs 0 demo_name 7 IDKFS_FT_FILE 0 = Some (fs', 0) ∧
    dir_rep fs' 0 [(DOT, 0); (DOTDOT, 0); (demo_name, 7)].
Proof.
  destruct demo_fs as (fs & _ & Hf & Hr). exists fs.
  destruct (idkfs_dir_add_refines fs 0 _ demo_name 7 IDKFS_FT_FILE 0 (fmt_inv _ Hf) Hr
    demo_name_ok) as (fs' & Ha & _ & _ & Hd); [lia|].
  exists fs'. split; [exact Ha|exact Hd].
Defined.

(** [idkfs_dir_lookup] returns the inode number of the first entry of
    that name, -1 if there is none, and changes no file. *)
Theorem idkfs_dir_lookup_refines fs k l name now :
  fs_inv fs → dir_rep fs k l → cstring name →
  ∃ fs', idkfs_dir_lookup fs k name now =
      Some (fs', match adir_lookup name l with Some ino => i32 ino | None => -1 end) ∧
    fs_inv fs' ∧ others_kept k fs fs' ∧ dir_rep fs' k l ∧ same_file fs fs' k.
Proof.
  intros Hinv (d & Hd & <-) Hn.
  destruct (idkfs_dir_lookup_ok fs k d name now (inv_wf _ Hinv) Hd Hn)
    as (fs' & -> & Hwf' & Hm & Hd' & Hsame).
  exists fs'. split_and!; [|by eapply fs_inv_modifies|by apply others_kept_modifies|
    by exists d|exact Hsame].
  unfold abs_dir. rewrite adir_lookup_abs.
  by destruct (list_lookup_name name (d_list d)) as [[x e]|].
Qed.

Lemma idkfs_dir_lookup_refines_witness :
  ∃ fs fs', idkfs_dir_lookup fs 0 demo_name 0 = Some (fs', -1) ∧ fs_inv fs'.
Proof.
  destruct demo_fs as (fs & _ & Hf & Hr). exists fs.
  destruct (idkfs_dir_lookup_refines fs 0 _ demo_name 0 (fmt_inv _ Hf) Hr demo_name_ok)
    as (fs' & Ha & Hi & _). exists fs'. split; [exact Ha|exact Hi].
Defined.

(** C27: [idkfs_dir_remove] on a directory inode deletes the first entry of
    that name, keeping the order of the others, and returns 0; with no such
    entry it returns [-ENOENT] and the directory is unchanged. *)
Theorem idkfs_dir_remove_refines fs k l name now :
  fs_inv fs → dir_rep fs k l → type_at fs k = ft_val IDKFS_FT_DIR → cstring name →
  ∃ fs', idkfs_dir_remove fs k name now =
      Some (fs', if adir_lookup name l is Some _ then 0 else - ENOENT) ∧
    fs_inv fs' ∧ others_kept k fs fs' ∧ dir_rep fs' k (adir_remove name l).
Proof.
  intros Hinv (d & Hd & <-) Ht Hn.
  destruct (idkfs_dir_remove_ok fs k d name now (inv_wf _ Hinv) Hd Ht Hn)
    as (fs' & r & -> & Hwf' & Hm & Hcase).
  exists fs'. unfold abs_dir. rewrite adir_lookup_abs, adir_remove_abs.
  destruct (list_lookup_name name (d_list d)) as [[x e]|]; cbn.
  - destruct Hcase as (-> & d' & Hd' & Hl').
    split_and!; [done|by eapply fs_inv_modifies|by apply others_kept_modifies|].
    exists d'. split; [exact Hd'|]. unfold abs_dir. by rewrite Hl'.
  - destruct Hcase as (-> & Hd').
    split_and!; [done|by eapply fs_inv_modifies|by apply others_kept_modifies|by exists d].
Qed.

Lemma idkfs_dir_remove_refines_witness :
  ∃ fs fs', idkfs_dir_remove fs 0 DOT 0 = Some (fs', 0) ∧ dir_rep fs' 0 [(DOTDOT, 0)].
Proof.
  destruct demo_fs as (fs & _ & Hf & Hr). exists fs.
  destruct (idkfs_dir_remove_refines fs 0 _ DOT 0 (fmt_inv _ Hf) Hr (fmt_root_type _ Hf)
    DOT_cstring) as (fs' & Ha & _ & _ & Hd). exists fs'. split; [exact Ha|exact Hd].
Defined.

(** ** Files *)

(** C7: [idkfs_write] within the direct blocks always stores every byte: it
    never fails in a well-formed file system (4096 inodes of 12 blocks fit in
    the data blocks), it returns the count, sets the size to the maximum of
    the old size and the end of the write, leaves every other byte of the
    file as it was (or zero, in a block it allocates) and every other file
    untouched. *)
Theorem idkfs_write_total fs k buf offset now :
  fs_inv fs → live_at fs k → bytes buf → 0 ≤ offset →
  offset + Z.of_nat (length buf) ≤ DIRECT_BYTES →
  ∃ fs', idkfs_write fs k buf offset now = Some (fs', Z.of_nat (length buf)) ∧
    fs_inv fs' ∧ others_kept k fs fs' ∧
    size_at fs' k = Z.max (size_at fs k) (offset + Z.of_nat (length buf)) ∧
    (∀ p, offset ≤ p < offset + Z.of_nat (length buf) → fbyte fs' k p = buf.[p - offset]) ∧
    (∀ p, ¬ (offset ≤ p < offset + Z.of_nat (length buf)) →
       fbyte fs' k p = fbyte fs k p ∨ fbyte fs k p = None ∧ fbyte fs' k p = Some 0).
Proof.
  intros Hinv Hl Hb Ho Hmax. pose proof (inv_wf _ Hinv) as Hwf.
  destruct (idkfs_write_room fs k buf offset now Hwf Hl Hb Ho Hmax)
    as (fs' & -> & Hwf' & Hm & Hout & Hin & Hs).
  { pose proof (fs_wf_capacity fs Hwf). assert (0 ≤ mapped_at fs k); [|lia].
    unfold mapped_at. destruct ((fs_inodes fs).[k]); cbn; [unfold mapped; lia|lia]. }
  exists fs'. split_and!; [done|by eapply fs_inv_modifies|by apply others_kept_modifies|
    exact Hs|exact Hin|exact Hout].
Qed.

Lemma idkfs_write_total_witness :
  ∃ fs fs', idkfs_write fs 0 demo_name 40000 5 = Some (fs', 3) ∧ fs_inv fs' ∧
    size_at fs' 0 = Z.max (size_at fs 0) 40003.
Proof.
  destruct demo_fs as (fs & _ & Hf & Hr). exists fs.
  destruct (idkfs_write_total fs 0 demo_name 40000 5 (fmt_inv _ Hf) (formatted_root_live _ Hf))
    as (fs' & Hw & Hi & _ & Hs & _); [by apply cstring_bytes, demo_name_ok|lia|done|].
  exists fs'. split_and!; [exact Hw|exact Hi|exact Hs].
Defined.

(** C8: reading back at the same offset what [idkfs_write] stored returns
    exactly the bytes written, whatever the file held before. *)
Theorem idkfs_write_read fs k buf offset now now' :
  fs_inv fs → live_at fs k → bytes buf → 0 ≤ offset →
  offset + Z.of_nat (length buf) ≤ DIRECT_BYTES → size_at fs k ≤ DIRECT_BYTES →
  ∃ fs1 fs2, idkfs_write fs k buf offset now = Some (fs1, Z.of_nat (length buf)) ∧
    idkfs_read fs1 k (Z.of_nat (length buf)) offset now' = Some (fs2, buf) ∧
    fs_inv fs2 ∧ others_kept k fs fs2.
Proof.
  intros Hinv Hl Hb Ho Hmax Hsz. pose proof (inv_wf _ Hinv) as Hwf.
  destruct (idkfs_write_room fs k buf offset now Hwf Hl Hb Ho Hmax)
    as (fs1 & -> & Hwf1 & Hm1 & _ & Hin & Hs).
  { pose proof (fs_wf_capacity fs Hwf). assert (0 ≤ mapped_at fs k); [|lia].
    unfold mapped_at. destruct ((fs_inodes fs).[k]); cbn; [unfold mapped; lia|lia]. }
  destruct (modifies_live _ _ _ k Hm1 Hl) as (i & Hi & Hli).
  rewrite (size_at_inode fs1 k i Hi) in Hs.
  destruct (idkfs_read_ok fs1 k i (Z.of_nat (length buf)) offset now' Hwf1 Hi Hli)
    as (fs2 & out & Hrd & Hwf2 & Hm2 & _ & _ & _ & Hlen & Hx & Hn);
    [lia|lia|lia|fs_unfold; lia|].
  rewrite Hs in Hlen, Hn.
  assert (Z.of_nat (length out) = Z.of_nat (length buf)) as Hlo.
  { destruct (Z.lt_ge_cases (Z.of_nat (length out)) (Z.of_nat (length buf))) as [Hlt|]; [|lia].
    exfalso. assert (fbyte fs1 k (offset + Z.of_nat (length out)) = None) as E
      by (apply Hn; lia).
    rewrite Hin in E by lia. destruct (zget_is_Some buf (Z.of_nat (length out))) as [y Hy];
      [lia|]. rewrite Z.add_simpl_l in E. congruence. }
  assert (out = buf) as ->.
  { apply zget_ext; [lia|]. intros x Hxr. rewrite <- Hx, Hin by lia. f_equal. lia. }
  exists fs1, fs2. split_and!; [done|exact Hrd| |].
  - eapply fs_inv_modifies; [exact Hm2|exact Hwf2|]. by eapply fs_inv_modifies.
  - eapply others_kept_trans; by apply others_kept_modifies.
Qed.

Lemma size_of_root fs l : dir_rep fs 0 l → size_at fs 0 ≤ DIRECT_BYTES.
Proof. intros (d & (_ & _ & [[-> _]|[-> _]]) & _); done. Qed.

Lemma idkfs_write_read_witness :
  ∃ fs fs1 fs2, idkfs_write fs 0 demo_name 4094 5 = Some (fs1, 3) ∧
    idkfs_read fs1 0 3 4094 6 = Some (fs2, demo_name).
Proof.
  destruct demo_fs as (fs & _ & Hf & Hr). exists fs.
  destruct (idkfs_write_read fs 0 demo_name 4094 5 6 (fmt_inv _ Hf) (formatted_root_live _ Hf))
    as (fs1 & fs2 & Hw & Hrd & _);
    [by apply cstring_bytes, demo_name_ok|lia|done|by eapply size_of_root|].
  exists fs1, fs2. split; [exact Hw|exact Hrd].
Defined.

(** C28: [idkfs_read] returns a prefix of the requested range cut at the end
    of the file, equal to the file's bytes; it is shorter than the range only
    where the next block is a hole; no file changes. *)
Theorem idkfs_read_prefix fs k i count offset now :
  fs_inv fs → (fs_inodes fs).[k] = Some i → live i → i_size i ≤ DIRECT_BYTES →
  0 ≤ offset → 0 ≤ count → offset + count < 18446744073709551616 →
  ∃ fs' out, idkfs_read fs k count offset now = Some (fs', out) ∧
    fs_inv fs' ∧ (∀ k' p, fbyte fs' k' p = fbyte fs k' p) ∧
    Z.of_nat (length out) ≤ Z.max 0 (Z.min count (i_size i - offset)) ∧
    (∀ x, 0 ≤ x < Z.of_nat (length out) → fbyte fs k (offset + x) = out.[x]) ∧
    (Z.of_nat (length out) < Z.max 0 (Z.min count (i_size i - offset)) →
       fbyte fs k (offset + Z.of_nat (length out)) = None).
Proof.
  intros Hinv Hi Hl Hs Ho Hc Hov.
  destruct (idkfs_read_ok fs k i count offset now (inv_wf _ Hinv) Hi Hl Hs Ho Hc Hov)
    as (fs' & out & -> & Hwf' & Hm & _ & _ & Hb & Hlen & Hx & Hn).
  exists fs', out. split_and!; [done|by eapply fs_inv_modifies|exact Hb|exact Hlen|
    exact Hx|exact Hn].
Qed.

Lemma idkfs_read_prefix_witness :
  ∃ fs fs' out, idkfs_read fs 0 10 33410 0 = Some (fs', out) ∧
    Z.of_nat (length out) ≤ Z.max 0 (Z.min 10 (size_at fs 0 - 33410)).
Proof.
  destruct demo_fs as (fs & _ & Hf & Hr). exists fs.
  destruct (formatted_root_live _ Hf) as (i & Hi & Hl). pose proof (size_of_root _ _ Hr) as Hs.
  rewrite (size_at_inode _ _ _ Hi) in *.
  destruct (idkfs_read_prefix fs 0 i 10 33410 0 (fmt_inv _ Hf) Hi Hl Hs)
    as (fs' & out & H1 & _ & _ & H2 & _); [lia|lia|lia|].
  exists fs', out. split; [exact H1|exact H2].
Defined.

(** ** Creation *)

(** [idkfs_create] either takes the first free inode [r], gives it the
    attributes of an empty regular file with one link and adds [name] to the
    parent; or returns -1 because no inode is free, the state untouched; or
    returns -1 because the parent is full, and then releases the inode again:
    the parent's entries and the free inodes are as before.  In every
    case the invariant and the other files are kept. *)
Theorem idkfs_create_spec fs parent l name tier mode now :
  fs_inv fs → dir_rep fs parent l → cstring name →
  ∃ fs' r, idkfs_create fs parent name tier mode now = Some (fs', r) ∧
    fs_inv fs' ∧ others_kept parent fs fs' ∧
    ((r = -1 ∧ fs' = fs ∧ no_free_inode fs) ∨
     (r = -1 ∧ adir_add name 0 l = None ∧ dir_rep fs' parent l ∧ same_free fs fs') ∨
     (takes_inode fs fs' r ∧
      (∃ l', adir_add name r l = Some l' ∧ dir_rep fs' parent l') ∧
      (fs_inodes fs').[r] =
        Some (init_inode IDKFS_FT_FILE tier mode 1 now (fresh_inode r)))).
Proof.
  intros Hinv (d & Hd & <-) Hn. pose proof Hd as (_ & Hok & _).
  destruct (idkfs_create_ok fs parent d name tier mode now Hinv Hd Hn)
    as (fs' & r & -> & Hinv' & Hk & _ & Hcase).
  exists fs', r. split_and!; [done|exact Hinv'|exact Hk|].
  destruct Hcase as [?|[(-> & Hc & Hd' & Hf)|(Hff & Hc & e & Hd' & Hne & Hie & Hve & Hi & _)]].
  - by left.
  - right. left. rewrite adir_add_full by done. split_and!; [done|done|by exists d|exact Hf].
  - right. right. split; [exact Hff|]. split; [|exact Hi].
    destruct (dir_rep_append fs' parent d e name r) as [-> Hr]; try done. eauto.
Qed.

Lemma idkfs_create_spec_witness :
  ∃ fs fs' r, idkfs_create fs 0 demo_name TIER_FAST 420 9 = Some (fs', r) ∧ fs_inv fs'.
Proof.
  destruct demo_fs as (fs & _ & Hf & Hr). exists fs.
  destruct (idkfs_create_spec fs 0 _ demo_name TIER_FAST 420 9 (fmt_inv _ Hf) Hr demo_name_ok)
    as (fs' & r & Hc & Hi & _). exists fs', r. split; [exact Hc|exact Hi].
Defined.

Lemma adir_lookup_add name ino l l' :
  adir_add name ino l = Some l' → adir_lookup name l = None →
  adir_lookup name l' = Some ino.
Proof.
  unfold adir_add. zcase; [done|]. intros [= <-] Hn. revert Hn.
  induction l as [|[n x] l IH]; cbn; [by rewrite decide_True|].
  case_decide; [done|]. apply IH. cbn in *. lia.
Qed.

Lemma adir_lookup_add_other name name' ino l l' :
  adir_add name ino l = Some l' → name_key name' ≠ name_key name →
  adir_lookup name' l' = adir_lookup name' l.
Proof.
  unfold adir_add. zcase; [done|]. intros [= <-] Hn.
  induction l as [|[n x] l IH]; cbn; [by rewrite decide_False|].
  case_decide; [done|]. apply IH. cbn in *. lia.
Qed.

(** after a successful [idkfs_create] of a name the parent did not
    contain, looking the name up in the parent returns the new inode, and any
    other name still resolves as before. *)
Theorem idkfs_create_lookup fs parent l name name' tier mode now now' fs' r :
  fs_inv fs → dir_rep fs parent l → cstring name → cstring name' →
  adir_lookup name l = None →
  idkfs_create fs parent name tier mode now = Some (fs', r) → 0 ≤ r →
  ∃ fs2, idkfs_dir_lookup fs' parent name' now' =
    Some (fs2, if decide (name_key name' = name_key name) then r
               else match adir_lookup name' l with Some ino => i32 ino | None => -1 end).
Proof.
  intros Hinv (d & Hd & <-) Hn Hn' Hl Hcr Hr. pose proof Hd as (_ & Hok & _).
  destruct (idkfs_create_ok fs parent d name tier mode now Hinv Hd Hn)
    as (fs0 & r0 & Hcr' & Hinv' & _ & _ & Hcase). simplify_eq.
  destruct Hcase as [(-> & _)|[(-> & _)|(Hff & Hc & e & Hd' & Hne & Hie & Hve & _)]]; try lia.
  destruct (dir_rep_append fs' parent d e name r) as [Hadd _]; try done.
  destruct (idkfs_dir_lookup_ok fs' parent _ name' now' (inv_wf _ Hinv') Hd' Hn')
    as (fs2 & -> & _).
  exists fs2. do 2 f_equal.
  transitivity (match adir_lookup name' (abs_dir (dir_append d e)) with
                | Some ino => i32 ino | None => -1 end).
  { unfold abs_dir. rewrite adir_lookup_abs. by destruct (list_lookup_name _ _) as [[]|]. }
  rewrite abs_dir_append by done. unfold abs_entry. rewrite Hne, Hie.
  case_decide as E.
  - assert (adir_lookup name' (abs_dir d ++ [(name_key name, r)]) =
            adir_lookup name (abs_dir d ++ [(name_key name, r)])) as ->.
    { clear -E. induction (abs_dir d ++ _) as [|[n x] l IH]; cbn; [done|]. by rewrite E, IH. }
    rewrite (adir_lookup_add name r _ _ Hadd Hl). apply i32_small.
    destruct Hff as [[Hrange _] _]. fs_unfold. lia.
  - by rewrite (adir_lookup_add_other name name' r _ _ Hadd).
Qed.

Lemma demo_create fs l :
  fs_inv fs → dir_rep fs 0 l → Z.of_nat (length l) < 128 → ino_free fs 1 = true →
  ∃ fs', idkfs_create fs 0 demo_name TIER_NORMAL 420 9 = Some (fs', 1).
Proof.
  intros Hinv (d & Hd & <-) Hlen Hfree. pose proof Hd as (_ & Hok & _).
  destruct (idkfs_create_ok fs 0 d demo_name TIER_NORMAL 420 9 Hinv Hd demo_name_ok)
    as (fs' & r & -> & _ & _ & _ & [(_ & _ & Hno)|[(_ & Hc & _)|(((Hr & Hf & Hlt) & _) & _)]]).
  - rewrite Hno in Hfree; [done|fs_unfold; lia].
  - rewrite abs_dir_length in Hlen by done. lia.
  - exists fs'. do 2 f_equal. destruct (Z.eq_dec r 1); [done|].
    rewrite (Hlt 1) in Hfree; [done|lia].
Qed.

Lemma idkfs_create_lookup_witness :
  ∃ fs fs' fs2, idkfs_create fs 0 demo_name TIER_NORMAL 420 9 = Some (fs', 1) ∧
    idkfs_dir_lookup fs' 0 demo_name 10 = Some (fs2, 1).
Proof.
  destruct demo_fs as (fs & _ & Hf & Hr).
  destruct (demo_create fs _ (fmt_inv _ Hf) Hr) as [fs' Hc]; [done|by apply (fmt_free _ Hf)|].
  destruct (idkfs_create_lookup fs 0 _ demo_name demo_name TIER_NORMAL 420 9 10 fs' 1
    (fmt_inv _ Hf) Hr demo_name_ok demo_name_ok eq_refl Hc) as [fs2 Hl]; [lia|].
  exists fs, fs', fs2. split; [exact Hc|exact Hl].
Defined.

(** [idkfs_mkdir] returns -1 with the state untouched when no inode is
    free; otherwise it takes the first free inode [r], makes it a directory
    holding ["."] (itself) and [".."] (the parent), increments the parent's
    link count and adds the name to the parent.  It ignores a full parent:
    then it still returns [r] and counts the link, but the parent has no
    entry for the new directory. *)
Theorem idkfs_mkdir_spec fs parent l name mode now :
  fs_inv fs → dir_rep fs parent l → cstring name →
  link_count_at fs parent + 1 < 4294967296 →
  ∃ fs' r, idkfs_mkdir fs parent name mode now = Some (fs', r) ∧
    fs_inv fs' ∧ others_kept parent fs fs' ∧
    ((r = -1 ∧ fs' = fs ∧ no_free_inode fs) ∨
     (takes_inode fs fs' r ∧ dir_rep fs' r [(DOT, r); (DOTDOT, parent)] ∧
      link_count_at fs' parent = link_count_at fs parent + 1 ∧
      dir_rep fs' parent (default l (adir_add name r l)))).
Proof.
  intros Hinv (d & Hd & <-) Hn Hlc. pose proof Hd as (_ & Hok & _).
  destruct (idkfs_mkdir_ok fs parent d name mode now Hinv Hd Hn Hlc)
    as (fs' & r & -> & Hinv' & Hk & _ & Hcase).
  exists fs', r. split_and!; [done|exact Hinv'|exact Hk|].
  destruct Hcase as [?|(Hff & _ & (d' & e1 & e2 & Hd' & Hl' & Hn1 & Hn2 & Hi1 & Hi2 & _) & Hlc' & Hp)].
  { by left. }
  right. split; [exact Hff|]. split; [|split; [exact Hlc'|]].
  - exists d'. split; [exact Hd'|]. unfold abs_dir. rewrite Hl'. cbn. unfold abs_entry.
    by rewrite Hn1, Hn2, Hi1, Hi2.
  - destruct Hp as [(Hc & Hdp)|(Hc & e & Hdp & Hne & Hie & _ & Hve & _)].
    + rewrite adir_add_full by done. by exists d.
    + destruct (dir_rep_append fs' parent d e name r) as [-> Hr]; done.
Qed.

Lemma idkfs_mkdir_spec_witness :
  ∃ fs fs' r, idkfs_mkdir fs 0 demo_name 493 9 = Some (fs', r) ∧ fs_inv fs'.
Proof.
  destruct demo_fs as (fs & _ & Hf & Hr). exists fs.
  destruct (idkfs_mkdir_spec fs 0 _ demo_name 493 9 (fmt_inv _ Hf) Hr demo_name_ok)
    as (fs' & r & Hc & Hi & _).
  { pose proof (fmt_root_links _ Hf) as E. unfold IDKFS_ROOT_INODE in E. lia. }
  exists fs', r. split; [exact Hc|exact Hi].
Defined.

(** [idkfs_mkfs], when both allocations succeed, yields a file system
    that satisfies the invariant, whose root directory holds exactly ["."]
    and [".."], both of them inode 0, and whose other inodes are all free;
    when one fails it returns [NULL]. *)
Theorem idkfs_mkfs_spec alloc_fs alloc_disk label features now :
  cstring label →
  if alloc_fs && alloc_disk then
    ∃ fs, idkfs_mkfs alloc_fs alloc_disk label features now = Some (Some fs) ∧
      fs_inv fs ∧ fs_features fs = features ∧
      dir_rep fs IDKFS_ROOT_INODE [(DOT, 0); (DOTDOT, 0)] ∧
      (∀ k, 1 ≤ k < IDKFS_MAX_INODES → ino_free fs k = true)
  else idkfs_mkfs alloc_fs alloc_disk label features now = Some None.
Proof.
  intros Hl. destruct alloc_fs, alloc_disk; try done. cbn [andb].
  destruct (idkfs_mkfs_ok label features now Hl) as (fs & Hmk & Hf & Hfeat).
  exists fs. split_and!; [exact Hmk|apply (fmt_inv _ Hf)|exact Hfeat| |apply (fmt_free _ Hf)].
  destruct (fmt_root _ Hf) as (d & e1 & e2 & Hd & Hld & Hn1 & Hn2 & Hi1 & Hi2 & _).
  exists d. split; [exact Hd|]. unfold abs_dir. rewrite Hld. cbn. unfold abs_entry.
  by rewrite Hn1, Hn2, Hi1, Hi2.
Qed.

Lemma idkfs_mkfs_spec_witness :
  cstring demo_name ∧
  idkfs_mkfs true false demo_name features_ludicrous_speed 1 = Some None.
Proof.
  split; [apply demo_name_ok|].
  exact (idkfs_mkfs_spec true false demo_name features_ludicrous_speed 1 demo_name_ok).
Defined.
