(* ===== verification/Persist.v ===== *)
(** * Disk images: [idkfs_persist.c]

    [image_create], [image_open], [idkfs_mount_image] and
    [idkfs_flush_to_image].  [fs->disk] of a mounted image is [img->map], so
    the image is the field [fs_disk] of the mounted state.  The results of
    [open], [ftruncate], [fstat] and [mmap] are arguments. *)

From S2P Require Import Prelude Cint CString Codec Mem CoreTypes Crc Bitmap.
From S2P Require Import Core FileIO Dir Fs Mkfs Spec.

Definition IDKFS_IMAGE_SIZE : Z := IDKFS_TOTAL_BLOCKS * IDKFS_BLOCK_SIZE.

(** The zero-filled file, or [None] for the result -1. *)
Definition image_create (open_ok ftruncate_ok : bool) : option mem :=
  if open_ok && ftruncate_ok then Some (mzero IDKFS_IMAGE_SIZE) else None.

(** [fstat] and [mmap] of the file [file]; [None] is the result -1. *)
Definition image_open (open_ok fstat_ok mmap_ok : bool) (file : mem) : option mem :=
  if negb open_ok then None
  else if negb fstat_ok then None
  else if m_size file <? IDKFS_IMAGE_SIZE then None
  else if negb mmap_ok then None
  else Some file.

(** ["idkfs"] *)
Definition default_label : list Z := [105; 100; 107; 102; 115].

Definition idkfs_load (map : mem) (now : Z) : option IDKFS :=
  let fs := IDKFS_calloc map features_default in
  sb ← mload Superblock_codec map 0;
  bm ← mload BlockBitmap_codec map IDKFS_BLOCK_SIZE;
  inodes ← mload inode_table_codec map (2 * IDKFS_BLOCK_SIZE);
  let sb := set_sb_last_mounted (u64 now) sb in
  let sb := set_sb_mount_count (u32 (sb_mount_count sb + 1)) sb in
  Some (set_fs_inodes inodes (set_fs_bitmap bm (set_fs_sb sb fs))).

(** The inner [None] is the [NULL] returned on a failed allocation or on a
    bad magic number. *)
Definition idkfs_mount_image (map : mem) (is_new alloc_ok : bool) (now : Z) :
    option (option IDKFS) :=
  if negb alloc_ok then Some None
  else if is_new then
    fs ← idkfs_format (IDKFS_calloc map features_default) default_label now;
    fs ← idkfs_flush fs;
    Some (Some fs)
  else
    sb ← mload Superblock_codec map 0;
    if negb (sb_magic sb =? IDKFS_MAGIC) then Some None
    else fs ← idkfs_load map now; Some (Some fs).

Definition idkfs_flush_to_image (fs : IDKFS) : option IDKFS := flush_metadata fs.

(** [idkfs_fuse_destroy], called on unmount: the image it leaves. *)
Definition idkfs_fuse_destroy (gfs : option IDKFS) (g_image : mem) : option mem :=
  match gfs with
  | Some fs => fs ← idkfs_flush_to_image fs; Some (fs_disk fs)
  | None => Some g_image
  end.

(** [idkfs --mkfs <image>]: the image it leaves, [None] inside for exit
    status 1. *)
Definition main_mkfs (open_ok ftruncate_ok fstat_ok mmap_ok alloc_ok : bool) (now : Z) :
    option (option mem) :=
  match image_create open_ok ftruncate_ok with
  | None => Some None
  | Some file =>
      match image_open open_ok fstat_ok mmap_ok file with
      | None => Some None
      | Some map =>
          r ← idkfs_mount_image map true alloc_ok now;
          match r with
          | None => Some None
          | Some fs => fs ← idkfs_flush_to_image fs; Some (Some (fs_disk fs))
          end
      end
  end.

(** [idkfs --image <image>]: refuses an image without superblock. *)
Definition main_mount (open_ok fstat_ok mmap_ok alloc_ok : bool) (file : mem) (now : Z) :
    option (option IDKFS) :=
  match image_open open_ok fstat_ok mmap_ok file with
  | None => Some None
  | Some map =>
      sb ← mload Superblock_codec map 0;
      if negb (sb_magic sb =? IDKFS_MAGIC) then Some None
      else idkfs_mount_image map false alloc_ok now
  end.

(** ** The layout of the metadata *)

Lemma Superblock_size : Z.of_nat (csize Superblock_codec) = 3980.
Proof. apply sizeof_structs. Qed.

Lemma BlockBitmap_size : Z.of_nat (csize BlockBitmap_codec) = 8192.
Proof. cbn [csize BlockBitmap_codec c_iso c_raw]. lia. Qed.

Lemma inode_table_size : Z.of_nat (csize inode_table_codec) = 557056.
Proof.
  change (csize inode_table_codec)
    with (Z.to_nat IDKFS_MAX_INODES * csize Inode_codec)%nat.
  rewrite Nat2Z.inj_mul, (proj1 (proj2 sizeof_structs)).
  rewrite Z2Nat.id by (fs_unfold; lia). reflexivity.
Qed.

#[export] Instance inode_table_codec_ok : CodecOk inode_table_codec.
Proof. unfold inode_table_codec. apply _. Qed.

Lemma inode_table_valid fs : fs_wf fs → cvalid inode_table_codec (fs_inodes fs).
Proof.
  intros Hwf. split; [|apply (wf_inodes _ Hwf)]. pose proof (wf_ninodes _ Hwf). lia.
Qed.

Lemma bitmap_valid bm : bitmap_ok bm → cvalid BlockBitmap_codec bm.
Proof. intros [Hl Hb]. split; [exact Hl|exact Hb]. Qed.

Definition table_bytes (fs : IDKFS) : list Z := cenc inode_table_codec (fs_inodes fs).

Lemma table_bytes_length fs :
  fs_wf fs → Z.of_nat (length (table_bytes fs)) = 557056.
Proof.
  intros Hwf. unfold table_bytes.
  rewrite cenc_length by (by apply inode_table_valid). apply inode_table_size.
Qed.

(** Byte [a] of the disk after [flush_metadata]. *)
Definition flushed_byte (fs : IDKFS) (a : Z) : Z :=
  if (8192 <=? a) && (a <? 565248) then default 0 ((table_bytes fs).[a - 8192])
  else if (4096 <=? a) && (a <? 12288) then default 0 ((bits (fs_bitmap fs)).[a - 4096])
  else if (0 <=? a) && (a <? 3980)
  then default 0 ((cenc Superblock_codec (fs_sb fs)).[a])
  else mget (fs_disk fs) a.

Lemma flush_metadata_ok fs :
  fs_wf fs →
  ∃ d, flush_metadata fs = Some (set_fs_disk d fs) ∧ m_size d = m_size (fs_disk fs) ∧
    mem_ok d ∧ ∀ a, mget d a = flushed_byte fs a.
Proof.
  intros Hwf. pose proof (wf_size _ Hwf) as Hsize.
  pose proof (table_bytes_length fs Hwf) as Htl.
  assert (Z.of_nat (length (cenc Superblock_codec (fs_sb fs))) = 3980) as Hsl.
  { rewrite cenc_length by apply (wf_sb _ Hwf). apply Superblock_size. }
  assert (Z.of_nat (length (bits (fs_bitmap fs))) = 8192) as Hbl.
  { rewrite (proj1 (wf_bitmap _ Hwf)). done. }
  unfold flush_metadata, mstore. fs_unfold.
  destruct (mwrite_ok (fs_disk fs) 0 (cenc Superblock_codec (fs_sb fs))) as [d1 H1]; [lia..|].
  pose proof (mwrite_mem_ok _ _ _ _ H1 (wf_disk _ Hwf)
    (cenc_bytes (fs_sb fs) (wf_sb _ Hwf))) as Hk1.
  rewrite H1. ostep. apply mwrite_Some in H1 as (_ & Hs1 & Hg1).
  change (cenc BlockBitmap_codec (fs_bitmap fs)) with (bits (fs_bitmap fs)).
  destruct (mwrite_ok d1 4096 (bits (fs_bitmap fs))) as [d2 H2]; [lia..|].
  pose proof (mwrite_mem_ok _ _ _ _ H2 Hk1 (proj2 (wf_bitmap _ Hwf))) as Hk2.
  rewrite H2. ostep. apply mwrite_Some in H2 as (_ & Hs2 & Hg2).
  change (cenc inode_table_codec (fs_inodes fs)) with (table_bytes fs).
  destruct (mwrite_ok d2 (2 * 4096) (table_bytes fs)) as [d3 H3]; [lia..|].
  pose proof (mwrite_mem_ok _ _ _ _ H3 Hk2
    (cenc_bytes (fs_inodes fs) (inode_table_valid fs Hwf))) as Hk3.
  rewrite H3. ostep. apply mwrite_Some in H3 as (_ & Hs3 & Hg3).
  exists d3. split; [done|]. split; [congruence|]. split; [exact Hk3|]. intros a. unfold flushed_byte.
  rewrite Hg3, Hg2, Hg1, Htl, Hbl, Hsl. change (2 * 4096) with 8192.
  rewrite Z.sub_0_r. by zcases; try lia.
Qed.

(** Reading bytes that are all known. *)
Lemma mread_bytes_eq m off n bs :
  0 ≤ off → off + Z.of_nat n ≤ m_size m → length bs = n →
  (∀ x, 0 ≤ x < Z.of_nat n → bs.[x] = Some (mget m (off + x))) → mread m off n = Some bs.
Proof.
  intros Ho Hs Hl Hb. rewrite mread_ok by done. f_equal. symmetry. apply zget_ext; [len|].
  intros x Hx. rewrite zget_fmap, zget_seqZ by lia. cbn. apply Hb. lia.
Qed.

Lemma zget_default {A} (l : list A) (y : A) x :
  0 ≤ x < Z.of_nat (length l) → l.[x] = Some (default y (l.[x])).
Proof. intros Hx. by destruct (zget_is_Some l x Hx) as [z ->]. Qed.

(** The bitmap a mount reads back: the first half is the one flushed, the
    second half is the start of the inode table. *)
Definition reloaded_bits (fs : IDKFS) : list Z :=
  take (Z.to_nat 4096) (bits (fs_bitmap fs)) ++ take (Z.to_nat 4096) (table_bytes fs).

Section reload.
Context (fs : IDKFS) (d : mem).
Context (Hwf : fs_wf fs) (Hsize : m_size d = m_size (fs_disk fs))
  (Hd : ∀ a, mget d a = flushed_byte fs a).

Lemma reload_sb : mload Superblock_codec d 0 = Some (fs_sb fs).
Proof using All.
  pose proof (wf_size _ Hwf) as Hs. fs_unfold. pose proof Superblock_size as Hc.
  assert (Z.of_nat (length (cenc Superblock_codec (fs_sb fs))) = 3980) as Hsl.
  { rewrite cenc_length by apply (wf_sb _ Hwf). exact Hc. }
  unfold mload. rewrite (mread_bytes_eq d 0 _ (cenc Superblock_codec (fs_sb fs)));
    [|lia|lia|lia|].
  - cbn [fmap option_fmap option_map]. rewrite cdec_enc'; [done|apply _|apply (wf_sb _ Hwf)].
  - intros x Hx. rewrite Hd. unfold flushed_byte. rewrite Z.add_0_l.
    zcases; try lia. apply zget_default. lia.
Qed.

Lemma reload_inodes :
  mload inode_table_codec d (2 * IDKFS_BLOCK_SIZE) = Some (fs_inodes fs).
Proof using All.
  pose proof (wf_size _ Hwf) as Hs. pose proof inode_table_size as Hc.
  pose proof (table_bytes_length fs Hwf) as Htl. fs_unfold.
  unfold mload. rewrite (mread_bytes_eq d _ _ (table_bytes fs)); [|lia|lia|lia|].
  - cbn [fmap option_fmap option_map]. unfold table_bytes.
    rewrite cdec_enc'; [done|apply _|by apply inode_table_valid].
  - intros x Hx. rewrite Hd. unfold flushed_byte. zcases; try lia;
      (replace (2 * 4096 + x - 8192) with x by lia; apply zget_default; lia).
Qed.

Lemma reload_bitmap :
  mload BlockBitmap_codec d IDKFS_BLOCK_SIZE = Some (mkBlockBitmap (reloaded_bits fs)).
Proof using All.
  pose proof (wf_size _ Hwf) as Hs. pose proof BlockBitmap_size as Hc.
  pose proof (table_bytes_length fs Hwf) as Htl. fs_unfold.
  assert (Z.of_nat (length (bits (fs_bitmap fs))) = 8192) as Hbl.
  { rewrite (proj1 (wf_bitmap _ Hwf)). done. }
  assert (Z.of_nat (length (reloaded_bits fs)) = 8192) as Hrl.
  { unfold reloaded_bits. len. }
  unfold mload. rewrite (mread_bytes_eq d _ _ (reloaded_bits fs)); [|lia|lia|lia|].
  - cbn [fmap option_fmap option_map cdec BlockBitmap_codec c_iso c_raw].
    rewrite take_ge by lia. done.
  - intros x Hx. rewrite Hd. unfold flushed_byte, reloaded_bits.
    destruct (Z.lt_ge_cases x 4096).
    + rewrite zget_app_l by len. rewrite zget_take by lia.
      zcases; try lia;
        (replace (4096 + x - 4096) with x by lia; apply zget_default; lia).
    + rewrite zget_app_r by len. rewrite length_take, Nat.min_l by lia.
      rewrite Z2Nat.id by lia. rewrite zget_take by lia.
      zcases; try lia;
        (replace (4096 + x - 8192) with (x - 4096) by lia; apply zget_default; lia).
Qed.
End reload.

(** The state a mount of the flushed image loads. *)
Definition remounted (fs : IDKFS) (d : mem) (now : Z) : IDKFS :=
  set_fs_inodes (fs_inodes fs)
    (set_fs_bitmap (mkBlockBitmap (reloaded_bits fs))
      (set_fs_sb (set_sb_mount_count (u32 (sb_mount_count (fs_sb fs) + 1))
         (set_sb_last_mounted (u64 now) (fs_sb fs)))
       (IDKFS_calloc d features_default))).

Lemma flush_then_mount fs now :
  fs_wf fs → sb_magic (fs_sb fs) = IDKFS_MAGIC →
  ∃ d, idkfs_flush_to_image fs = Some (set_fs_disk d fs) ∧
    m_size d = m_size (fs_disk fs) ∧ mem_ok d ∧ (∀ a, mget d a = flushed_byte fs a) ∧
    idkfs_mount_image d false true now = Some (Some (remounted fs d now)).
Proof.
  intros Hwf Hmagic. destruct (flush_metadata_ok fs Hwf) as (d & Hf & Hs & Hok & Hd).
  exists d. split; [exact Hf|]. split; [exact Hs|]. split; [exact Hok|].
  split; [exact Hd|].
  unfold idkfs_mount_image, idkfs_load. cbn [negb].
  rewrite (reload_sb fs d Hwf Hs Hd). ostep. rewrite Hmagic. cbn [Z.eqb negb].
  rewrite Z.eqb_refl. cbn [negb]. ostep.
  rewrite (reload_bitmap fs d Hwf Hs Hd). ostep.
  rewrite (reload_inodes fs d Hwf Hs Hd). ostep. reflexivity.
Qed.

Lemma used_bit bm b x :
  (bits bm).[b / 8] = Some x → used bm b = Z.testbit x (b mod 8).
Proof.
  intros Hx. unfold used, bitmap_test. rewrite Hx. cbn. apply test_byte. zdm.
Qed.

Lemma reloaded_used fs b :
  fs_wf fs → block_range b →
  used (mkBlockBitmap (reloaded_bits fs)) b =
  if b <? 32768 then used (fs_bitmap fs) b
  else Z.testbit (default 0 ((table_bytes fs).[b / 8 - 4096])) (b mod 8).
Proof.
  intros Hwf Hb. pose proof (table_bytes_length fs Hwf) as Htl. fs_unfold.
  assert (Z.of_nat (length (bits (fs_bitmap fs))) = 8192) as Hbl.
  { rewrite (proj1 (wf_bitmap _ Hwf)). done. }
  assert (0 ≤ b / 8 < 8192) by zdm.
  zcase.
  - assert (b / 8 < 4096) by zdm.
    destruct (zget_is_Some (bits (fs_bitmap fs)) (b / 8)) as [x Hx]; [lia|].
    rewrite (used_bit _ _ _ Hx). apply used_bit. cbn [bits]. unfold reloaded_bits.
    rewrite zget_app_l by len. by rewrite zget_take by lia.
  - assert (4096 ≤ b / 8) by zdm. apply used_bit. cbn [bits]. unfold reloaded_bits.
    rewrite zget_app_r by len. rewrite length_take, Nat.min_l, Z2Nat.id by lia.
    rewrite zget_take by lia. apply zget_default. lia.
Qed.

(** ** Flushing keeps the data *)

Lemma flushed_data fs b off :
  DATA_START ≤ b → 0 ≤ off < IDKFS_BLOCK_SIZE →
  flushed_byte fs (block_ptr b + off) = mget (fs_disk fs) (block_ptr b + off).
Proof. fs_unfold. intros. unfold flushed_byte, block_ptr, IDKFS_BLOCK_SIZE. by zcases; try lia. Qed.

(** States with the same inodes and data blocks hold the same files. *)
Lemma same_data fs fs' :
  fs_wf fs → fs_inodes fs' = fs_inodes fs →
  (∀ b off, DATA_START ≤ b → 0 ≤ off < IDKFS_BLOCK_SIZE →
     mget (fs_disk fs') (block_ptr b + off) = mget (fs_disk fs) (block_ptr b + off)) →
  ∀ k, live_at fs k → kept k fs fs'.
Proof.
  intros Hwf Hin Hd k Hl. split; [by rewrite Hin|]. intros p. unfold fbyte.
  assert (fblock fs' k (p / IDKFS_BLOCK_SIZE) = fblock fs k (p / IDKFS_BLOCK_SIZE)) as ->.
  { unfold fblock. by rewrite Hin. }
  destruct (fblock fs k (p / IDKFS_BLOCK_SIZE)) as [b|] eqn:E; [|done]. cbn.
  rewrite Hd; [done| |fs_unfold; zdm].
  destruct (wf_owned _ Hwf k (p / IDKFS_BLOCK_SIZE) b) as [? _]; [by split|lia].
Qed.

Lemma flush_metadata_inv fs :
  fs_inv fs →
  ∃ d, flush_metadata fs = Some (set_fs_disk d fs) ∧ fs_inv (set_fs_disk d fs) ∧
    ∀ k, live_at fs k → kept k fs (set_fs_disk d fs).
Proof.
  intros [Hwf Hfi]. destruct (flush_metadata_ok fs Hwf) as (d & Hf & Hs & Hok & Hd).
  exists d. split; [exact Hf|]. split; [split; [by apply fs_wf_set_disk|exact Hfi]|].
  apply same_data; [exact Hwf|done|]. intros b off Hb Ho. cbn [set_fs_disk fs_disk].
  rewrite Hd. by apply flushed_data.
Qed.

Lemma sb_checksummed_disk fs : fs_disk (sb_checksummed fs) = fs_disk fs.
Proof. unfold sb_checksummed. by destruct (checksums (fs_features fs)). Qed.
Lemma sb_checksummed_inodes fs : fs_inodes (sb_checksummed fs) = fs_inodes fs.
Proof. unfold sb_checksummed. by destruct (checksums (fs_features fs)). Qed.

Lemma sb_fbyte fs k p : fbyte (sb_checksummed fs) k p = fbyte fs k p.
Proof.
  unfold fbyte, fblock. by rewrite sb_checksummed_inodes, sb_checksummed_disk.
Qed.

Lemma idkfs_flush_ok fs :
  fs_inv fs →
  ∃ fs', idkfs_flush fs = Some fs' ∧ fs_inv fs' ∧ fs_dirty fs' = false ∧
    (∀ k, live_at fs k → kept k fs fs') ∧ (fs_dirty fs = false → fs' = fs) ∧
    sb_magic (fs_sb fs') = sb_magic (fs_sb fs).
Proof.
  intros Hinv. unfold idkfs_flush. destruct (fs_dirty fs) eqn:Hdirty.
  2: { exists fs. split_and!; [done|exact Hinv|done|intros k _; by split|done|done]. }
  destruct (flush_metadata_inv _ (sb_checksummed_inv fs Hinv)) as (d & -> & Hinv' & Hk).
  ostep. eexists. split; [done|]. split_and!; [|done| |done|].
  - destruct Hinv' as [Hwf Hfi]. split; [by apply fs_wf_set_dirty|exact Hfi].
  - intros k Hl. destruct (Hk k) as [Hi Hb].
    { by apply live_at_inodes with fs; [rewrite sb_checksummed_inodes|]. }
    rewrite sb_checksummed_inodes in Hi. split; [exact Hi|].
    intros p. rewrite <- (sb_fbyte fs). apply Hb.
  - cbn [set_fs_dirty set_fs_disk fs_sb]. unfold sb_checksummed.
    by destruct (checksums (fs_features fs)).
Qed.

(** [idkfs_flush] keeps the invariant and every file, clears the dirty
    flag, and does nothing on a clean file system. *)
Lemma idkfs_flush_keeps fs :
  fs_inv fs →
  ∃ fs', idkfs_flush fs = Some fs' ∧ fs_inv fs' ∧ fs_dirty fs' = false ∧
    (∀ k, live_at fs k → kept k fs fs') ∧ (fs_dirty fs = false → fs' = fs).
Proof.
  intros Hinv. destruct (idkfs_flush_ok fs Hinv) as (fs' & ? & ? & ? & ? & ? & _).
  exists fs'. split_and!; assumption.
Qed.

Lemma demo_blank :
  ∃ fs, fs_inv fs ∧ sb_magic (fs_sb fs) = IDKFS_MAGIC ∧
    type_at fs IDKFS_ROOT_INODE = ft_val IDKFS_FT_DIR ∧
    live_at fs IDKFS_ROOT_INODE ∧ used (fs_bitmap fs) 32801 = false ∧
    used (fs_bitmap fs) 7 = true ∧ fs_dirty fs = false.
Proof.
  destruct (bitmap_set_from_ok 138 BlockBitmap_zero 0) as (bm & _ & Hbm & Hc & Hu);
    [apply bitmap_zero_ok|lia|fs_unfold; lia|intros; by apply used_zero|].
  rewrite (free_count_all_free BlockBitmap_zero used_zero) in Hc.
  exists (blank_fs (mzero IDKFS_IMAGE_SIZE) features_default default_label 5 bm).
  split; [|split; [done|split; [|split; [|split; [|split]]]]].
  - apply blank_inv; [repeat constructor|apply mzero_ok|done|exact Hbm| |].
    + rewrite Hc. fs_unfold. lia.
    + intros b Hb. rewrite Hu by done. rewrite used_zero by done. fs_unfold. by zcases; try lia.
  - unfold type_at. by rewrite blank_inode.
  - exists (format_root 5 Inode_zero). by rewrite blank_inode.
  - cbn [blank_fs set_fs_inodes set_fs_bitmap fs_bitmap]. rewrite Hu by done.
    by rewrite used_zero.
  - cbn [blank_fs set_fs_inodes set_fs_bitmap fs_bitmap]. by rewrite Hu.
  - done.
Qed.

Lemma idkfs_flush_keeps_witness : ∃ fs fs', idkfs_flush fs = Some fs' ∧ fs_inv fs'.
Proof.
  destruct demo_blank as (fs & Hinv & _). exists fs.
  destruct (idkfs_flush_keeps fs Hinv) as (fs' & Hf & Hi & _). exists fs'.
  split; [exact Hf|exact Hi].
Defined.

(** mounting a new image of any contents formats it: the invariant holds,
    the root directory holds ["."] and [".."], and the superblock on the
    image carries the magic number of a mountable image. *)
Theorem mount_new_image map now :
  mem_ok map → IDKFS_IMAGE_SIZE ≤ m_size map →
  ∃ fs, idkfs_mount_image map true true now = Some (Some fs) ∧ fs_inv fs ∧
    fs_dirty fs = false ∧ dir_rep fs IDKFS_ROOT_INODE [(DOT, 0); (DOTDOT, 0)] ∧
    sb_magic (fs_sb fs) = IDKFS_MAGIC.
Proof.
  intros Hmap Hsize. unfold idkfs_mount_image. cbn [negb].
  destruct (idkfs_format_ok map features_default default_label now)
    as (fs & -> & Hfmt & _ & _); [repeat constructor|done|exact Hsize|].
  ostep. pose proof (fmt_inv _ Hfmt) as Hinv.
  destruct (idkfs_flush_ok fs Hinv) as (fs' & -> & Hinv' & Hdirty & Hk & _ & Hm).
  rewrite (fmt_magic _ Hfmt) in Hm.
  ostep. exists fs'. split_and!; [done|exact Hinv'|exact Hdirty| |exact Hm].
  destruct (fmt_root _ Hfmt) as (dd & e1 & e2 & Hd & Hl & Hn1 & Hn2 & Hi1 & Hi2 & _).
  exists dd. split; [eapply kept_dir; [apply Hk; apply Hd|exact Hd]|].
  unfold abs_dir. rewrite Hl. cbn. unfold abs_entry. by rewrite Hn1, Hn2, Hi1, Hi2.
Qed.

Lemma mount_new_image_witness :
  ∃ fs, idkfs_mount_image (mzero IDKFS_IMAGE_SIZE) true true 3 = Some (Some fs) ∧ fs_inv fs.
Proof.
  destruct (mount_new_image (mzero IDKFS_IMAGE_SIZE) 3 (mzero_ok _)) as (fs & Hm & Hi & _);
    [done|].
  exists fs. split; [exact Hm|exact Hi].
Defined.

(** C22: flushing to the image and mounting it again gives back the superblock
    (with the mount count and time updated), every inode, the bytes of every
    file, and the allocation bits of the blocks below 32768. *)
Theorem flush_mount_roundtrip fs now :
  fs_inv fs → sb_magic (fs_sb fs) = IDKFS_MAGIC →
  ∃ fs1 fs2, idkfs_flush_to_image fs = Some fs1 ∧
    idkfs_mount_image (fs_disk fs1) false true now = Some (Some fs2) ∧
    fs_sb fs2 = set_sb_mount_count (u32 (sb_mount_count (fs_sb fs) + 1))
                  (set_sb_last_mounted (u64 now) (fs_sb fs)) ∧
    fs_inodes fs2 = fs_inodes fs ∧
    (∀ k p, live_at fs k → fbyte fs2 k p = fbyte fs k p) ∧
    (∀ b, 0 ≤ b < 32768 → used (fs_bitmap fs2) b = used (fs_bitmap fs) b).
Proof.
  intros [Hwf _] Hmagic.
  destruct (flush_then_mount fs now Hwf Hmagic) as (d & Hf & Hs & _ & Hd & Hm).
  exists (set_fs_disk d fs), (remounted fs d now). cbn [set_fs_disk fs_disk].
  split_and!; [exact Hf|exact Hm|done|done| |].
  - intros k p Hl. apply (same_data fs); [exact Hwf|done| |exact Hl].
    intros b off Hb Ho. cbn [remounted set_fs_inodes set_fs_bitmap set_fs_sb fs_disk
      IDKFS_calloc]. rewrite Hd. by apply flushed_data.
  - intros b Hb. cbn [remounted set_fs_inodes set_fs_bitmap fs_bitmap].
    rewrite reloaded_used by (done || fs_unfold; lia). by zcase; [|lia].
Qed.

Lemma flush_mount_roundtrip_witness :
  ∃ fs fs1 fs2, idkfs_flush_to_image fs = Some fs1 ∧
    idkfs_mount_image (fs_disk fs1) false true 9 = Some (Some fs2) ∧
    fs_inodes fs2 = fs_inodes fs ∧ used (fs_bitmap fs2) 7 = true.
Proof.
  destruct demo_blank as (fs & Hinv & Hmagic & _ & _ & _ & Hu & _).
  destruct (flush_mount_roundtrip fs 9 Hinv Hmagic) as (fs1 & fs2 & Hf & Hm & _ & Hi & _ & Hb).
  exists fs, fs1, fs2. split_and!; [exact Hf|exact Hm|exact Hi|].
  rewrite Hb; [exact Hu|lia].
Defined.

Lemma table_first fs i rest x :
  fs_wf fs → fs_inodes fs = i :: rest → 0 ≤ x < 136 →
  (table_bytes fs).[x] = (cenc Inode_codec i).[x].
Proof.
  intros Hwf Hin Hx. unfold table_bytes. rewrite Hin.
  change (cenc inode_table_codec (i :: rest))
    with (cenc Inode_codec i ++ mjoin (cenc Inode_codec <$> rest)).
  apply zget_app_l. rewrite cenc_length.
  - pose proof (proj1 (proj2 sizeof_structs)). lia.
  - pose proof (wf_inodes _ Hwf) as Hv. rewrite Hin in Hv. by inversion Hv.
Qed.

Lemma inode_type_byte i :
  cvalid Inode_codec i → (cenc Inode_codec i).[4] = Some (i_type i).
Proof.
  intros Hv. assert (i_type i mod 256 = i_type i) as E.
  { apply Z.mod_small. revert Hv. solve_valid. }
  transitivity (Some (i_type i mod 256)); [reflexivity|by rewrite E].
Qed.

(** C25: the bitmap takes two blocks on the image but the inode table is
    written one block after its start, so a flush overwrites the allocation
    bits of the blocks from 32768 on with the start of the inode table.
    After a remount block 32801, free before, is marked in use and belongs to
    no file: the invariant is lost. *)
Theorem flush_clobbers_bitmap fs now :
  fs_inv fs → sb_magic (fs_sb fs) = IDKFS_MAGIC →
  type_at fs IDKFS_ROOT_INODE = ft_val IDKFS_FT_DIR →
  used (fs_bitmap fs) 32801 = false →
  ∃ fs1 fs2, idkfs_flush_to_image fs = Some fs1 ∧
    idkfs_mount_image (fs_disk fs1) false true now = Some (Some fs2) ∧
    used (fs_bitmap fs2) 32801 = true ∧ (∀ k j, ¬ owns fs2 k j 32801) ∧ ¬ fs_wf fs2.
Proof.
  intros [Hwf _] Hmagic Ht Hfree.
  destruct (flush_then_mount fs now Hwf Hmagic) as (d & Hf & Hs & _ & Hd & Hm).
  exists (set_fs_disk d fs), (remounted fs d now). cbn [set_fs_disk fs_disk].
  assert (used (fs_bitmap (remounted fs d now)) 32801 = true) as Hu.
  { cbn [remounted set_fs_inodes set_fs_bitmap fs_bitmap].
    rewrite reloaded_used by done. cbn [Z.ltb Z.compare Pos.compare Pos.compare_cont].
    change (32801 / 8 - 4096) with 4. change (32801 mod 8) with 1.
    unfold type_at in Ht. destruct (fs_inodes fs) as [|i rest] eqn:Hin.
    { cbn in Ht. done. }
    assert (cvalid Inode_codec i) as Hv.
    { pose proof (wf_inodes _ Hwf) as Hv. rewrite Hin in Hv. by inversion Hv. }
    rewrite (table_first fs i rest 4 Hwf Hin), inode_type_byte by (done || lia).
    change (i_type i = 2) in Ht. by rewrite Ht. }
  assert (∀ k j, ¬ owns (remounted fs d now) k j 32801) as Hown.
  { intros k j Ho. assert (owns fs k j 32801) as Ho' by exact Ho.
    destruct (wf_owned _ Hwf _ _ _ Ho') as [_ Hu']. congruence. }
  split; [exact Hf|]. split; [exact Hm|]. split; [exact Hu|]. split; [exact Hown|].
  intros Hwf2. destruct (wf_noleak _ Hwf2 32801) as (k & j & Ho); [fs_unfold; lia|exact Hu|].
  by apply (Hown k j).
Qed.

Lemma flush_clobbers_bitmap_witness :
  ∃ fs fs1 fs2, fs_inv fs ∧ idkfs_flush_to_image fs = Some fs1 ∧
    idkfs_mount_image (fs_disk fs1) false true 9 = Some (Some fs2) ∧ ¬ fs_wf fs2.
Proof.
  destruct demo_blank as (fs & Hinv & Hmagic & Ht & _ & Hu & _).
  destruct (flush_clobbers_bitmap fs 9 Hinv Hmagic Ht Hu) as (fs1 & fs2 & Hf & Hm & _ & _ & Hw).
  exists fs, fs1, fs2. split; [exact Hinv|]. split; [exact Hf|]. split; [exact Hm|exact Hw].
Defined.
