(* ===== verification/Indirect.v ===== *)
(** * Files beyond the direct blocks

    The first block of a file past the twelve direct ones gets a zeroed
    indirect block.  A zero pointer is not [IDKFS_NULL_BLOCK]: every further
    block of the file is taken to be block 0, the superblock. *)

From S2P Require Import Prelude Cint CString Codec Mem CoreTypes Crc Bitmap.
From S2P Require Import Core FileIO Dir Fs Mkfs Spec Persist.

(** ** Pointer blocks *)

Lemma vec_dec_get {A} (c : codec A) n : ∀ bs i,
  0 ≤ i < Z.of_nat n →
  (vec_dec c n bs).[i] = Some (cdec c (drop (Z.to_nat i * csize c) bs)).
Proof.
  induction n as [|n IH]; intros bs i Hi; [lia|]. cbn [vec_dec].
  destruct (Z.eq_dec i 0) as [->|Hne]; [done|].
  replace i with (Z.of_nat 1 + (i - 1)) at 1 by lia.
  change (cdec c bs :: ?l) with ([cdec c bs] ++ l).
  rewrite zget_app_r by (cbn; lia). cbn [length].
  replace (Z.of_nat 1 + (i - 1) - Z.of_nat 1) with (i - 1) by lia.
  rewrite IH by lia. rewrite drop_drop. do 3 f_equal.
  replace (Z.to_nat i) with (S (Z.to_nat (i - 1))) by lia. lia.
Qed.

Lemma le_val_zeros n : le_val (replicate n 0) = 0.
Proof. induction n as [|n IH]; [done|]. cbn. rewrite IH. lia. Qed.

(** Zero bytes are a zero pointer. *)
Lemma ptr_zero buf i :
  length buf = Z.to_nat IDKFS_BLOCK_SIZE → 0 ≤ i < 1024 →
  (∀ off, 4 * i ≤ off < 4 * i + 4 → buf.[off] = Some 0) →
  (cdec ptrs_codec buf).[i] = Some 0.
Proof.
  intros Hl Hi Hz. unfold ptrs_codec. cbn [cdec c_vec].
  rewrite vec_dec_get by (unfold IDKFS_PTRS_PER_BLOCK; lia). f_equal. cbn [cdec c_le csize].
  rewrite <- (le_val_zeros 4). f_equal. fs_unfold.
  apply zget_ext; [len|]. intros x Hx. len. rewrite zget_take, zget_drop by lia.
  rewrite Hz, (zget_replicate 4) by lia. done.
Qed.

(** A pointer block whose only pointer is the first. *)
Lemma first_ptr_bytes nb :
  cenc ptrs_codec (nb :: replicate 1023 0) = le_bytes 4 nb ++ replicate 4092 0.
Proof.
  unfold ptrs_codec. cbn [cenc c_vec]. rewrite fmap_cons. change (mjoin (?a :: ?l)) with (a ++ mjoin l).
  rewrite fmap_replicate. cbn [cenc c_le].
  change (le_bytes 4 0) with (replicate 4 0). by f_equal.
Qed.

Lemma zero_ptrs buf :
  length buf = Z.to_nat IDKFS_BLOCK_SIZE → (∀ off, 0 ≤ off < 4096 → buf.[off] = Some 0) →
  cdec ptrs_codec buf = replicate 1024 0.
Proof.
  intros Hl Hz. apply zget_ext.
  - unfold ptrs_codec. cbn [cdec c_vec]. by rewrite vec_dec_length, length_replicate.
  - intros i Hi. assert (0 ≤ i < 1024) as Hi'.
    { unfold ptrs_codec in Hi. cbn [cdec c_vec] in Hi. rewrite vec_dec_length in Hi.
      unfold IDKFS_PTRS_PER_BLOCK in Hi. lia. }
    rewrite ptr_zero by (done || (intros; apply Hz; lia)).
    by rewrite (zget_replicate 1024) by lia.
Qed.

(** ** A write of one block at the start of a block *)

Lemma write_loop_done fs k buf offset total fuel :
  Z.of_nat (length buf) ≤ total → write_loop fs k buf offset total fuel = Some (fs, true).
Proof. intros H. destruct fuel; cbn [write_loop]; by zcase; [lia|]. Qed.

Lemma write_block fs k buf j now :
  0 ≤ j < 1048576 → 0 < Z.of_nat (length buf) ≤ 4096 →
  idkfs_write fs k buf (j * 4096) now =
    '(fs, db) ← write_target fs k j;
    if db <? 0 then Some (fs, -1)
    else
      fs ← block_patch fs db 0 buf;
      fs ← upd_inode fs k (write_inode (fs_features fs) (Z.of_nat (length buf)) (j * 4096) now);
      Some (set_fs_dirty true fs, Z.of_nat (length buf)).
Proof.
  intros Hj Hb. unfold idkfs_write.
  destruct (length buf) as [|n] eqn:En; [lia|]. rewrite <- En. rewrite En at 1. cbn [write_loop].
  zcase; [|lia]. rewrite <- En in Hb.
  destruct (io_position (j * 4096 + 0)) as [-> ->]; [lia|]. fs_unfold.
  replace (j * 4096 + 0) with (j * 4096) by lia.
  rewrite Z.div_mul, Z.mod_mul by lia.
  rewrite io_chunk_min by (fs_unfold; lia). fs_unfold.
  replace (Z.min (4096 - 0) (Z.of_nat (length buf) - 0)) with (Z.of_nat (length buf)) by lia.
  destruct (write_target fs k j) as [[fs1 db]|]; [|done]. do 2 ostep.
  destruct (db <? 0); [done|].
  rewrite Nat2Z.id. change (drop (Z.to_nat 0) buf) with buf. rewrite firstn_all.
  destruct (block_patch fs1 db 0 buf) as [fs2|]; [|done]. do 2 ostep.
  by rewrite write_loop_done by lia.
Qed.

Lemma read_block fs k i count j now db tmp :
  (fs_inodes fs).[k] = Some i → 0 ≤ j < 1048576 → 0 < count ≤ 4096 →
  j * 4096 + count ≤ i_size i < 18446744073709551616 →
  inode_get_block fs i j = Some db → db ≠ IDKFS_NULL_BLOCK → block_read fs db = Some tmp →
  ∃ fs', idkfs_read fs k count (j * 4096) now = Some (fs', take (Z.to_nat count) tmp).
Proof.
  intros Hi Hj Hc Hs Hg Hn Hr. unfold idkfs_read. rewrite Hi. ostep.
  rewrite (proj2 (Z.leb_gt (i_size i) (j * 4096))), (u64_small (j * 4096 + count)) by lia.
  rewrite (proj2 (Z.ltb_ge (i_size i) (j * 4096 + count))) by lia.
  assert (∃ n, Z.to_nat count = S n) as [n En] by (exists (Z.to_nat (count - 1)); lia).
  assert (read_loop fs i count (j * 4096) 0 (Z.to_nat count) =
    Some (take (Z.to_nat count) tmp)) as ->.
  { rewrite En at 1. cbn [read_loop]. zcase; [|lia].
    destruct (io_position (j * 4096 + 0)) as [-> ->]; [lia|]. fs_unfold.
    replace (j * 4096 + 0) with (j * 4096) by lia. rewrite Z.div_mul, Z.mod_mul by lia.
    rewrite io_chunk_min by (fs_unfold; lia). fs_unfold.
    replace (Z.min (4096 - 0) (count - 0)) with count by lia.
    rewrite Hg. ostep. rewrite (proj2 (Z.eqb_neq _ _) Hn), Hr. ostep.
    destruct n as [|n]; cbn [read_loop]; (zcase; [lia|]); ostep; by rewrite app_nil_r. }
  ostep. destruct (timestamps _).
  - rewrite (upd_inode_ok fs k i) by done. ostep. by eexists.
  - ostep. by eexists.
Qed.

(** ** A file with one block behind its indirect block *)

Record hollow (fs : IDKFS) (k ib : Z) : Prop := {
  ho_inode : ∃ i, (fs_inodes fs).[k] = Some i ∧ i_indirect1 i = ib ∧
    i_size i < 18446744073709551616;
  ho_range : DATA_START ≤ ib < IDKFS_TOTAL_BLOCKS;
  ho_size : IDKFS_TOTAL_BLOCKS * IDKFS_BLOCK_SIZE ≤ m_size (fs_disk fs);
  ho_zero off : 4 ≤ off < 4096 → mget (fs_disk fs) (block_ptr ib + off) = 0;
}.

(** Such a file as it comes about: its block is [nb], the rest of the inode's
    blocks are [dir]. *)
Record hollow_at (fs : IDKFS) (k ib nb : Z) (dir : list Z) : Prop := {
  ha_hollow :> hollow fs k ib;
  ha_inode : ∃ i, (fs_inodes fs).[k] = Some i ∧ i_direct i = dir;
  ha_bitmap : bitmap_ok (fs_bitmap fs);
  ha_first off : 0 ≤ off < 4 →
    Some (mget (fs_disk fs) (block_ptr ib + off)) = (le_bytes 4 nb).[off];
}.

(** Its further blocks are block 0. *)
Lemma hollow_block fs k ib i j :
  hollow fs k ib → (fs_inodes fs).[k] = Some i → 13 ≤ j < 1036 →
  inode_get_block fs i j = Some 0.
Proof.
  intros [(i' & Hi' & Hib & _) Hr Hs Hz] Hi Hj. simplify_eq. unfold inode_get_block.
  rewrite (proj2 (Z.ltb_ge j _)) by (fs_unfold; lia). rewrite u32_small by (fs_unfold; lia).
  rewrite (proj2 (Z.ltb_lt _ _)) by (unfold IDKFS_PTRS_PER_BLOCK; fs_unfold; lia).
  rewrite (proj2 (Z.eqb_neq _ _)) by (fs_unfold; lia).
  destruct (block_read_ok fs (i_indirect1 i')) as (buf & -> & Hl & Hg);
    [done|fs_unfold; lia|]. ostep.
  apply ptr_zero; [done|fs_unfold; lia|].
  intros off Hoff. fs_unfold. rewrite Hg by lia. f_equal. apply Hz. lia.
Qed.

Lemma write_inode_indirect feat count offset now i :
  i_indirect1 (write_inode feat count offset now i) = i_indirect1 i ∧
  i_size (write_inode feat count offset now i) = Z.max (i_size i) (u64 (offset + count)) ∧
  i_direct (write_inode feat count offset now i) = i_direct i.
Proof.
  unfold write_inode, write_checksum, write_times, write_size.
  destruct (checksums feat), (timestamps feat); cbn; zcase; cbn; split_and!; (done || lia).
Qed.

(** Writing one of them writes block 0. *)
Lemma hollow_write fs k ib buf j now :
  hollow fs k ib → 13 ≤ j < 1036 → 0 < Z.of_nat (length buf) ≤ 4096 →
  ∃ fs' i, idkfs_write fs k buf (j * 4096) now = Some (fs', Z.of_nat (length buf)) ∧
    hollow fs' k ib ∧ fs_bitmap fs' = fs_bitmap fs ∧ fs_sb fs' = fs_sb fs ∧
    (fs_inodes fs').[k] = Some i ∧
    j * 4096 + Z.of_nat (length buf) ≤ i_size i < 18446744073709551616 ∧
    (∀ p, 0 ≤ p < 4096 → mget (fs_disk fs') p =
       if p <? Z.of_nat (length buf) then default 0 (buf.[p]) else mget (fs_disk fs) p).
Proof.
  intros Hh Hj Hb. pose proof Hh as [(i & Hi & Hib & Hsi) Hr Hs Hz].
  rewrite write_block by lia. unfold write_target. rewrite Hi. ostep.
  rewrite (hollow_block fs k ib i j) by done. ostep.
  change (0 =? IDKFS_NULL_BLOCK) with false. cbv iota. ostep.
  change (0 <? 0) with false. cbv iota. unfold block_patch.
  destruct (block_read_ok fs 0) as (tmp & -> & Htl & Htg); [done|fs_unfold; lia|]. ostep.
  change (Z.to_nat 0) with 0%nat. rewrite take_0. cbn [app Nat.add].
  destruct (block_write_ok fs 0 (buf ++ drop (length buf) tmp)) as (d & -> & Hds & _ & Hdg);
    [done|fs_unfold; lia|fs_unfold; rewrite length_app, length_drop; lia|]. ostep.
  rewrite (upd_inode_ok _ k i) by done. ostep.
  destruct (write_inode_indirect (fs_features fs) (Z.of_nat (length buf)) (j * 4096) now i)
    as (Hwi & Hws & _).
  eexists _, _. split; [done|].
  assert ((<[Z.to_nat k := write_inode (fs_features fs) (Z.of_nat (length buf)) (j * 4096) now i]>
    (fs_inodes fs)).[k] = Some (write_inode (fs_features fs) (Z.of_nat (length buf))
                                  (j * 4096) now i)) as Hk.
  { rewrite (inodes_insert fs k i) by done. by rewrite Z.eqb_refl. }
  split_and!; cbn.
  - split; cbn; [exists (write_inode (fs_features fs) (Z.of_nat (length buf)) (j * 4096) now i);
      split; [exact Hk|split; [congruence|rewrite Hws; pose proof (u64_range (j * 4096 + Z.of_nat (length buf))); lia]]|done|congruence|].
    intros off Hoff. fs_unfold. rewrite Hdg by lia. zcase; [lia|]. by apply Hz.
  - done.
  - done.
  - exact Hk.
  - rewrite Hws, u64_small by lia. lia.
  - rewrite Hws, u64_small by lia. lia.
  - intros p Hp. specialize (Hdg 0 p). fs_unfold. unfold block_ptr in *. fs_unfold.
    rewrite Z.mul_0_l, Z.add_0_l in Hdg. rewrite Hdg by lia. cbn [Z.eqb].
    zcase.
    + by rewrite zget_app_l by lia.
    + rewrite zget_app_r, zget_drop by lia.
      replace (Z.of_nat (length buf) + (p - Z.of_nat (length buf))) with p by lia.
      rewrite Htg by lia. by rewrite Z.mul_0_l, Z.add_0_l.
Qed.

(** ** The first block behind the indirect one *)

Lemma data_block fs b :
  fs_wf fs → block_range b → used (fs_bitmap fs) b = false → DATA_START ≤ b.
Proof.
  intros Hwf Hb Hu. destruct (Z.lt_ge_cases b DATA_START); [|done].
  rewrite (wf_meta _ Hwf) in Hu; [done|]. fs_unfold. lia.
Qed.

Lemma size_range i : cvalid Inode_codec i → i_size i < 18446744073709551616.
Proof. solve_valid. Qed.

(** [inode_map_indirect] gives the inode a zeroed block that was free. *)
Lemma map_indirect_ok fs k i :
  bitmap_ok (fs_bitmap fs) → sb_data_start_block (fs_sb fs) = DATA_START →
  0 < bitmap_free_count (fs_bitmap fs) →
  IDKFS_TOTAL_BLOCKS * IDKFS_BLOCK_SIZE ≤ m_size (fs_disk fs) →
  (fs_inodes fs).[k] = Some i → i_indirect1 i = IDKFS_NULL_BLOCK →
  ∃ fs' ib, inode_map_indirect fs k = Some (fs', ib) ∧ block_range ib ∧
    used (fs_bitmap fs) ib = false ∧ (fs_inodes fs').[k] = Some (set_i_indirect1 ib i) ∧
    m_size (fs_disk fs') = m_size (fs_disk fs) ∧ bitmap_ok (fs_bitmap fs') ∧
    ∀ off, 0 ≤ off < IDKFS_BLOCK_SIZE → mget (fs_disk fs') (block_ptr ib + off) = 0.
Proof.
  intros Hok Hst Hfree Hsz Hi Hnull. unfold inode_map_indirect. rewrite Hi. ostep.
  rewrite Hnull, Z.eqb_refl, Hst.
  destruct (alloc_fresh (fs_bitmap fs) DATA_START) as (bm & ib & -> & Hbm & Hib & Hu & _ & _);
    [done|fs_unfold; lia|lia|]. ostep.
  rewrite (proj2 (Z.ltb_ge ib 0)) by (fs_unfold; lia). rewrite (u32_block ib) by done.
  destruct (block_zero_ok (set_fs_bitmap bm fs) ib) as (d & -> & Hd & _ & Hg); [done|done|].
  ostep. rewrite (upd_inode_ok _ k i) by done. ostep.
  eexists _, ib. split; [done|]. split_and!; [done|done| |done|exact Hbm|]; cbn.
  - rewrite (inodes_insert fs k i) by done. by rewrite Z.eqb_refl.
  - intros off Hoff. by rewrite Hg, Z.eqb_refl.
Qed.

(** Storing the first pointer in a block of zeros. *)
Lemma set_first_ptr fs ib nb :
  IDKFS_TOTAL_BLOCKS * IDKFS_BLOCK_SIZE ≤ m_size (fs_disk fs) → block_range ib →
  (∀ off, 0 ≤ off < IDKFS_BLOCK_SIZE → mget (fs_disk fs) (block_ptr ib + off) = 0) →
  ∃ d, (buf ← block_read fs ib;
        ptrs ← (cdec ptrs_codec buf).[0 := nb];
        fs ← block_write fs ib (cenc ptrs_codec ptrs);
        Some (fs, nb)) = Some (set_fs_dirty true (set_fs_disk d fs), nb) ∧
    m_size d = m_size (fs_disk fs) ∧
    (∀ off, 4 ≤ off < 4096 → mget d (block_ptr ib + off) = 0) ∧
    ∀ off, 0 ≤ off < 4 → Some (mget d (block_ptr ib + off)) = (le_bytes 4 nb).[off].
Proof.
  intros Hsz Hib Hz.
  destruct (block_read_ok fs ib) as (buf & -> & Hbl & Hbg); [done|done|]. ostep.
  rewrite zero_ptrs; [|done|].
  2: { intros off Hoff. rewrite Hbg by (fs_unfold; lia). f_equal. apply Hz. fs_unfold. lia. }
  change (replicate 1024 0) with (0 :: replicate 1023 0).
  rewrite zset_ok by (cbn; lia). ostep. change (Z.to_nat 0) with 0%nat. cbn [insert list_insert].
  rewrite first_ptr_bytes.
  destruct (block_write_ok fs ib (le_bytes 4 nb ++ replicate 4092 0))
    as (d & -> & Hd & _ & Hg); [done|done|by rewrite length_app, le_bytes_length, length_replicate|].
  ostep. exists d. split_and!; [done|done| |]; intros off Hoff;
    rewrite Hg, Z.eqb_refl by (fs_unfold; lia).
  - rewrite zget_app_r by (rewrite le_bytes_length; lia). rewrite le_bytes_length.
    by rewrite (zget_replicate 4092) by lia.
  - rewrite zget_app_l by (rewrite le_bytes_length; lia).
    by destruct (zget_is_Some (le_bytes 4 nb) off) as [x ->]; [rewrite le_bytes_length; lia|].
Qed.

(** Mapping block 12 allocates the data block and the indirect block, which
    then holds the one pointer. *)
Lemma map_first_indirect fs k i :
  fs_wf fs → (fs_inodes fs).[k] = Some i → live i →
  ∃ fs' nb ib, inode_map_block fs k 12 = Some (fs', nb) ∧
    hollow_at fs' k ib nb (i_direct i) ∧ DATA_START ≤ nb < IDKFS_TOTAL_BLOCKS ∧ nb ≠ ib.
Proof.
  intros Hwf Hi Hl. pose proof (fs_wf_capacity fs Hwf) as Hcap.
  unfold inode_map_block. rewrite (wf_start _ Hwf).
  destruct (alloc_fresh (fs_bitmap fs) DATA_START)
    as (bm1 & nb & -> & Hok1 & Hnb & Hu1 & Hc1 & Hs1); [apply Hwf|fs_unfold; lia|lia|].
  pose proof (data_block fs nb Hwf Hnb Hu1) as Hnb'. ostep.
  rewrite (proj2 (Z.ltb_ge nb 0)) by (fs_unfold; lia). rewrite (u32_block nb) by done.
  destruct (block_zero_ok (set_fs_bitmap bm1 fs) nb) as (d1 & -> & Hd1 & _ & _);
    [apply Hwf|done|]. ostep.
  change (12 <? IDKFS_DIRECT_BLOCKS) with false. cbv iota.
  change (u32 (12 - IDKFS_DIRECT_BLOCKS)) with 0. cbv beta zeta.
  change (0 <? IDKFS_PTRS_PER_BLOCK) with true. cbv iota.
  match goal with |- context [inode_map_indirect ?s k] => set (fs1 := s) end.
  assert (IDKFS_TOTAL_BLOCKS * IDKFS_BLOCK_SIZE ≤ m_size (fs_disk fs1)) as Hsz1.
  { change (fs_disk fs1) with d1. rewrite Hd1. apply Hwf. }
  destruct (map_indirect_ok fs1 k i) as (fs2 & ib & -> & Hib & Hu2 & Hi2 & Hsz2 & Hok2 & Hz2);
    [done|apply Hwf|change (fs_bitmap fs1) with bm1; lia|done|done|by apply (wf_indirect _ Hwf k)|].
  change (fs_bitmap fs1) with bm1 in Hu2. rewrite Hs1 in Hu2 by done. zcase_in Hu2; [done|].
  pose proof (data_block fs ib Hwf Hib Hu2) as Hib'. ostep.
  rewrite (proj2 (Z.ltb_ge ib 0)) by (fs_unfold; lia).
  destruct (set_first_ptr fs2 ib nb) as (d3 & -> & Hd3 & Hz3 & Hf3); [by rewrite Hsz2|done|done|].
  eexists _, nb, ib. split; [done|].
  split; [|unfold block_range in *; split; [lia|congruence]].
  split; [|by eexists|done|done].
  split; cbn; [|unfold block_range in *; lia|by rewrite Hd3, Hsz2|done].
  exists (set_i_indirect1 ib i). split_and!; [done|done|]. cbn.
  apply size_range. by eapply wf_inode.
Qed.

(** Overwriting another block keeps the file hollow. *)
Lemma hollow_patch fs k ib nb dir db buf :
  hollow_at fs k ib nb dir → block_range db → db ≠ ib → 0 < Z.of_nat (length buf) ≤ 4096 →
  ∃ fs', block_patch fs db 0 buf = Some fs' ∧ hollow_at fs' k ib nb dir.
Proof.
  intros [[Hi Hr Hs Hz] Hd Hbm Hf] Hdb Hne Hb. unfold block_patch.
  destruct (block_read_ok fs db) as (tmp & -> & Htl & _); [done|done|]. ostep.
  change (Z.to_nat 0) with 0%nat. rewrite take_0. cbn [app Nat.add].
  destruct (block_write_ok fs db (buf ++ drop (length buf) tmp)) as (d & -> & Hds & _ & Hdg);
    [done|done|fs_unfold; rewrite length_app, length_drop; lia|].
  eexists. split; [done|]. split; [split| | |]; cbn; [done|done|by rewrite Hds| |done|done|].
  - intros off Hoff. rewrite Hdg by (fs_unfold; lia). zcase; [congruence|]. by apply Hz.
  - intros off Hoff. rewrite Hdg by (fs_unfold; lia). zcase; [congruence|]. by apply Hf.
Qed.

Lemma hollow_upd fs k ib nb dir f :
  hollow_at fs k ib nb dir →
  (∀ i, i_size i < 18446744073709551616 →
     i_indirect1 (f i) = i_indirect1 i ∧ i_size (f i) < 18446744073709551616 ∧
     i_direct (f i) = i_direct i) →
  ∃ fs', upd_inode fs k f = Some fs' ∧ hollow_at fs' k ib nb dir.
Proof.
  intros [[(i & Hi & Hib & Hsi) Hr Hs Hz] (i0 & Hi0 & Hd) Hbm Hfi] Hf. simplify_eq.
  rewrite (upd_inode_ok _ k i) by done. destruct (Hf i Hsi) as (H1 & H2 & H3).
  eexists. split; [done|]. split; [split| | |]; cbn; try done; exists (f i);
    rewrite (inodes_insert fs k i), Z.eqb_refl by done; done.
Qed.

Lemma first_indirect_write fs k i buf now :
  fs_wf fs → (fs_inodes fs).[k] = Some i → live i → 0 < Z.of_nat (length buf) ≤ 4096 →
  ∃ fs' ib nb, idkfs_write fs k buf (12 * 4096) now = Some (fs', Z.of_nat (length buf)) ∧
    hollow_at fs' k ib nb (i_direct i) ∧ DATA_START ≤ nb < IDKFS_TOTAL_BLOCKS.
Proof.
  intros Hwf Hi Hl Hb. rewrite write_block by lia. unfold write_target. rewrite Hi. ostep.
  assert (inode_get_block fs i 12 = Some IDKFS_NULL_BLOCK) as ->.
  { unfold inode_get_block. cbn. by rewrite (wf_indirect _ Hwf k i). }
  ostep. rewrite Z.eqb_refl.
  destruct (map_first_indirect fs k i Hwf Hi Hl) as (fs1 & nb & ib & -> & Hh & Hnb & Hne).
  ostep. rewrite (proj2 (Z.ltb_ge nb 0)) by (fs_unfold; lia).
  destruct (hollow_upd fs1 k ib nb _ (λ i, set_i_block_count (u32 (i_block_count i + 1)) i) Hh)
    as (fs2 & -> & Hh2); [done|]. do 2 ostep.
  rewrite u32_block by (fs_unfold; lia). rewrite (proj2 (Z.ltb_ge nb 0)) by (fs_unfold; lia).
  destruct (hollow_patch fs2 k ib nb _ nb buf Hh2) as (fs3 & -> & Hh3);
    [fs_unfold; lia|done|done|]. ostep.
  destruct (hollow_upd fs3 k ib nb _
    (write_inode (fs_features fs3) (Z.of_nat (length buf)) (12 * 4096) now) Hh3)
    as (fs4 & -> & Hh4).
  { intros i' Hs'. destruct (write_inode_indirect (fs_features fs3) (Z.of_nat (length buf))
      (12 * 4096) now i') as (-> & -> & ->). split; [done|].
    pose proof (u64_range (12 * 4096 + Z.of_nat (length buf))). split; [lia|done]. }
  ostep.
  eexists _, ib, nb. split; [done|]. split; [|exact Hnb]. destruct Hh4 as [[] ? ? ?]. by split.
Qed.

(** ** The property *)

Lemma superblock_magic d bs :
  mread d 0 (csize Superblock_codec) = Some bs →
  ∃ sb, mload Superblock_codec d 0 = Some sb ∧ sb_magic sb = le_val (take 4 bs).
Proof. intros H. unfold mload. rewrite H. eexists. split; reflexivity. Qed.

(** C23: files do not grow past their thirteenth block.  In a well-formed file
    system a write of block 12 of a file succeeds and gives it an indirect
    block of zeros; from then on writing any of the blocks 13 to 1035
    reports success, allocates nothing, and overwrites block 0: the
    superblock of the image is replaced by file data, which no longer mounts
    unless the data begin with the magic number, and any other of these blocks
    reads back the same data. *)
Theorem indirect_write_hits_superblock fs k buf1 buf j now :
  fs_inv fs → live_at fs k → bytes buf →
  0 < Z.of_nat (length buf1) ≤ 4096 → 4 ≤ Z.of_nat (length buf) ≤ 4096 → 13 ≤ j < 1036 →
  ∃ fs1 fs2,
    idkfs_write fs k buf1 (12 * 4096) now = Some (fs1, Z.of_nat (length buf1)) ∧
    idkfs_write fs1 k buf (j * 4096) now = Some (fs2, Z.of_nat (length buf)) ∧
    fs_bitmap fs2 = fs_bitmap fs1 ∧
    (∀ p, 0 ≤ p < Z.of_nat (length buf) → buf.[p] = Some (mget (fs_disk fs2) p)) ∧
    (le_val (take 4 buf) ≠ IDKFS_MAGIC →
     idkfs_mount_image (fs_disk fs2) false true now = Some None) ∧
    (∀ j', 13 ≤ j' ≤ j → ∃ fs3,
       idkfs_read fs2 k (Z.of_nat (length buf)) (j' * 4096) now = Some (fs3, buf)).
Proof.
  intros Hinv (i & Hi & Hl) Hbuf Hb1 Hb Hj. pose proof (inv_wf _ Hinv) as Hwf.
  destruct (first_indirect_write fs k i buf1 now Hwf Hi Hl Hb1) as (fs1 & ib & nb & Hw1 & [Hh1 _ _ _] & _).
  destruct (hollow_write fs1 k ib buf j now Hh1 Hj) as (fs2 & i2 & Hw2 & Hh2 & Hbm & _ & Hi2 & Hs2 & Hp);
    [lia|].
  assert (∀ p, 0 ≤ p < Z.of_nat (length buf) → buf.[p] = Some (mget (fs_disk fs2) p)) as Hget.
  { intros p Hpp. destruct (zget_is_Some buf p Hpp) as [x Hx]. rewrite Hp, Hx by lia.
    by zcase; [|lia]. }
  destruct Hh2 as [Hi2' Hr2 Hsz Hz2] eqn:E. clear E.
  exists fs1, fs2. split_and!; [done|done|done|done| |].
  - intros Hm. unfold idkfs_mount_image. cbn [negb].
    destruct (superblock_magic (fs_disk fs2) (mget (fs_disk fs2) <$> seqZ 0 3980))
      as (sb & -> & Hsb).
    { rewrite mread_ok; [|lia|rewrite Superblock_size; fs_unfold; lia].
      by rewrite Superblock_size. }
    ostep. rewrite Hsb. rewrite (proj2 (Z.eqb_neq _ _)); [done|].
    intros E. apply Hm. rewrite <- E. f_equal.
    apply zget_ext; [len|]. intros x Hx. len. rewrite !zget_take by lia.
    rewrite zget_fmap, zget_seqZ by lia. by apply Hget; lia.
  - intros j' Hj'. destruct (block_read_ok fs2 0) as (tmp & Hr & Htl & Htg);
      [done|fs_unfold; lia|].
    destruct (read_block fs2 k i2 (Z.of_nat (length buf)) j' now 0 tmp Hi2) as (fs3 & Hread);
      [lia|lia|lia|by apply (hollow_block fs2 k ib); [split|..]; (done || lia)|done|done|].
    exists fs3. rewrite Hread, Nat2Z.id. do 2 f_equal. fs_unfold.
    apply zget_ext; [len|]. intros x Hx. len. rewrite zget_take, Htg by lia.
    unfold block_ptr. rewrite Z.mul_0_l, Z.add_0_l. symmetry. apply Hget. lia.
Qed.

Lemma indirect_write_hits_superblock_witness : ∃ fs fs1 fs2,
  idkfs_write fs 0 [1] (12 * 4096) 5 = Some (fs1, 1) ∧
  idkfs_write fs1 0 [1; 2; 3; 4] (20 * 4096) 5 = Some (fs2, 4) ∧
  idkfs_mount_image (fs_disk fs2) false true 5 = Some None.
Proof.
  destruct demo_fs as (fs & _ & Hf & _).
  destruct (indirect_write_hits_superblock fs 0 [1] [1; 2; 3; 4] 20 5 (fmt_inv _ Hf)
    (formatted_root_live _ Hf)) as (fs1 & fs2 & H1 & H2 & _ & _ & Hm & _);
    [by repeat constructor|done|done|lia|].
  exists fs, fs1, fs2. split; [exact H1|]. split; [exact H2|]. apply Hm. vm_compute. discriminate.
Defined.
