(* ===== verification/Fuse.v ===== *)
(** * The FUSE handlers of [idkfs_fuse.c] and [idkfs_persist.c]

    Both front ends have the same handlers over the core; those of
    [idkfs_persist.c] also write the metadata back to the image.  The
    handlers are parameterised by [sync], the work at the end of an
    operation: nothing for [idkfs_fuse.c], [idkfs_flush_to_image] for
    [idkfs_persist.c].  [gfs] is the state [fs]; a negative result is the
    error number returned to FUSE. *)

From S2P Require Import Prelude Cint CString Codec Mem CoreTypes Crc Bitmap.
From S2P Require Import Core FileIO Dir Fs Mkfs Spec Persist.

Definition EBADF : Z := 9.
Definition EISDIR : Z := 21.
Definition ENOSPC : Z := 28.
Definition S_IFDIR : Z := 16384.
Definition S_IFREG : Z := 32768.
Definition S_IFLNK : Z := 40960.

(** ['/'] *)
Definition SLASH : Z := 47.

(** The tokens [strtok_r(tmp, "/", &saveptr)] yields: the non-empty pieces
    between slashes.  [cur] is the piece being read, reversed. *)
Fixpoint strtok_slash (s cur : list Z) : list (list Z) :=
  match s with
  | [] => match cur with [] => [] | _ => [reverse cur] end
  | c :: s =>
      if c =? SLASH then
        match cur with
        | [] => strtok_slash s []
        | _ => reverse cur :: strtok_slash s []
        end
      else strtok_slash s (c :: cur)
  end.
Definition path_tokens (s : list Z) : list (list Z) := strtok_slash s [].

(** [strrchr(tmp, '/')]: the parts before and after the last slash. *)
Fixpoint strrchr_slash (s : list Z) : option (list Z * list Z) :=
  match s with
  | [] => None
  | c :: s =>
      match strrchr_slash s with
      | Some (pre, post) => Some (c :: pre, post)
      | None => if c =? SLASH then Some ([], s) else None
      end
  end.

(** [char tmp\[4096\]; strncpy(tmp, path, 4095); tmp\[4095\] = 0;] *)
Definition path_copy (path : list Z) : list Z := take (Z.to_nat 4095) path.

(** The [while (tok)] loop of [resolve_path]. *)
Fixpoint resolve_tokens (fs : IDKFS) (cur : Z) (toks : list (list Z)) (now : Z) :
    option (IDKFS * Z) :=
  match toks with
  | [] => Some (fs, i32 cur)
  | tok :: toks =>
      dir ← (fs_inodes fs).[cur];
      if negb (i_type dir =? ft_val IDKFS_FT_DIR) then Some (fs, - ENOTDIR)
      else
        '(fs, next) ← idkfs_dir_lookup fs cur tok now;
        if next <? 0 then Some (fs, - ENOENT)
        else resolve_tokens fs (u32 next) toks now
  end.

Definition resolve_path (fs : IDKFS) (path : list Z) (now : Z) : option (IDKFS * Z) :=
  if strcmp path [SLASH] =? 0 then Some (fs, IDKFS_ROOT_INODE)
  else resolve_tokens fs IDKFS_ROOT_INODE (path_tokens (path_copy path)) now.

(** [inl] is the error returned, [inr] the parent and the name stored
    through the out parameters. *)
Definition resolve_parent (fs : IDKFS) (path : list Z) (now : Z) :
    option (IDKFS * (Z + Z * list Z)) :=
  match strrchr_slash (path_copy path) with
  | None => Some (fs, inl (- ENOENT))
  | Some (pre, post) =>
      let name := take (Z.to_nat IDKFS_MAX_FILENAME) post in
      if bool_decide (pre = []) then Some (fs, inr (IDKFS_ROOT_INODE, name))
      else
        '(fs, p) ← resolve_path fs pre now;
        if p <? 0 then Some (fs, inl p) else Some (fs, inr (u32 p, name))
  end.

(** The fields of [struct stat] the handlers set. *)
Record stat := mkStat {
  st_ino : Z; st_mode : Z; st_nlink : Z; st_uid : Z; st_gid : Z; st_size : Z;
  st_atime : Z; st_mtime : Z; st_ctime : Z; st_blksize : Z; st_blocks : Z;
}.

Definition stat_mode (i : Inode) : Z :=
  if i_type i =? ft_val IDKFS_FT_DIR then Z.lor (i_mode i) S_IFDIR
  else if i_type i =? ft_val IDKFS_FT_FILE then Z.lor (i_mode i) S_IFREG
  else if i_type i =? ft_val IDKFS_FT_SYMLINK then Z.lor (i_mode i) S_IFLNK
  else i_mode i.

Definition stat_inode (i : Inode) : stat :=
  mkStat (i_ino i) (stat_mode i) (i_link_count i) (i_uid i) (i_gid i) (i64 (i_size i))
    (i64 (i_atime i)) (i64 (i_mtime i)) (i64 (i_ctime i)) IDKFS_BLOCK_SIZE
    (u32 (i_block_count i * (IDKFS_BLOCK_SIZE / 512))).

Definition fuse_getattr (fs : IDKFS) (path : list Z) (now : Z) :
    option (IDKFS * (Z + stat)) :=
  '(fs, ino) ← resolve_path fs path now;
  if ino <? 0 then Some (fs, inl ino)
  else
    i ← (fs_inodes fs).[ino];
    Some (fs, inr (stat_inode i)).

(** [SortCandidate]; its [type_name] is [entry_type_name] of [entry_type]. *)
Record SortCandidate := mkSortCandidate {
  sc_name : list Z; sc_size : Z; sc_inode : Z; sc_entry_type : Z;
}.

Definition is_dot (e : DirEntry) : bool :=
  (strncmp (e_name e) DOT (Z.to_nat IDKFS_MAX_FILENAME) =? 0) ||
  (strncmp (e_name e) DOTDOT (Z.to_nat IDKFS_MAX_FILENAME) =? 0).

(** The candidates of [fuse_readdir] among the [n] entries from [i], when
    [entry_count] have been found; at most 128 are taken. *)
Fixpoint readdir_collect (fs : IDKFS) (es : list DirEntry) (i entry_count : Z) (n : nat) :
    option (list SortCandidate) :=
  match n with
  | O => Some []
  | S n =>
      if IDKFS_MAX_DIRENTS <=? entry_count then Some []
      else
        e ← es.[i];
        if is_dot e then readdir_collect fs es (i + 1) entry_count n
        else
          ino ← (fs_inodes fs).[e_inode e];
          rest ← readdir_collect fs es (i + 1) (entry_count + 1) n;
          Some (mkSortCandidate (c_str (take (Z.to_nat (e_name_len e)) (e_name e)))
                  (i_size ino) (e_inode e) (e_type e) :: rest)
  end.

Definition candidate_mode (c : SortCandidate) : Z :=
  if sc_entry_type c =? ft_val IDKFS_FT_DIR then Z.lor S_IFDIR 493
  else if sc_entry_type c =? ft_val IDKFS_FT_SYMLINK then Z.lor S_IFLNK 511
  else Z.lor S_IFREG 420.

(** What [filler] receives for a candidate: name, inode, mode and size. *)
Definition filler_entry (c : SortCandidate) : list Z * option (Z * Z * Z) :=
  (sc_name c, Some (sc_inode c, candidate_mode c, i64 (sc_size c))).

(** [sort] is [qsort] with the Lua comparison in the state it has, which
    Sorting.v supplies. *)
Definition fuse_readdir (sort : list SortCandidate → list SortCandidate)
    (g_sort_ready : bool) (fs : IDKFS) (path : list Z) (now : Z) :
    option (IDKFS * (Z + list (list Z * option (Z * Z * Z)))) :=
  '(fs, ino) ← resolve_path fs path now;
  if ino <? 0 then Some (fs, inl ino)
  else
    i ← (fs_inodes fs).[ino];
    if negb (i_type i =? ft_val IDKFS_FT_DIR) then Some (fs, inl (- ENOTDIR))
    else
      let dots := [(DOT, None); (DOTDOT, None)] in
      if i_size i =? 0 then Some (fs, inr dots)
      else
        '(fs, dir) ← dir_load fs ino now;
        cs ← readdir_collect fs (d_entries dir) 0 0 (Z.to_nat (d_count dir));
        let cs := if (1 <? Z.of_nat (length cs)) && g_sort_ready then sort cs else cs in
        Some (fs, inr (dots ++ (filler_entry <$> cs))).

Definition fuse_open (fs : IDKFS) (path : list Z) (now : Z) : option (IDKFS * (Z + Z)) :=
  '(fs, ino) ← resolve_path fs path now;
  if ino <? 0 then Some (fs, inl ino) else Some (fs, inr (u64 ino)).

Definition fuse_statfs (fs : IDKFS) : list Z :=
  [IDKFS_BLOCK_SIZE; IDKFS_BLOCK_SIZE; IDKFS_TOTAL_BLOCKS; sb_free_blocks (fs_sb fs);
   sb_free_blocks (fs_sb fs); IDKFS_MAX_INODES; sb_free_inodes (fs_sb fs);
   IDKFS_MAX_FILENAME].

(** ** Releasing the blocks of an unlinked file *)

(** [bitmap_clear(&gfs->bitmap, b); gfs->sb.free_blocks++;] *)
Definition release_block (fs : IDKFS) (b : Z) : option IDKFS :=
  bm ← bitmap_clear (fs_bitmap fs) b;
  Some (add_free_blocks 1 (set_fs_bitmap bm fs)).

(** The loop over [i->direct], from block [j]. *)
Fixpoint unlink_direct (fs : IDKFS) (k j : Z) (n : nat) : option IDKFS :=
  match n with
  | O => Some fs
  | S n =>
      i ← (fs_inodes fs).[k];
      b ← (i_direct i).[j];
      if b =? IDKFS_NULL_BLOCK then unlink_direct fs k (j + 1) n
      else
        fs ← release_block fs b;
        d ← (i_direct i).[j := IDKFS_NULL_BLOCK];
        fs ← upd_inode fs k (set_i_direct d);
        unlink_direct fs k (j + 1) n
  end.

(** The loop over the pointers of the indirect block. *)
Fixpoint unlink_ptrs (fs : IDKFS) (ptrs : list Z) : option IDKFS :=
  match ptrs with
  | [] => Some fs
  | b :: ptrs =>
      if b =? IDKFS_NULL_BLOCK then unlink_ptrs fs ptrs
      else fs ← release_block fs b; unlink_ptrs fs ptrs
  end.

Definition unlink_indirect (fs : IDKFS) (k : Z) : option IDKFS :=
  i ← (fs_inodes fs).[k];
  if i_indirect1 i =? IDKFS_NULL_BLOCK then Some fs
  else
    buf ← block_read fs (i_indirect1 i);
    fs ← unlink_ptrs fs (cdec ptrs_codec buf);
    fs ← release_block fs (i_indirect1 i);
    upd_inode fs k (set_i_indirect1 IDKFS_NULL_BLOCK).

Definition unlink_blocks (fs : IDKFS) (k : Z) : option IDKFS :=
  fs ← unlink_direct fs k 0 (Z.to_nat IDKFS_DIRECT_BLOCKS);
  fs ← unlink_indirect fs k;
  upd_inode fs k (λ i, set_i_block_count 0 (set_i_size 0 i)).

(** ** The handlers that change the state *)
Section handlers.
Context (sync : IDKFS → option IDKFS).

Definition fuse_read (fs : IDKFS) (fh size offset now : Z) :
    option (IDKFS * (Z + list Z)) :=
  let ino := u32 fh in
  if IDKFS_MAX_INODES <=? ino then Some (fs, inl (- EBADF))
  else
    '(fs, out) ← idkfs_read fs ino size (u64 offset) now;
    fs ← sync fs;
    Some (fs, inr out).

Definition fuse_write (fs : IDKFS) (fh : Z) (buf : list Z) (offset now : Z) :
    option (IDKFS * Z) :=
  let ino := u32 fh in
  if IDKFS_MAX_INODES <=? ino then Some (fs, - EBADF)
  else
    '(fs, n) ← idkfs_write fs ino buf (u64 offset) now;
    fs ← sync fs;
    Some (fs, i32 n).

Definition fuse_create (fs : IDKFS) (path : list Z) (mode now : Z) :
    option (IDKFS * (Z + Z)) :=
  '(fs, r) ← resolve_parent fs path now;
  match r with
  | inl e => Some (fs, inl e)
  | inr (parent, name) =>
      '(fs, ino) ← idkfs_create fs parent name TIER_NORMAL (u16 mode) now;
      if ino <? 0 then Some (fs, inl (- ENOSPC))
      else fs ← sync fs; Some (fs, inr (u64 ino))
  end.

Definition fuse_mkdir (fs : IDKFS) (path : list Z) (mode now : Z) :
    option (IDKFS * Z) :=
  '(fs, r) ← resolve_parent fs path now;
  match r with
  | inl e => Some (fs, e)
  | inr (parent, name) =>
      '(fs, ino) ← idkfs_mkdir fs parent name (u16 mode) now;
      if ino <? 0 then Some (fs, - ENOSPC)
      else fs ← sync fs; Some (fs, 0)
  end.

Definition fuse_unlink (fs : IDKFS) (path : list Z) (now : Z) : option (IDKFS * Z) :=
  '(fs, r) ← resolve_parent fs path now;
  match r with
  | inl e => Some (fs, e)
  | inr (parent, name) =>
      '(fs, ino) ← resolve_path fs path now;
      if ino <? 0 then Some (fs, ino)
      else
        i ← (fs_inodes fs).[ino];
        if i_type i =? ft_val IDKFS_FT_DIR then Some (fs, - EISDIR)
        else
          fs ← unlink_blocks fs ino;
          '(fs, ret) ← idkfs_dir_remove fs parent name now;
          if ret <? 0 then Some (fs, ret)
          else
            fs ← inode_free fs (u32 ino);
            fs ← sync fs;
            Some (fs, 0)
  end.

(** [resolve_path], then an assignment to fields of the inode. *)
Definition fuse_setattr (f : Inode → Inode) (fs : IDKFS) (path : list Z) (now : Z) :
    option (IDKFS * Z) :=
  '(fs, ino) ← resolve_path fs path now;
  if ino <? 0 then Some (fs, ino)
  else
    fs ← upd_inode fs ino f;
    fs ← sync fs;
    Some (fs, 0).

Definition fuse_truncate (fs : IDKFS) (path : list Z) (size now : Z) :=
  fuse_setattr (set_i_size (u64 size)) fs path now.
Definition fuse_chmod (fs : IDKFS) (path : list Z) (mode now : Z) :=
  fuse_setattr (set_i_mode (u16 mode)) fs path now.
Definition fuse_utimens (fs : IDKFS) (path : list Z) (atime mtime now : Z) :=
  if timestamps (fs_features fs)
  then fuse_setattr (λ i, set_i_mtime (u64 mtime) (set_i_atime (u64 atime) i)) fs path now
  else Some (fs, 0).
End handlers.

(** [idkfs_persist.c]: the same handlers, flushing to the image. *)
Definition persist_resolve_path := resolve_path.
Definition persist_resolve_parent := resolve_parent.
Definition persist_getattr := fuse_getattr.
Definition persist_open := fuse_open.
Definition persist_statfs := fuse_statfs.
Definition persist_read := fuse_read idkfs_flush_to_image.
Definition persist_write := fuse_write idkfs_flush_to_image.
Definition persist_create := fuse_create idkfs_flush_to_image.
Definition persist_mkdir := fuse_mkdir idkfs_flush_to_image.
Definition persist_unlink := fuse_unlink idkfs_flush_to_image.
Definition persist_truncate := fuse_truncate idkfs_flush_to_image.
Definition persist_chmod := fuse_chmod idkfs_flush_to_image.
Definition persist_utimens := fuse_utimens idkfs_flush_to_image.

(** [fuse_readdir] of [idkfs_persist.c]: no sorting, no sizes. *)
Fixpoint persist_readdir_fill (es : list DirEntry) (i : Z) (n : nat) :
    option (list (list Z * option (Z * Z))) :=
  match n with
  | O => Some []
  | S n =>
      e ← es.[i];
      rest ← persist_readdir_fill es (i + 1) n;
      if is_dot e then Some rest
      else
        let mode := if e_type e =? ft_val IDKFS_FT_DIR
                    then Z.lor S_IFDIR 493 else Z.lor S_IFREG 420 in
        Some ((c_str (take (Z.to_nat (e_name_len e)) (e_name e)),
               Some (e_inode e, mode)) :: rest)
  end.

Definition persist_readdir (fs : IDKFS) (path : list Z) (now : Z) :
    option (IDKFS * (Z + list (list Z * option (Z * Z)))) :=
  '(fs, ino) ← resolve_path fs path now;
  if ino <? 0 then Some (fs, inl ino)
  else
    i ← (fs_inodes fs).[ino];
    if negb (i_type i =? ft_val IDKFS_FT_DIR) then Some (fs, inl (- ENOTDIR))
    else
      let dots := [(DOT, None); (DOTDOT, None)] in
      if i_size i =? 0 then Some (fs, inr dots)
      else
        '(fs, dir) ← dir_load fs ino now;
        rest ← persist_readdir_fill (d_entries dir) 0 (Z.to_nat (d_count dir));
        Some (fs, inr (dots ++ rest)).

(** ** Releasing one direct block *)

Lemma bitmap_free_count_le bm : bitmap_free_count bm ≤ IDKFS_TOTAL_BLOCKS.
Proof.
  pose proof all_blocks_length.
  change (bitmap_free_count bm)
    with (Z.of_nat (length (filter (λ b, used bm b = false) all_blocks))).
  pose proof (length_filter (λ b, used bm b = false) all_blocks). lia.
Qed.

Section detach.
Context (fs : IDKFS) (k j b : Z) (i : Inode) (bm : BlockBitmap).
Let i' := set_i_direct (<[Z.to_nat j := IDKFS_NULL_BLOCK]> (i_direct i)) i.
Let fs' := set_fs_inodes (<[Z.to_nat k := i']> (fs_inodes fs))
  (add_free_blocks 1 (set_fs_bitmap bm fs)).
Context (Hwf : fs_wf fs) (Hi : (fs_inodes fs).[k] = Some i) (Hl : live i)
  (Hj : (i_direct i).[j] = Some b) (Hb : b ≠ IDKFS_NULL_BLOCK)
  (Hbm : bitmap_ok bm)
  (Hspec : ∀ b', block_range b' →
     used bm b' = if b' =? b then false else used (fs_bitmap fs) b').

Lemma detach_own : owns fs k j b.
Proof using Hi Hl Hj Hb. split; [by exists i|]. apply fblock_Some. eauto. Qed.

Lemma detach_range : DATA_START ≤ b < IDKFS_TOTAL_BLOCKS ∧ used (fs_bitmap fs) b = true.
Proof using Hwf Hi Hl Hj Hb. eapply (wf_owned _ Hwf), detach_own. Qed.

Lemma detach_get k' :
  (fs_inodes fs').[k'] = if k' =? k then Some i' else (fs_inodes fs).[k'].
Proof using Hi. by apply inodes_insert with i. Qed.

Lemma detach_live k' : live_at fs' k' ↔ live_at fs k'.
Proof using Hi.
  unfold live_at. rewrite detach_get. destruct (Z.eqb_spec k' k) as [->|]; [|done].
  rewrite Hi. split; intros (? & [= <-] & ?); eauto.
Qed.

Lemma detach_fblock k' j' :
  fblock fs' k' j' = if (k' =? k) && (j' =? j) then None else fblock fs k' j'.
Proof using Hi Hj.
  unfold fblock. rewrite detach_get. destruct (Z.eqb_spec k' k) as [->|]; [|done].
  rewrite Hi. cbn [mbind option_bind andb i' set_i_direct i_direct].
  apply zget_bound in Hj. destruct (Z.eqb_spec j' j) as [->|].
  - by rewrite zget_insert_eq by done.
  - by rewrite zget_insert_ne by lia.
Qed.

Lemma detach_owns k' j' b' :
  owns fs' k' j' b' ↔ ¬ (k' = k ∧ j' = j) ∧ owns fs k' j' b'.
Proof using Hi Hj.
  unfold owns. rewrite detach_live, detach_fblock.
  destruct (Z.eqb_spec k' k), (Z.eqb_spec j' j); cbn [andb]; intuition congruence.
Qed.

Lemma detach_count : bitmap_free_count bm = bitmap_free_count (fs_bitmap fs) + 1.
Proof using Hwf Hi Hl Hj Hb Hspec.
  destruct detach_range as [Hr Hu].
  apply (free_count_flip bm (fs_bitmap fs) b); [fs_unfold; lia| |done|].
  - rewrite Hspec by (fs_unfold; lia). by rewrite Z.eqb_refl.
  - intros b' Hb' Hne. rewrite Hspec by done. by zcase.
Qed.

Lemma detach_wf : fs_wf fs'.
Proof using All.
  destruct detach_range as [Hr Hu]. pose proof detach_count as Hc.
  split.
  - exact Hbm.
  - cbn [fs' set_fs_inodes fs_inodes]. rewrite length_insert. apply (wf_ninodes _ Hwf).
  - cbn [fs' set_fs_inodes fs_inodes]. apply Forall_insert; [apply (wf_inodes _ Hwf)|].
    assert (cvalid Inode_codec i) as Hv by by eapply wf_inode.
    apply set_i_direct_valid; [|done]. cbn. split.
    + rewrite length_insert. by apply Inode_valid_direct.
    + apply Forall_insert; [revert Hv; solve_valid|]. fs_unfold. pow256. lia.
  - cbn. apply set_sb_free_blocks_valid; [apply u32_range|apply (wf_sb _ Hwf)].
  - apply (wf_size _ Hwf).
  - apply (wf_disk _ Hwf).
  - apply (wf_start _ Hwf).
  - cbn. rewrite (wf_free _ Hwf), Hc. apply u32_small.
    pose proof (free_count_nonneg (fs_bitmap fs)). pose proof (bitmap_free_count_le bm).
    fs_unfold. lia.
  - intros b' Hb'. cbn. rewrite Hspec by (fs_unfold; lia). zcase; [lia|].
    by apply (wf_meta _ Hwf).
  - intros k' j' b' [Hn Ho]%detach_owns. pose proof (wf_owned _ Hwf _ _ _ Ho) as [Hr' Hu'].
    split; [exact Hr'|]. cbn. rewrite Hspec by (fs_unfold; lia). zcase; [|done]. subst.
    destruct (wf_inj _ Hwf _ _ _ _ _ Ho detach_own). by destruct Hn.
  - intros k1 j1 k2 j2 b' [_ H1]%detach_owns [_ H2]%detach_owns.
    by eapply (wf_inj _ Hwf).
  - intros b' Hb' Hub. cbn in Hub. rewrite Hspec in Hub by (fs_unfold; lia).
    destruct (Z.eqb_spec b' b) as [|Hne]; [done|].
    destruct (wf_noleak _ Hwf b' Hb' Hub) as (k' & j' & Ho). exists k', j'.
    apply detach_owns. split; [|exact Ho]. intros [-> ->].
    destruct Ho as [_ Ho]. destruct detach_own as [_ Ho']. congruence.
  - intros k' i0. rewrite detach_get. destruct (Z.eqb_spec k' k) as [->|].
    + intros [= <-] _. exact (wf_indirect _ Hwf k i Hi Hl).
    + apply (wf_indirect _ Hwf).
Qed.

Lemma detach_kept k' : k' ≠ k → kept k' fs fs'.
Proof using Hi Hj.
  intros Hne. split; [rewrite detach_get; by zcase|]. intros p. unfold fbyte.
  rewrite detach_fblock. by destruct (Z.eqb_spec k' k).
Qed.
End detach.

(** Only the inode [k], the bitmap and the free-block counter differ. *)
Record released (k : Z) (fs fs' : IDKFS) : Prop := {
  rel_kept k' : k' ≠ k → kept k' fs fs';
  rel_attr i : (fs_inodes fs).[k] = Some i →
    ∃ i', (fs_inodes fs').[k] = Some i' ∧ same_attr i i';
  rel_length : length (fs_inodes fs') = length (fs_inodes fs);
  rel_sb : set_sb_free_blocks 0 (fs_sb fs') = set_sb_free_blocks 0 (fs_sb fs);
}.

Lemma released_refl k fs : released k fs fs.
Proof. split; [by split|eauto using same_attr_refl|done|done]. Qed.

Lemma released_trans k fs1 fs2 fs3 :
  released k fs1 fs2 → released k fs2 fs3 → released k fs1 fs3.
Proof.
  intros [Hk1 Ha1 Hl1 Hs1] [Hk2 Ha2 Hl2 Hs2]. split; try congruence.
  - intros k' Hne. eapply kept_trans; [by apply Hk1|by apply Hk2].
  - intros i Hi. destruct (Ha1 i Hi) as (i2 & Hi2 & ?).
    destruct (Ha2 i2 Hi2) as (i3 & Hi3 & ?). eauto using same_attr_trans.
Qed.

Lemma released_ino_free k fs fs' k' : released k fs fs' → ino_free fs' k' = ino_free fs k'.
Proof.
  intros Hr. unfold ino_free. destruct (Z.eq_dec k' k) as [->|Hne].
  - destruct ((fs_inodes fs).[k]) as [i|] eqn:E.
    + destruct (rel_attr _ _ _ Hr i E) as (i' & -> & Ha). unfold same_attr in Ha.
      f_equal. tauto.
    + rewrite zget_None; [done|]. rewrite (rel_length _ _ _ Hr). intros Hb.
      destruct (zget_is_Some (fs_inodes fs) k Hb). congruence.
  - by destruct (rel_kept _ _ _ Hr k' Hne) as [-> _].
Qed.

Lemma released_inv k fs fs' : released k fs fs' → fs_wf fs' → fs_inv fs → fs_inv fs'.
Proof.
  intros Hr Hwf' [Hwf Hfi]. split; [exact Hwf'|].
  rewrite (free_inode_count_ext fs fs') by (intros; by eapply released_ino_free).
  rewrite <- Hfi. exact (f_equal sb_free_inodes (rel_sb _ _ _ Hr)).
Qed.

Lemma unlink_direct_step fs k j i b :
  fs_wf fs → (fs_inodes fs).[k] = Some i → live i → (i_direct i).[j] = Some b →
  b ≠ IDKFS_NULL_BLOCK →
  ∃ fs1 d fs2, release_block fs b = Some fs1 ∧
    (i_direct i).[j := IDKFS_NULL_BLOCK] = Some d ∧
    upd_inode fs1 k (set_i_direct d) = Some fs2 ∧ fs_wf fs2 ∧ released k fs fs2 ∧
    (fs_inodes fs2).[k] =
      Some (set_i_direct (<[Z.to_nat j := IDKFS_NULL_BLOCK]> (i_direct i)) i).
Proof.
  intros Hwf Hi Hl Hj Hb. destruct (detach_range fs k j b i Hwf Hi Hl Hj Hb) as [Hr _].
  destruct (bitmap_clear_ok (fs_bitmap fs) (wf_bitmap _ Hwf) b) as (bm & Hc & Hbm & Hspec);
    [fs_unfold; lia|].
  unfold release_block. rewrite Hc. ostep. eexists _, _, _.
  split; [reflexivity|]. split; [by apply zset_ok; eapply zget_bound|].
  split; [exact (upd_inode_ok (add_free_blocks 1 (set_fs_bitmap bm fs)) k i _ Hi)|].
  split; [exact (detach_wf fs k j b i bm Hwf Hi Hl Hj Hb Hbm Hspec)|]. split; [split|].
  - intros k' Hne. exact (detach_kept fs k j b i bm Hi Hj k' Hne).
  - intros i0 Hi0. simplify_eq. eexists. split.
    { rewrite (detach_get fs k j i bm Hi), Z.eqb_refl. reflexivity. }
    done.
  - cbn. by rewrite length_insert.
  - done.
  - by rewrite (detach_get fs k j i bm Hi), Z.eqb_refl.
Qed.

Lemma unlink_direct_ok k n : ∀ fs j i,
  fs_wf fs → (fs_inodes fs).[k] = Some i → live i → 0 ≤ j → j + Z.of_nat n ≤ 12 →
  ∃ fs' i', unlink_direct fs k j n = Some fs' ∧ fs_wf fs' ∧ released k fs fs' ∧
    (fs_inodes fs').[k] = Some i' ∧
    ∀ x, (i_direct i').[x] =
      if (j <=? x) && (x <? j + Z.of_nat n) then Some IDKFS_NULL_BLOCK
      else (i_direct i).[x].
Proof.
  induction n as [|n IH]; intros fs j i Hwf Hi Hl Hj Hn; cbn [unlink_direct].
  { exists fs, i. split_and!; [done|exact Hwf|apply released_refl|exact Hi|].
    intros x. by zcases; try lia. }
  rewrite Hi. ostep.
  assert (length (i_direct i) = 12%nat) as Hlen
    by (apply Inode_valid_direct; by eapply wf_inode).
  destruct (zget_is_Some (i_direct i) j) as [b Hb]; [lia|]. rewrite Hb. ostep.
  destruct (Z.eqb_spec b IDKFS_NULL_BLOCK) as [->|Hne].
  - destruct (IH fs (j + 1) i Hwf Hi Hl) as (fs' & i' & Hu & Hwf' & Hr & Hi' & Hd); [lia|lia|].
    exists fs', i'. split_and!; [exact Hu|exact Hwf'|exact Hr|exact Hi'|].
    intros x. rewrite Hd. destruct (Z.eq_dec x j) as [->|].
    + rewrite Hb. by zcases; try lia.
    + by zcases; try lia.
  - destruct (unlink_direct_step fs k j i b Hwf Hi Hl Hb Hne)
      as (fs1 & d & fs2 & -> & -> & H2 & Hwf2 & Hr2 & Hi2). ostep. ostep. rewrite H2. ostep.
    destruct (IH fs2 (j + 1) _ Hwf2 Hi2 Hl) as (fs' & i' & Hu & Hwf' & Hr & Hi' & Hd);
      [lia|lia|].
    exists fs', i'. split_and!; [exact Hu|exact Hwf'|by eapply released_trans|exact Hi'|].
    intros x. rewrite Hd. cbn [set_i_direct i_direct]. destruct (Z.eq_dec x j) as [->|].
    + rewrite zget_insert_eq by lia. by zcases; try lia.
    + rewrite zget_insert_ne by lia. by zcases; try lia.
Qed.

(** All the blocks of a file are released: the file is empty afterwards. *)
Lemma unlink_blocks_ok fs k i :
  fs_inv fs → (fs_inodes fs).[k] = Some i → live i →
  ∃ fs' i', unlink_blocks fs k = Some fs' ∧ fs_inv fs' ∧ released k fs fs' ∧
    (fs_inodes fs').[k] = Some i' ∧ same_attr i i' ∧ i_size i' = 0 ∧
    (∀ j b, (i_direct i').[j] = Some b → b = IDKFS_NULL_BLOCK).
Proof.
  intros Hinv Hi Hl. pose proof (inv_wf _ Hinv) as Hwf. unfold unlink_blocks.
  destruct (unlink_direct_ok k (Z.to_nat IDKFS_DIRECT_BLOCKS) fs 0 i Hwf Hi Hl)
    as (fs1 & i1 & -> & Hwf1 & Hr1 & Hi1 & Hd1); [lia|fs_unfold; lia|]. ostep.
  destruct (rel_attr _ _ _ Hr1 i Hi) as (i1' & Hi1' & Ha1). rewrite Hi1 in Hi1'. injection Hi1' as <-.
  assert (live i1) as Hl1 by (unfold live, same_attr in *; intuition congruence).
  unfold unlink_indirect. rewrite Hi1. ostep.
  rewrite (wf_indirect _ Hwf1 k i1 Hi1 Hl1), Z.eqb_refl. ostep.
  pose proof (released_inv _ _ _ Hr1 Hwf1 Hinv) as Hinv1.
  assert (cvalid Inode_codec i1) as Hv by by eapply wf_inode.
  destruct (upd_attr_ok fs1 k i1 (λ i, set_i_block_count 0 (set_i_size 0 i)) Hinv1 Hi1)
    as (fs2 & -> & Hinv2 & Heq & Hg2 & Hb2); try done.
  { apply set_i_block_count_valid, set_i_size_valid; [lia|lia|done]. }
  exists fs2, (set_i_block_count 0 (set_i_size 0 i1)).
  assert (length (i_direct i1) = 12%nat) as Hlen by by apply Inode_valid_direct.
  split_and!; [done|exact Hinv2| |by rewrite Hg2, Z.eqb_refl|exact Ha1|done|].
  - eapply released_trans; [exact Hr1|]. split.
    + intros k' Hne. split; [rewrite Hg2; by zcase|by intros; rewrite Hb2].
    + intros i0 Hi0. simplify_eq. rewrite Hg2, Z.eqb_refl. by eexists.
    + rewrite Heq. cbn. by rewrite length_insert.
    + by rewrite Heq.
  - intros j b Hb. cbn [set_i_block_count set_i_size i_direct] in Hb.
    pose proof (zget_bound _ _ _ Hb). rewrite Hd1 in Hb. fs_unfold.
    zcases_in Hb; try lia. congruence.
Qed.
