(* ===== verification/Overrun.v ===== *)
(** * Unlinking a file beyond the direct blocks

    [fuse_unlink] gives back every pointer of the indirect block that is not
    [IDKFS_NULL_BLOCK].  The pointers never set are zero, so that it gives
    back block 0, the superblock, once for each of them. *)

From S2P Require Import Prelude Cint CString Codec Mem CoreTypes Crc Bitmap.
From S2P Require Import Core FileIO Dir Fs Mkfs Spec Persist Indirect Fuse.

(** The number of blocks among the pointers. *)
Definition pointed (ptrs : list Z) : Z :=
  Z.of_nat (length (filter (λ b, b ≠ IDKFS_NULL_BLOCK) ptrs)).

Definition ptr_ok (b : Z) : Prop := b = IDKFS_NULL_BLOCK ∨ block_range b.

Lemma pointed_cons b ptrs :
  pointed (b :: ptrs) = (if b =? IDKFS_NULL_BLOCK then 0 else 1) + pointed ptrs.
Proof. unfold pointed. rewrite filter_cons. case_decide; zcase; done || (cbn [length]; lia). Qed.

Lemma u32_add a b : u32 (u32 a + b) = u32 (a + b).
Proof. unfold u32. by rewrite Z.add_mod_idemp_l. Qed.

(** What releasing blocks changes. *)
Record freed (n : Z) (fs fs' : IDKFS) : Prop := {
  fr_bitmap : bitmap_ok (fs_bitmap fs) → bitmap_ok (fs_bitmap fs');
  fr_disk : fs_disk fs' = fs_disk fs;
  fr_count : u32 (sb_free_blocks (fs_sb fs')) = u32 (sb_free_blocks (fs_sb fs) + n);
  fr_used b : block_range b → used (fs_bitmap fs) b = false → used (fs_bitmap fs') b = false;
}.

Lemma freed_refl fs : freed 0 fs fs.
Proof. split; try done. by rewrite Z.add_0_r. Qed.

Lemma freed_trans n m fs1 fs2 fs3 : freed n fs1 fs2 → freed m fs2 fs3 → freed (n + m) fs1 fs3.
Proof.
  intros [Hb1 Hd1 Hc1 Hu1] [Hb2 Hd2 Hc2 Hu2]. split; [auto|congruence| |auto].
  rewrite Hc2, <- u32_add, Hc1, u32_add. f_equal. lia.
Qed.

Lemma freed_upd fs k f i :
  (fs_inodes fs).[k] = Some i →
  ∃ fs', upd_inode fs k f = Some fs' ∧ freed 0 fs fs' ∧ (fs_inodes fs').[k] = Some (f i).
Proof.
  intros Hi. rewrite (upd_inode_ok _ k i) by done. eexists. split; [done|]. split.
  - split; try done. cbn. by rewrite Z.add_0_r.
  - cbn. rewrite (inodes_insert fs k i) by done. by rewrite Z.eqb_refl.
Qed.

Lemma release_ok fs b :
  bitmap_ok (fs_bitmap fs) → block_range b →
  ∃ fs', release_block fs b = Some fs' ∧ freed 1 fs fs' ∧ fs_inodes fs' = fs_inodes fs ∧
    used (fs_bitmap fs') b = false.
Proof.
  intros Hok Hb. unfold release_block.
  destruct (bitmap_clear_ok (fs_bitmap fs) Hok b Hb) as (bm & -> & Hbm & Hu). ostep.
  eexists. split; [done|]. split; [split|split]; cbn; try done.
  - unfold u32. by rewrite Z.mod_mod.
  - intros b' Hb' Hf. rewrite Hu by done. by zcase.
  - rewrite Hu by done. by rewrite Z.eqb_refl.
Qed.

Lemma unlink_ptrs_frees ptrs : ∀ fs,
  bitmap_ok (fs_bitmap fs) → Forall ptr_ok ptrs →
  ∃ fs', unlink_ptrs fs ptrs = Some fs' ∧ freed (pointed ptrs) fs fs' ∧
    fs_inodes fs' = fs_inodes fs ∧
    ∀ b, b ∈ ptrs → b ≠ IDKFS_NULL_BLOCK → used (fs_bitmap fs') b = false.
Proof.
  induction ptrs as [|b ptrs IH]; intros fs Hok Hp; cbn [unlink_ptrs].
  { exists fs. split_and!; [done|apply freed_refl|done|]. by intros b Hb%not_elem_of_nil. }
  apply Forall_cons in Hp as [Hb Hp]. rewrite pointed_cons.
  destruct (Z.eqb_spec b IDKFS_NULL_BLOCK) as [->|Hne].
  - destruct (IH fs Hok Hp) as (fs' & -> & Hf & Hin & Hu). exists fs'. split_and!; [done..|].
    intros b [->|Hb']%elem_of_cons Hnn; [done|auto].
  - destruct Hb as [?|Hb]; [done|].
    destruct (release_ok fs b Hok Hb) as (fs1 & -> & Hf1 & Hin1 & Hu1). ostep.
    destruct (IH fs1 (fr_bitmap _ _ _ Hf1 Hok) Hp) as (fs' & -> & Hf & Hin & Hu).
    exists fs'. split_and!; [done|by eapply freed_trans|congruence|].
    intros b' [->|Hb']%elem_of_cons Hnn; [by apply (fr_used _ _ _ Hf)|auto].
Qed.

Lemma unlink_direct_frees k n : ∀ fs j i,
  bitmap_ok (fs_bitmap fs) → (fs_inodes fs).[k] = Some i → Forall ptr_ok (i_direct i) →
  0 ≤ j → j + Z.of_nat n ≤ Z.of_nat (length (i_direct i)) →
  ∃ fs' i', unlink_direct fs k j n = Some fs' ∧
    freed (pointed (take n (drop (Z.to_nat j) (i_direct i)))) fs fs' ∧
    (fs_inodes fs').[k] = Some i' ∧ i_indirect1 i' = i_indirect1 i.
Proof.
  induction n as [|n IH]; intros fs j i Hok Hi Hd Hj Hn; cbn [unlink_direct].
  { exists fs, i. split_and!; [done|apply freed_refl|done|done]. }
  rewrite Hi. ostep. destruct (zget_is_Some (i_direct i) j) as [b Hb]; [lia|]. rewrite Hb. ostep.
  pose proof (proj1 (zget_Some _ _ _) Hb) as [_ Hb']. rewrite (drop_S _ b) by done.
  cbn [take]. rewrite pointed_cons. replace (S (Z.to_nat j)) with (Z.to_nat (j + 1)) by lia.
  destruct (Z.eqb_spec b IDKFS_NULL_BLOCK) as [->|Hne].
  - destruct (IH fs (j + 1) i Hok Hi Hd) as (fs' & i' & -> & Hf & Hi' & Hib); [lia|lia|].
    by exists fs', i'.
  - assert (ptr_ok b) as [?|Hbr] by (by eapply Forall_lookup_1); [done|].
    destruct (release_ok fs b Hok Hbr) as (fs1 & -> & Hf1 & Hin1 & _). ostep.
    rewrite zset_ok by lia. ostep. set (d := <[_ := _]> (i_direct i)).
    assert ((fs_inodes fs1).[k] = Some i) as Hi1 by congruence.
    destruct (freed_upd fs1 k (set_i_direct d) i Hi1) as (fs2 & -> & Hf2 & Hi2). ostep.
    destruct (IH _ (j + 1) (set_i_direct d i)
      (fr_bitmap _ _ _ Hf2 (fr_bitmap _ _ _ Hf1 Hok)) Hi2)
      as (fs' & i' & -> & Hf & Hi' & Hib); cbn [set_i_direct i_direct] in *.
    + apply Forall_insert; [done|by left].
    + lia.
    + unfold d. rewrite length_insert. lia.
    + exists fs', i'. split; [done|]. split; [|done].
      unfold d in Hf. rewrite drop_insert_lt in Hf by lia.
      pose proof (freed_trans _ _ _ _ _ Hf1 (freed_trans _ _ _ _ _ Hf2 Hf)) as Hf3.
      by rewrite Z.add_0_l in Hf3.
Qed.

Lemma block_read_disk fs fs' b : fs_disk fs' = fs_disk fs → block_read fs' b = block_read fs b.
Proof. unfold block_read. by intros ->. Qed.

(** ** The pointers of a file with one block behind its indirect block *)

Lemma hollow_ptrs fs k ib nb dir buf :
  hollow_at fs k ib nb dir → block_range nb → block_read fs ib = Some buf →
  cdec ptrs_codec buf = nb :: replicate 1023 0.
Proof.
  intros [[_ Hr Hs Hz] _ _ Hf] Hnb Hread.
  destruct (block_read_ok fs ib) as (buf' & Hread' & Hl & Hg); [done|fs_unfold; lia|].
  rewrite Hread in Hread'. injection Hread' as <-.
  assert (buf = le_bytes 4 nb ++ replicate 4092 0) as ->.
  { apply zget_ext; [by rewrite length_app, le_bytes_length, length_replicate, Hl|]. intros x Hx.
    rewrite Hl in Hx. fs_unfold. rewrite Hg by lia. destruct (Z.lt_ge_cases x 4) as [Hx4|Hx4].
    - rewrite Hf by lia. by rewrite zget_app_l by (rewrite le_bytes_length; lia).
    - rewrite Hz by lia. rewrite zget_app_r, le_bytes_length by (rewrite le_bytes_length; lia).
      by rewrite (zget_replicate 4092) by lia. }
  rewrite <- first_ptr_bytes, <- (app_nil_r (cenc _ _)). apply cdec_enc.
  unfold ptrs_codec. cbn [cvalid c_vec c_le]. split; [done|].
  constructor; [unfold block_range in Hnb; fs_unfold; cbn; lia|].
  apply Forall_replicate. cbn. lia.
Qed.

Lemma pointed_zeros n : pointed (replicate n 0) = Z.of_nat n.
Proof. induction n as [|n IH]; [done|]. cbn [replicate]. rewrite pointed_cons, IH. cbn. lia. Qed.

Lemma unlink_hollow fs k ib nb dir :
  hollow_at fs k ib nb dir → DATA_START ≤ nb < IDKFS_TOTAL_BLOCKS → Forall ptr_ok dir →
  length dir = 12%nat →
  ∃ fs', unlink_blocks fs k = Some fs' ∧ used (fs_bitmap fs') 0 = false ∧
    freed (pointed dir + 1025) fs fs'.
Proof.
  intros Hh Hnb Hd Hlen. pose proof (ha_inode _ _ _ _ _ Hh) as (i & Hi & Hdir).
  destruct (ho_inode _ _ _ Hh) as (i' & Hi' & Hib & _). simplify_eq.
  unfold unlink_blocks, unlink_indirect.
  destruct (unlink_direct_frees k (Z.to_nat IDKFS_DIRECT_BLOCKS) fs 0 i (ha_bitmap _ _ _ _ _ Hh)
    Hi Hd) as (fs1 & i1 & -> & Hf1 & Hi1 & Hib1); [done|rewrite Hlen; fs_unfold; lia|]. ostep.
  change (drop (Z.to_nat 0) (i_direct i)) with (i_direct i) in Hf1.
  rewrite take_ge in Hf1 by (rewrite Hlen; fs_unfold; lia).
  rewrite Hi1. ostep. rewrite Hib1. pose proof (ho_range _ _ _ Hh) as Hr.
  rewrite (proj2 (Z.eqb_neq _ _)) by (fs_unfold; lia).
  pose proof (fr_bitmap _ _ _ Hf1 (ha_bitmap _ _ _ _ _ Hh)) as Hok1.
  destruct (block_read_ok fs (i_indirect1 i)) as (buf & Hread & _);
    [apply (ho_size _ _ _ Hh)|fs_unfold; lia|].
  rewrite (block_read_disk _ _ _ (fr_disk _ _ _ Hf1)), Hread. ostep.
  rewrite (hollow_ptrs fs k _ nb (i_direct i) buf Hh) by (fs_unfold; done || lia).
  destruct (unlink_ptrs_frees (nb :: replicate 1023 0) fs1 Hok1)
    as (fs2 & -> & Hf2 & Hin2 & Hu2).
  { constructor; [right; fs_unfold; lia|]. apply Forall_replicate. right. done. }
  ostep. destruct (release_ok fs2 (i_indirect1 i) (fr_bitmap _ _ _ Hf2 Hok1)) as (fs3 & -> & Hf3 & Hin3 & _);
    [fs_unfold; lia|]. ostep.
  assert ((fs_inodes fs3).[k] = Some i1) as Hi3 by congruence.
  destruct (freed_upd fs3 k (set_i_indirect1 IDKFS_NULL_BLOCK) i1 Hi3)
    as (fs4 & -> & Hf4 & Hi4). ostep.
  destruct (freed_upd fs4 k (λ i, set_i_block_count 0 (set_i_size 0 i)) _ Hi4)
    as (fs5 & -> & Hf5 & _).
  exists fs5. split; [done|]. pose proof (freed_trans _ _ _ _ _ Hf4 Hf5) as Hf45.
  split.
  - apply (fr_used _ _ _ Hf45); [done|]. apply (fr_used _ _ _ Hf3); [done|].
    apply Hu2; [right; cbn; left|done].
  - pose proof (freed_trans _ _ _ _ _ Hf1 (freed_trans _ _ _ _ _ Hf2
      (freed_trans _ _ _ _ _ Hf3 Hf45))) as Hall.
    rewrite pointed_cons, pointed_zeros in Hall.
    rewrite (proj2 (Z.eqb_neq _ _)) in Hall by (fs_unfold; lia). exact Hall.
Qed.

(** ** The property *)

(** C24: unlinking a file that has a block beyond the direct ones.  After a
    write to the thirteenth block of any file, releasing the blocks of the
    file marks block 0, the superblock, as free, and counts 1023 free blocks
    more than the file had. *)
Theorem unlink_frees_superblock fs k i buf now :
  fs_inv fs → (fs_inodes fs).[k] = Some i → live i → 0 < Z.of_nat (length buf) ≤ 4096 →
  ∃ fs1 fs2, idkfs_write fs k buf (12 * 4096) now = Some (fs1, Z.of_nat (length buf)) ∧
    unlink_blocks fs1 k = Some fs2 ∧ bitmap_test (fs_bitmap fs2) 0 = Some false ∧
    u32 (sb_free_blocks (fs_sb fs2)) =
      u32 (sb_free_blocks (fs_sb fs1) + (pointed (i_direct i) + 2) + 1023).
Proof.
  intros Hinv Hi Hl Hb. pose proof (inv_wf _ Hinv) as Hwf.
  destruct (first_indirect_write fs k i buf now Hwf Hi Hl Hb) as (fs1 & ib & nb & Hw & Hh & Hnb).
  assert (cvalid Inode_codec i) as Hv by by eapply wf_inode.
  assert (Forall ptr_ok (i_direct i)) as Hd.
  { apply Forall_lookup. intros x b Hx. unfold ptr_ok.
    destruct (Z.eq_dec b IDKFS_NULL_BLOCK) as [|Hne]; [by left|right].
    destruct (wf_owned _ Hwf k (Z.of_nat x) b) as [Hr _]; [|fs_unfold; lia].
    split; [by exists i|]. apply fblock_Some. exists i. split_and!; try done.
    apply zget_Some. rewrite Nat2Z.id. split; [lia|done]. }
  destruct (unlink_hollow fs1 k ib nb (i_direct i) Hh Hnb Hd) as (fs2 & Hu & H0 & Hf);
    [by apply Inode_valid_direct|].
  exists fs1, fs2. split_and!; [done|done| |].
  - rewrite (bitmap_test_used _ (fr_bitmap _ _ _ Hf (ha_bitmap _ _ _ _ _ Hh)) 0) by done. by rewrite H0.
  - rewrite (fr_count _ _ _ Hf). f_equal. lia.
Qed.

Lemma unlink_frees_superblock_witness :
  ∃ fs i fs1 fs2, (fs_inodes fs).[0] = Some i ∧ idkfs_write fs 0 [1] (12 * 4096) 5 = Some (fs1, 1) ∧
    unlink_blocks fs1 0 = Some fs2 ∧ bitmap_test (fs_bitmap fs2) 0 = Some false.
Proof.
  destruct demo_fs as (fs & _ & Hf & _). destruct (formatted_root_live _ Hf) as (i & Hi & Hl).
  destruct (unlink_frees_superblock fs 0 i [1] 5 (fmt_inv _ Hf) Hi Hl)
    as (fs1 & fs2 & H1 & H2 & H3 & _); [cbn; lia|].
  exists fs, i, fs1, fs2. split_and!; [exact Hi|exact H1|exact H2|exact H3].
Defined.
