(* ===== verification/Tree.v ===== *)
(** * The name space the FUSE handlers implement

    The abstract name space maps directory inodes to abstract directories.
    [tree fs t] says that the state [fs] holds the name space [t]; the
    theorems show that path resolution walks [t] and that creation, [mkdir]
    and [unlink] update it, for both front ends ([sync_ok]). *)

From S2P Require Import Prelude Cint CString Codec Mem CoreTypes Crc Bitmap.
From S2P Require Import Core FileIO Dir Fs Mkfs Spec Persist Fuse.

(** A listing shows an entry of the name space under its whole name, as a
    directory exactly if it is one. *)
Definition entry_ok (t : gmap Z adir) (e : DirEntry) : Prop :=
  entry_full e ∧
  e_type e = ft_val (if t !! e_inode e is Some _ then IDKFS_FT_DIR else IDKFS_FT_FILE).

(** Inode [k] holds directory [l] of the name space [t]. *)
Definition dir_node (fs : IDKFS) (t : gmap Z adir) (k : Z) (l : adir) : Prop :=
  ∃ d, dir_is fs k d ∧ abs_dir d = l ∧ Forall (entry_ok t) (d_list d).

Record tree (fs : IDKFS) (t : gmap Z adir) : Prop := {
  tr_root : is_Some (t !! 0);
  tr_dir k l : t !! k = Some l → dir_node fs t k l ∧ type_at fs k = ft_val IDKFS_FT_DIR;
  (** an entry names a live inode, a directory of [t] or no directory *)
  tr_entry k l n i : t !! k = Some l → (n, i) ∈ l →
    live_at fs i ∧ (t !! i = None → type_at fs i ≠ ft_val IDKFS_FT_DIR);
  (** a file has one entry *)
  tr_once k l x n k' l' x' n' i :
    t !! k = Some l → l !! x = Some (n, i) → t !! k' = Some l' → l' !! x' = Some (n', i) →
    t !! i = None → k = k' ∧ x = x';
}.

(** Walking the name space. *)
Fixpoint awalk (t : gmap Z adir) (cur : Z) (toks : list (list Z)) : Z :=
  match toks with
  | [] => cur
  | tok :: toks =>
      match t !! cur with
      | None => - ENOTDIR
      | Some l =>
          match adir_lookup tok l with
          | None => - ENOENT
          | Some i => awalk t i toks
          end
      end
  end.

Definition aresolve (t : gmap Z adir) (path : list Z) : Z :=
  awalk t 0 (path_tokens (path_copy path)).

Definition aresolve_parent (t : gmap Z adir) (path : list Z) : Z + Z * list Z :=
  match strrchr_slash (path_copy path) with
  | None => inl (- ENOENT)
  | Some (pre, post) =>
      let name := take (Z.to_nat IDKFS_MAX_FILENAME) post in
      let p := aresolve t pre in
      if p <? 0 then inl p else inr (p, name)
  end.

(** ** Operations that change no file *)

Definition quiet (fs fs' : IDKFS) : Prop :=
  ∀ k, live_at fs k →
    live_at fs' k ∧ same_file fs fs' k ∧ type_at fs' k = type_at fs k ∧
    link_count_at fs' k = link_count_at fs k.

Lemma quiet_refl fs : quiet fs fs.
Proof. intros k Hl. by split. Qed.

Lemma quiet_trans fs1 fs2 fs3 : quiet fs1 fs2 → quiet fs2 fs3 → quiet fs1 fs3.
Proof.
  intros H12 H23 k Hl. destruct (H12 k Hl) as (Hl2 & [Hb Hs] & Ht & Hc).
  destruct (H23 k Hl2) as (Hl3 & [Hb' Hs'] & Ht' & Hc'). split; [done|].
  split; [|split; congruence].
  split; [intros p; by rewrite Hb', Hb|congruence].
Qed.

Lemma kept_same k fs fs' : kept k fs fs' → same_file fs fs' k.
Proof. intros [Hi Hb]. split; [done|]. unfold size_at. by rewrite Hi. Qed.

Lemma modifies_quiet k fs fs' : modifies k fs fs' → same_file fs fs' k → quiet fs fs'.
Proof.
  intros Hm Hs k' Hl. split; [by eapply modifies_live|].
  split; [|split; [by eapply modifies_type|by eapply modifies_link_count]]. destruct (Z.eq_dec k' k) as [->|Hne]; [done|].
  by apply kept_same, (others_kept_modifies _ _ _ Hm).
Qed.

Lemma kept_quiet fs fs' : (∀ k, live_at fs k → kept k fs fs') → quiet fs fs'.
Proof.
  intros H k Hl. specialize (H k Hl).
  split; [by eapply kept_live|]. split; [by apply kept_same|].
  split; [by apply kept_type|]. destruct H as [Hi _]. unfold link_count_at. by rewrite Hi.
Qed.

(** What walking a path changes: access times. *)
Record calm (fs fs' : IDKFS) : Prop := {
  calm_quiet :> quiet fs fs';
  calm_free : same_free fs fs';
}.

Lemma calm_refl fs : calm fs fs.
Proof. split; [apply quiet_refl|done]. Qed.

Lemma calm_trans fs1 fs2 fs3 : calm fs1 fs2 → calm fs2 fs3 → calm fs1 fs3.
Proof.
  intros [Q1 F1] [Q2 F2]. split; [by eapply quiet_trans|]. intros k. by rewrite F2, F1.
Qed.

Lemma modifies_calm k fs fs' : modifies k fs fs' → same_file fs fs' k → calm fs fs'.
Proof.
  intros Hm Hs. split; [by eapply modifies_quiet|]. intros k'. by eapply modifies_ino_free.
Qed.

Lemma dir_node_rep fs t k l : dir_node fs t k l → dir_rep fs k l.
Proof. intros (d & Hd & Hl & _). by exists d. Qed.

Lemma dir_node_live fs t k l : dir_node fs t k l → live_at fs k.
Proof. by intros (d & [Hl _] & _). Qed.

(** The directory stays, and the entries name directories as before. *)
Lemma dir_node_weaken fs fs' t t' k l :
  (∀ d, dir_is fs k d → dir_is fs' k d) →
  (∀ n i, (n, i) ∈ l → t !! i = None ↔ t' !! i = None) →
  dir_node fs t k l → dir_node fs' t' k l.
Proof.
  intros Hd Hdom (d & Hk & <- & Hall). exists d. split; [by apply Hd|]. split; [done|].
  apply Forall_forall. intros e He. rewrite Forall_forall in Hall.
  destruct (Hall e He) as [Hf Ht]. split; [done|]. rewrite Ht.
  assert (abs_entry e ∈ abs_dir d) as Hin by by apply list_elem_of_fmap_2.
  specialize (Hdom _ _ Hin). destruct (t !! e_inode e), (t' !! e_inode e); intuition congruence.
Qed.

Lemma dir_node_quiet fs fs' t k l : quiet fs fs' → dir_node fs t k l → dir_node fs' t k l.
Proof.
  intros Hq. apply dir_node_weaken; [|done]. intros d Hd. pose proof Hd as [Hl _].
  destruct (Hq k Hl) as (Hl' & Hs & _). by eapply dir_is_same.
Qed.

Lemma dir_node_kept fs fs' t k l : kept k fs fs' → dir_node fs t k l → dir_node fs' t k l.
Proof. intros Hk. apply dir_node_weaken; [|done]. intros d. by apply kept_dir. Qed.

(** Appending an entry. *)
Lemma dir_node_append fs t t' k d e name ino :
  dir_ok d → d_count d < 128 → cvalid DirEntry_codec e → named name e → e_inode e = ino →
  dir_is fs k (dir_append d e) → Forall (entry_ok t) (d_list d) → entry_ok t' e →
  (∀ n i, (n, i) ∈ abs_dir d → t !! i = None ↔ t' !! i = None) →
  dir_node fs t' k (abs_dir d ++ [(name_key name, ino)]).
Proof.
  intros Hok Hc Hv Hn Hi Hd Hall He Hdom.
  destruct (dir_append_ok d e Hok Hc Hv) as [_ Hl].
  exists (dir_append d e). split; [exact Hd|]. split.
  { rewrite abs_dir_append by done. unfold abs_entry. by rewrite Hn, Hi. }
  rewrite Hl. apply Forall_app. split; [|by constructor].
  apply Forall_forall. intros x Hx. rewrite Forall_forall in Hall.
  destruct (Hall x Hx) as [Hf Ht]. split; [done|]. rewrite Ht.
  specialize (Hdom _ _ (list_elem_of_fmap_2 abs_entry _ _ Hx)).
  destruct (t !! e_inode x), (t' !! e_inode x); intuition congruence.
Qed.

(** A directory holding ["."] and [".."]. *)
Lemma dots_node fs t k p d e1 e2 :
  dir_is fs k d → d_list d = [e1; e2] → named DOT e1 → named DOTDOT e2 →
  e_inode e1 = k → e_inode e2 = p →
  entry_as IDKFS_FT_DIR DOT e1 → entry_as IDKFS_FT_DIR DOTDOT e2 →
  is_Some (t !! k) → is_Some (t !! p) → dir_node fs t k [(DOT, k); (DOTDOT, p)].
Proof.
  intros Hd Hl Hn1 Hn2 Hi1 Hi2 [Ty1 F1] [Ty2 F2] [lk Hk] [lp Hp].
  exists d. split; [exact Hd|]. split.
  - unfold abs_dir. rewrite Hl. cbn. unfold abs_entry. by rewrite Hn1, Hn2, Hi1, Hi2.
  - rewrite Hl. repeat constructor; [apply F1; cbn; lia|by rewrite Hi1, Hk|
      apply F2; cbn; lia|by rewrite Hi2, Hp].
Qed.

(** Replacing the list of a directory keeps the set of directories. *)
Lemma insert_dom (t : gmap Z adir) p (l x : adir) i :
  t !! p = Some l → t !! i = None ↔ <[p := x]> t !! i = None.
Proof.
  intros Hp. rewrite lookup_insert_None. split; [|tauto].
  intros Hi. split; [done|]. congruence.
Qed.

Lemma tree_quiet fs fs' t : quiet fs fs' → tree fs t → tree fs' t.
Proof.
  intros Hq [Hr Hd He Ho]. split; [done| | |exact Ho].
  - intros k l Hk. destruct (Hd k l Hk) as [Hrep Ht]. split; [by eapply dir_node_quiet|].
    destruct (Hq k) as (_ & _ & -> & _); [by eapply dir_node_live|done].
  - intros k l n i Hk Hin. destruct (He k l n i Hk Hin) as [Hl Ht].
    destruct (Hq i Hl) as (Hl' & _ & -> & _). done.
Qed.

(** The weakest condition: directories and types are kept. *)
Lemma tree_weaken fs fs' t :
  tree fs t → (∀ k l, t !! k = Some l → dir_node fs' t k l) →
  (∀ k, live_at fs k → live_at fs' k ∧ type_at fs' k = type_at fs k) → tree fs' t.
Proof.
  intros [Hr Hd He Ho] Hrep Hl. split; [done| | |exact Ho].
  - intros k l Hk. destruct (Hd k l Hk) as [Hk' Ht]. split; [by apply Hrep|].
    destruct (Hl k) as [_ ->]; [by eapply dir_node_live|done].
  - intros k l n i Hk Hin. destruct (He k l n i Hk Hin) as [Hi Ht].
    by destruct (Hl i Hi) as [? ->].
Qed.

Lemma tree_others_kept fs fs' t p l :
  tree fs t → t !! p = Some l → others_kept p fs fs' → dir_node fs' t p l →
  type_at fs' p = type_at fs p → tree fs' t.
Proof.
  intros Ht Hp Hk Hrep Hty. apply (tree_weaken fs); [exact Ht| |].
  - intros k m Hm. destruct (Z.eq_dec k p) as [->|Hne]; [congruence|].
    destruct (tr_dir _ _ Ht k m Hm) as [Hr _].
    eapply dir_node_kept; [|exact Hr]. apply Hk; [done|by eapply dir_node_live].
  - intros k Hl. destruct (Z.eq_dec k p) as [->|Hne].
    + split; [by eapply dir_node_live|done].
    + pose proof (Hk k Hne Hl) as Hkk. split; [by eapply kept_live|by apply kept_type].
Qed.

(** ** Path resolution *)

Lemma live_range fs k : fs_wf fs → live_at fs k → 0 ≤ k < IDKFS_MAX_INODES.
Proof.
  intros Hwf (i & Hi%zget_bound & _). by rewrite (wf_ninodes _ Hwf) in Hi.
Qed.

Lemma adir_lookup_in name l i : adir_lookup name l = Some i → (name_key name, i) ∈ l.
Proof.
  induction l as [|[n x] l IH]; cbn; [done|]. case_decide as E.
  - intros [= ->]. rewrite <- E. left.
  - intros H. right. auto.
Qed.

(** A node of the name space: a directory of [t] or a live non-directory. *)
Definition node (fs : IDKFS) (t : gmap Z adir) (k : Z) : Prop :=
  live_at fs k ∧ (t !! k = None → type_at fs k ≠ ft_val IDKFS_FT_DIR).

Lemma node_quiet fs fs' t k : quiet fs fs' → node fs t k → node fs' t k.
Proof. intros Hq [Hl Ht]. destruct (Hq k Hl) as (Hl' & _ & E & _). split; [done|by rewrite E]. Qed.

Lemma node_root fs t : tree fs t → node fs t 0.
Proof.
  intros Ht. destruct (tr_root _ _ Ht) as [l Hl]. destruct (tr_dir _ _ Ht 0 l Hl) as [Hr _].
  split; [by eapply dir_node_live|]. congruence.
Qed.

Lemma resolve_tokens_ok t now toks : ∀ fs cur,
  fs_inv fs → tree fs t → node fs t cur → Forall cstring toks →
  ∃ fs', resolve_tokens fs cur toks now = Some (fs', awalk t cur toks) ∧
    fs_inv fs' ∧ calm fs fs' ∧
    (0 ≤ awalk t cur toks → node fs' t (awalk t cur toks)).
Proof.
  induction toks as [|tok toks IH]; intros fs cur Hinv Ht Hn Htoks; cbn [resolve_tokens awalk].
  { exists fs. pose proof (live_range _ _ (inv_wf _ Hinv) (proj1 Hn)) as Hr.
    rewrite i32_small by (fs_unfold; lia).
    split_and!; [done|exact Hinv|apply calm_refl|by intros]. }
  apply Forall_cons in Htoks as [Htok Htoks]. destruct Hn as [(i & Hi & Hl) Htype].
  rewrite Hi. ostep. assert (type_at fs cur = i_type i) as Hty by (unfold type_at; by rewrite Hi).
  destruct (t !! cur) as [l|] eqn:Hcur.
  2: { rewrite Hty in Htype. destruct (Z.eqb_spec (i_type i) (ft_val IDKFS_FT_DIR)) as [E|E];
         [by destruct Htype|]. cbn [negb]. exists fs.
       split_and!; [done|exact Hinv|apply calm_refl|unfold ENOTDIR; lia]. }
  destruct (tr_dir _ _ Ht _ _ Hcur) as [(d & Hd & <- & _) Htd]. rewrite <- Hty, Htd, Z.eqb_refl.
  cbn [negb].
  destruct (idkfs_dir_lookup_ok fs cur d tok now (inv_wf _ Hinv) Hd Htok)
    as (fs1 & -> & Hwf1 & Hm & Hd1 & Hs). ostep.
  pose proof (modifies_calm _ _ _ Hm Hs) as Hq.
  pose proof (fs_inv_modifies _ _ _ Hm Hwf1 Hinv) as Hinv1.
  assert (adir_lookup tok (abs_dir d) = e_inode ∘ snd <$> list_lookup_name tok (d_list d)) as E
    by apply adir_lookup_abs.
  destruct (list_lookup_name tok (d_list d)) as [[x e]|]; cbn in E; rewrite E.
  2: { exists fs1. split_and!; [done|exact Hinv1|exact Hq|unfold ENOENT; lia]. }
  pose proof (tr_entry _ _ Ht _ _ _ _ Hcur (adir_lookup_in _ _ _ E)) as Hnode.
  pose proof (live_range _ _ (inv_wf _ Hinv) (proj1 Hnode)) as Hr.
  rewrite i32_small by (fs_unfold; lia). zcase; [lia|].
  rewrite u32_small by (fs_unfold; lia).
  destruct (IH fs1 (e_inode e) Hinv1 (tree_quiet _ _ _ Hq Ht) (node_quiet _ _ _ _ Hq Hnode) Htoks)
    as (fs' & Hres & Hinv' & Hq' & Hn').
  exists fs'. split_and!; [exact Hres|exact Hinv'|by eapply calm_trans|exact Hn'].
Qed.

Lemma strtok_slash_cstring s cur :
  cstring s → cstring cur → Forall cstring (strtok_slash s cur).
Proof.
  intros Hs. revert cur. induction Hs as [|c s Hc Hs IH]; intros cur Hcur; cbn [strtok_slash].
  - destruct cur as [|a cur]; [done|]. constructor; [by apply Forall_reverse|done].
  - zcase.
    + assert (Forall cstring (strtok_slash s [])) by (apply IH; constructor).
      destruct cur as [|a cur]; [done|]. constructor; [by apply Forall_reverse|done].
    + apply IH. by constructor.
Qed.

Lemma path_tokens_cstring path : cstring path → Forall cstring (path_tokens (path_copy path)).
Proof. intros Hp. apply strtok_slash_cstring; [by apply Forall_take|constructor]. Qed.

Lemma strncmp_eq a b n :
  cstring a → cstring b → (length a < n)%nat → (length b < n)%nat →
  strncmp a b n = 0 ↔ a = b.
Proof.
  revert a b. induction n as [|n IH]; intros a b Ha Hb; [cbn; lia|].
  destruct Ha as [|x a Hx Ha], Hb as [|y b Hy Hb]; cbn [strncmp List.hd tail length]; intros H1 H2.
  - done.
  - zcase; [lia|]. split; [lia|done].
  - zcase; [lia|]. split; [lia|done].
  - zcase; [|split; [lia|intros [=]; lia]]. subst. zcase; [lia|].
    rewrite IH by (done || lia). split; [by intros ->|by intros [=]].
Qed.

Lemma strcmp_eq a b : cstring a → cstring b → strcmp a b = 0 ↔ a = b.
Proof. intros Ha Hb. apply strncmp_eq; [done|done|lia|lia]. Qed.

Lemma resolve_path_ok fs t path now :
  fs_inv fs → tree fs t → cstring path →
  ∃ fs', resolve_path fs path now = Some (fs', aresolve t path) ∧
    fs_inv fs' ∧ calm fs fs' ∧ (0 ≤ aresolve t path → node fs' t (aresolve t path)).
Proof.
  intros Hinv Ht Hp. unfold resolve_path. pose proof (node_root _ _ Ht) as Hroot.
  destruct (Z.eqb_spec (strcmp path [SLASH]) 0) as [E|E].
  - apply strcmp_eq in E as ->; [|done|by repeat constructor].
    exists fs. split_and!; [done|exact Hinv|apply calm_refl|by intros].
  - apply resolve_tokens_ok; [exact Hinv|exact Ht|exact Hroot|by apply path_tokens_cstring].
Qed.

Lemma strrchr_slash_parts s pre post :
  strrchr_slash s = Some (pre, post) → s = pre ++ SLASH :: post.
Proof.
  revert pre. induction s as [|c s IH]; intros pre; cbn; [done|].
  destruct (strrchr_slash s) as [[pre' post']|].
  - intros [= <- <-]. cbn. f_equal. by apply IH.
  - zcase; [|done]. intros [= <- <-]. by subst.
Qed.

Lemma resolve_parent_ok fs t path now :
  fs_inv fs → tree fs t → cstring path →
  ∃ fs', resolve_parent fs path now = Some (fs', aresolve_parent t path) ∧
    fs_inv fs' ∧ calm fs fs' ∧
    (∀ p name, aresolve_parent t path = inr (p, name) →
       node fs' t p ∧ cstring name ∧ (length name ≤ 255)%nat).
Proof.
  intros Hinv Ht Hp. unfold resolve_parent, aresolve_parent.
  destruct (strrchr_slash (path_copy path)) as [[pre post]|] eqn:E.
  2: { exists fs. split_and!; [done|exact Hinv|apply calm_refl|done]. }
  apply strrchr_slash_parts in E.
  assert (cstring (pre ++ SLASH :: post)) as Hc by (rewrite <- E; by apply Forall_take).
  apply Forall_app in Hc as [Hpre Hpost]. apply Forall_cons in Hpost as [_ Hpost].
  assert (cstring (take (Z.to_nat IDKFS_MAX_FILENAME) post)) as Hname by by apply Forall_take.
  assert (length (take (Z.to_nat IDKFS_MAX_FILENAME) post) ≤ 255)%nat as Hlen.
  { change (Z.to_nat IDKFS_MAX_FILENAME) with 255%nat. len. }
  destruct (bool_decide (pre = [])) eqn:Eb.
  - apply bool_decide_eq_true in Eb as ->. exists fs.
    split_and!; [done|exact Hinv|apply calm_refl|].
    intros p name [= <- <-]. split; [by apply node_root|by split].
  - destruct (resolve_path_ok fs t pre now Hinv Ht Hpre) as (fs' & -> & Hinv' & Hq & Hn).
    ostep. destruct (Z.ltb_spec (aresolve t pre) 0) as [Hneg|Hpos].
    { exists fs'. split_and!; [done|exact Hinv'|exact Hq|done]. }
    specialize (Hn Hpos). pose proof (live_range _ _ (inv_wf _ Hinv') (proj1 Hn)) as Hr.
    rewrite u32_small by (fs_unfold; lia). exists fs'.
    split_and!; [done|exact Hinv'|exact Hq|]. intros p name [= <- <-]. by split_and!.
Qed.

(** ** Updating the name space *)

Lemma tree_dead_notin fs t k : tree fs t → ¬ live_at fs k → t !! k = None.
Proof.
  intros Ht Hd. destruct (t !! k) as [l|] eqn:E; [|done].
  destruct (tr_dir _ _ Ht _ _ E) as [Hr _]. by destruct Hd; eapply dir_node_live.
Qed.

Lemma tree_entry_live fs t k l x n i :
  tree fs t → t !! k = Some l → l !! x = Some (n, i) → live_at fs i.
Proof.
  intros Ht Hk Hx. eapply (tr_entry _ _ Ht k l n i Hk). by eapply list_elem_of_lookup_2.
Qed.

Lemma lookup_snoc_cases {A} (l : list A) y x z :
  (l ++ [y]) !! x = Some z → l !! x = Some z ∨ (x = length l ∧ z = y).
Proof.
  intros H. destruct (decide (x < length l)%nat).
  - left. by rewrite lookup_app_l in H.
  - right. rewrite lookup_app_r in H by lia. apply list_lookup_singleton_Some in H as [? ->].
    split; [lia|done].
Qed.

(** Outside [p] and [r] nothing changed, [r] was dead. *)
Section add_entry.
Context (fs fs' : IDKFS) (t : gmap Z adir) (p r : Z) (l : adir) (n : list Z).
Context (Ht : tree fs t) (Hp : t !! p = Some l) (Hk : others_kept p fs fs')
  (Hdead : ¬ live_at fs r) (Hlive : live_at fs' r)
  (Hrep : dir_node fs' (<[p := l ++ [(n, r)]]> t) p (l ++ [(n, r)])) (Htp : type_at fs' p = ft_val IDKFS_FT_DIR).

Lemma add_entry_node k : node fs t k → node fs' t k.
Proof using Ht Hp Hk Htp Hrep.
  intros [Hl Hty]. destruct (Z.eq_dec k p) as [->|Hne].
  - split; [by eapply dir_node_live|]. congruence.
  - pose proof (Hk k Hne Hl) as Hkept. split; [by eapply kept_live|].
    by rewrite (kept_type _ _ _ Hkept).
Qed.

Lemma add_entry_dirs k m :
  t !! k = Some m → k ≠ p →
  dir_node fs' (<[p := l ++ [(n, r)]]> t) k m ∧ type_at fs' k = ft_val IDKFS_FT_DIR.
Proof using Ht Hk Hp.
  intros Hm Hne. destruct (tr_dir _ _ Ht k m Hm) as [Hr Hty].
  pose proof (Hk k Hne (dir_node_live _ _ _ _ Hr)) as Hkept.
  split; [|by rewrite (kept_type _ _ _ Hkept)].
  eapply dir_node_weaken; [|by intros; apply insert_dom with l|exact Hr].
  intros d. by apply kept_dir.
Qed.

Lemma add_entry_fresh k m x n' : t !! k = Some m → m !! x = Some (n', r) → False.
Proof using Ht Hdead. intros Hm Hx. by eapply Hdead, tree_entry_live. Qed.

(** The new entry names a file. *)
Lemma tree_add_file :
  type_at fs' r ≠ ft_val IDKFS_FT_DIR → tree fs' (<[p := l ++ [(n, r)]]> t).
Proof using All.
  intros Htr. assert (Hnone : ∀ i, <[p := l ++ [(n, r)]]> t !! i = None → t !! i = None).
  { intros i [Hi _]%lookup_insert_None. done. }
  split.
  - destruct (tr_root _ _ Ht) as [m Hm]. destruct (Z.eq_dec p 0) as [->|].
    + rewrite lookup_insert_eq. eauto.
    + rewrite lookup_insert_ne by done. eauto.
  - intros k m [[<- <-]|[Hne Hm]]%lookup_insert_Some; [done|]. by apply add_entry_dirs.
  - intros k m n' i Hm Hin. assert (i = r ∨ node fs' t i) as [->|[Hl Hty]].
    { apply lookup_insert_Some in Hm as [[<- <-]|[Hne Hm]].
      - apply elem_of_app in Hin as [Hin|Hin%list_elem_of_singleton]; [right|left; congruence].
        by eapply add_entry_node, (tr_entry _ _ Ht).
      - right. by eapply add_entry_node, (tr_entry _ _ Ht). }
    + done.
    + split; [exact Hl|]. auto.
  - intros k m x n1 k' m' x' n2 i Hm Hx Hm' Hx' Hi%Hnone.
    apply lookup_insert_Some in Hm as [[<- <-]|[Hne Hm]];
      apply lookup_insert_Some in Hm' as [[<- <-]|[Hne' Hm']].
    + apply lookup_snoc_cases in Hx as [Hx|[-> ?]];
        apply lookup_snoc_cases in Hx' as [Hx'|[-> ?]]; simplify_eq; try done.
      * by eapply (tr_once _ _ Ht).
      * by edestruct add_entry_fresh.
      * by edestruct add_entry_fresh.
    + apply lookup_snoc_cases in Hx as [Hx|[-> ?]]; simplify_eq.
      * by eapply (tr_once _ _ Ht).
      * by edestruct add_entry_fresh.
    + apply lookup_snoc_cases in Hx' as [Hx'|[-> ?]]; simplify_eq.
      * by eapply (tr_once _ _ Ht).
      * by edestruct add_entry_fresh.
    + by eapply (tr_once _ _ Ht).
Qed.
End add_entry.

Lemma adir_remove_delete name l i :
  adir_lookup name l = Some i →
  ∃ x, l !! x = Some (name_key name, i) ∧ adir_remove name l = delete x l.
Proof.
  induction l as [|[n y] l IH]; cbn; [done|]. case_decide as E.
  - intros [= ->]. exists 0%nat. by rewrite E.
  - intros H. destruct (IH H) as (x & Hx & ->). by exists (S x).
Qed.

Lemma lookup_delete_index {A} (l : list A) x :
  ∃ f : nat → nat, (∀ y, delete x l !! y = l !! f y) ∧
    (∀ y, f y ≠ x) ∧ (∀ y y', f y = f y' → y = y').
Proof.
  exists (λ y, if decide (y < x)%nat then y else S y). split_and!.
  - intros y. case_decide; [by apply list_lookup_delete_lt|].
    apply list_lookup_delete_ge. lia.
  - intros y. case_decide; lia.
  - intros y y'. repeat case_decide; lia.
Qed.

(** Removing the entry of file [i] from [p]; only [p] and [i] changed. *)
Lemma tree_remove_file fs fs' t p l name i :
  tree fs t → t !! p = Some l → adir_lookup name l = Some i → t !! i = None →
  (∀ k, k ≠ p → k ≠ i → live_at fs k → kept k fs fs') →
  dir_node fs' (<[p := adir_remove name l]> t) p (adir_remove name l) → type_at fs' p = ft_val IDKFS_FT_DIR →
  tree fs' (<[p := adir_remove name l]> t).
Proof.
  intros Ht Hp Hlk Hi Hk Hrep Htp.
  destruct (adir_remove_delete name l i Hlk) as (x0 & Hx0 & Hrem). rewrite Hrem in *.
  destruct (lookup_delete_index l x0) as (f & Hf & Hfne & Hfinj).
  assert (Hnone : ∀ k, <[p := delete x0 l]> t !! k = None → t !! k = None).
  { intros k [Hn _]%lookup_insert_None. done. }
  (* every entry of the new name space is an old one, but the removed one *)
  assert (∀ k m x n y, <[p := delete x0 l]> t !! k = Some m → m !! x = Some (n, y) →
    ∃ m0 x1, t !! k = Some m0 ∧ m0 !! x1 = Some (n, y) ∧ (k = p → m0 = l ∧ x1 = f x) ∧
      (k ≠ p → x1 = x)) as Hold.
  { intros k m x n y Hm Hx. apply lookup_insert_Some in Hm as [[<- <-]|[Hne Hm]].
    - exists l, (f x). by rewrite <- Hf.
    - exists m, x. split_and!; [done|done|congruence|done]. }
  split.
  - destruct (tr_root _ _ Ht) as [m Hm]. destruct (Z.eq_dec p 0) as [->|].
    + rewrite lookup_insert_eq. eauto.
    + rewrite lookup_insert_ne by done. eauto.
  - intros k m [[<- <-]|[Hne Hm]]%lookup_insert_Some; [done|].
    destruct (tr_dir _ _ Ht k m Hm) as [Hr Hty].
    assert (k ≠ i) as Hki by congruence.
    pose proof (Hk k ltac:(congruence) Hki (dir_node_live _ _ _ _ Hr)) as Hkept.
    split; [|by rewrite (kept_type _ _ _ Hkept)].
    eapply dir_node_weaken; [|by intros; apply insert_dom with l|exact Hr].
    intros d. by apply kept_dir.
  - intros k m n y Hm [x Hx]%list_elem_of_lookup.
    destruct (Hold k m x n y Hm Hx) as (m0 & x1 & Hm0 & Hx1 & Hkp & Hknp).
    destruct (tr_entry _ _ Ht k m0 n y Hm0) as [Hl Hty]; [by eapply list_elem_of_lookup_2|].
    assert (y ≠ i) as Hyi.
    { intros ->. destruct (tr_once _ _ Ht _ _ _ _ _ _ _ _ _ Hm0 Hx1 Hp Hx0 Hi) as [-> ->].
      destruct (Hkp eq_refl) as [_ Hf0]. by apply (Hfne x). }
    destruct (Z.eq_dec y p) as [->|Hyp].
    + split; [by eapply dir_node_live|]. by rewrite lookup_insert_eq.
    + pose proof (Hk y Hyp Hyi Hl) as Hkept. split; [by eapply kept_live|].
      intros Hn%Hnone. rewrite (kept_type _ _ _ Hkept). auto.
  - intros k m x n k' m' x' n' y Hm Hx Hm' Hx' Hy%Hnone.
    destruct (Hold k m x n y Hm Hx) as (m0 & x1 & Hm0 & Hx1 & Hkp & Hknp).
    destruct (Hold k' m' x' n' y Hm' Hx') as (m0' & x1' & Hm0' & Hx1' & Hkp' & Hknp').
    destruct (tr_once _ _ Ht _ _ _ _ _ _ _ _ _ Hm0 Hx1 Hm0' Hx1' Hy) as [-> ->].
    split; [done|]. destruct (Z.eq_dec k' p) as [->|Hne].
    + destruct (Hkp eq_refl) as [_ E1], (Hkp' eq_refl) as [_ E2].
      apply Hfinj. congruence.
    + rewrite <- Hknp, <- Hknp' by done. done.
Qed.

(** A new directory [r] under [p], entered in [p] ([lp]) or, when [p] is
    full, nowhere. *)
Section add_dir.
Context (fs fs' : IDKFS) (t : gmap Z adir) (p r : Z) (l lp : adir).
Context (Ht : tree fs t) (Hp : t !! p = Some l) (Hk : others_kept p fs fs')
  (Hdead : ¬ live_at fs r) (Hlp : (∃ n, lp = l ++ [(n, r)]) ∨ lp = l).
Let t' := <[r := [(DOT, r); (DOTDOT, p)]]> (<[p := lp]> t).

Lemma add_dir_case k m : t' !! k = Some m →
  (k = r ∧ m = [(DOT, r); (DOTDOT, p)]) ∨ (k ≠ r ∧ k = p ∧ m = lp) ∨
  (k ≠ r ∧ k ≠ p ∧ t !! k = Some m).
Proof using.
  clear. intros [[<- <-]|[Hne [[<- <-]|[Hne' Hm]]%lookup_insert_Some]]%lookup_insert_Some; auto 10.
Qed.

Lemma add_dir_none k : t' !! k = None → t !! k = None ∧ k ≠ r ∧ k ≠ p.
Proof using. clear. by intros [[Hn ?]%lookup_insert_None ?]%lookup_insert_None. Qed.

Lemma add_dir_some k : k = r ∨ k = p → is_Some (t' !! k).
Proof using.
  clear. intros Hk. unfold t'. rewrite !lookup_insert_is_Some'. intuition congruence.
Qed.

(** An entry of the new name space but those of [r] and for [r] is an old
    one. *)
Lemma add_dir_old k m x n y : t' !! k = Some m → m !! x = Some (n, y) → y ≠ r → y ≠ p →
  ∃ m0, t !! k = Some m0 ∧ m0 !! x = Some (n, y).
Proof using Hp Hlp.
  intros Hm Hx Hyr Hyp. destruct (add_dir_case k m Hm) as [[-> ->]|[(_ & -> & ->)|(_ & _ & Hm0)]].
  - apply list_elem_of_lookup_2, elem_of_cons in Hx as [?|Hx%list_elem_of_singleton]; congruence.
  - destruct Hlp as [[n0 ->] | ->]; [|eauto].
    apply lookup_snoc_cases in Hx as [Hx|[_ ?]]; [eauto|congruence].
  - eauto.
Qed.

Lemma tree_add_dir :
  dir_node fs' t' r [(DOT, r); (DOTDOT, p)] → type_at fs' r = ft_val IDKFS_FT_DIR →
  dir_node fs' t' p lp → type_at fs' p = ft_val IDKFS_FT_DIR →
  tree fs' t'.
Proof using All.
  intros Hrr Htr Hrp Htp. split.
  - destruct (tr_root _ _ Ht) as [m Hm]. unfold t'. rewrite !lookup_insert_is_Some'. eauto.
  - intros k m Hm. destruct (add_dir_case k m Hm) as [[-> ->]|[(_ & -> & ->)|(Hr & Hne & Hm0)]];
      [done..|].
    destruct (tr_dir _ _ Ht k m Hm0) as [Hrep Hty].
    pose proof (Hk k Hne (dir_node_live _ _ _ _ Hrep)) as Hkept.
    split; [|by rewrite (kept_type _ _ _ Hkept)].
    eapply dir_node_weaken; [by intros d; apply kept_dir| |exact Hrep].
    intros n i Hin. unfold t'. rewrite lookup_insert_None, <- insert_dom by exact Hp.
    split; [|tauto]. intros Hi. split; [done|]. intros ->.
    by apply Hdead, (tr_entry _ _ Ht k m n i Hm0).
  - intros k m n y Hm [x Hx]%list_elem_of_lookup.
    destruct (Z.eq_dec y r) as [->|Hyr].
    { split; [by eapply dir_node_live|]. by destruct (add_dir_some r (or_introl eq_refl)) as [? ->]. }
    destruct (Z.eq_dec y p) as [->|Hyp].
    { split; [by eapply dir_node_live|]. by destruct (add_dir_some p (or_intror eq_refl)) as [? ->]. }
    destruct (add_dir_old k m x n y Hm Hx Hyr Hyp) as (m0 & Hm0 & Hx0).
    destruct (tr_entry _ _ Ht k m0 n y Hm0) as [Hl Hty]; [by eapply list_elem_of_lookup_2|].
    pose proof (Hk y Hyp Hl) as Hkept. split; [by eapply kept_live|].
    intros (Hy & _)%add_dir_none. rewrite (kept_type _ _ _ Hkept). auto.
  - intros k m x n k' m' x' n' y Hm Hx Hm' Hx' (Hy & Hyr & Hyp)%add_dir_none.
    destruct (add_dir_old _ _ _ _ _ Hm Hx Hyr Hyp) as (m0 & Hm0 & Hx0).
    destruct (add_dir_old _ _ _ _ _ Hm' Hx' Hyr Hyp) as (m0' & Hm0' & Hx0').
    by eapply (tr_once _ _ Ht); eauto.
Qed.
End add_dir.
