(* ===== verification/FuseSpec.v ===== *)
(** * Correctness of the FUSE handlers

    The handlers refine the abstract name space of [Tree.v], for any [sync]
    that keeps the state: doing nothing ([idkfs_fuse.c]) or flushing to the
    image ([idkfs_persist.c]). *)

From S2P Require Import Prelude Cint CString Codec Mem CoreTypes Crc Bitmap.
From S2P Require Import Core FileIO Dir Fs Mkfs Spec Persist Fuse.
From S2P Require Import Tree.

(** What a handler needs of the work done at its end. *)
Class SyncOk (sync : IDKFS → option IDKFS) :=
  sync_ok fs : fs_inv fs →
    ∃ fs', sync fs = Some fs' ∧ fs_inv fs' ∧ (∀ k, live_at fs k → kept k fs fs') ∧
      ∀ k, ino_free fs' k = ino_free fs k.

#[export] Instance no_sync_ok : SyncOk Some.
Proof. intros fs Hinv. exists fs. by split_and!. Qed.

#[export] Instance flush_sync_ok : SyncOk idkfs_flush_to_image.
Proof.
  intros fs Hinv. destruct (flush_metadata_inv fs Hinv) as (d & Hf & Hinv' & Hk).
  exists (set_fs_disk d fs). split_and!; [exact Hf|exact Hinv'|exact Hk|done].
Qed.

(** ** Walking a path and its parent *)

Definition no_slash (s : list Z) : Prop := Forall (λ c, c ≠ SLASH) s.

Lemma strrchr_slash_post s pre post :
  strrchr_slash s = Some (pre, post) → no_slash post.
Proof.
  revert pre post. induction s as [|c s IH]; intros pre post; cbn; [done|].
  destruct (strrchr_slash s) as [[pre' post']|] eqn:E.
  - intros [= <- <-]. by eapply IH.
  - zcase; [|done]. intros [= <- <-]. clear IH. induction s as [|d s IHs]; [constructor|].
    cbn in E. destruct (strrchr_slash s) as [[]|]; [done|]. revert E. zcase; [done|].
    intros _. constructor; [done|by apply IHs].
Qed.

Lemma strtok_slash_last s post cur :
  no_slash post → post ≠ [] →
  strtok_slash (s ++ SLASH :: post) cur = strtok_slash s cur ++ [post].
Proof.
  intros Hns Hne.
  assert (∀ cur, strtok_slash post cur =
    match reverse cur ++ post with [] => [] | w => [w] end) as Hpost.
  { clear Hne. induction Hns as [|c p Hc Hns IH]; intros cur'; cbn [strtok_slash].
    - rewrite app_nil_r. destruct cur' as [|x cur']; [done|].
      rewrite reverse_cons. by destruct (reverse cur').
    - zcase; [done|]. rewrite IH, reverse_cons, <- app_assoc. done. }
  revert cur. induction s as [|c s IH]; intros cur; cbn [app strtok_slash].
  - rewrite Z.eqb_refl. assert (strtok_slash post [] = [post]) as E.
    { rewrite Hpost. cbn. by destruct post. }
    rewrite E. by destruct cur.
  - zcase; [|apply IH]. destruct cur; [apply IH|]. cbn [app]. f_equal. apply IH.
Qed.

(** A directory with all its entries in use. *)
Definition dir_full (l : adir) : Prop := Z.of_nat (length l) = IDKFS_MAX_DIRENTS.

Definition nonneg_entries (t : gmap Z adir) : Prop :=
  ∀ k l n i, t !! k = Some l → (n, i) ∈ l → 0 ≤ i.

Lemma tree_nonneg fs t : fs_wf fs → tree fs t → nonneg_entries t.
Proof.
  intros Hwf Ht k l n i Hk Hin. destruct (tr_entry _ _ Ht k l n i Hk Hin) as [Hl _].
  apply (live_range fs); done.
Qed.

Lemma awalk_app t toks toks' : ∀ cur, nonneg_entries t → 0 ≤ cur →
  awalk t cur (toks ++ toks') =
  if awalk t cur toks <? 0 then awalk t cur toks else awalk t (awalk t cur toks) toks'.
Proof.
  induction toks as [|tok toks IH]; intros cur Hnn Hcur; cbn [app awalk].
  - by zcase; [lia|].
  - destruct (t !! cur) as [l|] eqn:Hc; [|done].
    destruct (adir_lookup tok l) as [i|] eqn:Hi; [|done].
    apply IH; [done|]. eapply Hnn; [done|by apply adir_lookup_in].
Qed.

Lemma adir_lookup_key name l :
  adir_lookup (take (Z.to_nat IDKFS_MAX_FILENAME) name) l = adir_lookup name l.
Proof.
  assert (name_key (take (Z.to_nat IDKFS_MAX_FILENAME) name) = name_key name) as E.
  { unfold name_key. by rewrite take_take, Nat.min_id. }
  induction l as [|[n i] l IH]; cbn; [done|]. by rewrite E, IH.
Qed.

(** A path with a last component leads where its parent's entry leads. *)
Lemma aresolve_last t path p name :
  nonneg_entries t → aresolve_parent t path = inr (p, name) → name ≠ [] →
  aresolve t path =
  match t !! p with
  | None => - ENOTDIR
  | Some l => match adir_lookup name l with Some i => i | None => - ENOENT end
  end.
Proof.
  intros Hnn Hp Hname. unfold aresolve_parent, aresolve in *.
  destruct (strrchr_slash (path_copy path)) as [[pre post]|] eqn:E; [|done].
  pose proof (strrchr_slash_parts _ _ _ E) as Ep. pose proof (strrchr_slash_post _ _ _ E) as Hns.
  assert (path_copy pre = pre) as Epre.
  { unfold path_copy. apply take_ge.
    assert (length (path_copy path) ≤ Z.to_nat 4095)%nat as Hlen
      by (unfold path_copy; rewrite length_take; lia).
    rewrite Ep in Hlen. rewrite length_app in Hlen. lia. }
  rewrite Epre in Hp. rewrite Ep. unfold path_tokens in *.
  assert (post ≠ []) as Hpost.
  { intros ->. rewrite take_nil in Hp. zcase_in Hp; [done|]. simplify_eq. }
  rewrite strtok_slash_last, awalk_app by done.
  destruct (Z.ltb_spec (awalk t 0 (strtok_slash pre [])) 0); [done|].
  injection Hp as Hp1 Hp2. rewrite Hp1. cbn [awalk]. destruct (t !! p) as [l|]; [|done].
  rewrite <- Hp2, adir_lookup_key. by destruct (adir_lookup post l).
Qed.

Lemma first_free_dead fs k : first_free fs k → ¬ live_at fs k ∧ 1 ≤ k < IDKFS_MAX_INODES.
Proof. intros (Hk & Hf & _). split; [by apply ino_free_not_live|done]. Qed.

Lemma others_kept_quiet_dead fs fs' k : others_kept k fs fs' → ¬ live_at fs k → quiet fs fs'.
Proof.
  intros Hk Hd. apply kept_quiet. intros k' Hl. apply Hk; [|done]. by intros ->.
Qed.

Lemma tree_live fs t k l : tree fs t → t !! k = Some l → live_at fs k.
Proof. intros Ht Hk. destruct (tr_dir _ _ Ht k l Hk) as [Hr _]. by eapply dir_node_live. Qed.

(** Taking an inode between two steps that take none. *)
Lemma takes_inode_calm fs fs1 fs2 fs3 k :
  same_free fs fs1 → takes_inode fs1 fs2 k → same_free fs2 fs3 → takes_inode fs fs3 k.
Proof.
  intros H1 [(Hk & Hf & Hlt) H2] H3. split; [split; [done|split]|].
  - by rewrite <- H1.
  - intros k' Hk'. rewrite <- H1. by apply Hlt.
  - intros k'. rewrite H3, H2. zcase; [done|apply H1].
Qed.

(** [unlink_blocks], [idkfs_dir_remove] and [inode_free] on a file of the
    name space. *)
Lemma unlink_file fs t p l name i ino now :
  fs_inv fs → tree fs t → t !! p = Some l → adir_lookup name l = Some i → t !! i = None →
  (fs_inodes fs).[i] = Some ino → live ino → cstring name →
  ∃ fs1 fs2, unlink_blocks fs i = Some fs1 ∧
    idkfs_dir_remove fs1 p name now = Some (fs2, 0) ∧
    ∃ fs3, inode_free fs2 (u32 i) = Some fs3 ∧ fs_inv fs3 ∧ ino_free fs3 i = true ∧
      tree fs3 (<[p := adir_remove name l]> t).
Proof.
  intros Hinv Ht Hp Hlk Hi Hino Hlive Hname. pose proof (inv_wf _ Hinv) as Hwf.
  destruct (tr_dir _ _ Ht p l Hp) as [(d & Hd & Hdl & Hents) Htp].
  assert (p ≠ i) as Hpi by congruence.
  assert (i ≠ 0) as Hi0. { intros ->. destruct (tr_root _ _ Ht). congruence. }
  assert (live_at fs i) as Hli by by exists ino.
  pose proof (live_range _ _ Hwf Hli) as Hrange.
  destruct (unlink_blocks_ok fs i ino Hinv Hino Hlive)
    as (fs1 & i1 & Hub & Hinv1 & Hr1 & Hi1 & Ha1 & _ & Hnull).
  pose proof (rel_kept _ _ _ Hr1 p Hpi) as Hk1.
  pose proof (kept_dir _ _ _ _ Hk1 Hd) as Hd1.
  assert (type_at fs1 p = ft_val IDKFS_FT_DIR) as Ht1 by (by rewrite (kept_type _ _ _ Hk1)).
  destruct (idkfs_dir_remove_ok fs1 p d name now (inv_wf _ Hinv1) Hd1 Ht1 Hname)
    as (fs2 & r & Hrm & Hwf2 & Hm2 & Hcase).
  assert (adir_remove name l = adir_remove name (abs_entry <$> d_list d)) as Erem
    by (by rewrite <- Hdl).
  pose proof Hlk as Hlk0.
  rewrite <- Hdl in Hlk. unfold abs_dir in Hlk. rewrite adir_lookup_abs in Hlk.
  rewrite adir_remove_abs in Erem.
  destruct (list_lookup_name name (d_list d)) as [[x e]|]; [|done].
  destruct Hcase as (-> & d' & Hd' & Hl').
  pose proof (fs_inv_modifies _ _ _ Hm2 Hwf2 Hinv1) as Hinv2.
  assert ((fs_inodes fs2).[i] = Some i1) as Hi2.
  { rewrite (mod_others _ _ _ Hm2); [exact Hi1|congruence]. }
  assert (live i1) as Hl1 by (unfold live, same_attr in *; intuition congruence).
  destruct (inode_free_undo fs2 i i1 Hinv2 ltac:(lia) Hi2 Hl1 Hnull)
    as (fs3 & Hfr & Hinv3 & Hk3 & Hfree3).
  exists fs1, fs2. split; [exact Hub|]. split; [exact Hrm|]. exists fs3.
  rewrite u32_small by (fs_unfold; lia). split; [exact Hfr|]. split; [exact Hinv3|].
  split; [by rewrite Hfree3, Z.eqb_refl|].
  apply (tree_remove_file fs fs3 t p l name i); try done.
  - intros k Hkp Hki Hlk'. pose proof (rel_kept _ _ _ Hr1 k Hki) as K1.
    pose proof (kept_live _ _ _ K1 Hlk') as L1.
    pose proof (others_kept_modifies _ _ _ Hm2 k Hkp L1) as K2.
    eauto using kept_trans.
  - apply (dir_node_weaken fs3 fs3 t _ p); [done|by intros; apply insert_dom with l|].
    exists d'. split; [eapply kept_dir; [by apply Hk3|exact Hd']|].
    split; [unfold abs_dir; by rewrite Hl', Erem|]. rewrite Hl'. by apply Forall_delete.
  - rewrite (kept_type _ _ _ (Hk3 p Hpi)), (modifies_type _ _ _ _ Hm2) by apply Hd1.
    exact Ht1.
Qed.

Lemma fs_wf_blocks fs k : fs_wf fs → 12 ≤ bitmap_free_count (fs_bitmap fs) + mapped_at fs k.
Proof.
  intros Hwf. pose proof (fs_wf_capacity fs Hwf). assert (0 ≤ mapped_at fs k); [|lia].
  unfold mapped_at. destruct ((fs_inodes fs).[k]); cbn; [unfold mapped; lia|lia].
Qed.

(** Changing the file of an inode that is no directory. *)
Lemma tree_modifies_file fs fs' t k :
  tree fs t → t !! k = None → modifies k fs fs' → tree fs' t.
Proof.
  intros Ht Hk Hm. apply (tree_weaken fs); [exact Ht| |].
  - intros k' l Hk'. destruct (tr_dir _ _ Ht k' l Hk') as [Hr _].
    eapply dir_node_kept; [|exact Hr]. apply (others_kept_modifies _ _ _ Hm); [congruence|].
    by eapply dir_node_live.
  - intros k' Hl. split; [by eapply modifies_live|by eapply modifies_type].
Qed.

(** ** Name-space operations *)
(** The name space after [idkfs_mkdir] made directory [r] in [p]. *)
Lemma mkdir_tree fs fs' t p l d r name d' e1 e2 :
  tree fs t → t !! p = Some l → dir_ok d → abs_dir d = l → Forall (entry_ok t) (d_list d) →
  others_kept p fs fs' → ¬ live_at fs r → (length name ≤ 255)%nat →
  type_at fs' p = ft_val IDKFS_FT_DIR → type_at fs' r = ft_val IDKFS_FT_DIR →
  dir_is fs' r d' → d_list d' = [e1; e2] → named DOT e1 → named DOTDOT e2 →
  e_inode e1 = r → e_inode e2 = p →
  entry_as IDKFS_FT_DIR DOT e1 → entry_as IDKFS_FT_DIR DOTDOT e2 →
  (d_count d = 128 ∧ dir_is fs' p d) ∨
    (d_count d < 128 ∧ ∃ e, dir_is fs' p (dir_append d e) ∧ named name e ∧ e_inode e = r ∧
       e_type e = ft_val IDKFS_FT_DIR ∧ cvalid DirEntry_codec e ∧ entry_as IDKFS_FT_DIR name e) →
  tree fs' (<[r := [(DOT, r); (DOTDOT, p)]]> (<[p := default l (adir_add name r l)]> t)).
Proof.
  intros Ht Hl Hok Hdl Hents Hk Hdead Hlen Htp Htr Hd' Hl' Hn1 Hn2 Hi1 Hi2 Ha1 Ha2 Hp.
  set (t' := <[r := _]> _). assert (p ≠ r) as Hpr.
  { intros <-. destruct (tr_dir _ _ Ht p l Hl) as [Hr _]. by apply Hdead; eapply dir_node_live. }
  assert (is_Some (t' !! r) ∧ is_Some (t' !! p)) as [Hlr Hlp].
  { unfold t'. rewrite lookup_insert_eq, lookup_insert_ne, lookup_insert_eq by done. eauto. }
  assert (dir_node fs' t' p (default l (adir_add name r l)) ∧
    ((∃ n, default l (adir_add name r l) = l ++ [(n, r)]) ∨
     default l (adir_add name r l) = l)) as [Hrp Hshape].
  { assert (Hdom : ∀ n i, (n, i) ∈ abs_dir d → t !! i = None ↔ t' !! i = None).
    { intros n i Hin. unfold t'. rewrite lookup_insert_ne; [by apply insert_dom with l|].
      intros <-. rewrite Hdl in Hin. by apply Hdead, (tr_entry _ _ Ht p l n r Hl). }
    destruct Hp as [(Hc & Hdp)|(Hc & e & Hdp & Hne & Hie & _ & Hve & Hta & Hf)].
    - rewrite <- Hdl, adir_add_full by done. split; [|by right]. cbn [default].
      apply (dir_node_weaken fs' fs' t t' p); [done|done|by exists d].
    - destruct (dir_rep_append fs' p d e name r Hok Hc Hve Hne Hie Hdp) as [Hadd _].
      rewrite Hdl in Hadd. rewrite Hadd. split; [|left; by eexists]. cbn [default].
      rewrite <- Hdl. apply (dir_node_append fs' t t' p d e); try done.
      destruct Hlr as [lr Hlr]. split; [by apply Hf|]. by rewrite Hie, Hlr. }
  apply (tree_add_dir fs fs' t p r l); try done. by apply (dots_node fs' t' r p d' e1 e2).
Qed.

Section handlers.
Context (sync : IDKFS → option IDKFS) `{!SyncOk sync}.

Lemma sync_tree fs t :
  fs_inv fs → tree fs t →
  ∃ fs', sync fs = Some fs' ∧ fs_inv fs' ∧ tree fs' t ∧ quiet fs fs' ∧
    (∀ k, live_at fs k → kept k fs fs') ∧ ∀ k, ino_free fs' k = ino_free fs k.
Proof using SyncOk0.
  intros Hinv Ht. destruct (sync_ok fs Hinv) as (fs' & Hs & Hinv' & Hk & Hf).
  pose proof (kept_quiet _ _ Hk) as Hq.
  exists fs'. split_and!; [exact Hs|exact Hinv'|by eapply tree_quiet|exact Hq|exact Hk|exact Hf].
Qed.

(** The outcome of [fuse_create] on the name space [t] of [fs]: it fails when
    no inode is free or the parent is full, and only then. *)
Definition create_outcome (t : gmap Z adir) (path : list Z) (fs fs' : IDKFS)
    (r : Z + Z) : Prop :=
  match aresolve_parent t path with
  | inl e => r = inl e ∧ tree fs' t ∧ same_free fs fs'
  | inr (p, name) => ∃ l, t !! p = Some l ∧ link_count_at fs' p = link_count_at fs p ∧
      ((r = inl (- ENOSPC) ∧ (no_free_inode fs ∨ dir_full l) ∧ tree fs' t ∧ same_free fs fs') ∨
       ∃ k l', r = inr k ∧ takes_inode fs fs' k ∧ t !! k = None ∧ adir_add name k l = Some l' ∧
         tree fs' (<[p := l']> t) ∧ live_at fs' k ∧ size_at fs' k = 0)
  end.

Lemma create_outcome_tree t path fs fs' r : create_outcome t path fs fs' r → ∃ t', tree fs' t'.
Proof.
  unfold create_outcome. destruct (aresolve_parent t path) as [e|[p name]].
  - intros (_ & ? & _). eauto.
  - intros (l & _ & _ & [(_ & _ & ? & _)|(k & l' & _ & _ & _ & _ & ? & _)]); eauto.
Qed.

Lemma fuse_create_ok fs t path mode now :
  fs_inv fs → tree fs t → cstring path →
  (∀ p name, aresolve_parent t path = inr (p, name) → is_Some (t !! p)) →
  ∃ fs' r, fuse_create sync fs path mode now = Some (fs', r) ∧ fs_inv fs' ∧
    create_outcome t path fs fs' r.
Proof using SyncOk0.
  intros Hinv Ht Hpath Hdir. unfold fuse_create, create_outcome.
  destruct (resolve_parent_ok fs t path now Hinv Ht Hpath) as (fs1 & -> & Hinv1 & Hq1 & Hn1).
  ostep. pose proof (tree_quiet _ _ _ Hq1 Ht) as Ht1. pose proof (calm_free _ _ Hq1) as Hf1.
  destruct (aresolve_parent t path) as [e|[p name]] eqn:Er.
  { exists fs1, (inl e). split_and!; [done|exact Hinv1|done|exact Ht1|exact Hf1]. }
  destruct (Hn1 p name eq_refl) as (Hnp & Hname & Hnlen).
  destruct (Hdir p name eq_refl) as [l Hl].
  destruct (tr_dir _ _ Ht1 p l Hl) as [(d & Hd & Hdl & Hents) Htp]. pose proof Hd as (_ & Hok & _).
  assert (live_at fs p) as Hlp by by eapply tree_live.
  assert (link_count_at fs1 p = link_count_at fs p) as Hlc1 by apply (calm_quiet _ _ Hq1 p Hlp).
  destruct (idkfs_create_ok fs1 p d name TIER_NORMAL (u16 mode) now Hinv1 Hd Hname)
    as (fs2 & r & -> & Hinv2 & Hk2 & [Hty2 Hlc2] & Hcase). ostep. rewrite Hlc1 in Hlc2.
  destruct Hcase as [(-> & -> & Hno)|[(-> & Hc & Hd2 & Hf2)|(Htake & Hc & e & Hd2 & Hne & Hie & Hve & Hi2 & Hty & Hfull)]].
  - exists fs1, (inl (- ENOSPC)). split_and!; [done|exact Hinv1|]. exists l.
    split; [done|]. split; [done|]. left. split_and!; [done| |done|done]. left.
    intros k Hk. rewrite <- Hf1. by apply Hno.
  - exists fs2, (inl (- ENOSPC)). split_and!; [done|exact Hinv2|]. exists l.
    split; [done|]. split; [done|]. left. split_and!; [done|right|..].
    + unfold dir_full. by rewrite <- Hdl, abs_dir_length, Hc.
    + apply (tree_others_kept fs1 fs2 t p l); try done. by exists d.
    + intros k. by rewrite Hf2, Hf1.
  - destruct (first_free_dead fs1 r (proj1 Htake)) as [Hdead Hrange].
    destruct (Z.ltb_spec r 0); [lia|].
    destruct (dir_rep_append fs2 p d e name r Hok Hc Hve Hne Hie Hd2) as [Hadd _].
    pose proof (tree_dead_notin _ _ _ Ht1 Hdead) as Hrt.
    assert (dir_node fs2 (<[p := abs_dir d ++ [(name_key name, r)]]> t) p
      (abs_dir d ++ [(name_key name, r)])) as Hrep2.
    { apply (dir_node_append fs2 t _ p d e); try done.
      - split; [by apply Hfull|]. rewrite Hie, Hty.
        by rewrite (proj1 (insert_dom t p l _ r Hl) Hrt).
      - intros. by apply insert_dom with l. }
    rewrite Hdl in *.
    assert (live_at fs2 r) as Hl2 by (eexists; split; [exact Hi2|done]).
    assert (tree fs2 (<[p := l ++ [(name_key name, r)]]> t)) as Ht2.
    { apply (tree_add_file fs1 fs2 t p r l); try done; [congruence|].
      unfold type_at. rewrite Hi2. done. }
    destruct (sync_tree fs2 _ Hinv2 Ht2) as (fs3 & -> & Hinv3 & Ht3 & Hq3 & Hk3 & Hf3). ostep.
    exists fs3, (inr r). rewrite u64_small by (fs_unfold; lia).
    split; [done|]. split; [exact Hinv3|]. exists l. split; [done|]. split.
    { rewrite <- Hlc2. apply (Hq3 p). by eapply tree_live; [exact Ht2|apply lookup_insert_eq]. }
    right. eexists r, _. split; [done|]. split; [by eapply takes_inode_calm|].
    split; [by eapply tree_dead_notin|].
    split; [exact Hadd|]. split; [exact Ht3|]. split; [by eapply Hq3|].
    destruct (Hk3 r Hl2) as [E _]. unfold size_at. by rewrite E, Hi2.
Qed.

(** The outcome of [fuse_mkdir]: it fails when no inode is free, and only
    then.  With a full parent ([adir_add] gives [None]) the new directory is
    there, but no directory has an entry for it. *)
Definition mkdir_outcome (t : gmap Z adir) (path : list Z) (fs fs' : IDKFS) (r : Z) : Prop :=
  match aresolve_parent t path with
  | inl e => r = e ∧ tree fs' t ∧ same_free fs fs'
  | inr (p, name) => ∃ l, t !! p = Some l ∧
      ((r = - ENOSPC ∧ no_free_inode fs ∧ tree fs' t ∧ same_free fs fs') ∨
       ∃ k, r = 0 ∧ takes_inode fs fs' k ∧ t !! k = None ∧
         let t' := match adir_add name k l with Some l' => <[p := l']> t | None => t end in
         tree fs' (<[k := [(DOT, k); (DOTDOT, p)]]> t'))
  end.

Lemma mkdir_outcome_tree t path fs fs' r : mkdir_outcome t path fs fs' r → ∃ t', tree fs' t'.
Proof.
  unfold mkdir_outcome. destruct (aresolve_parent t path) as [e|[p name]].
  - intros (_ & ? & _). eauto.
  - intros (l & _ & [(_ & _ & ? & _)|(k & _ & _ & _ & ?)]); eauto.
Qed.

Lemma fuse_mkdir_ok fs t path mode now :
  fs_inv fs → tree fs t → cstring path →
  (∀ p name, aresolve_parent t path = inr (p, name) →
     is_Some (t !! p) ∧ link_count_at fs p + 1 < 4294967296) →
  ∃ fs' r, fuse_mkdir sync fs path mode now = Some (fs', r) ∧ fs_inv fs' ∧
    mkdir_outcome t path fs fs' r.
Proof using SyncOk0.
  intros Hinv Ht Hpath Hdir. unfold fuse_mkdir, mkdir_outcome.
  destruct (resolve_parent_ok fs t path now Hinv Ht Hpath) as (fs1 & -> & Hinv1 & Hq1 & Hn1).
  ostep. pose proof (tree_quiet _ _ _ Hq1 Ht) as Ht1. pose proof (calm_free _ _ Hq1) as Hf1.
  destruct (aresolve_parent t path) as [e|[p name]] eqn:Er.
  { exists fs1, e. split_and!; [done|exact Hinv1|done|exact Ht1|exact Hf1]. }
  destruct (Hn1 p name eq_refl) as (Hnp & Hname & Hnlen).
  destruct (Hdir p name eq_refl) as [[l Hl] Hlinks].
  destruct (tr_dir _ _ Ht1 p l Hl) as [(d & Hd & Hdl & Hents) Htp]. pose proof Hd as (_ & Hok & _).
  assert (live_at fs p) as Hlp by by eapply tree_live.
  destruct (idkfs_mkdir_ok fs1 p d name (u16 mode) now Hinv1 Hd Hname)
    as (fs2 & r & -> & Hinv2 & Hk2 & Hty2 & Hcase); [|ostep].
  { by destruct (calm_quiet _ _ Hq1 p Hlp) as (_ & _ & _ & ->). }
  destruct Hcase as [(-> & -> & Hno)|(Htake & Htr & (d' & e1 & e2 & Hd' & Hl' & Hn1' & Hn2' & Hi1 & Hi2 & Hta1 & Hta2) & _ & Hp)].
  - exists fs1, (- ENOSPC). split_and!; [done|exact Hinv1|]. exists l.
    split; [done|]. left. split_and!; [done| |done|done].
    intros k Hk. rewrite <- Hf1. by apply Hno.
  - destruct (first_free_dead fs1 r (proj1 Htake)) as [Hdead Hrange].
    destruct (Z.ltb_spec r 0); [lia|].
    assert (tree fs2 (<[r := [(DOT, r); (DOTDOT, p)]]>
      (<[p := default l (adir_add name r l)]> t))) as Ht2.
    { apply (mkdir_tree fs1 fs2 t p l d r name d' e1 e2); try done. congruence. }
    destruct (sync_tree fs2 _ Hinv2 Ht2) as (fs3 & -> & Hinv3 & Ht3 & _ & _ & Hf3). ostep.
    exists fs3, 0. split; [done|]. split; [exact Hinv3|]. exists l. split; [done|].
    right. exists r. split; [done|]. split; [by eapply takes_inode_calm|].
    split; [by eapply tree_dead_notin|].
    destruct (adir_add name r l); [exact Ht3|].
    change (default l None) with l in Ht3. rewrite (insert_id t p l Hl) in Ht3. exact Ht3.
Qed.

(** The outcome of [fuse_unlink] for a path with a last component. *)
Definition unlink_outcome (t : gmap Z adir) (path : list Z) (fs' : IDKFS) (r : Z) : Prop :=
  match aresolve_parent t path with
  | inl e => r = e ∧ tree fs' t
  | inr (p, name) =>
      let i := aresolve t path in
      if i <? 0 then r = i ∧ tree fs' t
      else if t !! i is Some _ then r = - EISDIR ∧ tree fs' t
      else r = 0 ∧ ino_free fs' i = true ∧
        ∃ l, t !! p = Some l ∧ adir_lookup name l = Some i ∧
          tree fs' (<[p := adir_remove name l]> t)
  end.

Lemma unlink_outcome_tree t path fs' r : unlink_outcome t path fs' r → ∃ t', tree fs' t'.
Proof.
  unfold unlink_outcome. destruct (aresolve_parent t path) as [e|[p name]].
  - intros [_ ?]. eauto.
  - destruct (aresolve t path <? 0); [intros [_ ?]; eauto|].
    destruct (t !! aresolve t path); [intros [_ ?]; eauto|].
    intros (_ & _ & l & _ & _ & ?). eauto.
Qed.

Lemma fuse_unlink_ok fs t path now :
  fs_inv fs → tree fs t → cstring path →
  (∀ p name, aresolve_parent t path = inr (p, name) → name ≠ []) →
  ∃ fs' r, fuse_unlink sync fs path now = Some (fs', r) ∧ fs_inv fs' ∧
    unlink_outcome t path fs' r.
Proof using SyncOk0.
  intros Hinv Ht Hpath Hlast. unfold fuse_unlink, unlink_outcome.
  destruct (resolve_parent_ok fs t path now Hinv Ht Hpath) as (fs1 & -> & Hinv1 & Hq1 & Hn1).
  ostep. pose proof (tree_quiet _ _ _ Hq1 Ht) as Ht1.
  destruct (aresolve_parent t path) as [e|[p name]] eqn:Er.
  { exists fs1, e. split_and!; [done|exact Hinv1|done|exact Ht1]. }
  destruct (Hn1 p name eq_refl) as (_ & Hname & _).
  pose proof (aresolve_last t path p name (tree_nonneg _ _ (inv_wf _ Hinv) Ht) Er
    (Hlast _ _ eq_refl)) as Hres.
  destruct (resolve_path_ok fs1 t path now Hinv1 Ht1 Hpath)
    as (fs2 & -> & Hinv2 & Hq2 & Hn2). ostep.
  pose proof (tree_quiet _ _ _ Hq2 Ht1) as Ht2.
  destruct (Z.ltb_spec (aresolve t path) 0) as [Hneg|Hpos].
  { exists fs2, (aresolve t path). split_and!; [done|exact Hinv2|done|exact Ht2]. }
  specialize (Hn2 Hpos). destruct (t !! p) as [l|] eqn:Hl; [|unfold ENOTDIR in Hres; lia].
  destruct (adir_lookup name l) as [i|] eqn:Hlk; [|unfold ENOENT in Hres; lia].
  rewrite Hres in *. destruct Hn2 as [(ino & Hino & Hlive) Hty]. rewrite Hino. ostep.
  assert (type_at fs2 i = i_type ino) as Hti by (unfold type_at; by rewrite Hino).
  rewrite <- Hti. destruct (t !! i) as [li|] eqn:Hli.
  { destruct (tr_dir _ _ Ht2 i li Hli) as [_ ->]. rewrite Z.eqb_refl.
    exists fs2, (- EISDIR). split_and!; [done|exact Hinv2|done|exact Ht2]. }
  destruct (Z.eqb_spec (type_at fs2 i) (ft_val IDKFS_FT_DIR)) as [E|_]; [by destruct Hty|].
  clear Hty. destruct (unlink_file fs2 t p l name i ino now Hinv2 Ht2 Hl Hlk Hli Hino Hlive Hname)
    as (fs3 & fs4 & -> & Hrm & Hfr). ostep. rewrite Hrm. ostep. cbn [Z.ltb Z.compare].
  destruct Hfr as (fs5 & -> & Hinv5 & Hfree & Ht5). ostep.
  destruct (sync_tree fs5 _ Hinv5 Ht5) as (fs6 & -> & Hinv6 & Ht6 & _ & _ & Hf6). ostep.
  exists fs6, 0. split; [done|]. split; [exact Hinv6|]. split; [done|].
  split; [by rewrite Hf6|]. exists l. by split.
Qed.

(** ** Attributes *)

Lemma fuse_setattr_ok f fs t path now :
  fs_inv fs → tree fs t → cstring path →
  (∀ i, cvalid Inode_codec i → cvalid Inode_codec (f i)) →
  (∀ i, i_link_count (f i) = i_link_count i ∧ i_type (f i) = i_type i ∧
     i_direct (f i) = i_direct i ∧ i_indirect1 (f i) = i_indirect1 i) →
  (is_Some (t !! aresolve t path) → ∀ i, i_size (f i) = i_size i) →
  ∃ fs' r, fuse_setattr sync f fs path now = Some (fs', r) ∧ fs_inv fs' ∧ tree fs' t ∧
    (if aresolve t path <? 0 then r = aresolve t path
     else r = 0 ∧ ∃ i, (fs_inodes fs').[aresolve t path] = Some (f i)).
Proof using SyncOk0.
  intros Hinv Ht Hpath Hv Hsame Hsize. unfold fuse_setattr.
  destruct (resolve_path_ok fs t path now Hinv Ht Hpath) as (fs1 & -> & Hinv1 & Hq1 & Hn1).
  ostep. pose proof (tree_quiet _ _ _ Hq1 Ht) as Ht1.
  destruct (Z.ltb_spec (aresolve t path) 0) as [Hneg|Hpos].
  { exists fs1, (aresolve t path). split_and!; [done|exact Hinv1|exact Ht1|done]. }
  destruct (Hn1 Hpos) as [(i & Hi & Hl) _]. set (k := aresolve t path) in *.
  destruct (Hsame i) as (Hlc & Hty & Hd & Hind).
  assert (live (f i) ↔ live i) as Hlive by (unfold live; by rewrite Hlc).
  destruct (upd_attr_ok fs1 k i f Hinv1 Hi) as (fs2 & -> & Hinv2 & _ & Hg & Hb); try done.
  { apply Hv. by eapply wf_inode, Hi; apply Hinv1. }
  ostep.
  assert (tree fs2 t) as Ht2.
  { apply (tree_weaken fs1); [exact Ht1| |].
    - intros k' l Hk'. destruct (tr_dir _ _ Ht1 k' l Hk') as [(d & Hd' & Hl' & Hents) _].
      exists d. split; [|by split]. apply (dir_is_same fs1); [| |exact Hd'].
      + split; [by intros; rewrite Hb|]. unfold size_at. rewrite Hg.
        destruct (Z.eqb_spec k' k) as [->|]; [|done]. rewrite Hi. cbn. apply Hsize. eauto.
      + unfold live_at. rewrite Hg. destruct (Z.eqb_spec k' k) as [->|]; [|done].
        rewrite Hi. intros (? & [= <-] & ?). exists (f i). tauto.
    - intros k' Hl'. unfold live_at, type_at in *. rewrite Hg.
      destruct (Z.eqb_spec k' k) as [->|]; [|done]. rewrite Hi. cbn. rewrite Hty.
      split; [exists (f i); tauto|done]. }
  destruct (sync_tree fs2 _ Hinv2 Ht2) as (fs3 & -> & Hinv3 & Ht3 & _ & Hk3 & _). ostep.
  exists fs3, 0. split; [done|]. split; [exact Hinv3|]. split; [exact Ht3|].
  split; [done|]. exists i.
  assert (live_at fs2 k) as Hlk.
  { exists (f i). rewrite Hg, Z.eqb_refl. tauto. }
  destruct (Hk3 k Hlk) as [-> _]. by rewrite Hg, Z.eqb_refl.
Qed.

(** ** Reading and writing through a handle *)

Lemma fuse_write_ok fs t fh buf offset now :
  fs_inv fs → tree fs t → live_at fs fh → t !! fh = None → bytes buf →
  0 ≤ offset → offset + Z.of_nat (length buf) ≤ DIRECT_BYTES →
  ∃ fs', fuse_write sync fs fh buf offset now = Some (fs', Z.of_nat (length buf)) ∧
    fs_inv fs' ∧ tree fs' t ∧
    ∀ p, offset ≤ p < offset + Z.of_nat (length buf) → fbyte fs' fh p = buf.[p - offset].
Proof using SyncOk0.
  intros Hinv Ht Hl Hf Hbuf Ho Hmax. pose proof (inv_wf _ Hinv) as Hwf.
  pose proof (live_range _ _ Hwf Hl) as Hr. unfold fuse_write.
  rewrite u32_small by (fs_unfold; lia). rewrite u64_small by (fs_unfold; lia).
  destruct (Z.leb_spec IDKFS_MAX_INODES fh); [lia|].
  destruct (idkfs_write_room fs fh buf offset now Hwf Hl Hbuf Ho Hmax)
    as (fs1 & -> & Hwf1 & Hm1 & _ & Hin & _); [by apply fs_wf_blocks|]. ostep.
  pose proof (fs_inv_modifies _ _ _ Hm1 Hwf1 Hinv) as Hinv1.
  assert (tree fs1 t) as Ht1 by by eapply tree_modifies_file.
  destruct (sync_tree fs1 _ Hinv1 Ht1) as (fs2 & -> & Hinv2 & Ht2 & _ & Hk2 & _). ostep.
  exists fs2. rewrite i32_small by (fs_unfold; lia).
  split; [done|]. split; [exact Hinv2|]. split; [exact Ht2|].
  intros p Hp. destruct (Hk2 fh (modifies_live _ _ _ _ Hm1 Hl)) as [_ ->]. by apply Hin.
Qed.

Lemma fuse_read_ok fs t fh size offset now :
  fs_inv fs → tree fs t → live_at fs fh → size_at fs fh ≤ DIRECT_BYTES →
  0 ≤ offset → 0 ≤ size → offset + size < 18446744073709551616 →
  ∃ fs' out, fuse_read sync fs fh size offset now = Some (fs', inr out) ∧
    fs_inv fs' ∧ tree fs' t.
Proof using SyncOk0.
  intros Hinv Ht Hl Hs Ho Hsz Hov. pose proof (inv_wf _ Hinv) as Hwf.
  pose proof (live_range _ _ Hwf Hl) as Hr. unfold fuse_read.
  rewrite u32_small by (fs_unfold; lia). rewrite u64_small by lia.
  destruct (Z.leb_spec IDKFS_MAX_INODES fh); [lia|]. destruct Hl as (i & Hi & Hl).
  rewrite (size_at_inode _ _ _ Hi) in Hs.
  destruct (idkfs_read_ok fs fh i size offset now Hwf Hi Hl Hs Ho Hsz Hov)
    as (fs1 & out & -> & Hwf1 & Hm1 & Hs1 & _ & Hb1 & _). ostep.
  pose proof (fs_inv_modifies _ _ _ Hm1 Hwf1 Hinv) as Hinv1.
  assert (quiet fs fs1) as Hq by (eapply modifies_quiet; [done|by split]).
  destruct (sync_tree fs1 _ Hinv1 (tree_quiet _ _ _ Hq Ht))
    as (fs2 & -> & Hinv2 & Ht2 & _). ostep.
  exists fs2, out. by split_and!.
Qed.
End handlers.
