(* ===== verification/Sorting.v ===== *)
(** * Sorting of listings by a Lua script

    The Lua state [idkfs_fuse.c] keeps ([sorting_init], [lua_sort_compare],
    [sorting_shutdown]), the comparison of [sorting.lua], and the [main] of
    [idkfs_fuse.c].  The interpreter and [qsort] are parameters. *)

From S2P Require Import Prelude Cint CString Codec Mem CoreTypes Crc Bitmap.
From S2P Require Import Core FileIO Dir Fs Mkfs Spec Persist Fuse Libc.
From Stdlib Require Import Sorted.

(** The table [push_candidate_to_lua] builds. *)
Record lua_entry := mkLuaEntry {
  le_name : list Z; le_inode : Z; le_size : Z; le_type : list Z;
}.

Definition entry_type_name (type : Z) : list Z :=
  if type =? ft_val IDKFS_FT_DIR then lit "dir"
  else if type =? ft_val IDKFS_FT_FILE then lit "file"
  else if type =? ft_val IDKFS_FT_SYMLINK then lit "symlink"
  else if type =? ft_val IDKFS_FT_DEVICE then lit "device"
  else lit "unknown".

(** [lua_Integer] is 64-bit signed. *)
Definition push_candidate_to_lua (entry : SortCandidate) : lua_entry :=
  mkLuaEntry (sc_name entry) (i64 (sc_inode entry)) (i64 (sc_size entry))
    (entry_type_name (sc_entry_type entry)).

(** ** [sorting.lua] *)

(** [type_order\[name\]], [nil] for another name. *)
Definition type_order (name : list Z) : option Z :=
  if bool_decide (name = lit "dir") then Some 0
  else if bool_decide (name = lit "file") then Some 1
  else if bool_decide (name = lit "symlink") then Some 2
  else if bool_decide (name = lit "device") then Some 3
  else if bool_decide (name = lit "unknown") then Some 4
  else None.
Definition normalize_type (name : list Z) : Z := default 4 (type_order name).

(** [string.lower] in the C locale. *)
Definition lua_lower (s : list Z) : list Z :=
  (λ c, if (65 <=? c) && (c <=? 90) then c + 32 else c) <$> s.

(** [<] on strings in the C locale: the order of the bytes. *)
Fixpoint lua_lt (a b : list Z) : bool :=
  match a, b with
  | _, [] => false
  | [], _ :: _ => true
  | x :: a, y :: b => (x <? y) || (x =? y) && lua_lt a b
  end.

Definition compare_entries (a b : lua_entry) : Z :=
  if negb (le_size a =? le_size b) then if le_size a <? le_size b then -1 else 1
  else
    let ta := normalize_type (le_type a) in
    let tb := normalize_type (le_type b) in
    if negb (ta =? tb) then if ta <? tb then -1 else 1
    else
      let an := lua_lower (le_name a) in
      let bn := lua_lower (le_name b) in
      if bool_decide (an = bn) then 0 else if lua_lt an bn then -1 else 1.

(** The global [compare]; [None] is [nil]. *)
Definition lua_compare (a b : option lua_entry) : Z :=
  match a, b with
  | Some a, Some b => compare_entries a b
  | _, _ => 0
  end.

(** ** The Lua state of [idkfs_fuse.c] *)

(** The interpreter: each operation gives the state after it.  A status is
    [true] for [LUA_OK]. *)
Class Lua := {
  lua_State : Type;
  luaL_newstate : option lua_State;
  luaL_openlibs : lua_State → lua_State;
  luaL_loadfile : lua_State → list Z → lua_State * bool;
  (** [lua_pcall(L, 0, 0, 0)] on the chunk loaded *)
  lua_run_chunk : lua_State → lua_State * bool;
  (** [lua_getglobal], then [lua_isfunction] on the top of the stack *)
  lua_getfunction : lua_State → list Z → lua_State * bool;
  luaL_ref : lua_State → lua_State * Z;
  (** [lua_pcall(L, 2, 1, 0)] of the referenced function on two tables: an
      error, or the result if [lua_isinteger] accepts it *)
  lua_call2 : lua_State → Z → lua_entry → lua_entry → lua_State * option (option Z);
}.

Definition LUA_REFNIL : Z := -1.
Definition default_script : list Z := lit "sorting.lua".

Section sorting.
Context `{Lua}.

Record sort_state := mkSorting {
  g_sort_L : option lua_State; g_sort_compare_ref : Z; g_sort_ready : bool;
}.

Definition sort_off : sort_state := mkSorting None LUA_REFNIL false.

(** The reference and the interpreter are released. *)
Definition sorting_shutdown (s : sort_state) : sort_state :=
  match g_sort_L s with
  | None => s
  | Some _ => sort_off
  end.

(** [script] is [getenv("IDKFS_SORT_SCRIPT")]. *)
Definition sorting_init (script : option (list Z)) (s : sort_state) : sort_state * bool :=
  if g_sort_ready s then (s, true)
  else
    let path := default default_script script in
    match luaL_newstate with
    | None => (mkSorting None (g_sort_compare_ref s) false, false)
    | Some L =>
        let failed L :=
          (sorting_shutdown (mkSorting (Some L) (g_sort_compare_ref s) false), false) in
        let L := luaL_openlibs L in
        let '(L, ok) := luaL_loadfile L path in
        if negb ok then failed L
        else
          let '(L, ok) := lua_run_chunk L in
          if negb ok then failed L
          else
            let '(L, is_function) := lua_getfunction L (lit "compare") in
            if negb is_function then failed L
            else
              let '(L, ref) := luaL_ref L in
              (mkSorting (Some L) ref true, true)
    end.

(** The comparison [qsort] calls; a run-time error of the script switches
    sorting off. *)
Definition lua_sort_compare (left right : SortCandidate) (s : sort_state) : Z * sort_state :=
  match g_sort_ready s, g_sort_L s with
  | true, Some L =>
      let '(L, r) := lua_call2 L (g_sort_compare_ref s) (push_candidate_to_lua left)
                       (push_candidate_to_lua right) in
      match r with
      | None => (0, mkSorting (Some L) (g_sort_compare_ref s) false)
      | Some v =>
          (match v with Some n => i32 n | None => 0 end,
           mkSorting (Some L) (g_sort_compare_ref s) true)
      end
  | _, _ => (0, s)
  end.

(** [main] of [idkfs_fuse.c]: its exit code.  [fuse_main] is the event loop,
    which calls the handlers on the file system. *)
Definition fuse_program (alloc_fs alloc_disk : bool) (script : option (list Z))
    (fuse_main : IDKFS → sort_state → option (IDKFS * sort_state * Z)) (now : Z) :
    option Z :=
  r ← idkfs_mkfs alloc_fs alloc_disk default_label features_default now;
  match r with
  | None => Some 1
  | Some gfs =>
      let s := if sorting (fs_features gfs) then (sorting_init script sort_off).1
               else sort_off in
      '(gfs, s, ret) ← fuse_main gfs s;
      let _ := sorting_shutdown s in
      _ ← idkfs_destroy (Some gfs);
      Some ret
  end.
End sorting.

(** [qsort] on an array, with a comparison that has a state. *)
Class Qsort := {
  qsort : ∀ {St A : Type}, (A → A → St → Z * St) → list A → St → list A * St;
}.

(** What the C standard promises of [qsort]: a comparison that always answers
    [c], a total preorder, sorts the array. *)
Class QsortOk `{Qsort} := {
  qsort_sorts : ∀ {St A : Type} (cmp : A → A → St → Z * St) (c : A → A → Z)
      (P : St → Prop) (l : list A) (s : St),
    (∀ a b s, P s → (cmp a b s).1 = c a b ∧ P (cmp a b s).2) →
    (∀ a b, c a b ≤ 0 ↔ 0 ≤ c b a) →
    (∀ a b d, c a b ≤ 0 → c b d ≤ 0 → c a d ≤ 0) →
    P s →
    (qsort cmp l s).1 ≡ₚ l ∧ StronglySorted (λ a b, c a b ≤ 0) (qsort cmp l s).1 ∧
    P (qsort cmp l s).2;
}.
