(* ===== verification/Listing.v ===== *)
(** * Directory listings

    [readdir] of both front ends against the name space: the entries shown
    are those of the directory, each under its whole name, with its inode,
    the kind of its inode and (for [idkfs_fuse.c]) its size. *)

From S2P Require Import Prelude Cint CString Codec Mem CoreTypes Crc Bitmap.
From S2P Require Import Core FileIO Dir Fs Mkfs Spec Persist Fuse.
From S2P Require Import Tree FuseSpec.

(** The entries a listing shows after ["."] and [".."]. *)
Definition visible (l : list (list Z * Z)) : list (list Z * Z) :=
  filter (λ x, x.1 ≠ DOT ∧ x.1 ≠ DOTDOT) l.

(** The mode shown: the kind of the inode in the name space. *)
Definition shown_mode (t : gmap Z adir) (i : Z) : Z :=
  if t !! i is Some _ then Z.lor S_IFDIR 493 else Z.lor S_IFREG 420.

Definition shown (t : gmap Z adir) (x : list Z * Z) : list Z * option (Z * Z) :=
  (x.1, Some (x.2, shown_mode t x.2)).
Definition shown_sized (fs : IDKFS) (t : gmap Z adir) (x : list Z * Z) :
    list Z * option (Z * Z * Z) :=
  (x.1, Some (x.2, shown_mode t x.2, i64 (size_at fs x.2))).

(** ** The entries collected *)

Definition candidate (fs : IDKFS) (e : DirEntry) : SortCandidate :=
  mkSortCandidate (c_str (take (Z.to_nat (e_name_len e)) (e_name e)))
    (size_at fs (e_inode e)) (e_inode e) (e_type e).

Definition no_dots (es : list DirEntry) : list DirEntry := filter (λ e, is_dot e = false) es.

Lemma readdir_collect_ok fs es n : ∀ i c,
  0 ≤ i → i + Z.of_nat n ≤ Z.of_nat (length es) → c + Z.of_nat n ≤ IDKFS_MAX_DIRENTS →
  Forall (λ e, live_at fs (e_inode e)) (take n (drop (Z.to_nat i) es)) →
  readdir_collect fs es i c n =
    Some (candidate fs <$> no_dots (take n (drop (Z.to_nat i) es))).
Proof.
  induction n as [|n IH]; intros i c Hi Hn Hc Hl; cbn [readdir_collect]; [done|].
  zcase; [lia|]. destruct (zget_is_Some es i) as [e He]; [lia|]. rewrite He. ostep.
  apply zget_Some in He as [_ He]. rewrite (drop_S es e) in * by done. cbn [take] in *.
  replace (S (Z.to_nat i)) with (Z.to_nat (i + 1)) in * by lia.
  apply Forall_cons in Hl as [(ino & Hino & _) Hl]. unfold no_dots. rewrite filter_cons.
  destruct (is_dot e); cbn [negb].
  - rewrite decide_False by done. apply IH; [lia..|exact Hl].
  - rewrite decide_True by done. rewrite Hino. ostep.
    rewrite IH by (lia || exact Hl). ostep. cbn [fmap list_fmap].
    unfold candidate at 2. by rewrite (size_at_inode _ _ _ Hino).
Qed.

Definition persist_shown (e : DirEntry) : list Z * option (Z * Z) :=
  (c_str (take (Z.to_nat (e_name_len e)) (e_name e)),
   Some (e_inode e, if e_type e =? ft_val IDKFS_FT_DIR
                    then Z.lor S_IFDIR 493 else Z.lor S_IFREG 420)).

Lemma persist_readdir_fill_ok es n : ∀ i,
  0 ≤ i → i + Z.of_nat n ≤ Z.of_nat (length es) →
  persist_readdir_fill es i n =
    Some (persist_shown <$> no_dots (take n (drop (Z.to_nat i) es))).
Proof.
  induction n as [|n IH]; intros i Hi Hn; cbn [persist_readdir_fill]; [done|].
  destruct (zget_is_Some es i) as [e He]; [lia|]. rewrite He. ostep.
  apply zget_Some in He as [_ He]. rewrite (drop_S es e) by done. cbn [take].
  rewrite IH by lia. ostep. replace (Z.to_nat (i + 1)) with (S (Z.to_nat i)) by lia.
  unfold no_dots. rewrite filter_cons. by destruct (is_dot e).
Qed.

(** ** The entries as the name space has them *)

Lemma is_dot_abs e :
  cvalid DirEntry_codec e →
  is_dot e = false ↔ (abs_entry e).1 ≠ DOT ∧ (abs_entry e).1 ≠ DOTDOT.
Proof.
  intros Hv. unfold is_dot.
  pose proof (strncmp_named e DOT Hv) as H1. pose proof (strncmp_named e DOTDOT Hv) as H2.
  assert (cstring DOT ∧ cstring DOTDOT) as [Hc1 Hc2] by (split; repeat constructor).
  specialize (H1 Hc1). specialize (H2 Hc2).
  rewrite orb_false_iff, !Z.eqb_neq, H1, H2. done.
Qed.

Lemma visible_abs es :
  Forall (cvalid DirEntry_codec) es → visible (abs_entry <$> es) = abs_entry <$> no_dots es.
Proof.
  unfold visible, no_dots. induction 1 as [|e es Hv _ IH]; [done|].
  rewrite fmap_cons. destruct (is_dot e) eqn:E.
  - rewrite filter_cons_False by (by rewrite <- (is_dot_abs e Hv), E). rewrite IH.
    by rewrite filter_cons_False by (by rewrite E).
  - rewrite filter_cons_True by (by apply is_dot_abs). rewrite IH.
    by rewrite filter_cons_True by done.
Qed.

Lemma filler_candidate fs t e :
  entry_ok t e → filler_entry (candidate fs e) = shown_sized fs t (abs_entry e).
Proof.
  intros [Hf Ht]. unfold filler_entry, shown_sized, candidate, candidate_mode, shown_mode.
  cbn [sc_name sc_size sc_inode sc_entry_type abs_entry fst snd]. rewrite Hf, Ht.
  by destruct (t !! e_inode e).
Qed.

Lemma persist_shown_abs t e : entry_ok t e → persist_shown e = shown t (abs_entry e).
Proof.
  intros [Hf Ht]. unfold persist_shown, shown, shown_mode. cbn [abs_entry fst snd].
  rewrite Hf, Ht. by destruct (t !! e_inode e).
Qed.

(** ** The handlers *)

(** What a directory's entries are, seen after loading it. *)
Lemma dir_entries_ok fs t k d :
  tree fs t → t !! k = Some (abs_dir d) → dir_ok d →
  Forall (λ e, live_at fs (e_inode e)) (d_list d) ∧ Forall (cvalid DirEntry_codec) (d_list d) ∧
  d_count d ≤ IDKFS_MAX_DIRENTS ∧ 0 ≤ d_count d ≤ Z.of_nat (length (d_entries d)).
Proof.
  intros Ht Hk Hok. destruct (dir_valid_fields d Hok) as (Hc & Hl & Hv).
  split; [|split; [by apply Forall_take|split; [apply Hok|]]].
  - apply Forall_forall. intros e He.
    apply (tr_entry _ _ Ht k _ (entry_name e) (e_inode e) Hk).
    by apply (list_elem_of_fmap_2 abs_entry).
  - destruct Hok as [_ Hm]. unfold IDKFS_MAX_DIRENTS in Hm. lia.
Qed.

Lemma visible_shown fs t d :
  Forall (cvalid DirEntry_codec) (d_list d) → Forall (entry_ok t) (d_list d) →
  filler_entry <$> (candidate fs <$> no_dots (d_list d)) =
    shown_sized fs t <$> visible (abs_dir d) ∧
  persist_shown <$> no_dots (d_list d) = shown t <$> visible (abs_dir d).
Proof.
  intros Hv He. unfold abs_dir. rewrite visible_abs by done.
  assert (Forall (entry_ok t) (no_dots (d_list d))) as Hn by (apply Forall_forall; intros e [_ H]%list_elem_of_filter;
      by eapply (proj1 (Forall_forall _ _) He)).
  rewrite <- !list_fmap_compose. split; apply list_fmap_ext; intros x e Hx;
    eapply Forall_lookup_1 in Hx; [|exact Hn| |exact Hn]; cbn.
  - by apply filler_candidate.
  - by apply persist_shown_abs.
Qed.

(** [resolve_path] on a directory of the name space, then loading it. *)
Lemma dir_node_load fs t k d i now :
  fs_inv fs → tree fs t → dir_is fs k d → (fs_inodes fs).[k] = Some i → i_size i ≠ 0 →
  ∃ fs', dir_load fs k now = Some (fs', d) ∧ fs_inv fs' ∧ quiet fs fs'.
Proof.
  intros Hinv Ht Hd Hi Hs. pose proof (size_at_inode _ _ _ Hi) as Hsz.
  destruct (dir_load_ok fs k d now (inv_wf _ Hinv) Hd)
    as (fs' & Hld & Hwf' & Hm & Hsame & _); [congruence|].
  exists fs'. split; [exact Hld|]. split; [by eapply fs_inv_modifies|].
  by eapply modifies_quiet.
Qed.

Lemma shown_sized_quiet fs fs' t k l :
  tree fs t → t !! k = Some l → quiet fs fs' →
  shown_sized fs' t <$> visible l = shown_sized fs t <$> visible l.
Proof.
  intros Ht Hk Hq. apply list_fmap_ext. intros x [n i] Hx. unfold shown_sized. cbn [fst snd].
  apply list_elem_of_lookup_2 in Hx. unfold visible in Hx.
  apply list_elem_of_filter in Hx as [_ Hx].
  destruct (tr_entry _ _ Ht k l n i Hk Hx) as [Hl _].
  destruct (Hq i Hl) as (_ & [_ E] & _). by rewrite E.
Qed.

(** The result of a listing of the path, [f] giving the entries shown. *)
Definition listing_result {A} (t : gmap Z adir) (path : list Z)
    (f : adir → Z + list (list Z * option A) → Prop) (r : Z + list (list Z * option A)) : Prop :=
  let k := aresolve t path in
  if k <? 0 then r = inl k
  else match t !! k with
       | None => r = inl (- ENOTDIR)
       | Some l => f l r
       end.

(** Both handlers resolve the path, test the type and load the directory. *)
Lemma listing_dir fs t path now :
  fs_inv fs → tree fs t → cstring path →
  let k := aresolve t path in
  ∃ fs1, resolve_path fs path now = Some (fs1, k) ∧ fs_inv fs1 ∧ quiet fs fs1 ∧
    (0 ≤ k → ∃ i, (fs_inodes fs1).[k] = Some i ∧
       (i_type i =? ft_val IDKFS_FT_DIR) = bool_decide (is_Some (t !! k)) ∧
       ∀ l, t !! k = Some l → ∃ d, l = abs_dir d ∧ dir_ok d ∧
         Forall (cvalid DirEntry_codec) (d_list d) ∧ Forall (entry_ok t) (d_list d) ∧
         if i_size i =? 0 then d_list d = []
         else ∃ fs2, dir_load fs1 k now = Some (fs2, d) ∧ fs_inv fs2 ∧ quiet fs fs2 ∧
           Forall (λ e, live_at fs2 (e_inode e)) (d_list d)).
Proof.
  intros Hinv Ht Hp k.
  destruct (resolve_path_ok fs t path now Hinv Ht Hp) as (fs1 & Hr & Hinv1 & [Hq _] & Hn).
  exists fs1. split; [exact Hr|]. split; [exact Hinv1|]. split; [exact Hq|]. fold k in Hn.
  intros H. destruct (Hn H) as [(i & Hi & _) Hty]. exists i. split; [exact Hi|].
  assert (type_at fs1 k = i_type i) as Hti by (unfold type_at; by rewrite Hi).
  pose proof (tree_quiet _ _ _ Hq Ht) as Ht1. rewrite <- Hti. split.
  { destruct (t !! k) as [l|] eqn:Hk.
    - destruct (tr_dir _ _ Ht1 k l Hk) as [_ ->]. by rewrite bool_decide_true.
    - rewrite bool_decide_false by by intros []. apply Z.eqb_neq. by apply Hty. }
  intros l Hk. destruct (tr_dir _ _ Ht1 k l Hk) as [(d & Hd & <- & Hents) _].
  pose proof Hd as (_ & Hok & Hsz).
  destruct (dir_entries_ok fs1 t k d Ht1 Hk Hok) as (_ & Hv & _).
  exists d. split_and!; [done|exact Hok|exact Hv|exact Hents|].
  destruct (Z.eqb_spec (i_size i) 0) as [E|E].
  - rewrite (size_at_inode _ _ _ Hi) in Hsz. destruct Hsz as [[_ ->]|[Hsz _]]; [done|].
    unfold DIR_BYTES in Hsz. lia.
  - destruct (dir_node_load fs1 t k d i now Hinv1 Ht1 Hd Hi E) as (fs2 & Hl & Hinv2 & Hq2).
    exists fs2. split_and!; [exact Hl|exact Hinv2|by eapply quiet_trans|].
    apply (dir_entries_ok fs2 t k d); [by eapply tree_quiet|done|done].
Qed.

Lemma fuse_readdir_ok sort ready fs t path now :
  fs_inv fs → tree fs t → cstring path →
  ∃ fs' r, fuse_readdir sort ready fs path now = Some (fs', r) ∧ fs_inv fs' ∧ quiet fs fs' ∧
    listing_result t path (λ l r, ∃ cs out,
      r = inr ([(DOT, None); (DOTDOT, None)] ++ (filler_entry <$> out)) ∧
      (filler_entry <$> cs) = (shown_sized fs t <$> visible l) ∧
      Forall (λ c, sc_entry_type c = ft_val IDKFS_FT_DIR ∨
                   sc_entry_type c = ft_val IDKFS_FT_FILE) cs ∧
      ((out = cs ∧ (ready = false ∨ (length cs ≤ 1)%nat)) ∨
       (ready = true ∧ out = sort cs))) r.
Proof.
  intros Hinv Ht Hp. unfold fuse_readdir, listing_result.
  destruct (listing_dir fs t path now Hinv Ht Hp) as (fs1 & -> & Hinv1 & Hq & Hn). ostep.
  set (k := aresolve t path) in *. destruct (Z.ltb_spec k 0); [by exists fs1, (inl k)|].
  destruct Hn as (i & -> & Ety & Hd); [done|]. ostep. rewrite Ety.
  destruct (t !! k) as [l|] eqn:Hk; [|by exists fs1, (inl (- ENOTDIR))].
  rewrite bool_decide_true by done. cbn [negb].
  destruct (Hd l eq_refl) as (d & -> & Hok & Hv & He & Hl).
  destruct (i_size i =? 0).
  { exists fs1, (inr [(DOT, None); (DOTDOT, None)]). split_and!; [done..|].
    exists [], []. unfold abs_dir. rewrite Hl. split_and!; [done|done|constructor|].
    left. split; [done|]. right. cbn. lia. }
  destruct Hl as (fs2 & -> & Hinv2 & Hq2 & Hlive). ostep.
  destruct (dir_valid_fields d Hok) as (Hc & Hlen & _).
  rewrite readdir_collect_ok; [|lia|lia|unfold IDKFS_MAX_DIRENTS; lia|exact Hlive]. ostep.
  change (drop (Z.to_nat 0) (d_entries d)) with (d_entries d). fold (d_list d).
  eexists fs2, _. split_and!; [done|exact Hinv2|exact Hq2|].
  eexists _, _. split; [reflexivity|]. split.
  - rewrite <- (shown_sized_quiet fs fs2 t k) by done. by apply visible_shown.
  - split.
    { apply Forall_fmap, Forall_forall. intros e [_ Hin]%list_elem_of_filter.
      rewrite Forall_forall in He. destruct (He e Hin) as [_ Hty]. cbn. rewrite Hty.
      destruct (t !! e_inode e); auto. }
    destruct (_ && ready) eqn:Er.
    + right. by apply andb_true_iff in Er as [_ ->].
    + left. split; [done|]. destruct ready; [right|by left].
      rewrite andb_true_r in Er. apply Z.ltb_ge in Er. lia.
Qed.

Lemma persist_readdir_ok fs t path now :
  fs_inv fs → tree fs t → cstring path →
  ∃ fs' r, persist_readdir fs path now = Some (fs', r) ∧ fs_inv fs' ∧ quiet fs fs' ∧
    listing_result t path (λ l r,
      r = inr ([(DOT, None); (DOTDOT, None)] ++ (shown t <$> visible l))) r.
Proof.
  intros Hinv Ht Hp. unfold persist_readdir, listing_result.
  destruct (listing_dir fs t path now Hinv Ht Hp) as (fs1 & -> & Hinv1 & Hq & Hn). ostep.
  set (k := aresolve t path) in *. destruct (Z.ltb_spec k 0); [by exists fs1, (inl k)|].
  destruct Hn as (i & -> & Ety & Hd); [done|]. ostep. rewrite Ety.
  destruct (t !! k) as [l|] eqn:Hk; [|by exists fs1, (inl (- ENOTDIR))].
  rewrite bool_decide_true by done. cbn [negb].
  destruct (Hd l eq_refl) as (d & -> & Hok & Hv & He & Hl).
  destruct (i_size i =? 0).
  { exists fs1, (inr [(DOT, None); (DOTDOT, None)]). split_and!; [done..|].
    unfold abs_dir. by rewrite Hl. }
  destruct Hl as (fs2 & -> & Hinv2 & Hq2 & Hlive). ostep.
  destruct (dir_valid_fields d Hok) as (Hc & Hlen & _).
  rewrite persist_readdir_fill_ok by lia. ostep.
  change (drop (Z.to_nat 0) (d_entries d)) with (d_entries d). fold (d_list d).
  eexists fs2, _. split_and!; [done|exact Hinv2|exact Hq2|].
  do 2 f_equal. by eapply (visible_shown fs2).
Qed.
