(* ===== verification/Session.v ===== *)
(** * Sessions: sequences of FUSE calls

    A mounted file system evolves by calls of the handlers.  The kernel side
    of FUSE promises the conditions [call_ok]: handles of regular files,
    requests within the 49152 bytes of the direct blocks, a resolved parent.
    Under them no sequence of calls from a formatted image reaches undefined
    behaviour or breaks the invariant. *)

From S2P Require Import Prelude Cint CString Codec Mem CoreTypes Crc Bitmap.
From S2P Require Import Core FileIO Dir Fs Mkfs Spec Persist Fuse.
From S2P Require Import Tree FuseSpec Listing.

(** The entries of the operation tables, but for [destroy], which ends a session
    ([idkfs_fuse_destroy], Persist.v). *)
Inductive call :=
| Getattr (path : list Z)
| Open (path : list Z)
| Read (fh size offset : Z)
| Write (fh : Z) (buf : list Z) (offset : Z)
| Create (path : list Z) (mode : Z)
| Mkdir (path : list Z) (mode : Z)
| Unlink (path : list Z)
| Truncate (path : list Z) (size : Z)
| Utimens (path : list Z) (atime mtime : Z)
| Readdir (path : list Z)
| Chmod (path : list Z) (mode : Z)
| Statfs (path : list Z).

(** The two front ends differ in the work at the end of an operation and in
    the listing of a directory. *)
Record front := mkFront {
  fr_sync : IDKFS → option IDKFS;
  fr_list : IDKFS → list Z → Z → option IDKFS;
}.

Definition fuse_front (sort : list SortCandidate → list SortCandidate) (ready : bool) : front :=
  mkFront Some (λ fs path now, fst <$> fuse_readdir sort ready fs path now).
Definition persist_front : front :=
  mkFront idkfs_flush_to_image (λ fs path now, fst <$> persist_readdir fs path now).

(** What the sessions need of a front end. *)
Class FrontOk (fr : front) := {
  front_sync :: SyncOk (fr_sync fr);
  front_list fs t path now :
    fs_inv fs → tree fs t → cstring path →
    ∃ fs', fr_list fr fs path now = Some fs' ∧ fs_inv fs' ∧ tree fs' t;
}.

#[export] Instance fuse_front_ok sort ready : FrontOk (fuse_front sort ready).
Proof.
  split; [exact no_sync_ok|]. intros fs t path now Hinv Ht Hp. cbn.
  destruct (fuse_readdir_ok sort ready fs t path now Hinv Ht Hp) as (fs' & r & -> & ? & ? & _).
  exists fs'. split_and!; [done|done|by eapply tree_quiet].
Qed.

#[export] Instance persist_front_ok : FrontOk persist_front.
Proof.
  split; [exact flush_sync_ok|]. intros fs t path now Hinv Ht Hp. cbn.
  destruct (persist_readdir_ok fs t path now Hinv Ht Hp) as (fs' & r & -> & ? & ? & _).
  exists fs'. split_and!; [done|done|by eapply tree_quiet].
Qed.

(** The state after a call; [None] is undefined behaviour. *)
Definition run_call (fr : front) (c : call) (now : Z) (fs : IDKFS) :
    option IDKFS :=
  match c with
  | Getattr path => fst <$> fuse_getattr fs path now
  | Open path => fst <$> fuse_open fs path now
  | Read fh size offset => fst <$> fuse_read (fr_sync fr) fs fh size offset now
  | Write fh buf offset => fst <$> fuse_write (fr_sync fr) fs fh buf offset now
  | Create path mode => fst <$> fuse_create (fr_sync fr) fs path mode now
  | Mkdir path mode => fst <$> fuse_mkdir (fr_sync fr) fs path mode now
  | Unlink path => fst <$> fuse_unlink (fr_sync fr) fs path now
  | Truncate path size => fst <$> fuse_truncate (fr_sync fr) fs path size now
  | Utimens path atime mtime => fst <$> fuse_utimens (fr_sync fr) fs path atime mtime now
  | Readdir path => fr_list fr fs path now
  | Chmod path mode => fst <$> fuse_chmod (fr_sync fr) fs path mode now
  | Statfs _ => fst <$> Some (fs, fuse_statfs fs)
  end.

(** The callers' side of the contract. *)
Definition call_ok (fs : IDKFS) (t : gmap Z adir) (c : call) : Prop :=
  match c with
  | Getattr path | Open path | Utimens path _ _ | Readdir path | Chmod path _
  | Statfs path => cstring path
  | Read fh size offset =>
      live_at fs fh ∧ size_at fs fh ≤ DIRECT_BYTES ∧ 0 ≤ offset ∧ 0 ≤ size ∧
      offset + size < 18446744073709551616
  | Write fh buf offset =>
      live_at fs fh ∧ t !! fh = None ∧ bytes buf ∧ 0 ≤ offset ∧
      offset + Z.of_nat (length buf) ≤ DIRECT_BYTES
  | Create path _ =>
      cstring path ∧
      ∀ p name, aresolve_parent t path = inr (p, name) → is_Some (t !! p)
  | Mkdir path _ =>
      cstring path ∧
      ∀ p name, aresolve_parent t path = inr (p, name) →
        is_Some (t !! p) ∧ link_count_at fs p + 1 < 4294967296
  | Unlink path =>
      cstring path ∧ ∀ p name, aresolve_parent t path = inr (p, name) → name ≠ []
  | Truncate path _ => cstring path ∧ t !! aresolve t path = None
  end.

(** One call of a session. *)
Definition session_step (fr : front) (fs fs' : IDKFS) : Prop :=
  ∃ t c now, tree fs t ∧ call_ok fs t c ∧ run_call fr c now fs = Some fs'.

Definition session (fr : front) : IDKFS → IDKFS → Prop :=
  steps (session_step fr).

(** The state of a mounted file system. *)
Definition mounted (fs : IDKFS) : Prop := fs_inv fs ∧ ∃ t, tree fs t.

(** A call that ran, with its invariant and name space in the context. *)
Ltac run_done := eexists; split; [reflexivity|split; [assumption|eexists; eassumption]].

Section session.
Context (fr : front) `{!FrontOk fr}.

Lemma getattr_ok fs t path now :
  fs_inv fs → tree fs t → cstring path →
  ∃ fs' r, fuse_getattr fs path now = Some (fs', r) ∧ fs_inv fs' ∧ tree fs' t.
Proof using.
  clear. intros Hinv Ht Hp. unfold fuse_getattr.
  destruct (resolve_path_ok fs t path now Hinv Ht Hp) as (fs1 & -> & Hinv1 & [Hq _] & Hn). ostep.
  pose proof (tree_quiet _ _ _ Hq Ht) as Ht1. destruct (Z.ltb_spec (aresolve t path) 0).
  { eexists fs1, _. split; [done|]. split; [exact Hinv1|exact Ht1]. }
  destruct Hn as [(i & -> & _) _]; [done|]. ostep.
  eexists fs1, _. split; [done|]. split; [exact Hinv1|exact Ht1].
Qed.

Lemma open_ok fs t path now :
  fs_inv fs → tree fs t → cstring path →
  ∃ fs' r, fuse_open fs path now = Some (fs', r) ∧ fs_inv fs' ∧ tree fs' t.
Proof using.
  clear. intros Hinv Ht Hp. unfold fuse_open.
  destruct (resolve_path_ok fs t path now Hinv Ht Hp) as (fs1 & -> & Hinv1 & [Hq _] & Hn). ostep.
  pose proof (tree_quiet _ _ _ Hq Ht) as Ht1.
  destruct (aresolve t path <? 0); (eexists fs1, _; split; [done|]; split; [exact Hinv1|exact Ht1]).
Qed.

Lemma run_call_ok fs t c now :
  fs_inv fs → tree fs t → call_ok fs t c →
  ∃ fs', run_call fr c now fs = Some fs' ∧ mounted fs'.
Proof using FrontOk0.
  intros Hinv Ht Hc. destruct c; cbn [call_ok run_call] in *.
  - destruct (getattr_ok fs t path now Hinv Ht Hc) as (fs' & r & -> & ? & ?). run_done.
  - destruct (open_ok fs t path now Hinv Ht Hc) as (fs' & r & -> & ? & ?). run_done.
  - destruct Hc as (H1 & H2 & H3 & H4 & H5).
    destruct (fuse_read_ok (fr_sync fr) fs t fh size offset now Hinv Ht H1 H2 H3 H4 H5)
      as (fs' & out & -> & ? & ?). run_done.
  - destruct Hc as (H1 & H2 & H3 & H4 & H5).
    destruct (fuse_write_ok (fr_sync fr) fs t fh buf offset now Hinv Ht H1 H2 H3 H4 H5)
      as (fs' & -> & ? & ? & _). run_done.
  - destruct (fuse_create_ok (fr_sync fr) fs t path mode now Hinv Ht (proj1 Hc) (proj2 Hc))
      as (fs' & r & -> & ? & [t' ?]%create_outcome_tree). run_done.
  - destruct (fuse_mkdir_ok (fr_sync fr) fs t path mode now Hinv Ht (proj1 Hc) (proj2 Hc))
      as (fs' & r & -> & ? & [t' ?]%mkdir_outcome_tree). run_done.
  - destruct (fuse_unlink_ok (fr_sync fr) fs t path now Hinv Ht (proj1 Hc) (proj2 Hc))
      as (fs' & r & -> & ? & [t' ?]%unlink_outcome_tree). run_done.
  - destruct Hc as (H1 & H2).
    destruct (fuse_setattr_ok (fr_sync fr) (set_i_size (u64 size)) fs t path now Hinv Ht H1)
      as (fs' & r & Hr & ? & ? & _); [|done|by rewrite H2; intros []|].
    { intros i Hv. apply set_i_size_valid; [apply u64_range|done]. }
    unfold fuse_truncate. rewrite Hr. run_done.
  - unfold fuse_utimens. destruct (timestamps (fs_features fs)); [|run_done].
    destruct (fuse_setattr_ok (fr_sync fr) (λ i, set_i_mtime (u64 mtime) (set_i_atime (u64 atime) i))
      fs t path now Hinv Ht Hc) as (fs' & r & -> & ? & ? & _); [|done|done|run_done].
    intros i Hv. apply set_i_mtime_valid, set_i_atime_valid; auto using u64_range.
  - destruct (front_list fs t path now Hinv Ht Hc) as (fs' & -> & ? & ?). run_done.
  - destruct (fuse_setattr_ok (fr_sync fr) (set_i_mode (u16 mode)) fs t path now Hinv Ht Hc)
      as (fs' & r & Hr & ? & ? & _); [|done|done|].
    { intros i Hv. apply set_i_mode_valid; [apply u16_range|done]. }
    unfold fuse_chmod. rewrite Hr. run_done.
  - run_done.
Qed.

Lemma session_mounted fs fs' : session fr fs fs' → mounted fs → mounted fs'.
Proof using FrontOk0.
  apply steps_invariant. clear fs fs'.
  intros fs fs' (t & c & now & Ht & Hc & Hrun) [Hinv _].
  destruct (run_call_ok fs t c now Hinv Ht Hc) as (fs'' & Hrun' & Hm). congruence.
Qed.
End session.

(** A formatted file system holds the name space of an empty root. *)
Definition root_only : gmap Z adir := {[ 0 := [(DOT, 0); (DOTDOT, 0)] ]}.

Lemma root_only_tree fs :
  dir_node fs root_only 0 [(DOT, 0); (DOTDOT, 0)] → type_at fs 0 = ft_val IDKFS_FT_DIR →
  tree fs root_only.
Proof.
  intros Hr Ht.
  assert (Hin : ∀ k l n i, root_only !! k = Some l → (n, i) ∈ l → i = 0).
  { unfold root_only. intros k l n i [<- <-]%lookup_singleton_Some Hin.
    apply elem_of_cons in Hin as [?|Hin%list_elem_of_singleton]; congruence. }
  split.
  - unfold root_only. rewrite lookup_singleton_eq. eauto.
  - unfold root_only. by intros k l [<- <-]%lookup_singleton_Some.
  - intros k l n i Hk Hi. rewrite (Hin k l n i Hk Hi). split; [by eapply dir_node_live|].
    unfold root_only. by rewrite lookup_singleton_eq.
  - intros k l x n k' l' x' n' i Hk Hx _ _ Hi.
    apply list_elem_of_lookup_2 in Hx. rewrite (Hin k l n i Hk Hx) in Hi.
    unfold root_only in Hi. by rewrite lookup_singleton_eq in Hi.
Qed.

Lemma formatted_tree fs : formatted fs → tree fs root_only.
Proof.
  intros Hf. apply root_only_tree; [|apply (fmt_root_type _ Hf)].
  destruct (fmt_root _ Hf) as (d & e1 & e2 & Hd & Hl & Hn1 & Hn2 & Hi1 & Hi2 & Ha1 & Ha2).
  apply (dots_node fs root_only 0 0 d e1 e2); done || by eexists.
Qed.

(** ["/foo"] in a formatted file system. *)
Definition demo_path : list Z := [47; 102; 111; 111].

Lemma demo_tree :
  ∃ fs, idkfs_mkfs true true demo_label features_default 1700000000 = Some (Some fs) ∧
    fs_inv fs ∧ tree fs root_only ∧ link_count_at fs 0 = 2 ∧
    sb_magic (fs_sb fs) = IDKFS_MAGIC.
Proof.
  destruct demo_fs as (fs & Hmk & Hf & _). exists fs.
  split; [exact Hmk|]. split; [apply (fmt_inv _ Hf)|].
  split; [by apply formatted_tree|].
  split; [apply (fmt_root_links _ Hf)|apply (fmt_magic _ Hf)].
Qed.

Lemma demo_parent : aresolve_parent root_only demo_path = inr (0, demo_name).
Proof. reflexivity. Qed.

(** C12: path resolution, in the presence of the name space [t], returns what
    walking [t] returns: the inode reached, [-ENOENT] at a missing component,
    [-ENOTDIR] at a component below a file; it changes no file, and a
    successful result is a live inode. *)
Theorem resolve_path_refines fs t path now :
  fs_inv fs → tree fs t → cstring path →
  ∃ fs', resolve_path fs path now = Some (fs', aresolve t path) ∧
    fs_inv fs' ∧ tree fs' t ∧ (0 ≤ aresolve t path → live_at fs' (aresolve t path)).
Proof.
  intros Hinv Ht Hp.
  destruct (resolve_path_ok fs t path now Hinv Ht Hp) as (fs' & -> & Hinv' & [Hq _] & Hn).
  exists fs'. split_and!; [done|exact Hinv'|by eapply tree_quiet|].
  intros H. by destruct (Hn H).
Qed.

Lemma demo_path_ok : cstring demo_path.
Proof. repeat constructor. Qed.

Lemma resolve_path_refines_witness :
  ∃ fs fs', resolve_path fs demo_path 3 = Some (fs', - ENOENT) ∧ fs_inv fs'.
Proof.
  destruct demo_tree as (fs & _ & Hinv & Ht & _). exists fs.
  destruct (resolve_path_refines fs root_only demo_path 3 Hinv Ht demo_path_ok)
    as (fs' & Hr & Hi & _). exists fs'. split; [exact Hr|exact Hi].
Defined.

(** C10: [fuse_create] resolves the parent.  With a free inode and a parent
    that is not full it takes the first free inode, and no other, and enters
    the name with this new, empty, live inode in the parent directory of the
    name space; when no inode is free or the parent is full, and only then, it
    returns [-ENOSPC] and leaves name space and inodes as they were.  It never
    runs into undefined behaviour and keeps the invariant. *)
Theorem fuse_create_refines sync `{!SyncOk sync} fs t path mode now :
  fs_inv fs → tree fs t → cstring path →
  (∀ p name, aresolve_parent t path = inr (p, name) → is_Some (t !! p)) →
  ∃ fs' r, fuse_create sync fs path mode now = Some (fs', r) ∧ fs_inv fs' ∧
    create_outcome t path fs fs' r.
Proof. apply fuse_create_ok. done. Qed.

Lemma demo_free : ∃ fs, idkfs_mkfs true true demo_label features_default 1700000000 = Some (Some fs) ∧
  fs_inv fs ∧ tree fs root_only ∧ link_count_at fs 0 = 2 ∧
  ∀ k, 1 ≤ k < IDKFS_MAX_INODES → ino_free fs k = true.
Proof.
  destruct demo_fs as (fs & Hmk & Hf & _). exists fs. split; [exact Hmk|].
  split; [apply (fmt_inv _ Hf)|]. split; [by apply formatted_tree|].
  split; [apply (fmt_root_links _ Hf)|apply (fmt_free _ Hf)].
Qed.

Lemma fuse_create_refines_witness :
  ∃ fs fs', persist_create fs demo_path 420 3 = Some (fs', inr 1) ∧ fs_inv fs' ∧
    tree fs' {[ 0 := [(DOT, 0); (DOTDOT, 0); (demo_name, 1)] ]}.
Proof.
  destruct demo_free as (fs & _ & Hinv & Ht & _ & Hfree).
  destruct (fuse_create_refines idkfs_flush_to_image fs root_only demo_path 420 3 Hinv Ht
    demo_path_ok) as (fs' & r & Hc & Hinv' & Ho).
  { intros p name. rewrite demo_parent. intros [= <- <-]. by eexists. }
  unfold create_outcome in Ho. rewrite demo_parent in Ho. destruct Ho as (l & Hl & _ & Ho).
  injection Hl as <-. assert (ino_free fs 1 = true) as H1 by (apply Hfree; fs_unfold; lia).
  destruct Ho as [(_ & [Hno|Hfull] & _)|(k & l' & -> & [(Hk & _ & Hlt) _] & _ & [= <-] & Ht' & _)].
  - rewrite Hno in H1; [discriminate H1|fs_unfold; lia].
  - discriminate Hfull.
  - assert (k = 1) as ->.
    { destruct (Z.eq_dec k 1); [done|]. rewrite Hlt in H1 by lia. discriminate H1. }
    exists fs, fs'. split; [exact Hc|]. split; [exact Hinv'|].
    unfold root_only in Ht'. rewrite insert_singleton_eq in Ht'. exact Ht'.
Defined.

(** A file ["/foo"] created next to the entries [l] of the root. *)
Lemma create_foo fs t (l : adir) n :
  fs_inv fs → tree fs t → t !! 0 = Some l → Z.of_nat (length l) < 128 →
  1 ≤ n < IDKFS_MAX_INODES → ino_free fs n = true →
  ∃ fs' k, fs_inv fs' ∧ takes_inode fs fs' k ∧ 1 ≤ k ≤ n ∧ t !! k = None ∧
    tree fs' (<[0 := l ++ [(demo_name, k)]]> t) ∧ live_at fs' k ∧
    link_count_at fs' 0 = link_count_at fs 0.
Proof.
  intros Hinv Ht Hl Hlen Hn Hfree.
  assert (aresolve_parent t demo_path = inr (0, demo_name)) as Hp by reflexivity.
  destruct (fuse_create_ok Some fs t demo_path 420 3 Hinv Ht demo_path_ok)
    as (fs' & r & _ & Hinv' & Ho).
  { intros p name. rewrite Hp. intros [= <- <-]. by eexists. }
  unfold create_outcome in Ho. rewrite Hp in Ho. destruct Ho as (l0 & Hl0 & Hlc & Ho).
  simplify_eq. destruct Ho as [(_ & [Hno|Hfull] & _)|(k & l' & _ & Htake & Htk & Hadd & Ht' & Hk & _)].
  - by rewrite Hno in Hfree.
  - unfold dir_full, IDKFS_MAX_DIRENTS in Hfull. lia.
  - unfold adir_add in Hadd. zcase_in Hadd; [lia|]. injection Hadd as <-.
    exists fs', k. split_and!; try done.
    + apply Htake.
    + destruct Htake as [(_ & _ & Hlt) _]. destruct (Z.le_gt_cases k n); [done|].
      rewrite Hlt in Hfree by lia. done.
Qed.

(** A root with [2 + n] entries. *)
Lemma demo_fill n :
  (n ≤ 126)%nat →
  ∃ fs t (l : adir), fs_inv fs ∧ tree fs t ∧ t !! 0 = Some l ∧ Z.of_nat (length l) = 2 + Z.of_nat n ∧
    link_count_at fs 0 = 2 ∧ ∀ k, Z.of_nat n < k < IDKFS_MAX_INODES → ino_free fs k = true.
Proof.
  induction n as [|n IH]; intros Hn.
  { destruct demo_free as (fs & _ & Hinv & Ht & Hlc & Hfree).
    exists fs, root_only, [(DOT, 0); (DOTDOT, 0)]. split_and!; try done.
    intros k Hk. apply Hfree. lia. }
  destruct IH as (fs & t & l & Hinv & Ht & Hl & Hlen & Hlc & Hfree); [lia|].
  destruct (create_foo fs t l (Z.of_nat n + 1) Hinv Ht Hl)
    as (fs' & k & Hinv' & [_ Hf'] & Hk & _ & Ht' & _ & Hlc'); [lia|fs_unfold; lia| |].
  { apply Hfree. fs_unfold. lia. }
  eexists fs', _, _. split; [exact Hinv'|]. split; [exact Ht'|].
  split; [apply lookup_insert_eq|]. split; [rewrite length_app; cbn; lia|].
  split; [by rewrite Hlc'|]. intros k' Hk'. rewrite Hf'. zcase; [lia|]. apply Hfree. lia.
Qed.

(** C11: [fuse_mkdir] resolves the parent and, with a free inode, takes the
    first one, makes it a directory holding ["."] and [".."] and returns 0;
    it is entered in the parent unless the parent is full: then 0 is returned
    all the same, and no directory has an entry for the new one.  When no
    inode is free, and only then, it fails with [-ENOSPC], and name space and
    inodes are as they were. *)
Theorem fuse_mkdir_refines sync `{!SyncOk sync} fs t path mode now :
  fs_inv fs → tree fs t → cstring path →
  (∀ p name, aresolve_parent t path = inr (p, name) →
     is_Some (t !! p) ∧ link_count_at fs p + 1 < 4294967296) →
  ∃ fs' r, fuse_mkdir sync fs path mode now = Some (fs', r) ∧ fs_inv fs' ∧
    mkdir_outcome t path fs fs' r.
Proof. apply fuse_mkdir_ok. done. Qed.

(** A full root: the call succeeds and the root has no new entry. *)
Lemma fuse_mkdir_refines_witness :
  ∃ fs t (l : adir) k fs', t !! 0 = Some l ∧ dir_full l ∧ fuse_mkdir Some fs demo_path 493 3 = Some (fs', 0) ∧
    fs_inv fs' ∧ 1 ≤ k ∧ tree fs' (<[k := [(DOT, k); (DOTDOT, 0)]]> t).
Proof.
  destruct (demo_fill 126) as (fs & t & l & Hinv & Ht & Hl & Hlen & Hlc & Hfree); [lia|].
  assert (aresolve_parent t demo_path = inr (0, demo_name)) as Hp by reflexivity.
  destruct (fuse_mkdir_refines Some fs t demo_path 493 3 Hinv Ht demo_path_ok)
    as (fs' & r & Hc & Hinv' & Ho).
  { intros p name. rewrite Hp. intros [= <- <-]. rewrite Hlc. split; [by eexists|lia]. }
  unfold mkdir_outcome in Ho. rewrite Hp in Ho. destruct Ho as (l0 & Hl0 & Ho). simplify_eq.
  destruct Ho as [(_ & Hno & _)|(k & -> & [(Hk & _) _] & _ & Ht')].
  { assert (ino_free fs 200 = true) as H1 by (apply Hfree; fs_unfold; lia).
    rewrite Hno in H1; [discriminate H1|fs_unfold; lia]. }
  exists fs, t, l, k, fs'. split; [exact Hl|]. split; [exact Hlen|]. split; [exact Hc|].
  split; [exact Hinv'|]. split; [lia|]. cbn zeta in Ht'. unfold adir_add in Ht'.
  rewrite Hlen in Ht'. exact Ht'.
Defined.

(** C9: [fuse_unlink] of a file removes its entry from the parent, releases
    every block it owned (the invariant with its exact free-block count and no
    leaked block holds afterwards) and frees its inode; a directory is refused
    with [-EISDIR], a missing path with its resolution error, and then the
    name space is as it was. *)
Theorem fuse_unlink_refines sync `{!SyncOk sync} fs t path now :
  fs_inv fs → tree fs t → cstring path →
  (∀ p name, aresolve_parent t path = inr (p, name) → name ≠ []) →
  ∃ fs' r, fuse_unlink sync fs path now = Some (fs', r) ∧ fs_inv fs' ∧
    unlink_outcome t path fs' r.
Proof. apply fuse_unlink_ok. done. Qed.

Lemma demo_with_file :
  ∃ fs t k, fs_inv fs ∧ tree fs t ∧ aresolve t demo_path = k ∧ 0 ≤ k ∧ t !! k = None ∧
    aresolve_parent t demo_path = inr (0, demo_name) ∧ live_at fs k ∧
    t !! 0 =@{option adir} Some [(DOT, 0); (DOTDOT, 0); (demo_name, k)].
Proof.
  destruct demo_free as (fs & _ & Hinv & Ht & _ & Hfree).
  destruct (create_foo fs root_only [(DOT, 0); (DOTDOT, 0)] 1 Hinv Ht)
    as (fs' & k & Hinv' & _ & Hk & Hn & Ht' & Hl & _);
    [done|done|fs_unfold; lia|apply Hfree; fs_unfold; lia|].
  eexists fs', _, k. split; [exact Hinv'|]. split; [exact Ht'|]. split; [reflexivity|].
  split; [lia|]. split; [by rewrite lookup_insert_ne by lia|]. split; [reflexivity|].
  split; [exact Hl|]. apply lookup_insert_eq.
Qed.

Lemma fuse_unlink_refines_witness :
  ∃ fs t fs', fuse_unlink Some fs demo_path 3 = Some (fs', 0) ∧ fs_inv fs' ∧
    unlink_outcome t demo_path fs' 0.
Proof.
  destruct demo_with_file as (fs & t & k & Hinv & Ht & Hk & Hpos & Hn & Hp & _).
  destruct (fuse_unlink_refines Some fs t demo_path 3 Hinv Ht demo_path_ok)
    as (fs' & r & Hu & Hinv' & Ho).
  { intros p name. rewrite Hp. by intros [= <- <-]. }
  assert (r = 0) as ->.
  { unfold unlink_outcome in Ho. rewrite Hp, Hk, Hn in Ho.
    rewrite (proj2 (Z.ltb_ge k 0) Hpos) in Ho. apply Ho. }
  exists fs, t, fs'. split; [exact Hu|]. split; [exact Hinv'|exact Ho].
Defined.

(** C13: [fuse_readdir] shows the directory a path names, for any sort that
    permutes its input: ["."], [".."], and then each other entry once, under
    its whole name, with its inode, the mode of its kind and its size, in the
    order of the directory when sorting is off; an unresolved path and a path
    of a file get their errors.  No file changes. *)
Theorem fuse_readdir_lists sort ready fs t path now :
  fs_inv fs → tree fs t → cstring path → (∀ cs, sort cs ≡ₚ cs) →
  ∃ fs' r, fuse_readdir sort ready fs path now = Some (fs', r) ∧ fs_inv fs' ∧ tree fs' t ∧
    listing_result t path (λ l r, ∃ out,
      r = inr ([(DOT, None); (DOTDOT, None)] ++ out) ∧
      out ≡ₚ shown_sized fs t <$> visible l ∧
      (ready = false → out = shown_sized fs t <$> visible l)) r.
Proof.
  intros Hinv Ht Hp Hsort.
  destruct (fuse_readdir_ok sort ready fs t path now Hinv Ht Hp)
    as (fs' & r & Hr & Hinv' & Hq & Hl).
  exists fs', r. split_and!; [exact Hr|exact Hinv'|by eapply tree_quiet|].
  revert Hl. unfold listing_result. destruct (_ <? 0); [done|]. destruct (t !! _); [|done].
  intros (cs & out & -> & <- & _ & Ho). exists (filler_entry <$> out). split; [done|].
  destruct Ho as [[-> _] | [-> ->]]; [done|]. split; [by rewrite Hsort|done].
Qed.

Lemma fuse_readdir_lists_witness :
  ∃ fs k fs' m, fuse_readdir reverse true fs [SLASH] 3 =
    Some (fs', inr [(DOT, None); (DOTDOT, None); (demo_name, Some (k, S_IFREG + 420, m))]).
Proof.
  destruct demo_with_file as (fs & t & k & Hinv & Ht & _ & _ & Hn & _ & _ & H0).
  exists fs, k.
  destruct (fuse_readdir_lists reverse true fs t [SLASH] 3 Hinv Ht) as (fs' & r & Hr & _ & _ & Hl);
    [by repeat constructor|intros cs; by rewrite reverse_Permutation|].
  exists fs', (i64 (size_at fs k)). rewrite Hr. unfold listing_result in Hl.
  change (aresolve t [SLASH]) with 0 in Hl. rewrite H0 in Hl. cbn [Z.ltb Z.compare] in Hl.
  destruct Hl as (out & -> & Hout & _).
  assert (shown_sized fs t <$> visible [(DOT, 0); (DOTDOT, 0); (demo_name, k)] =
    [(demo_name, Some (k, S_IFREG + 420, i64 (size_at fs k)))]) as E.
  { change (visible [(DOT, 0); (DOTDOT, 0); (demo_name, k)]) with [(demo_name, k)].
    unfold shown_sized, shown_mode. cbn. by rewrite Hn. }
  rewrite E in Hout. apply Permutation_singleton_r in Hout as ->. reflexivity.
Defined.

(** the listing of [idkfs_persist.c] is exact: ["."], [".."], and then
    every other entry of the directory in order, under its whole name, with
    its inode and the mode of its kind; errors as for [fuse_readdir]. *)
Theorem persist_readdir_lists fs t path now :
  fs_inv fs → tree fs t → cstring path →
  ∃ fs' r, persist_readdir fs path now = Some (fs', r) ∧ fs_inv fs' ∧ tree fs' t ∧
    listing_result t path (λ l r,
      r = inr ([(DOT, None); (DOTDOT, None)] ++ (shown t <$> visible l))) r.
Proof.
  intros Hinv Ht Hp. destruct (persist_readdir_ok fs t path now Hinv Ht Hp)
    as (fs' & r & Hr & Hinv' & Hq & Hl).
  exists fs', r. split_and!; [exact Hr|exact Hinv'|by eapply tree_quiet|exact Hl].
Qed.

Lemma persist_readdir_lists_witness :
  ∃ fs k fs', persist_readdir fs [SLASH] 3 =
    Some (fs', inr [(DOT, None); (DOTDOT, None); (demo_name, Some (k, S_IFREG + 420))]).
Proof.
  destruct demo_with_file as (fs & t & k & Hinv & Ht & _ & _ & Hn & _ & _ & H0).
  exists fs, k.
  destruct (persist_readdir_lists fs t [SLASH] 3 Hinv Ht) as (fs' & r & Hr & _ & _ & Hl);
    [by repeat constructor|].
  exists fs'. rewrite Hr. unfold listing_result in Hl.
  change (aresolve t [SLASH]) with 0 in Hl. rewrite H0 in Hl. cbn [Z.ltb Z.compare] in Hl.
  change (visible [(DOT, 0); (DOTDOT, 0); (demo_name, k)]) with [(demo_name, k)] in Hl.
  rewrite Hl. unfold shown, shown_mode. cbn. by rewrite Hn.
Defined.

(** C1: from a formatted file system, every sequence of FUSE calls within the
    contract leads to a state with the invariant and a name space, and there
    every further call within the contract is defined: the handlers never
    access memory out of bounds nor use an unread directory. *)
Theorem session_safe fr `{!FrontOk fr} label features now0 fs0 fs t c now :
  cstring label → idkfs_mkfs true true label features now0 = Some (Some fs0) →
  session fr fs0 fs →
  mounted fs ∧ (tree fs t → call_ok fs t c →
    ∃ fs', run_call fr c now fs = Some fs' ∧ mounted fs').
Proof.
  intros Hlabel Hmk Hs.
  destruct (idkfs_mkfs_ok label features now0 Hlabel) as (fs1 & Hmk' & Hf & _).
  rewrite Hmk in Hmk'. injection Hmk' as Heq. rewrite <- Heq in Hf. clear fs1 Heq.
  assert (mounted fs) as Hm.
  { apply (session_mounted fr fs0); [exact Hs|]. split; [apply (fmt_inv _ Hf)|].
    exists root_only. by apply formatted_tree. }
  split; [exact Hm|]. intros Ht Hc. apply run_call_ok with t; [apply _|apply Hm|exact Ht|exact Hc].
Qed.

Lemma session_safe_witness :
  ∃ fs, session persist_front fs fs ∧ mounted fs ∧
    ∃ fs', run_call persist_front (Readdir demo_path) 7 fs = Some fs' ∧ mounted fs'.
Proof.
  destruct demo_tree as (fs & Hmk & _ & Ht & _). exists fs.
  split; [apply steps_refl|].
  destruct (session_safe persist_front demo_label features_default 1700000000 fs fs root_only
    (Readdir demo_path) 7) as [Hm Hn]; [repeat constructor|exact Hmk|apply steps_refl|].
  split; [exact Hm|]. apply Hn; [exact Ht|exact demo_path_ok].
Defined.

(** C6: a write through [idkfs_persist.c] is durable: once [fuse_write] has
    returned, mounting the image anew gives a file system with the same
    inodes in which the file holds the bytes written. *)
Theorem persist_write_durable fs fh buf offset now now' :
  fs_inv fs → live_at fs fh → sb_magic (fs_sb fs) = IDKFS_MAGIC → bytes buf →
  0 ≤ offset → offset + Z.of_nat (length buf) ≤ DIRECT_BYTES →
  ∃ fs' fs2, persist_write fs fh buf offset now = Some (fs', Z.of_nat (length buf)) ∧
    idkfs_mount_image (fs_disk fs') false true now' = Some (Some fs2) ∧
    fs_inodes fs2 = fs_inodes fs' ∧
    ∀ p, offset ≤ p < offset + Z.of_nat (length buf) → fbyte fs2 fh p = buf.[p - offset].
Proof.
  intros Hinv Hl Hmagic Hbuf Ho Hmax. pose proof (inv_wf _ Hinv) as Hwf.
  pose proof (live_range _ _ Hwf Hl) as Hr. unfold persist_write, fuse_write.
  rewrite u32_small by (fs_unfold; lia). rewrite u64_small by (fs_unfold; lia).
  destruct (Z.leb_spec IDKFS_MAX_INODES fh); [lia|].
  destruct (idkfs_write_room fs fh buf offset now Hwf Hl Hbuf Ho Hmax)
    as (fs1 & -> & Hwf1 & Hm1 & _ & Hin & _); [by apply fs_wf_blocks|]. ostep.
  destruct (flush_then_mount fs1 now' Hwf1) as (d & -> & Hs & _ & Hd & Hm).
  { pose proof (f_equal sb_magic (mod_sb _ _ _ Hm1)) as E. cbn in E. congruence. }
  ostep. rewrite i32_small by (fs_unfold; lia).
  eexists _, _. split; [reflexivity|]. split; [exact Hm|]. split; [done|].
  intros p Hp. rewrite <- Hin by done.
  apply (same_data fs1); [exact Hwf1|done| |by apply (modifies_live _ _ _ _ Hm1)].
  intros b off Hb Hoff. cbn [remounted set_fs_inodes set_fs_bitmap set_fs_sb fs_disk
    IDKFS_calloc]. rewrite Hd. by apply flushed_data.
Qed.

Lemma persist_write_durable_witness :
  ∃ fs fs' fs2, persist_write fs 0 demo_name 100 4 = Some (fs', 3) ∧
    idkfs_mount_image (fs_disk fs') false true 5 = Some (Some fs2) ∧
    fbyte fs2 0 101 = Some 111.
Proof.
  destruct demo_tree as (fs & _ & Hinv & Ht & _ & Hmagic).
  assert (live_at fs 0) as Hl by apply (node_root _ _ Ht).
  destruct (persist_write_durable fs 0 demo_name 100 4 5 Hinv Hl Hmagic)
    as (fs' & fs2 & Hw & Hm & _ & Hb); [by apply cstring_bytes, demo_name_ok|lia|done|].
  exists fs, fs', fs2. split; [exact Hw|]. split; [exact Hm|].
  apply (Hb 101). cbn. lia.
Defined.
