(* ===== verification/SortSpec.v ===== *)
(** * Sorted listings

    The comparison of [sorting.lua] is a total preorder, so that [qsort] may
    use it, and a listing sorted with it is in the order of size, kind and
    lower-case name. *)

From S2P Require Import Prelude Cint CString Codec Mem CoreTypes Crc Bitmap.
From S2P Require Import Core FileIO Dir Fs Mkfs Spec Persist Fuse Libc.
From S2P Require Import Tree FuseSpec Sorting Listing Session.
From Stdlib Require Import Sorted.

(** ** The order of the script *)

Lemma lua_lt_irrefl a : lua_lt a a = false.
Proof. induction a as [|x a IH]; [done|]. cbn. rewrite IH, andb_false_r. zcase; lia || done. Qed.

Lemma lua_lt_asym a : ∀ b, lua_lt a b = true → lua_lt b a = false.
Proof.
  induction a as [|x a IH]; intros [|y b]; cbn; try done.
  zcases; try lia; try done. apply IH.
Qed.

Lemma lua_lt_antisym a : ∀ b, lua_lt a b = false → lua_lt b a = false → a = b.
Proof.
  induction a as [|x a IH]; intros [|y b]; cbn; try done.
  zcases; try lia; try done. intros H1 H2. subst. f_equal. by apply IH.
Qed.

Lemma lua_lt_trans a : ∀ b c, lua_lt b a = false → lua_lt c b = false → lua_lt c a = false.
Proof.
  induction a as [|x a IH]; intros [|y b] [|z c]; cbn; try done.
  zcases; try lia; try done. apply IH.
Qed.

(** What the script compares, as one string. *)
Definition sort_key (e : lua_entry) : list Z :=
  le_size e :: normalize_type (le_type e) :: lua_lower (le_name e).

Lemma compare_entries_key a b :
  compare_entries a b =
  if lua_lt (sort_key a) (sort_key b) then -1
  else if lua_lt (sort_key b) (sort_key a) then 1 else 0.
Proof.
  unfold compare_entries, sort_key. cbn. zcases; try lia; try done.
  case_bool_decide as E; [by rewrite E, lua_lt_irrefl|].
  destruct (lua_lt (lua_lower (le_name a)) _) eqn:E1; [done|].
  destruct (lua_lt (lua_lower (le_name b)) _) eqn:E2; [done|].
  by destruct E; apply lua_lt_antisym.
Qed.

Lemma compare_entries_le a b :
  compare_entries a b ≤ 0 ↔ lua_lt (sort_key b) (sort_key a) = false.
Proof.
  rewrite compare_entries_key. destruct (lua_lt (sort_key a) _) eqn:E.
  - apply lua_lt_asym in E as ->. by split.
  - destruct (lua_lt (sort_key b) _); (split; [done || lia|done || lia]).
Qed.

Lemma compare_entries_ge a b : 0 ≤ compare_entries a b ↔ compare_entries b a ≤ 0.
Proof.
  rewrite compare_entries_le, compare_entries_key.
  destruct (lua_lt (sort_key a) _) eqn:E; [split; [lia|done]|].
  by destruct (lua_lt (sort_key b) _).
Qed.

Lemma compare_entries_i32 a b : i32 (compare_entries a b) = compare_entries a b.
Proof. rewrite compare_entries_key. by repeat case_match. Qed.

(** ** The interpreter *)

(** The file [script] holds [sorting.lua] and the interpreter runs it:
    [ls_loaded L r] says that [r] refers to its [compare]. *)
Class LuaScript `{Lua} (script : list Z) := {
  ls_loaded : lua_State → Z → Prop;
  ls_init : ∃ L L1 L2 L3 L4 r, luaL_newstate = Some L ∧
    luaL_loadfile (luaL_openlibs L) script = (L1, true) ∧
    lua_run_chunk L1 = (L2, true) ∧ lua_getfunction L2 (lit "compare") = (L3, true) ∧
    luaL_ref L3 = (L4, r) ∧ ls_loaded L4 r;
  ls_call L r a b : ls_loaded L r →
    ∃ L', lua_call2 L r a b = (L', Some (Some (lua_compare (Some a) (Some b)))) ∧
      ls_loaded L' r;
}.

Section sorted.
Context `{LuaScript}.

Definition sort_running (s : sort_state) : Prop :=
  g_sort_ready s = true ∧ ∃ L, g_sort_L s = Some L ∧ ls_loaded L (g_sort_compare_ref s).

Lemma sorting_init_ok :
  ∃ s, sorting_init (Some script) sort_off = (s, true) ∧ sort_running s.
Proof.
  destruct ls_init as (L & L1 & L2 & L3 & L4 & r & Hn & Hlf & Hrun & Hf & Href & Hl).
  unfold sorting_init. cbn [g_sort_ready sort_off].
  change (default default_script (Some script)) with script. rewrite Hn, Hlf. cbn [negb].
  rewrite Hrun. cbn [negb]. rewrite Hf. cbn [negb]. rewrite Href.
  eexists. split; [done|]. split; [done|]. by exists L4.
Qed.

Definition candidate_compare (a b : SortCandidate) : Z :=
  compare_entries (push_candidate_to_lua a) (push_candidate_to_lua b).

Lemma lua_sort_compare_ok a b s :
  sort_running s →
  (lua_sort_compare a b s).1 = candidate_compare a b ∧
  sort_running (lua_sort_compare a b s).2.
Proof.
  intros (Hr & L & HL & Hl). unfold lua_sort_compare. rewrite Hr, HL.
  destruct (ls_call L _ (push_candidate_to_lua a) (push_candidate_to_lua b) Hl)
    as (L' & -> & Hl'). cbn [lua_compare fst snd].
  split; [apply compare_entries_i32|]. split; [done|]. by exists L'.
Qed.

Context `{QsortOk}.

Lemma qsort_candidates cs s :
  sort_running s →
  (qsort lua_sort_compare cs s).1 ≡ₚ cs ∧
  StronglySorted (λ a b, candidate_compare a b ≤ 0) (qsort lua_sort_compare cs s).1.
Proof.
  intros Hs.
  destruct (qsort_sorts lua_sort_compare candidate_compare sort_running cs s)
    as (Hp & Hss & _); [by apply lua_sort_compare_ok| | |exact Hs|by split].
  - intros a b. unfold candidate_compare. by rewrite compare_entries_ge.
  - intros a b d. unfold candidate_compare. rewrite !compare_entries_le. apply lua_lt_trans.
Qed.
End sorted.

(** ** The order of a listing *)

(** The sort key of an entry as the listing shows it. *)
Definition shown_key (x : list Z * option (Z * Z * Z)) : list Z :=
  match x.2 with
  | Some (_, mode, size) =>
      size :: (if mode =? Z.lor S_IFDIR 493 then 0 else 1) :: lua_lower x.1
  | None => []
  end.

Lemma candidate_key c :
  sc_entry_type c = ft_val IDKFS_FT_DIR ∨ sc_entry_type c = ft_val IDKFS_FT_FILE →
  shown_key (filler_entry c) = sort_key (push_candidate_to_lua c).
Proof.
  intros [Hc|Hc]; unfold shown_key, filler_entry, candidate_mode, sort_key,
    push_candidate_to_lua; cbn [fst snd le_size le_type le_name]; rewrite Hc; reflexivity.
Qed.

Lemma StronglySorted_fmap_impl {A B} (f : A → B) (P : A → Prop) (R : A → A → Prop)
    (R' : B → B → Prop) l :
  (∀ a b, P a → P b → R a b → R' (f a) (f b)) → Forall P l →
  StronglySorted R l → StronglySorted R' (f <$> l).
Proof.
  intros HR Hl Hs. induction Hs as [|a l Hs IH Ha]; [constructor|].
  apply Forall_cons in Hl as [Hpa Hl]. cbn. constructor; [by apply IH|].
  apply Forall_fmap. rewrite Forall_forall in Ha, Hl |- *. intros b Hb. cbn. auto.
Qed.

(** Insertion sort, with the comparison threading its state. *)
Fixpoint insert_by {St A} (cmp : A → A → St → Z * St) (x : A) (l : list A) (s : St) :
    list A * St :=
  match l with
  | [] => ([x], s)
  | y :: l =>
      let '(r, s) := cmp x y s in
      if r <=? 0 then (x :: y :: l, s)
      else let '(l, s) := insert_by cmp x l s in (y :: l, s)
  end.
Fixpoint insertion_sort {St A} (cmp : A → A → St → Z * St) (l : list A) (s : St) :
    list A * St :=
  match l with
  | [] => ([], s)
  | x :: l => let '(l, s) := insertion_sort cmp l s in insert_by cmp x l s
  end.
Definition insertion_qsort : Qsort := {| qsort := @insertion_sort |}.

Section insertion.
Context {St A : Type} (cmp : A → A → St → Z * St) (c : A → A → Z) (P : St → Prop)
  (Hcmp : ∀ a b s, P s → (cmp a b s).1 = c a b ∧ P (cmp a b s).2)
  (Htot : ∀ a b, c a b ≤ 0 ↔ 0 ≤ c b a)
  (Htrans : ∀ a b d, c a b ≤ 0 → c b d ≤ 0 → c a d ≤ 0).
Let R a b := c a b ≤ 0.

Lemma insert_by_ok x l : ∀ s, P s → StronglySorted R l →
  (insert_by cmp x l s).1 ≡ₚ x :: l ∧ StronglySorted R (insert_by cmp x l s).1 ∧
  P (insert_by cmp x l s).2.
Proof using Hcmp Htot Htrans.
  induction l as [|y l IH]; intros s Hs Hl; cbn; [by repeat constructor|].
  destruct (Hcmp x y s Hs) as [E Hs']. destruct (cmp x y s) as [r s']. cbn in E, Hs'. subst r.
  apply StronglySorted_inv in Hl as [Hl Hy]. destruct (Z.leb_spec (c x y) 0) as [Hle|Hgt].
  - split; [done|]. split; [|done]. constructor; [by constructor|]. constructor; [done|].
    eapply Forall_impl; [exact Hy|]. intros z. by apply Htrans.
  - destruct (IH s' Hs' Hl) as (Hp & Hss & HP). destruct (insert_by cmp x l s') as [l' s''].
    cbn in *. split; [by rewrite Hp, Permutation_swap|]. split; [|done].
    constructor; [done|]. rewrite Hp. constructor; [|done]. apply Htot. lia.
Qed.

Lemma insertion_sort_ok l : ∀ s, P s →
  (insertion_sort cmp l s).1 ≡ₚ l ∧ StronglySorted R (insertion_sort cmp l s).1 ∧
  P (insertion_sort cmp l s).2.
Proof using Hcmp Htot Htrans.
  induction l as [|x l IH]; intros s Hs; cbn; [by repeat constructor|].
  destruct (IH s Hs) as (Hp & Hss & HP). destruct (insertion_sort cmp l s) as [l' s'].
  cbn in *. destruct (insert_by_ok x l' s' HP Hss) as (Hp' & Hss' & HP').
  split; [by rewrite Hp', Hp|by split].
Qed.
End insertion.

Lemma insertion_qsort_ok : @QsortOk insertion_qsort.
Proof. split. intros. by apply insertion_sort_ok. Qed.

(** An interpreter that runs the script: its state is whether it is loaded. *)
Definition script_lua : Lua :=
  {| lua_State := bool;
     luaL_newstate := Some false;
     luaL_openlibs L := L;
     luaL_loadfile L path := (true, true);
     lua_run_chunk L := (L, L);
     lua_getfunction L name := (L, L);
     luaL_ref L := (L, 1);
     lua_call2 L r a b := (L, Some (Some (lua_compare (Some a) (Some b)))) |}.

Lemma script_lua_ok script : @LuaScript script_lua script.
Proof.
  unshelve esplit; [exact (λ L _, L = true)| |].
  - by exists false, true, true, true, true, 1.
  - intros L r a b HL. by exists L.
Defined.

(** ** Properties *)

(** C14: with the script loaded, [fuse_readdir] shows the entries of the
    directory, each once, in the order of [sorting.lua]: by size, then
    directories before files, then by the lower-case name.  In particular the
    script's comparison is a total preorder, as [qsort] demands. *)
Theorem sorted_listing `{LuaScript} `{!Qsort} `{!QsortOk} fs t path (l : adir) now :
  fs_inv fs → tree fs t → cstring path → 0 ≤ aresolve t path →
  t !! aresolve t path = Some l →
  ∃ s fs' out, sorting_init (Some script) sort_off = (s, true) ∧
    fuse_readdir (λ cs, (qsort lua_sort_compare cs s).1) (g_sort_ready s) fs path now =
      Some (fs', inr ([(DOT, None); (DOTDOT, None)] ++ out)) ∧
    out ≡ₚ shown_sized fs t <$> visible l ∧
    StronglySorted (λ a b, lua_lt (shown_key b) (shown_key a) = false) out.
Proof.
  intros Hinv Ht Hp Hpos Hl. destruct sorting_init_ok as (s & Hi & Hs).
  set (sort := λ cs, (qsort lua_sort_compare cs s).1).
  destruct (fuse_readdir_ok sort (g_sort_ready s) fs t path now Hinv Ht Hp)
    as (fs' & r & Hr & _ & _ & Hres).
  unfold listing_result in Hres. destruct (Z.ltb_spec (aresolve t path) 0); [lia|].
  rewrite Hl in Hres. destruct Hres as (cs & out & -> & Hcs & Hty & Ho).
  exists s, fs', (filler_entry <$> out). split; [exact Hi|]. split; [exact Hr|]. rewrite <- Hcs.
  assert (out ≡ₚ cs ∧ StronglySorted (λ a b, candidate_compare a b ≤ 0) out) as [Hperm Hss].
  { destruct Ho as [[-> Hlen] | [_ ->]]; [|by apply qsort_candidates].
    split; [done|]. destruct Hlen as [Hlen|Hlen]; [by destruct Hs; congruence|].
    destruct cs as [|a [|b cs]]; [constructor|by repeat constructor|cbn in Hlen; lia]. }
  rewrite <- Hperm in Hty. split; [by rewrite Hperm|].
  refine (StronglySorted_fmap_impl _ _ _ _ _ _ Hty Hss). intros a b Ha Hb Hab. rewrite !candidate_key by done. by apply compare_entries_le.
Qed.

(** The script's order on the file system with one file. *)
Lemma sorted_listing_witness :
  ∃ fs k fs' m (s : @sort_state script_lua),
    fuse_readdir (λ cs, (@insertion_sort sort_state _ (@lua_sort_compare script_lua) cs s).1)
      (g_sort_ready s) fs [SLASH] 3 =
    Some (fs', inr [(DOT, None); (DOTDOT, None); (demo_name, Some (k, S_IFREG + 420, m))]).
Proof.
  destruct demo_with_file as (fs & t & k & Hinv & Ht & _ & _ & Hn & _ & _ & H0).
  exists fs, k.
  destruct (@sorted_listing script_lua default_script (script_lua_ok _) insertion_qsort
    insertion_qsort_ok fs t [SLASH] [(DOT, 0); (DOTDOT, 0); (demo_name, k)] 3 Hinv Ht)
    as (s & fs' & out & _ & Hr & Hperm & _); [by repeat constructor|done|exact H0|].
  exists fs', (i64 (size_at fs k)), s. etransitivity; [exact Hr|].
  change (visible [(DOT, 0); (DOTDOT, 0); (demo_name, k)]) with [(demo_name, k)] in Hperm.
  cbn [fmap list_fmap] in Hperm. apply Permutation_singleton_r in Hperm as ->.
  unfold shown_sized, shown_mode. cbn [fst snd]. by rewrite Hn.
Defined.

Lemma idkfs_destroy_ok fs : fs_inv fs → ∃ d, idkfs_destroy (Some fs) = Some (Some d).
Proof.
  intros Hinv. destruct (idkfs_flush_ok fs Hinv) as (fs' & Hf & _).
  unfold idkfs_destroy. rewrite Hf. by eexists.
Qed.

(** the program of [idkfs_fuse.c] as a whole: with any interpreter and
    script, it formats, starts sorting, runs the event loop and flushes
    without undefined behaviour, and exits with the code of the event loop, as
    long as that calls the handlers within their contract; it exits with 1
    when there is no memory. *)
Theorem fuse_program_exits `{Lua} alloc_fs alloc_disk script fuse_main now :
  (∀ fs s, formatted fs → ∃ fs' s' ret sort ready, fuse_main fs s = Some (fs', s', ret) ∧
     session (fuse_front sort ready) fs fs') →
  ∃ ret, fuse_program alloc_fs alloc_disk script fuse_main now = Some ret ∧
    (alloc_fs && alloc_disk = false → ret = 1) ∧
    (alloc_fs && alloc_disk = true → ∃ fs s fs' s', formatted fs ∧
       fs_features fs = features_default ∧ s = (sorting_init script sort_off).1 ∧
       fuse_main fs s = Some (fs', s', ret) ∧ mounted fs').
Proof.
  intros Hmain. unfold fuse_program.
  destruct (alloc_fs && alloc_disk) eqn:Ea.
  2: { unfold idkfs_mkfs. rewrite Ea. ostep. exists 1. by split_and!. }
  apply andb_true_iff in Ea as [-> ->].
  destruct (idkfs_mkfs_ok default_label features_default now) as (fs & -> & Hf & Hfe);
    [by repeat constructor|].
  ostep. rewrite Hfe. cbn [sorting features_default].
  destruct (Hmain fs (sorting_init script sort_off).1 Hf)
    as (fs' & s' & ret & sort & ready & Hm & Hs). rewrite Hm. ostep.
  assert (mounted fs') as Hm'.
  { apply (session_mounted (fuse_front sort ready) fs); [exact Hs|].
    split; [apply (fmt_inv _ Hf)|]. exists root_only. by apply formatted_tree. }
  destruct (idkfs_destroy_ok fs' (proj1 Hm')) as (d & ->). ostep.
  exists ret. split; [done|]. split; [done|]. intros _.
  exists fs, (sorting_init script sort_off).1, fs', s'. by split_and!.
Qed.

Lemma fuse_program_exits_witness :
  ∃ ret, @fuse_program script_lua true true None (λ fs s, Some (fs, s, 7)) 3 = Some ret.
Proof.
  destruct (@fuse_program_exits script_lua true true None (λ fs s, Some (fs, s, 7)) 3)
    as (ret & Hr & _); [|by exists ret].
  intros fs s _. exists fs, s, 7, id, false. split; [done|apply steps_refl].
Defined.
