(* ===== verification/Kfs.v ===== *)
(** * The on-disk format of the kernel file system: [idkfs_kfs.h]

    The packed structures with their layouts, the formatter
    [mkfs_idkfs.c] and the checker [tools/idkfs_fsck.c].  On the
    little-endian hosts considered [cpu_to_le32] and the like are the
    identity. *)

From S2P Require Import Prelude Cint Codec Mem.

Definition K_MAGIC : Z := 0x49444B46.
Definition K_BLOCK_SIZE : Z := 4096.
Definition IDKFS_MAX_EXTENTS : Z := 15.
Definition K_VERSION : Z := 2.
Definition IDKFS_TX_MAGIC : Z := 0x54584B46.
Definition IDKFS_SNAP_MAGIC : Z := 0x534E4B46.
Definition IDKFS_MAX_SNAPSHOTS : Z := 64.

Record idkfs_extent := mkExtent {
  x_logical : Z; x_physical : Z; x_len : Z; x_checksum : Z;
}.

Record idkfs_super_block := mkKsb {
  k_magic : Z; k_version : Z; k_generation : Z; k_root_node : Z;
  k_next_fast : Z; k_next_normal : Z; k_next_slow : Z; k_total_blocks : Z;
  k_free_blocks : Z; k_tx_region_block : Z; k_snap_region_block : Z;
  k_uuid : list Z; k_checksum : Z; k__pad : list Z;
}.

Record idkfs_tx_record := mkTx {
  tx_magic : Z; tx_state : Z; tx_pending_generation : Z; tx_committed_generation : Z;
  tx_checksum : Z; tx__pad : list Z;
}.

Record idkfs_snapshot_entry := mkSnapEntry {
  sn_id : Z; sn_flags : Z; sn_generation : Z; sn_root_node : Z; sn_name : list Z;
}.

Record idkfs_snapshot_table := mkSnapTable {
  snt_magic : Z; snt_count : Z; snt_next_id : Z; snt_checksum : Z;
  snt_entries : list idkfs_snapshot_entry;
}.

Record idkfs_inode := mkKInode {
  ki_ino : Z; ki_mode : Z; ki_nlink : Z; ki_tier : Z; ki__pad : Z; ki_uid : Z;
  ki_gid : Z; ki_size : Z; ki_blocks : Z; ki_atime : Z; ki_mtime : Z; ki_ctime : Z;
  ki_generation : Z; ki_extents : list idkfs_extent; ki_checksum : Z;
}.

(** ** Layouts *)

Definition extent_tuple (x : idkfs_extent) :=
  (x_logical x, (x_physical x, (x_len x, x_checksum x))).
Definition extent_codec : codec idkfs_extent :=
  c_iso (λ '(a0, (a1, (a2, a3))), mkExtent a0 a1 a2 a3) extent_tuple
    (c_u64 ⨟ c_u64 ⨟ c_u32 ⨟ c_u32).

Definition ksb_tuple (x : idkfs_super_block) :=
  (k_magic x, (k_version x, (k_generation x, (k_root_node x, (k_next_fast x,
  (k_next_normal x, (k_next_slow x, (k_total_blocks x, (k_free_blocks x,
  (k_tx_region_block x, (k_snap_region_block x, (k_uuid x, (k_checksum x, k__pad x))))))))))))).
Definition ksb_codec : codec idkfs_super_block :=
  c_iso (λ '(a0, (a1, (a2, (a3, (a4, (a5, (a6, (a7, (a8, (a9, (a10, (a11, (a12, a13))))))))))))),
      mkKsb a0 a1 a2 a3 a4 a5 a6 a7 a8 a9 a10 a11 a12 a13) ksb_tuple
    (c_u32 ⨟ c_u32 ⨟ c_u64 ⨟ c_u64 ⨟ c_u64 ⨟ c_u64 ⨟ c_u64 ⨟ c_u64 ⨟ c_u64 ⨟ c_u64 ⨟
     c_u64 ⨟ c_raw 16 ⨟ c_u32 ⨟ c_raw (Z.to_nat 3988)).

Definition tx_tuple (x : idkfs_tx_record) :=
  (tx_magic x, (tx_state x, (tx_pending_generation x, (tx_committed_generation x,
  (tx_checksum x, tx__pad x))))).
Definition tx_codec : codec idkfs_tx_record :=
  c_iso (λ '(a0, (a1, (a2, (a3, (a4, a5))))), mkTx a0 a1 a2 a3 a4 a5) tx_tuple
    (c_u32 ⨟ c_u32 ⨟ c_u64 ⨟ c_u64 ⨟ c_u32 ⨟ c_raw (Z.to_nat 4068)).

Definition snap_entry_tuple (x : idkfs_snapshot_entry) :=
  (sn_id x, (sn_flags x, (sn_generation x, (sn_root_node x, sn_name x)))).
Definition snap_entry_codec : codec idkfs_snapshot_entry :=
  c_iso (λ '(a0, (a1, (a2, (a3, a4)))), mkSnapEntry a0 a1 a2 a3 a4) snap_entry_tuple
    (c_u32 ⨟ c_u32 ⨟ c_u64 ⨟ c_u64 ⨟ c_raw 64).

Definition snap_table_tuple (x : idkfs_snapshot_table) :=
  (snt_magic x, (snt_count x, (snt_next_id x, (snt_checksum x, snt_entries x)))).
Definition snap_table_codec : codec idkfs_snapshot_table :=
  c_iso (λ '(a0, (a1, (a2, (a3, a4)))), mkSnapTable a0 a1 a2 a3 a4) snap_table_tuple
    (c_u32 ⨟ c_u32 ⨟ c_u32 ⨟ c_u32 ⨟ c_vec 64 snap_entry_codec).

Definition kinode_tuple (x : idkfs_inode) :=
  (ki_ino x, (ki_mode x, (ki_nlink x, (ki_tier x, (ki__pad x, (ki_uid x, (ki_gid x,
  (ki_size x, (ki_blocks x, (ki_atime x, (ki_mtime x, (ki_ctime x, (ki_generation x,
  (ki_extents x, ki_checksum x)))))))))))))).
Definition kinode_codec : codec idkfs_inode :=
  c_iso (λ '(a0, (a1, (a2, (a3, (a4, (a5, (a6, (a7, (a8, (a9, (a10, (a11, (a12, (a13, a14)))))))))))))),
      mkKInode a0 a1 a2 a3 a4 a5 a6 a7 a8 a9 a10 a11 a12 a13 a14) kinode_tuple
    (c_u32 ⨟ c_u16 ⨟ c_u16 ⨟ c_u8 ⨟ c_u8 ⨟ c_u32 ⨟ c_u32 ⨟ c_u64 ⨟ c_u64 ⨟ c_u64 ⨟
     c_u64 ⨟ c_u64 ⨟ c_u64 ⨟ c_vec 15 extent_codec ⨟ c_u32).

#[export] Instance extent_codec_ok : CodecOk extent_codec.
Proof. solve_codec. Qed.
#[export] Instance ksb_codec_ok : CodecOk ksb_codec.
Proof. solve_codec. Qed.
#[export] Instance tx_codec_ok : CodecOk tx_codec.
Proof. solve_codec. Qed.
#[export] Instance snap_entry_codec_ok : CodecOk snap_entry_codec.
Proof. solve_codec. Qed.
#[export] Instance snap_table_codec_ok : CodecOk snap_table_codec.
Proof. solve_codec. Qed.
#[export] Instance kinode_codec_ok : CodecOk kinode_codec.
Proof. solve_codec. Qed.

(** The superblock is 8 bytes short of a block. *)
Lemma sizeof_kfs :
  Z.of_nat (csize ksb_codec) = 4088 ∧ Z.of_nat (csize tx_codec) = 4096 ∧
  Z.of_nat (csize snap_table_codec) = 5648 ∧ Z.of_nat (csize kinode_codec) = 430.
Proof. repeat split; vm_compute; reflexivity. Qed.

(** ** [mkfs_idkfs.c] *)

Definition mkfs_ksb : idkfs_super_block :=
  mkKsb K_MAGIC K_VERSION 1 0 10 (u64 (1024 * 1024) / 4) (u64 (1024 * 1024) / 2)
    (u64 (1024 * 1024)) (u64 (1024 * 1024 - 16)) 1 2 (replicate 16 0) 0
    (replicate (Z.to_nat 3988) 0).
Definition mkfs_tx : idkfs_tx_record :=
  mkTx IDKFS_TX_MAGIC 0 1 1 0 (replicate (Z.to_nat 4068) 0).
Definition snap_entry_zero : idkfs_snapshot_entry := mkSnapEntry 0 0 0 0 (replicate 64 0).
Definition mkfs_snaps : idkfs_snapshot_table :=
  mkSnapTable IDKFS_SNAP_MAGIC 0 1 0 (replicate 64 snap_entry_zero).

(** [write(fd, p, n)] when the kernel accepts [k] of the bytes: the file
    afterwards, and whether all of them were written. *)
Definition write_all (file bs : list Z) (k : Z) : list Z * bool :=
  (file ++ take (Z.to_nat k) bs, k =? Z.of_nat (length bs)).

(** The exit status and the file; [k1], [k2] and [k3] are the results of the
    three [write]. *)
Definition mkfs_main (argc : Z) (open_ok : bool) (k1 k2 k3 : Z) : Z * list Z :=
  if argc <? 2 then (1, [])
  else if negb open_ok then (1, [])
  else
    let '(file, ok) := write_all [] (cenc ksb_codec mkfs_ksb) k1 in
    if negb ok then (1, file)
    else
      let '(file, ok) := write_all file (cenc tx_codec mkfs_tx) k2 in
      if negb ok then (1, file)
      else
        let '(file, ok) := write_all file (cenc snap_table_codec mkfs_snaps) k3 in
        if negb ok then (1, file) else (0, file).

(** ** [tools/idkfs_fsck.c] *)

(** [lseek(fd, off, SEEK_SET)] then [read(fd, p, sizeof *p)] of a regular
    file: [None] is the result -1 of [read_super] and the like. *)
Definition read_at {A} (c : codec A) (file : list Z) (off : Z) : option A :=
  if off <? 0 then None
  else
    let bs := take (csize c) (drop (Z.to_nat off) file) in
    if Z.of_nat (length bs) =? Z.of_nat (csize c) then Some (cdec c bs) else None.

Definition read_super (file : list Z) : option idkfs_super_block := read_at ksb_codec file 0.
Definition read_tx (file : list Z) (sb : idkfs_super_block) : option idkfs_tx_record :=
  read_at tx_codec file (i64 (k_tx_region_block sb * K_BLOCK_SIZE)).
Definition read_snaps (file : list Z) (sb : idkfs_super_block) :
    option idkfs_snapshot_table :=
  read_at snap_table_codec file (i64 (k_snap_region_block sb * K_BLOCK_SIZE)).

(** The exit status; [open1] and [open2] tell whether the two [open]
    succeed. *)
Definition fsck_main (argc : Z) (open1 open2 : bool) (file : list Z) : Z :=
  if negb (argc =? 2) then 2
  else if negb open1 then 2
  else
    match read_super file with
    | None => 2
    | Some sb =>
        if negb (k_magic sb =? K_MAGIC) then 1
        else if (k_version sb <? 1) || (K_VERSION <? k_version sb) then 1
        else if k_total_blocks sb <? k_free_blocks sb then 1
        else if negb ((k_next_fast sb <=? k_next_normal sb) &&
                      (k_next_normal sb <=? k_next_slow sb) &&
                      (k_next_slow sb <=? k_total_blocks sb)) then 1
        else if negb open2 then 2
        else
          match read_tx file sb with
          | None => 2
          | Some tx =>
              match read_snaps file sb with
              | None => 2
              | Some snaps =>
                  if negb (tx_magic tx =? IDKFS_TX_MAGIC) then 1
                  else if negb (snt_magic snaps =? IDKFS_SNAP_MAGIC) then 1
                  else if IDKFS_MAX_SNAPSHOTS <? snt_count snaps then 1
                  else 0
              end
          end
    end.

(** ** Validity of what the formatter writes *)

Lemma Ksb_size : Z.of_nat (csize ksb_codec) = 4088.
Proof. apply sizeof_kfs. Qed.
Lemma Tx_size : Z.of_nat (csize tx_codec) = 4096.
Proof. apply sizeof_kfs. Qed.
Lemma Snaps_size : Z.of_nat (csize snap_table_codec) = 5648.
Proof. apply sizeof_kfs. Qed.

Lemma kzero_bytes n : bytes (replicate n 0).
Proof. apply Forall_replicate. unfold byte. lia. Qed.

Ltac kvalid :=
  repeat match goal with
  | |- _ ∧ _ => split
  end; try (by apply kzero_bytes); try done; try lia.

Ltac kpow :=
  change (256 ^ Z.of_nat 2) with 65536 in *;
  change (256 ^ Z.of_nat 4) with 4294967296 in *;
  change (256 ^ Z.of_nat 8) with 18446744073709551616 in *.

Lemma mkfs_ksb_valid : cvalid ksb_codec mkfs_ksb.
Proof.
  unfold ksb_codec, ksb_tuple, mkfs_ksb. cbn -[Z.pow Z.of_nat Z.to_nat replicate u64].
  kpow. unfold K_MAGIC, K_VERSION, u64. kvalid.
Qed.

Lemma mkfs_tx_valid : cvalid tx_codec mkfs_tx.
Proof.
  unfold tx_codec, tx_tuple, mkfs_tx. cbn -[Z.pow Z.of_nat Z.to_nat replicate].
  kpow. unfold IDKFS_TX_MAGIC. kvalid.
Qed.

Lemma mkfs_snaps_valid : cvalid snap_table_codec mkfs_snaps.
Proof.
  unfold snap_table_codec, snap_table_tuple, mkfs_snaps.
  cbn -[Z.pow Z.of_nat Z.to_nat replicate snap_entry_codec].
  kpow. unfold IDKFS_SNAP_MAGIC. kvalid.
  apply Forall_replicate. unfold snap_entry_codec, snap_entry_tuple, snap_entry_zero.
  cbn -[Z.pow Z.of_nat Z.to_nat replicate]. kpow. kvalid.
Qed.

(** The image a run of the formatter leaves when every write is complete. *)
Definition mkfs_image : list Z :=
  cenc ksb_codec mkfs_ksb ++ cenc tx_codec mkfs_tx ++ cenc snap_table_codec mkfs_snaps.

Lemma mkfs_image_parts :
  Z.of_nat (length (cenc ksb_codec mkfs_ksb)) = 4088 ∧
  Z.of_nat (length (cenc tx_codec mkfs_tx)) = 4096 ∧
  Z.of_nat (length (cenc snap_table_codec mkfs_snaps)) = 5648.
Proof.
  split_and!.
  - rewrite cenc_length by apply mkfs_ksb_valid. apply Ksb_size.
  - rewrite cenc_length by apply mkfs_tx_valid. apply Tx_size.
  - rewrite cenc_length by apply mkfs_snaps_valid. apply Snaps_size.
Qed.

Lemma write_all_full file bs :
  write_all file bs (Z.of_nat (length bs)) = (file ++ bs, true).
Proof. unfold write_all. by rewrite Z.eqb_refl, Nat2Z.id, firstn_all. Qed.

Lemma mkfs_main_ok argc :
  2 ≤ argc → mkfs_main argc true 4088 4096 5648 = (0, mkfs_image).
Proof.
  intros Ha. unfold mkfs_main. rewrite (proj2 (Z.ltb_ge argc 2)) by lia. cbn [negb].
  destruct mkfs_image_parts as (H1 & H2 & H3).
  rewrite <- H1, write_all_full. cbn [negb].
  rewrite <- H2, write_all_full. cbn [negb].
  rewrite <- H3, write_all_full. cbn [negb app]. unfold mkfs_image. by rewrite <- app_assoc.
Qed.

Lemma read_at_prefix {A} (c : codec A) `{!CodecOk c} a rest :
  cvalid c a → read_at c (cenc c a ++ rest) 0 = Some a.
Proof.
  intros Hv. unfold read_at. cbn [Z.ltb Z.compare].
  change (Z.to_nat 0) with 0%nat.
  rewrite drop_0, take_app_length' by (by rewrite cenc_length).
  rewrite cenc_length by done. rewrite Z.eqb_refl. f_equal. by apply cdec_enc'.
Qed.

Lemma read_at_short {A} (c : codec A) file off :
  Z.of_nat (length file) < off + Z.of_nat (csize c) → 0 ≤ off → (0 < csize c)%nat →
  read_at c file off = None.
Proof.
  intros Hs Ho Hc. unfold read_at. rewrite (proj2 (Z.ltb_ge off 0)) by lia.
  rewrite length_take, length_drop. zcase; [lia|done].
Qed.

(** ** The checker *)

(** The little-endian integer in the [n] bytes at offset [off]. *)
Definition int_at (file : list Z) (off : Z) (n : nat) : Z :=
  le_val (take n (drop (Z.to_nat off) file)).

(** Where a block starts: the product is taken modulo [2^64] and given to
    [lseek] as a signed number. *)
Definition block_offset (block : Z) : Z := i64 (block * 4096).

(** [size] bytes of the file at the start of [block], with a magic number. *)
Definition structure_at (file : list Z) (block size magic : Z) : Prop :=
  let off := block_offset block in
  0 ≤ off ∧ off + size ≤ Z.of_nat (length file) ∧ int_at file off 4 = magic.

(** A clean image, byte for byte: the superblock at the start of the file, its
    counters at offsets 24 to 63, and the two structures at the blocks whose
    numbers are at offsets 64 and 72. *)
Record image_clean (file : list Z) : Prop := {
  ic_super : 4088 ≤ Z.of_nat (length file);
  ic_magic : int_at file 0 4 = 0x49444B46;
  ic_version : 1 ≤ int_at file 4 4 ≤ 2;
  ic_free : int_at file 56 8 ≤ int_at file 48 8;
  ic_tiers : int_at file 24 8 ≤ int_at file 32 8 ≤ int_at file 40 8;
  ic_total : int_at file 40 8 ≤ int_at file 48 8;
  ic_tx : structure_at file (int_at file 64 8) 4096 0x54584B46;
  ic_snaps : structure_at file (int_at file 72 8) 5648 0x534E4B46;
  ic_count : int_at file (block_offset (int_at file 72 8) + 4) 4 ≤ 64;
}.

Lemma read_at_spec {A} (c : codec A) `{!CodecOk c} file off :
  (0 < csize c)%nat →
  read_at c file off =
    if (0 <=? off) && (off + Z.of_nat (csize c) <=? Z.of_nat (length file))
    then Some (cdec c (drop (Z.to_nat off) file)) else None.
Proof.
  intros Hc. unfold read_at. destruct (Z.ltb_spec off 0), (Z.leb_spec 0 off); try lia; [done|].
  cbn [andb]. rewrite length_take, length_drop. zcases; try lia; [|done].
  by rewrite cdec_take.
Qed.

Lemma ksb_fields file :
  let sb := cdec ksb_codec file in
  k_magic sb = int_at file 0 4 ∧ k_version sb = int_at file 4 4 ∧
  k_next_fast sb = int_at file 24 8 ∧ k_next_normal sb = int_at file 32 8 ∧
  k_next_slow sb = int_at file 40 8 ∧ k_total_blocks sb = int_at file 48 8 ∧
  k_free_blocks sb = int_at file 56 8 ∧ k_tx_region_block sb = int_at file 64 8 ∧
  k_snap_region_block sb = int_at file 72 8.
Proof. unfold int_at. cbn. rewrite !drop_drop. by split_and!. Qed.

Lemma tx_fields bs : tx_magic (cdec tx_codec bs) = le_val (take 4 bs).
Proof. reflexivity. Qed.
Lemma snaps_fields bs :
  snt_magic (cdec snap_table_codec bs) = le_val (take 4 bs) ∧
  snt_count (cdec snap_table_codec bs) = le_val (take 4 (drop 4 bs)).
Proof. by split. Qed.

(** The structure the checker reads at a block of the superblock. *)
Lemma read_block_spec {A} (c : codec A) `{!CodecOk c} file block size :
  Z.of_nat (csize c) = size → 0 < size →
  (∃ x, read_at c file (i64 (block * K_BLOCK_SIZE)) = Some x ∧
     x = cdec c (drop (Z.to_nat (block_offset block)) file) ∧
     0 ≤ block_offset block ∧ block_offset block + size ≤ Z.of_nat (length file)) ∨
  (read_at c file (i64 (block * K_BLOCK_SIZE)) = None ∧
     ¬ (0 ≤ block_offset block ∧ block_offset block + size ≤ Z.of_nat (length file))).
Proof.
  intros Hs Hpos. rewrite (read_at_spec c) by lia. 
  change (i64 (block * K_BLOCK_SIZE)) with (block_offset block). rewrite Hs.
  destruct (Z.leb_spec 0 (block_offset block)),
    (Z.leb_spec (block_offset block + size) (Z.of_nat (length file))); cbn [andb];
    [left; eexists; by split_and!|right; split; [done|lia]..].
Qed.

(** The three tests on the structures. *)
Lemma structures_spec file sb :
  k_tx_region_block sb = int_at file 64 8 → k_snap_region_block sb = int_at file 72 8 →
  match read_tx file sb, read_snaps file sb with
  | Some tx, Some snaps =>
      (tx_magic tx = IDKFS_TX_MAGIC ∧ snt_magic snaps = IDKFS_SNAP_MAGIC ∧
       snt_count snaps ≤ IDKFS_MAX_SNAPSHOTS) ↔
      structure_at file (int_at file 64 8) 4096 0x54584B46 ∧
      structure_at file (int_at file 72 8) 5648 0x534E4B46 ∧
      int_at file (block_offset (int_at file 72 8) + 4) 4 ≤ 64
  | _, _ =>
      ¬ (structure_at file (int_at file 64 8) 4096 0x54584B46 ∧
         structure_at file (int_at file 72 8) 5648 0x534E4B46)
  end.
Proof.
  intros Htx Hsn. unfold read_tx, read_snaps, structure_at. rewrite Htx, Hsn.
  destruct (read_block_spec tx_codec file (int_at file 64 8) 4096 Tx_size)
    as [(tx & -> & -> & Ht)|[-> Ht]]; [lia| |tauto].
  destruct (read_block_spec snap_table_codec file (int_at file 72 8) 5648 Snaps_size)
    as [(sn & -> & -> & Hs)|[-> Hs]]; [lia| |tauto].
  set (o1 := block_offset (int_at file 64 8)) in *. set (o2 := block_offset (int_at file 72 8)) in *.
  destruct (snaps_fields (drop (Z.to_nat o2) file)) as [-> ->]. rewrite tx_fields, drop_drop.
  assert (int_at file (o2 + 4) 4 = le_val (take 4 (drop (Z.to_nat o2 + 4) file))) as ->
    by (unfold int_at; by replace (Z.to_nat (o2 + 4)) with (Z.to_nat o2 + 4)%nat by lia).
  unfold int_at. unfold IDKFS_TX_MAGIC, IDKFS_SNAP_MAGIC, IDKFS_MAX_SNAPSHOTS. tauto.
Qed.

(** A test of the checker that ends it with status [y]. *)
Lemma exit_if (b : bool) x y (P : Prop) :
  y ≠ 0 → (b = true → ¬ P) → (b = false → x = 0 ↔ P) → (if b then y else x) = 0 ↔ P.
Proof. destruct b; intuition congruence. Qed.

(** C39: [idkfs_fsck] exits with 0 exactly when it has one argument, can open
    the image both times, and the image is clean byte for byte: the magic
    number, version and counters at their offsets in the superblock at the
    start of the file, and, at the blocks the superblock names at its offsets
    64 and 72, 4096 bytes with the magic number of a transaction record and
    5648 bytes with that of a snapshot table of at most 64 snapshots. *)
Theorem fsck_main_clean argc open1 open2 file :
  fsck_main argc open1 open2 file = 0 ↔
  argc = 2 ∧ open1 = true ∧ open2 = true ∧ image_clean file.
Proof.
  unfold fsck_main, read_super. pose proof Ksb_size as Hsize.
  rewrite (read_at_spec ksb_codec), Hsize by lia.
  destruct (ksb_fields file) as (E1 & E2 & E3 & E4 & E5 & E6 & E7 & E8 & E9).
  pose proof (structures_spec file (cdec ksb_codec file) E8 E9) as Hst.
  apply exit_if; [done|intros Hc (-> & _); done|intros Hargc%negb_false_iff%Z.eqb_eq].
  apply exit_if; [done|intros Hc (_ & -> & _); done|intros ->%negb_false_iff].
  destruct (Z.leb_spec (0 + 4088) (Z.of_nat (length file))); cbn [andb Z.leb Z.compare];
    [|split; [done|intros (_ & _ & _ & []); lia]].
  change (drop (Z.to_nat 0) file) with file. rewrite E1, E2, E3, E4, E5, E6, E7.
  do 4 (apply exit_if; [done|intros Hc (_ & _ & _ & []); unfold K_MAGIC, K_VERSION in Hc; lia|intros ?]).
  apply exit_if; [done|intros Hc (_ & _ & -> & _); done|intros ->%negb_false_iff].
  unfold K_MAGIC, K_VERSION in *. transitivity (image_clean file).
  2: tauto.
  transitivity (structure_at file (int_at file 64 8) 4096 0x54584B46 ∧
    structure_at file (int_at file 72 8) 5648 0x534E4B46 ∧
    int_at file (block_offset (int_at file 72 8) + 4) 4 ≤ 64).
  2: { split; [intros (? & ? & ?); split; (assumption || lia)|by intros []]. }
  clear -Hst. destruct (read_tx _ _) as [tx|]; [|split; [done|tauto]].
  destruct (read_snaps _ _) as [snaps|]; [|split; [done|tauto]]. rewrite <- Hst. clear Hst.
  do 2 (apply exit_if; [done|intros ?%negb_true_iff%Z.eqb_neq; tauto|
    intros ?%negb_false_iff%Z.eqb_eq]).
  destruct (Z.ltb_spec IDKFS_MAX_SNAPSHOTS (snt_count snaps)); (split; [done || tauto|]); [lia|done].
Qed.

(** The formatter's structures at the blocks its superblock names. *)
Definition demo_clean : list Z :=
  cenc ksb_codec mkfs_ksb ++ replicate 8 0 ++ cenc tx_codec mkfs_tx ++
  cenc snap_table_codec mkfs_snaps.

Lemma fsck_main_clean_witness : fsck_main 2 true true demo_clean = 0 ∧ image_clean demo_clean.
Proof.
  assert (image_clean demo_clean) as Hc.
  { split; unfold structure_at; vm_compute; repeat split; discriminate. }
  split; [|exact Hc]. apply (fsck_main_clean 2 true true demo_clean).
  split; [reflexivity|]. split; [reflexivity|]. split; [reflexivity|exact Hc].
Defined.

(** C40: an image fresh from [mkfs_idkfs] does not pass [idkfs_fsck]: the
    formatter writes the three structures back to back, at 0, 4088 and 8184,
    and the checker looks for them at blocks 0, 1 and 2, so that the read of
    the snapshot table runs past the end of the file (exit status 2). *)
Theorem fsck_rejects_fresh_image argc :
  2 ≤ argc →
  mkfs_main argc true 4088 4096 5648 = (0, mkfs_image) ∧
  read_super mkfs_image = Some mkfs_ksb ∧ fsck_main 2 true true mkfs_image = 2.
Proof.
  intros Ha. split; [by apply mkfs_main_ok|].
  destruct mkfs_image_parts as (H1 & H2 & H3).
  assert (read_super mkfs_image = Some mkfs_ksb) as Hs.
  { apply (read_at_prefix ksb_codec). apply mkfs_ksb_valid. }
  split; [exact Hs|]. unfold fsck_main. cbn [Z.eqb Pos.eqb negb]. rewrite Hs.
  assert (read_snaps mkfs_image mkfs_ksb = None) as Hn.
  { unfold read_snaps. change (i64 (k_snap_region_block mkfs_ksb * K_BLOCK_SIZE)) with 8192.
    pose proof Snaps_size as Hz.
    apply read_at_short; [|lia|lia]. unfold mkfs_image. rewrite !length_app. lia. }
  rewrite Hn. destruct (read_tx mkfs_image mkfs_ksb); reflexivity.
Qed.

Lemma fsck_rejects_fresh_image_witness :
  2 ≤ 3 ∧ fsck_main 2 true true mkfs_image = 2.
Proof. split; [lia|]. apply (fsck_rejects_fresh_image 3). lia. Defined.
