(* ===== verification/BlkMap.v ===== *)
(** * Block mapping of the block driver: [idkfs_blk.c]

    Twelve direct pointers and six levels of indirection over 512-pointer
    blocks of the mapped image.  All integers are [uint64_t]; a read of the
    image outside the mapping is undefined behaviour ([None]). *)

From S2P Require Import Prelude Cint Codec Mem.

Definition B_BLOCK_SIZE : Z := 4096.
Definition B_DIRECT_BLOCKS : Z := 12.
Definition IDKFS_MAX_INDIRECT_LEVELS : Z := 6.
Definition B_PTRS_PER_BLOCK : Z := 512.
Definition B_NULL_BLOCK : Z := 18446744073709551615.

(** [exp] counts down in the loop. *)
Fixpoint idkfs_pow_loop (base v : Z) (exp : nat) : Z :=
  match exp with
  | O => v
  | S exp => idkfs_pow_loop base (u64 (v * base)) exp
  end.
Definition idkfs_pow (base exp : Z) : Z := idkfs_pow_loop base 1 (Z.to_nat exp).
Definition idkfs_indirect_span (level : Z) : Z := idkfs_pow B_PTRS_PER_BLOCK (u8 level).

(** The inner loop: the digits of [rem] for levels [i] to [lvl - 1]. *)
Fixpoint fill_digits (rem lvl i : Z) (n : nat) : list Z :=
  match n with
  | O => []
  | S n =>
      let stride := idkfs_indirect_span (lvl - i - 1) in
      rem / stride :: fill_digits (rem mod stride) lvl (i + 1) n
  end.

(** The search for the level, from [lvl], [n] levels to go. *)
Fixpoint fill_level (rem lvl : Z) (n : nat) : option (Z * list Z) :=
  match n with
  | O => None
  | S n =>
      let span := idkfs_indirect_span lvl in
      if rem <? span then Some (lvl, fill_digits rem lvl 0 (Z.to_nat lvl))
      else fill_level (u64 (rem - span)) (lvl + 1) n
  end.

(** [None] is the result [false]; otherwise the level and the entries of
    [chain] it sets. *)
Definition idkfs_fill_chain (logical : Z) : option (Z * list Z) :=
  if logical <? B_DIRECT_BLOCKS then Some (0, [logical])
  else fill_level (u64 (logical - B_DIRECT_BLOCKS)) 1 (Z.to_nat IDKFS_MAX_INDIRECT_LEVELS).

(** [sizeof(struct idkfs_inode_disk)] *)
Definition inode_disk_size : Z := 144.

Definition idkfs_safe_inode_read (map : mem) (inode_block offset : Z) : option Z :=
  let byte := u64 (inode_block * B_BLOCK_SIZE) in
  if m_size map <? u64 (byte + inode_disk_size) then Some B_NULL_BLOCK
  else mload c_u64 map (byte + 8 * offset).

Definition idkfs_safe_pointer_read (map : mem) (block index : Z) : option Z :=
  let byte := u64 (block * B_BLOCK_SIZE) in
  if m_size map <? u64 (byte + B_BLOCK_SIZE) then Some B_NULL_BLOCK
  else if B_PTRS_PER_BLOCK <=? index then Some B_NULL_BLOCK
  else mload c_u64 map (byte + 8 * index).

(** The loop down the levels. *)
Fixpoint resolve_chain (map : mem) (current : Z) (chain : list Z) : option Z :=
  match chain with
  | [] => Some current
  | index :: chain =>
      current ← idkfs_safe_pointer_read map current index;
      if current =? B_NULL_BLOCK then Some B_NULL_BLOCK
      else resolve_chain map current chain
  end.

Definition idkfs_resolve_logical_block (map : mem) (logical inode_block : Z) : option Z :=
  match idkfs_fill_chain logical with
  | None => Some B_NULL_BLOCK
  | Some (level, chain) =>
      if level =? 0 then
        c0 ← chain.[0];
        idkfs_safe_inode_read map inode_block c0
      else
        current ← idkfs_safe_inode_read map inode_block (B_DIRECT_BLOCKS + level - 1);
        if current =? B_NULL_BLOCK then Some B_NULL_BLOCK
        else resolve_chain map current chain
  end.

(** ** Powers *)

Lemma pow_loop_small base v n :
  0 ≤ base → 0 ≤ v → v * base ^ Z.of_nat n < 18446744073709551616 → 1 ≤ base →
  idkfs_pow_loop base v n = v * base ^ Z.of_nat n.
Proof.
  intros Hb. revert v. induction n as [|n IH]; intros v Hv Hlt H1; cbn [idkfs_pow_loop].
  { cbn. lia. }
  rewrite Nat2Z.inj_succ, Z.pow_succ_r in * by lia.
  assert (1 ≤ base ^ Z.of_nat n) by (pose proof (Z.pow_pos_nonneg base (Z.of_nat n)); lia).
  rewrite u64_small by nia. rewrite IH; [lia|nia|nia|lia].
Qed.

Lemma span_eq level : 0 ≤ level ≤ 6 → idkfs_indirect_span level = 512 ^ level.
Proof.
  intros Hl. unfold idkfs_indirect_span, idkfs_pow, B_PTRS_PER_BLOCK.
  rewrite u8_small by lia.
  rewrite pow_loop_small, Z2Nat.id; [lia|lia|lia|lia| |lia].
  rewrite Z2Nat.id by lia. assert (512 ^ level ≤ 512 ^ 6); [|lia].
  apply Z.pow_le_mono_r; lia.
Qed.

Lemma span_pos k : 0 ≤ k → 1 ≤ 512 ^ k.
Proof. intros. pose proof (Z.pow_pos_nonneg 512 k). lia. Qed.

(** ** Digits *)

(** The number a sequence of base-512 digits denotes. *)
Definition chain_value (chain : list Z) : Z :=
  fold_left (λ acc c, acc * 512 + c) chain 0.

Lemma chain_value_acc chain acc :
  fold_left (λ acc c, acc * 512 + c) chain acc =
  acc * 512 ^ Z.of_nat (length chain) + chain_value chain.
Proof.
  unfold chain_value. revert acc. induction chain as [|c chain IH]; intros acc; cbn [fold_left length].
  { cbn. lia. }
  rewrite IH, (IH (0 * 512 + c)). rewrite Nat2Z.inj_succ, Z.pow_succ_r by lia. lia.
Qed.

Lemma chain_value_cons c chain :
  chain_value (c :: chain) = c * 512 ^ Z.of_nat (length chain) + chain_value chain.
Proof. unfold chain_value at 1. cbn [fold_left]. rewrite chain_value_acc. lia. Qed.

Lemma fill_digits_ok lvl n : ∀ rem i,
  lvl ≤ 6 → 0 ≤ i → i + Z.of_nat n = lvl → 0 ≤ rem < 512 ^ Z.of_nat n →
  length (fill_digits rem lvl i n) = n ∧
  chain_value (fill_digits rem lvl i n) = rem ∧
  Forall (λ c, 0 ≤ c < 512) (fill_digits rem lvl i n).
Proof.
  induction n as [|n IH]; intros rem i Hlvl Hi Hn Hrem; cbn [fill_digits].
  { split_and!; [done|cbn in *; lia|constructor]. }
  rewrite span_eq by lia. replace (lvl - i - 1) with (Z.of_nat n) by lia.
  rewrite Nat2Z.inj_succ, Z.pow_succ_r in Hrem by lia.
  pose proof (span_pos (Z.of_nat n) ltac:(lia)) as Hs.
  destruct (IH (rem mod 512 ^ Z.of_nat n) (i + 1)) as (Hl & Hv & Hf);
    [lia|lia|lia|apply Z.mod_pos_bound; lia|].
  cbn [length]. split_and!; [by f_equal|rewrite chain_value_cons, Hl, Hv|].
  - pose proof (Z.div_mod rem (512 ^ Z.of_nat n)). lia.
  - constructor; [|done]. split; [apply Z.div_pos; lia|apply Z.div_lt_upper_bound; lia].
Qed.

(** First logical block of each level. *)
Definition level_base (level : Z) : Z :=
  if level =? 0 then 0 else 12 + (512 ^ level - 512) / 511.

Lemma level_base_vals :
  level_base 1 = 12 ∧ level_base 2 = 524 ∧ level_base 3 = 262668 ∧
  level_base 4 = 134480396 ∧ level_base 5 = 68853957132 ∧
  level_base 6 = 35253226045964 ∧ level_base 7 = 18049651735527948.
Proof. repeat split; reflexivity. Qed.

Lemma span_vals :
  idkfs_indirect_span 1 = 512 ∧ idkfs_indirect_span 2 = 262144 ∧
  idkfs_indirect_span 3 = 134217728 ∧ idkfs_indirect_span 4 = 68719476736 ∧
  idkfs_indirect_span 5 = 35184372088832 ∧ idkfs_indirect_span 6 = 18014398509481984.
Proof. repeat split; reflexivity. Qed.

Lemma fill_level_ok n : ∀ rem lvl,
  1 ≤ lvl → lvl + Z.of_nat n = 7 → 0 ≤ rem < 18446744073709551616 →
  match fill_level rem lvl n with
  | Some (l, chain) =>
      ∃ r, lvl ≤ l ≤ 6 ∧ chain = fill_digits r l 0 (Z.to_nat l) ∧ 0 ≤ r < 512 ^ l ∧
        level_base lvl + rem = level_base l + r
  | None => level_base 7 ≤ level_base lvl + rem
  end.
Proof.
  induction n as [|n IH]; intros rem lvl Hl Hn Hrem; cbn [fill_level].
  { assert (lvl = 7) as -> by lia. lia. }
  pose proof span_vals as (S1 & S2 & S3 & S4 & S5 & S6).
  pose proof level_base_vals as (B1 & B2 & B3 & B4 & B5 & B6 & B7).
  assert (level_base (lvl + 1) = level_base lvl + idkfs_indirect_span lvl) as Hb.
  { assert (lvl = 1 ∨ lvl = 2 ∨ lvl = 3 ∨ lvl = 4 ∨ lvl = 5 ∨ lvl = 6)
      as [->|[->|[->|[->|[->| ->]]]]] by lia; reflexivity. }
  rewrite span_eq in * by lia. zcase.
  - exists rem. split_and!; [lia|lia|done|lia|lia|done].
  - rewrite u64_small by (pose proof (span_pos lvl); lia).
    specialize (IH (rem - 512 ^ lvl) (lvl + 1) ltac:(lia) ltac:(lia)
      ltac:(pose proof (span_pos lvl); lia)).
    destruct (fill_level _ _ _) as [[l chain]|].
    + destruct IH as (r & ? & ? & ? & ?). exists r. split_and!; [lia|lia|done|lia|lia|lia].
    + lia.
Qed.

(** [idkfs_fill_chain] decomposes a logical block into its level and one
    base-512 index per level: the chain has as many indices as the level
    (one for a direct block), every index of an indirect level addresses a
    pointer of its block, and the level's first block plus the number the
    indices denote is the logical block.  It fails exactly from the end of
    the sixth level on. *)
Theorem fill_chain_digits logical :
  0 ≤ logical < 18446744073709551616 →
  match idkfs_fill_chain logical with
  | Some (level, chain) =>
      0 ≤ level ≤ 6 ∧ Z.of_nat (length chain) = Z.max 1 level ∧
      Forall (λ c, 0 ≤ c < if level =? 0 then 12 else 512) chain ∧
      logical = level_base level + chain_value chain
  | None => level_base 7 ≤ logical
  end.
Proof.
  intros Hl. unfold idkfs_fill_chain, B_DIRECT_BLOCKS, IDKFS_MAX_INDIRECT_LEVELS. zcase.
  { split_and!; [lia|done|done| |done]. constructor; [cbn; lia|constructor]. }
  rewrite u64_small by lia.
  pose proof (fill_level_ok 6 (logical - 12) 1 ltac:(lia) ltac:(lia) ltac:(lia)) as H6.
  change (Z.to_nat 6) with 6%nat. change (level_base 1) with 12 in H6.
  destruct (fill_level _ _ _) as [[l chain]|].
  - destruct H6 as (r & H1 & -> & H2 & H3). rewrite (proj2 (Z.eqb_neq l 0)) by lia.
    destruct (fill_digits_ok l (Z.to_nat l) r 0) as (D1 & D2 & D3); [lia|lia|lia| |].
    { by rewrite Z2Nat.id by lia. }
    rewrite D1, D2. split_and!; [lia|lia|lia|done|lia].
  - lia.
Qed.

Lemma fill_chain_digits_witness :
  idkfs_fill_chain 262669 = Some (3, [0; 0; 1]) ∧
  0 ≤ 3 ≤ 6 ∧ 262669 = level_base 3 + chain_value [0; 0; 1].
Proof.
  split; [reflexivity|].
  destruct (fill_chain_digits 262669) as (H1 & _ & _ & H2); [lia|].
  split; [exact H1|exact H2].
Defined.

(** ** A reference: walking the radix tree *)

Fixpoint tree_lookup (map : mem) (level : nat) (block rem : Z) : option Z :=
  match level with
  | O => Some block
  | S level =>
      next ← idkfs_safe_pointer_read map block (rem / 512 ^ Z.of_nat level);
      if next =? B_NULL_BLOCK then Some B_NULL_BLOCK
      else tree_lookup map level next (rem mod 512 ^ Z.of_nat level)
  end.

(** The level of a logical block: how many levels start at or before it. *)
Definition level_of (logical : Z) : nat :=
  length (filter (λ l, level_base l ≤ logical) [1; 2; 3; 4; 5; 6]).

Definition block_ref (map : mem) (logical inode_block : Z) : option Z :=
  if level_base 7 <=? logical then Some B_NULL_BLOCK
  else
    match level_of logical with
    | O => idkfs_safe_inode_read map inode_block logical
    | S l =>
        root ← idkfs_safe_inode_read map inode_block (12 + Z.of_nat l);
        if root =? B_NULL_BLOCK then Some B_NULL_BLOCK
        else tree_lookup map (S l) root (logical - level_base (Z.of_nat (S l)))
    end.

Lemma resolve_chain_tree map lvl n : ∀ current rem i,
  lvl ≤ 6 → 0 ≤ i → i + Z.of_nat n = lvl →
  resolve_chain map current (fill_digits rem lvl i n) = tree_lookup map n current rem.
Proof.
  induction n as [|n IH]; intros current rem i Hlvl Hi Hn; [done|].
  cbn [fill_digits resolve_chain tree_lookup].
  rewrite span_eq by lia. replace (lvl - i - 1) with (Z.of_nat n) by lia.
  destruct (idkfs_safe_pointer_read _ _ _) as [next|]; [|done]. do 2 ostep.
  destruct (next =? B_NULL_BLOCK); [done|]. apply IH; lia.
Qed.

Lemma level_of_eq l r : 1 ≤ l ≤ 6 → 0 ≤ r < 512 ^ l → level_of (level_base l + r) = Z.to_nat l.
Proof.
  intros Hl Hr. unfold level_of.
  pose proof level_base_vals as (B1 & B2 & B3 & B4 & B5 & B6 & B7).
  assert (l = 1 ∨ l = 2 ∨ l = 3 ∨ l = 4 ∨ l = 5 ∨ l = 6)
    as [->|[->|[->|[->|[->| ->]]]]] by lia;
    rewrite ?B1, ?B2, ?B3, ?B4, ?B5, ?B6; cbn [Z.pow Z.pow_pos Pos.iter Z.mul Pos.mul] in Hr;
    rewrite !filter_cons, filter_nil, B1, B2, B3, B4, B5, B6;
    repeat case_decide; try lia; reflexivity.
Qed.

(** C37: [idkfs_resolve_logical_block] is the walk of the inode's radix tree:
    the direct pointer below 12, otherwise the level's root pointer followed,
    digit by digit, down to the data block, [IDKFS_NULL_BLOCK] as soon as a
    pointer is null or the block is beyond the sixth level. *)
Theorem resolve_logical_block_ref map logical inode_block :
  0 ≤ logical < 18446744073709551616 →
  idkfs_resolve_logical_block map logical inode_block = block_ref map logical inode_block.
Proof.
  intros Hl. unfold idkfs_resolve_logical_block, block_ref, idkfs_fill_chain,
    B_DIRECT_BLOCKS, IDKFS_MAX_INDIRECT_LEVELS.
  pose proof level_base_vals as (B1 & B2 & B3 & B4 & B5 & B6 & B7).
  destruct (Z.ltb_spec logical 12).
  { cbn [Z.eqb]. rewrite (proj2 (Z.leb_gt (level_base 7) logical)) by lia.
    assert (level_of logical = 0%nat) as ->; [|done].
    unfold level_of. rewrite !filter_cons, filter_nil, B1, B2, B3, B4, B5, B6.
    repeat case_decide; lia || reflexivity. }
  rewrite u64_small by lia.
  pose proof (fill_level_ok 6 (logical - 12) 1 ltac:(lia) ltac:(lia) ltac:(lia)) as H6.
  change (Z.to_nat 6) with 6%nat. rewrite B1 in H6.
  destruct (fill_level _ _ _) as [[l chain]|].
  2: { by rewrite (proj2 (Z.leb_le (level_base 7) logical)) by lia. }
  destruct H6 as (r & H1 & -> & H2 & H3).
  assert (logical = level_base l + r) as -> by lia.
  rewrite (proj2 (Z.eqb_neq l 0)) by lia.
  assert (level_base l + r < level_base 7) as Hlt.
  { assert (l = 1 ∨ l = 2 ∨ l = 3 ∨ l = 4 ∨ l = 5 ∨ l = 6)
      as [->|[->|[->|[->|[->| ->]]]]] by lia;
      rewrite ?B1, ?B2, ?B3, ?B4, ?B5, ?B6, B7;
      cbn [Z.pow Z.pow_pos Pos.iter Z.mul Pos.mul] in H2; lia. }
  rewrite (proj2 (Z.leb_gt _ _) Hlt), level_of_eq by lia.
  destruct (Z.to_nat l) as [|n] eqn:En; [lia|].
  replace (12 + l - 1) with (12 + Z.of_nat n) by lia.
  destruct (idkfs_safe_inode_read _ _ _) as [root|]; [|done]. do 2 ostep.
  destruct (root =? B_NULL_BLOCK); [done|].
  rewrite resolve_chain_tree by lia. replace (Z.of_nat (S n)) with l by lia.
  f_equal. lia.
Qed.

Lemma resolve_logical_block_ref_witness :
  idkfs_resolve_logical_block (mzero 8192) 600 1 = block_ref (mzero 8192) 600 1.
Proof. apply resolve_logical_block_ref. lia. Defined.

(** ** Bounds *)

Lemma mload_u64_ok map off :
  0 ≤ off → off + 8 ≤ m_size map → ∃ v, mload c_u64 map off = Some v.
Proof.
  intros H1 H2. unfold mload. cbn [csize c_le]. rewrite mread_ok by lia. by eexists.
Qed.

Lemma mload_u64_oob map off : m_size map < off + 8 → mload c_u64 map off = None.
Proof.
  intros H. unfold mload, mread, in_bounds. cbn [csize c_le].
  rewrite (proj2 (Z.leb_gt (off + Z.of_nat 8) (m_size map))) by lia. by rewrite andb_false_r.
Qed.

Lemma inode_read_safe map inode_block offset :
  0 ≤ offset < 18 → ∃ v, idkfs_safe_inode_read map inode_block offset = Some v.
Proof.
  intros Ho. unfold idkfs_safe_inode_read, inode_disk_size, B_BLOCK_SIZE.
  pose proof (u64_range (inode_block * 4096)) as Hr.
  assert (u64 (inode_block * 4096) ≤ 18446744073709547520) as Hmax.
  { unfold u64. zdm. }
  zcase; [by eexists|]. rewrite u64_small in * by lia. apply mload_u64_ok; lia.
Qed.

(** C38: the bounds check of [idkfs_safe_pointer_read] is exact but for one
    case: with a mapping smaller than 2{^63} bytes, the read leaves the
    mapping exactly when the block number is 2{^52} - 1 modulo 2{^52}, for which
    [byte + IDKFS_BLOCK_SIZE] wraps around to 0 and passes the check. *)
Theorem pointer_read_oob map block index :
  0 ≤ m_size map < 9223372036854775808 → 0 ≤ index →
  idkfs_safe_pointer_read map block index = None ↔
  index < 512 ∧ block mod 4503599627370496 = 4503599627370495.
Proof.
  intros Hm Hi. unfold idkfs_safe_pointer_read, B_BLOCK_SIZE, B_PTRS_PER_BLOCK.
  assert (u64 (block * 4096) = (block mod 4503599627370496) * 4096) as ->.
  { unfold u64. zdm. }
  pose proof (Z.mod_pos_bound block 4503599627370496 ltac:(lia)) as Hb.
  set (b := block mod 4503599627370496) in *.
  destruct (Z.eq_dec b 4503599627370495) as [E|E].
  - rewrite E. change (u64 (4503599627370495 * 4096 + 4096)) with 0.
    rewrite (proj2 (Z.ltb_ge (m_size map) 0)) by lia.
    destruct (Z.leb_spec 512 index); [split; [done|lia]|].
    rewrite mload_u64_oob by lia. split; [|done]. intros _. by split.
  - rewrite (u64_small (b * 4096 + 4096)) by lia. split; [|tauto].
    destruct (Z.ltb_spec (m_size map) (b * 4096 + 4096)); [done|].
    destruct (Z.leb_spec 512 index); [done|].
    destruct (mload_u64_ok map (b * 4096 + 8 * index)) as [v ->]; [lia|lia|done].
Qed.

Lemma pointer_read_oob_witness :
  idkfs_safe_pointer_read (mzero 8192) 4503599627370495 0 = None.
Proof. apply (pointer_read_oob (mzero 8192)); [cbn; lia|lia|by split]. Defined.

(** The block numbers stored in an image stay clear of the wrap-around. *)
Definition pointers_ok (map : mem) : Prop :=
  ∀ off v, mload c_u64 map off = Some v →
    v = B_NULL_BLOCK ∨ v mod 4503599627370496 ≠ 4503599627370495.

Lemma resolve_chain_safe map chain : ∀ current,
  0 ≤ m_size map < 9223372036854775808 → pointers_ok map →
  current mod 4503599627370496 ≠ 4503599627370495 →
  Forall (λ c, 0 ≤ c < 512) chain → ∃ v, resolve_chain map current chain = Some v.
Proof.
  intros current Hm Hp. revert current.
  induction chain as [|index chain IH]; intros current Hc Hf; [by eexists|].
  apply Forall_cons in Hf as [Hi Hf]. cbn [resolve_chain].
  destruct (idkfs_safe_pointer_read map current index) as [next|] eqn:E.
  2: { exfalso. unfold idkfs_safe_pointer_read, B_BLOCK_SIZE, B_PTRS_PER_BLOCK in E.
       assert (u64 (current * 4096) = (current mod 4503599627370496) * 4096) as Hu
         by (unfold u64; zdm).
       rewrite Hu in E.
       pose proof (Z.mod_pos_bound current 4503599627370496 ltac:(lia)) as Hb.
       rewrite u64_small in E by lia. zcases_in E; try done.
       edestruct mload_u64_ok as [v Hv]; [| |rewrite Hv in E; done]; lia. }
  ostep. destruct (Z.eqb_spec next B_NULL_BLOCK); [by eexists|].
  apply IH; [|done]. unfold idkfs_safe_pointer_read in E. zcases_in E; simplify_eq.
  by destruct (Hp _ _ E).
Qed.

(** on an image whose stored block numbers are null or not 2{^52} - 1 modulo
    2{^52}, resolving any logical block of any inode block stays within the
    mapping. *)
Theorem resolve_logical_block_safe map logical inode_block :
  0 ≤ m_size map < 9223372036854775808 → pointers_ok map →
  0 ≤ logical < 18446744073709551616 →
  ∃ v, idkfs_resolve_logical_block map logical inode_block = Some v.
Proof.
  intros Hm Hp Hl. unfold idkfs_resolve_logical_block, idkfs_fill_chain,
    B_DIRECT_BLOCKS, IDKFS_MAX_INDIRECT_LEVELS.
  destruct (Z.ltb_spec logical 12).
  { cbn [Z.eqb]. change ([logical].[0]) with (Some logical). ostep.
    apply inode_read_safe. lia. }
  rewrite u64_small by lia.
  pose proof (fill_level_ok 6 (logical - 12) 1 ltac:(lia) ltac:(lia) ltac:(lia)) as H6.
  change (Z.to_nat 6) with 6%nat.
  destruct (fill_level _ _ _) as [[l chain]|]; [|by eexists].
  destruct H6 as (r & H1 & -> & H2 & _). rewrite (proj2 (Z.eqb_neq l 0)) by lia.
  destruct (inode_read_safe map inode_block (12 + l - 1)) as [root E]; [lia|].
  rewrite E. ostep. destruct (Z.eqb_spec root B_NULL_BLOCK); [by eexists|].
  destruct (fill_digits_ok l (Z.to_nat l) r 0) as (_ & _ & D3); [lia|lia|lia| |].
  { by rewrite Z2Nat.id by lia. }
  apply resolve_chain_safe; [done|done| |done].
  unfold idkfs_safe_inode_read in E. zcases_in E; simplify_eq. by destruct (Hp _ _ E).
Qed.

Lemma mzero_pointers_ok : pointers_ok (mzero 8192).
Proof.
  intros off v. unfold mload, mread. destruct (in_bounds _ _ _); [|done].
  intros [= <-]. right.
  assert (∀ a, mget (mzero 8192) a = 0) as H0 by reflexivity. rewrite !H0.
  vm_compute. discriminate.
Qed.

Lemma resolve_logical_block_safe_witness :
  ∃ v, idkfs_resolve_logical_block (mzero 8192) 13 0 = Some v.
Proof.
  apply resolve_logical_block_safe; [cbn; lia|apply mzero_pointers_ok|lia].
Defined.
