(* ===== verification/Journal.v ===== *)
(** * The block driver: [idkfs_blk.c]

    Requests on the in-memory mapping of the image, the periodic commit of
    the mapping to the backing file, recovery when the image is mapped, and
    loading and unloading of the module.  The results of the kernel's
    functions are arguments. *)

From S2P Require Import Prelude Cint Codec Mem Kfs.

Definition EIO : Z := 5.
Definition ENOMEM : Z := 12.
Definition EINVAL : Z := 22.

(** The globals of the driver.  [bd_map] is [backing_map], of [backing_size]
    bytes; [bd_dev] is [idkfs_dev] with its [journal_dirty]. *)
Record blkdev := mkBlkdev {
  bd_file : mem;
  bd_map : option mem;
  bd_dev : option bool;
}.

(** Offsets of the superblock and transaction fields the driver uses. *)
Definition SB_GENERATION : Z := 8.
Definition SB_TX_REGION : Z := 64.
Definition TX_STATE : Z := 4.
Definition TX_PENDING : Z := 8.
Definition TX_COMMITTED : Z := 16.

(** The address of the transaction record in the mapping. *)
Definition idkfs_tx (m : mem) : option Z :=
  tx_block ← mload c_u64 m SB_TX_REGION;
  Some (u64 (tx_block * K_BLOCK_SIZE)).

Definition idkfs_replay_if_needed (m : mem) : option mem :=
  tx ← idkfs_tx m;
  magic ← mload c_u32 m tx;
  if negb (magic =? IDKFS_TX_MAGIC) then Some m
  else
    state ← mload c_u32 m (tx + TX_STATE);
    if state =? 1 then
      committed ← mload c_u64 m (tx + TX_COMMITTED);
      m ← mstore c_u64 m SB_GENERATION committed;
      mstore c_u32 m (tx + TX_STATE) 0
    else Some m.

(** Before the write: [next_gen], 0 when there is no transaction record. *)
Definition commit_begin (m : mem) : option (mem * Z) :=
  tx ← idkfs_tx m;
  magic ← mload c_u32 m tx;
  if magic =? IDKFS_TX_MAGIC then
    gen ← mload c_u64 m SB_GENERATION;
    let next_gen := u64 (gen + 1) in
    m ← mstore c_u64 m (tx + TX_PENDING) next_gen;
    m ← mstore c_u32 m (tx + TX_STATE) 1;
    Some (m, next_gen)
  else Some (m, 0).

(** After a complete write. *)
Definition commit_end (m : mem) (next_gen : Z) : option mem :=
  tx ← idkfs_tx m;
  magic ← mload c_u32 m tx;
  if magic =? IDKFS_TX_MAGIC then
    gen ← mload c_u64 m SB_GENERATION;
    let next_gen := if next_gen =? 0 then u64 (gen + 1) else next_gen in
    m ← mstore c_u64 m SB_GENERATION next_gen;
    m ← mstore c_u64 m (tx + TX_COMMITTED) next_gen;
    mstore c_u32 m (tx + TX_STATE) 0
  else Some m.

(** [written] is the result of [kernel_write]: that many bytes reached the
    file, none when it is negative. *)
Definition idkfs_commit (s : blkdev) (written : Z) : option blkdev :=
  match bd_dev s, bd_map s with
  | Some true, Some m =>
      '(m, next_gen) ← commit_begin m;
      file ← mcopy (bd_file s) m (Z.max 0 written);
      if negb (written =? m_size m) then Some (mkBlkdev file (Some m) (Some true))
      else
        m ← commit_end m next_gen;
        Some (mkBlkdev file (Some m) (Some false))
  | Some true, None => None
  | _, _ => Some s
  end.

Definition idkfs_rollback (s : blkdev) : option blkdev :=
  match bd_dev s with
  | Some _ => Some (mkBlkdev (bd_file s) (bd_map s) (Some false))
  | None => None
  end.

(** [idkfs_map_backing]: the result and the mapping.  [open_err] is the
    error of [filp_open] (0 for none), [got] the result of [kernel_read]. *)
Definition idkfs_map_backing (file : mem) (open_err : Z) (getattr_ok vmalloc_ok : bool)
    (got : Z) : option (Z * option mem) :=
  if negb (open_err =? 0) then Some (open_err, None)
  else if negb getattr_ok then Some (- EIO, None)
  else if m_size file =? 0 then Some (- EINVAL, None)
  else if negb vmalloc_ok then Some (- ENOMEM, None)
  else if negb (got =? m_size file) then Some (if got <? 0 then got else - EIO, None)
  else
    m ← mcopy (mzero (m_size file)) file (m_size file);
    m ← idkfs_replay_if_needed m;
    Some (0, Some m).

(** ** Requests *)

Inductive req_op := REQ_OP_READ | REQ_OP_WRITE | REQ_OP_OTHER.

(** The loop over the segments, from [sector]: the mapping, [journal_dirty],
    the buffers read and whether the request succeeded.  A segment is its
    buffer. *)
Fixpoint dispatch_segments (op : req_op) (m : mem) (dirty : bool) (sector : Z)
    (segs : list (list Z)) : option (mem * bool * list (list Z) * bool) :=
  match segs with
  | [] => Some (m, dirty, [], true)
  | buffer :: segs =>
      let offset := u64 (Z.shiftl sector 9) in
      let len := Z.of_nat (length buffer) in
      let next := u64 (sector + Z.shiftr len 9) in
      if m_size m <? u64 (offset + len) then Some (m, dirty, [], false)
      else
        match op with
        | REQ_OP_READ =>
            buffer ← mread m offset (length buffer);
            '(m, dirty, out, ok) ← dispatch_segments op m dirty next segs;
            Some (m, dirty, buffer :: out, ok)
        | _ =>
            m ← mwrite m offset buffer;
            '(m, dirty, out, ok) ← dispatch_segments op m true next segs;
            Some (m, dirty, buffer :: out, ok)
        end
  end.

(** [true] is [BLK_STS_OK], [false] [BLK_STS_IOERR]. *)
Definition idkfs_blk_dispatch (s : blkdev) (op : req_op) (sector : Z)
    (segs : list (list Z)) : option (blkdev * list (list Z) * bool) :=
  match bd_map s with
  | None => Some (s, [], false)
  | Some m =>
      if m_size m =? 0 then Some (s, [], false)
      else if m_size m <=? u64 (Z.shiftl sector 9) then Some (s, [], false)
      else
        match op with
        | REQ_OP_OTHER => Some (s, [], false)
        | _ =>
            dirty ← bd_dev s;
            '(m, dirty, out, ok) ← dispatch_segments op m dirty sector segs;
            Some (mkBlkdev (bd_file s) (Some m) (Some dirty), out, ok)
        end
  end.

(** ** Loading and unloading *)

(** The failures [idkfs_blk_init] can meet after the mapping. *)
Record init_env := mkInitEnv {
  ie_alloc : bool; ie_open_err : Z; ie_getattr : bool; ie_vmalloc : bool; ie_got : Z;
  ie_major : Z; ie_tagset : Z; ie_queue_err : Z; ie_alloc_disk : bool;
}.

(** [idkfs_blk_init_disk]: 0 or the error. *)
Definition idkfs_blk_init_disk (e : init_env) : Z :=
  if negb (ie_queue_err e =? 0) then ie_queue_err e
  else if negb (ie_alloc_disk e) then - ENOMEM else 0.

Definition idkfs_blk_init (s : blkdev) (e : init_env) : option (blkdev * Z) :=
  if negb (ie_alloc e) then Some (mkBlkdev (bd_file s) (bd_map s) None, - ENOMEM)
  else
    '(ret, m) ← idkfs_map_backing (bd_file s) (ie_open_err e) (ie_getattr e)
                  (ie_vmalloc e) (ie_got e);
    if negb (ret =? 0) then Some (mkBlkdev (bd_file s) m None, ret)
    else
      let failed ret := Some (mkBlkdev (bd_file s) None None, ret) in
      if ie_major e <? 0 then failed (ie_major e)
      else if negb (ie_tagset e =? 0) then failed (ie_tagset e)
      else
        let ret := idkfs_blk_init_disk e in
        if negb (ret =? 0) then failed ret
        else Some (mkBlkdev (bd_file s) m (Some false), 0).

(** [idkfs_blk_exit] cancels the commit work and unmaps the image. *)
Definition idkfs_blk_exit (s : blkdev) : blkdev :=
  match bd_dev s with
  | None => s
  | Some _ => mkBlkdev (bd_file s) None None
  end.

(** ** The transaction record *)

(** The mapping has a transaction record at [off], with the given state,
    pending and committed generations, and generation [g] in the superblock. *)
Record journaled (m : mem) (off st pd cm g : Z) : Prop := {
  jr_tx : idkfs_tx m = Some off;
  jr_low : 104 ≤ off;
  jr_high : off + 28 ≤ m_size m;
  jr_magic : mload c_u32 m off = Some IDKFS_TX_MAGIC;
  jr_state : mload c_u32 m (off + TX_STATE) = Some st;
  jr_pending : mload c_u64 m (off + TX_PENDING) = Some pd;
  jr_committed : mload c_u64 m (off + TX_COMMITTED) = Some cm;
  jr_gen : mload c_u64 m SB_GENERATION = Some g;
}.

(** Everything but the generation and the transaction record is the same. *)
Definition same_image (off : Z) (m m' : mem) : Prop :=
  m_size m' = m_size m ∧
  ∀ a, ¬ (8 ≤ a < 16) → ¬ (off + 4 ≤ a < off + 24) → mget m' a = mget m a.

Lemma same_image_trans off m1 m2 m3 :
  same_image off m1 m2 → same_image off m2 m3 → same_image off m1 m3.
Proof.
  intros [H1 H2] [H3 H4]. split; [congruence|]. intros a Ha Ha'. by rewrite H4, H2.
Qed.

Lemma u64_valid v : 0 ≤ v < 18446744073709551616 → cvalid c_u64 v.
Proof. done. Qed.
Lemma u32_valid v : 0 ≤ v < 4294967296 → cvalid c_u32 v.
Proof. done. Qed.

Lemma u64_csize : Z.of_nat (csize c_u64) = 8.
Proof. done. Qed.
Lemma u32_csize : Z.of_nat (csize c_u32) = 4.
Proof. done. Qed.

Ltac joff := unfold SB_GENERATION, SB_TX_REGION, TX_STATE, TX_PENDING, TX_COMMITTED in *.

(** One store to a field of the transaction record or to the generation. *)
Lemma j_store {A} (c : codec A) `{!CodecOk c} m off at_ v :
  cvalid c v → 0 ≤ at_ → at_ + Z.of_nat (csize c) ≤ m_size m →
  (at_ = 8 ∧ Z.of_nat (csize c) = 8) ∨
    (off + 4 ≤ at_ ∧ at_ + Z.of_nat (csize c) ≤ off + 24) →
  ∃ m', mstore c m at_ v = Some m' ∧ same_image off m m' ∧
    mload c m' at_ = Some v ∧
    ∀ B (d : codec B) at', at' + Z.of_nat (csize d) ≤ at_ ∨
      at_ + Z.of_nat (csize c) ≤ at' → mload d m' at' = mload d m at'.
Proof.
  intros Hv H0 Hs Hr. destruct (mstore_ok c m at_ v Hv H0 Hs) as (m' & Hm & Hsz & Hg).
  exists m'. split; [exact Hm|]. split; [|split].
  - split; [exact Hsz|]. intros a Ha Ha'. apply Hg. lia.
  - by eapply mload_mstore.
  - intros B d at' Hd. by eapply mload_mstore_ne.
Qed.

Lemma idkfs_tx_ext m m' :
  mload c_u64 m' SB_TX_REGION = mload c_u64 m SB_TX_REGION → idkfs_tx m' = idkfs_tx m.
Proof. intros H. unfold idkfs_tx. by rewrite H. Qed.

(** Storing [v] with layout [c] in the field at [at_]. *)
Ltac j_set Hj c m off at_ v Hv :=
  destruct Hj as [J1 J2 J3 J4 J5 J6 J7 J8]; joff;
  destruct (j_store c m off at_ v Hv) as (m' & Hm & Hi & Hl & Hn);
    [lia|rewrite ?u64_csize, ?u32_csize; lia|rewrite ?u64_csize, ?u32_csize; lia|];
  rewrite ?u64_csize, ?u32_csize in Hn;
  exists m'; split; [exact Hm|]; split; [|exact Hi];
  split; joff; try done; try (rewrite Hn; [done|rewrite ?u64_csize, ?u32_csize; lia]);
  [rewrite (idkfs_tx_ext m); [done|]; joff; apply Hn; rewrite u64_csize; lia
  |by destruct Hi as [-> _]].

Section store.
Context (m : mem) (off st pd cm g : Z) (Hj : journaled m off st pd cm g).

Lemma j_set_state v :
  0 ≤ v < 4294967296 →
  ∃ m', mstore c_u32 m (off + TX_STATE) v = Some m' ∧ journaled m' off v pd cm g ∧
    same_image off m m'.
Proof using Hj. intros Hv. j_set Hj (c_le 4) m off (off + 4) v (u32_valid v Hv). Qed.

Lemma j_set_pending v :
  0 ≤ v < 18446744073709551616 →
  ∃ m', mstore c_u64 m (off + TX_PENDING) v = Some m' ∧ journaled m' off st v cm g ∧
    same_image off m m'.
Proof using Hj. intros Hv. j_set Hj (c_le 8) m off (off + 8) v (u64_valid v Hv). Qed.

Lemma j_set_committed v :
  0 ≤ v < 18446744073709551616 →
  ∃ m', mstore c_u64 m (off + TX_COMMITTED) v = Some m' ∧ journaled m' off st pd v g ∧
    same_image off m m'.
Proof using Hj. intros Hv. j_set Hj (c_le 8) m off (off + 16) v (u64_valid v Hv). Qed.

Lemma j_set_gen v :
  0 ≤ v < 18446744073709551616 →
  ∃ m', mstore c_u64 m SB_GENERATION v = Some m' ∧ journaled m' off st pd cm v ∧
    same_image off m m'.
Proof using Hj. intros Hv. j_set Hj (c_le 8) m off 8 v (u64_valid v Hv). Qed.
End store.

(** The record depends on the superblock and its own bytes only. *)
Lemma journaled_fields m m' off st pd cm g :
  m_size m' = m_size m →
  (∀ a, 0 ≤ a < 104 ∨ off ≤ a < off + 28 → mget m' a = mget m a) →
  journaled m off st pd cm g → journaled m' off st pd cm g.
Proof.
  intros Hs Hg [J1 J2 J3 J4 J5 J6 J7 J8].
  assert (Hl : ∀ A (c : codec A) x, (0 ≤ x ∧ x + Z.of_nat (csize c) ≤ 104) ∨
    (off ≤ x ∧ x + Z.of_nat (csize c) ≤ off + 28) → mload c m' x = mload c m x).
  { intros A c x Hx. apply mload_ext; [done|]. intros a Ha. apply Hg. lia. }
  joff. split; joff; try done; rewrite ?Hs; try done;
    try (rewrite Hl; [done|rewrite ?u64_csize, ?u32_csize; lia]).
  rewrite (idkfs_tx_ext m); [done|]. joff. apply Hl. rewrite u64_csize. lia.
Qed.

Lemma journaled_ext m m' off st pd cm g :
  m_size m' = m_size m → (∀ a, 0 ≤ a < m_size m → mget m' a = mget m a) →
  journaled m off st pd cm g → journaled m' off st pd cm g.
Proof.
  intros Hs Hg Hj. apply (journaled_fields m); [done| |done]. destruct Hj.
  intros a Ha. apply Hg. lia.
Qed.

(** ** Commit and recovery *)

Lemma commit_begin_ok m off st pd cm g :
  journaled m off st pd cm g →
  ∃ m1, commit_begin m = Some (m1, u64 (g + 1)) ∧
    journaled m1 off 1 (u64 (g + 1)) cm g ∧ same_image off m m1.
Proof.
  intros Hj. unfold commit_begin. pose proof (u64_range (g + 1)) as Hr.
  rewrite (jr_tx _ _ _ _ _ _ Hj). ostep. rewrite (jr_magic _ _ _ _ _ _ Hj). ostep.
  rewrite Z.eqb_refl, (jr_gen _ _ _ _ _ _ Hj). ostep.
  destruct (j_set_pending _ _ _ _ _ _ Hj (u64 (g + 1)) Hr) as (m1 & -> & Hj1 & Hs1). ostep.
  destruct (j_set_state _ _ _ _ _ _ Hj1 1) as (m2 & -> & Hj2 & Hs2); [lia|]. ostep.
  exists m2. split_and!; [done|exact Hj2|by eapply same_image_trans].
Qed.

(** Computing the generation again when it wrapped to 0 gives 0 again. *)
Lemma commit_end_ok m off st pd cm g :
  journaled m off st pd cm g →
  ∃ m2, commit_end m (u64 (g + 1)) = Some m2 ∧
    journaled m2 off 0 pd (u64 (g + 1)) (u64 (g + 1)) ∧ same_image off m m2.
Proof.
  intros Hj. unfold commit_end. pose proof (u64_range (g + 1)) as Hr.
  rewrite (jr_tx _ _ _ _ _ _ Hj). ostep. rewrite (jr_magic _ _ _ _ _ _ Hj). ostep.
  rewrite Z.eqb_refl, (jr_gen _ _ _ _ _ _ Hj). ostep.
  replace (if u64 (g + 1) =? 0 then _ else _) with (u64 (g + 1)) by (by destruct (_ =? _)).
  destruct (j_set_gen _ _ _ _ _ _ Hj _ Hr) as (m1 & -> & Hj1 & Hs1). ostep.
  destruct (j_set_committed _ _ _ _ _ _ Hj1 _ Hr) as (m2 & -> & Hj2 & Hs2). ostep.
  destruct (j_set_state _ _ _ _ _ _ Hj2 0) as (m3 & -> & Hj3 & Hs3); [lia|].
  exists m3. split_and!; [done|exact Hj3|eauto using same_image_trans].
Qed.

Lemma replay_ok m off st pd cm g :
  journaled m off st pd cm g → 0 ≤ cm < 18446744073709551616 →
  ∃ m', idkfs_replay_if_needed m = Some m' ∧ same_image off m m' ∧
    if st =? 1 then journaled m' off 0 pd cm cm else m' = m.
Proof.
  intros Hj Hc. unfold idkfs_replay_if_needed.
  rewrite (jr_tx _ _ _ _ _ _ Hj). ostep. rewrite (jr_magic _ _ _ _ _ _ Hj). ostep.
  rewrite Z.eqb_refl, (jr_state _ _ _ _ _ _ Hj). cbn [negb]. ostep.
  destruct (st =? 1); [|by exists m].
  rewrite (jr_committed _ _ _ _ _ _ Hj). ostep.
  destruct (j_set_gen _ _ _ _ _ _ Hj cm) as (m1 & -> & Hj1 & Hs1); [lia|]. ostep.
  destruct (j_set_state _ _ _ _ _ _ Hj1 0) as (m2 & -> & Hj2 & Hs2); [lia|].
  exists m2. split_and!; [done|by eapply same_image_trans|exact Hj2].
Qed.

Lemma map_backing_ok file :
  0 < m_size file →
  ∃ m, m_size m = m_size file ∧ (∀ a, 0 ≤ a < m_size file → mget m a = mget file a) ∧
    idkfs_map_backing file 0 true true (m_size file) =
      m' ← idkfs_replay_if_needed m; Some (0, Some m').
Proof.
  intros Hs. unfold idkfs_map_backing. cbn [Z.eqb negb].
  rewrite (proj2 (Z.eqb_neq (m_size file) 0)), Z.eqb_refl by lia. cbn [negb].
  destruct (mcopy_ok (mzero (m_size file)) file (m_size file)) as (m & -> & Hm & Hg);
    [lia|cbn; lia|].
  exists m. split; [done|]. split; [|by ostep].
  intros a Ha. rewrite Hg. by zcases; try lia.
Qed.

(** The write of a commit: [n] bytes reach the file. *)
Lemma commit_write file m off st pd cm g n :
  journaled m off st pd cm g → m_size file = m_size m → 0 ≤ n ≤ m_size m →
  ∃ m1 file', commit_begin m = Some (m1, u64 (g + 1)) ∧
    journaled m1 off 1 (u64 (g + 1)) cm g ∧ same_image off m m1 ∧
    mcopy file m1 n = Some file' ∧ m_size file' = m_size m ∧
    ∀ a, 0 ≤ a → mget file' a = if a <? n then mget m1 a else mget file a.
Proof.
  intros Hj Hsz Hn. destruct (commit_begin_ok m off st pd cm g Hj) as (m1 & Hb & Hj1 & Hi1).
  pose proof Hi1 as [Hs1 _].
  destruct (mcopy_ok file m1 n) as (f & Hc & Hf & Hg); [lia|lia|].
  exists m1, f. split_and!; try done; [congruence|].
  intros a Ha. rewrite Hg. by zcases; try lia.
Qed.

Lemma commit_full file m off st pd cm g :
  journaled m off st pd cm g → m_size file = m_size m →
  ∃ file' m', idkfs_commit (mkBlkdev file (Some m) (Some true)) (m_size m) =
      Some (mkBlkdev file' (Some m') (Some false)) ∧
    journaled m' off 0 (u64 (g + 1)) (u64 (g + 1)) (u64 (g + 1)) ∧ same_image off m m' ∧
    journaled file' off 1 (u64 (g + 1)) cm g ∧ m_size file' = m_size m ∧
    ∀ a, 0 ≤ a < m_size m → ¬ (8 ≤ a < 16) → ¬ (off + 4 ≤ a < off + 24) →
      mget file' a = mget m a.
Proof.
  intros Hj Hsz. unfold idkfs_commit. cbn [bd_dev bd_map bd_file].
  pose proof (jr_low _ _ _ _ _ _ Hj) as Hlow. pose proof (jr_high _ _ _ _ _ _ Hj) as Hhigh.
  destruct (commit_write file m off st pd cm g (m_size m) Hj Hsz)
    as (m1 & f & -> & Hj1 & Hi1 & Hc & Hf & Hg); [lia|].
  pose proof Hi1 as [Hs1 Hb1]. ostep. rewrite Z.max_r by lia. rewrite Hc. ostep.
  rewrite Hs1, Z.eqb_refl. cbn [negb].
  destruct (commit_end_ok m1 off 1 _ cm g Hj1) as (m2 & -> & Hj2 & Hi2). ostep.
  exists f, m2. split_and!; [done|exact Hj2|by eapply same_image_trans| |done|].
  - apply (journaled_ext m1); [congruence| |exact Hj1].
    intros a Ha. rewrite Hg by lia. by zcases; try lia.
  - intros a Ha Ha1 Ha2. rewrite Hg, <- Hb1 by (done || lia). by zcases; try lia.
Qed.

(** A commit whose write fails or is short leaves the device dirty. *)
Lemma commit_short file m off st pd cm g n :
  journaled m off st pd cm g → m_size file = m_size m → n < m_size m →
  ∃ file' m1, idkfs_commit (mkBlkdev file (Some m) (Some true)) n =
      Some (mkBlkdev file' (Some m1) (Some true)) ∧
    journaled m1 off 1 (u64 (g + 1)) cm g ∧ same_image off m m1 ∧
    m_size file' = m_size m ∧
    ∀ a, 0 ≤ a → mget file' a = if a <? n then mget m1 a else mget file a.
Proof.
  intros Hj Hsz Hn. unfold idkfs_commit. cbn [bd_dev bd_map bd_file].
  pose proof (jr_low _ _ _ _ _ _ Hj) as Hlow. pose proof (jr_high _ _ _ _ _ _ Hj) as Hhigh.
  destruct (commit_write file m off st pd cm g (Z.max 0 n) Hj Hsz)
    as (m1 & f & -> & Hj1 & Hi1 & Hc & Hf & Hg); [lia|].
  pose proof Hi1 as [Hs1 _]. ostep. rewrite Hc. ostep.
  rewrite Hs1, (proj2 (Z.eqb_neq n (m_size m))) by lia. cbn [negb].
  exists f, m1. split_and!; try done.
  intros a Ha. rewrite Hg by done. by zcases; try lia.
Qed.

(** Mapping a file that carries a transaction record: the data are the
    file's, an open transaction is closed at the committed generation. *)
Lemma reload_ok file off st pd cm g :
  journaled file off st pd cm g → 0 ≤ cm < 18446744073709551616 →
  ∃ m, idkfs_map_backing file 0 true true (m_size file) = Some (0, Some m) ∧
    m_size m = m_size file ∧
    (if st =? 1 then journaled m off 0 pd cm cm else journaled m off st pd cm g) ∧
    ∀ a, 0 ≤ a < m_size file → ¬ (8 ≤ a < 16) → ¬ (off + 4 ≤ a < off + 24) →
      mget m a = mget file a.
Proof.
  intros Hj Hcm.
  pose proof (jr_low _ _ _ _ _ _ Hj) as Hlow. pose proof (jr_high _ _ _ _ _ _ Hj) as Hhigh.
  destruct (map_backing_ok file) as (m & Hs & Hg & ->); [lia|].
  assert (journaled m off st pd cm g) as Hjm by by apply (journaled_ext file).
  destruct (replay_ok m off st pd cm g Hjm Hcm) as (m' & -> & [Hs' Hg'] & Hr). ostep.
  exists m'. split; [done|]. split; [congruence|]. split.
  - destruct (st =? 1); [exact Hr|by subst].
  - intros a Ha Ha1 Ha2. rewrite Hg' by done. by apply Hg.
Qed.
