(* ===== verification/Device.v ===== *)
(** * The contract of the block driver

    The driver of [Journal.v] as a disk with a write-back cache: requests act
    on the mapping, a complete commit copies it to the file, and unloading
    falls back to the last commit. *)

From S2P Require Import Prelude Cint Codec Mem Kfs Journal.

(** ** Requests *)

Definition seg_bytes (segs : list (list Z)) : Z := Z.of_nat (length (concat segs)).
Definition aligned (segs : list (list Z)) : Prop :=
  Forall (λ b, Z.of_nat (length b) mod 512 = 0) segs.
Definition short_segs (segs : list (list Z)) : Prop :=
  Forall (λ b, Z.of_nat (length b) < 4294967296) segs.

Lemma sector_offset sector : u64 (Z.shiftl sector 9) = (sector * 512) mod 2 ^ 64.
Proof. unfold u64. by rewrite Z.shiftl_mul_pow2 by lia. Qed.

Lemma next_offset sector len :
  u64 (Z.shiftl (u64 (sector + Z.shiftr len 9)) 9) =
  u64 (u64 (Z.shiftl sector 9) + len / 512 * 512).
Proof.
  rewrite !Z.shiftl_mul_pow2, Z.shiftr_div_pow2 by lia. unfold u64.
  change (2 ^ 9) with 512. rewrite Z.mul_mod_idemp_l, Z.add_mod_idemp_l by lia.
  f_equal. lia.
Qed.

Lemma next_offset_small sector len size :
  0 ≤ len → u64 (Z.shiftl sector 9) + len ≤ size → size < 9223372036854775808 →
  u64 (Z.shiftl (u64 (sector + Z.shiftr len 9)) 9) =
  u64 (Z.shiftl sector 9) + len / 512 * 512.
Proof.
  intros Hl Hs Hb. rewrite next_offset. apply u64_small.
  pose proof (Z_mod_lt (sector * 512) (2 ^ 64)). rewrite <- sector_offset in H.
  pose proof (Z.mul_div_le len 512). pose proof (Z.div_pos len 512). lia.
Qed.

Lemma offset_nonneg sector : 0 ≤ u64 (Z.shiftl sector 9).
Proof. apply u64_range. Qed.

(** Whatever the request, the loop stays within the mapping. *)
Lemma dispatch_defined op segs : ∀ m dirty sector,
  m_size m < 9223372036854775808 → u64 (Z.shiftl sector 9) ≤ m_size m → short_segs segs →
  ∃ m' dirty' out ok, dispatch_segments op m dirty sector segs = Some (m', dirty', out, ok) ∧
    m_size m' = m_size m.
Proof.
  induction segs as [|b segs IH]; intros m dirty sector Hm Ho Hs; cbn [dispatch_segments].
  { by exists m, dirty, [], true. }
  apply Forall_cons in Hs as [Hb Hs]. pose proof (offset_nonneg sector) as H0.
  rewrite u64_small by lia. zcases; [by eauto 6|].
  assert (∀ d m1, m_size m1 = m_size m → ∃ m' dirty' out ok,
    dispatch_segments op m1 d (u64 (sector + Z.shiftr (Z.of_nat (length b)) 9)) segs =
      Some (m', dirty', out, ok) ∧ m_size m' = m_size m) as Hn.
  { intros d m1 H1. rewrite <- H1. apply IH; [lia| |done].
    rewrite (next_offset_small _ _ (m_size m)) by lia.
    pose proof (Z.mul_div_le (Z.of_nat (length b)) 512). lia. }
  assert (∃ m1, mwrite m (u64 (Z.shiftl sector 9)) b = Some m1) as [m1 Hw].
  { apply mwrite_ok; lia. }
  pose proof (mwrite_Some _ _ _ _ Hw) as (_ & Hs1 & _).
  destruct op.
  - rewrite mread_ok by lia. ostep.
    destruct (Hn dirty m eq_refl) as (m' & d' & out & ok & -> & ?). ostep. eauto 6.
  - rewrite Hw. ostep.
    destruct (Hn true m1 Hs1) as (m' & d' & out & ok & -> & ?). ostep. eauto 6.
  - rewrite Hw. ostep.
    destruct (Hn true m1 Hs1) as (m' & d' & out & ok & -> & ?). ostep. eauto 6.
Qed.

(** The bytes [bs] over the contents [f] from [off] on. *)
Definition overwrite (off : Z) (bs : list Z) (f : Z → Z) (a : Z) : Z :=
  if (off <=? a) && (a <? off + Z.of_nat (length bs)) then default 0 (bs.[a - off]) else f a.

Lemma overwrite_ext off bs f g a : f a = g a → overwrite off bs f a = overwrite off bs g a.
Proof. intros H. unfold overwrite. by destruct (_ && _). Qed.

Lemma overwrite_app off b c f a :
  0 ≤ off →
  overwrite (off + Z.of_nat (length b)) c (overwrite off b f) a = overwrite off (b ++ c) f a.
Proof.
  intros Ho. unfold overwrite. rewrite length_app. zcases; try done; try lia.
  all: first [by rewrite zget_app_l by lia|rewrite zget_app_r by lia; do 2 f_equal; lia].
Qed.

Lemma seg_bytes_cons b segs : seg_bytes (b :: segs) = Z.of_nat (length b) + seg_bytes segs.
Proof. unfold seg_bytes. cbn. rewrite length_app. lia. Qed.

Lemma seg_bytes_nonneg segs : 0 ≤ seg_bytes segs.
Proof. unfold seg_bytes. lia. Qed.

Lemma aligned_div len : len mod 512 = 0 → len / 512 * 512 = len.
Proof. intros H. pose proof (Z.div_mod len 512). lia. Qed.

(** A write of whole sectors stores the concatenation of its buffers. *)
Lemma dispatch_write segs : ∀ m dirty sector,
  m_size m < 9223372036854775808 → aligned segs →
  u64 (Z.shiftl sector 9) + seg_bytes segs ≤ m_size m →
  ∃ m', dispatch_segments REQ_OP_WRITE m dirty sector segs =
      Some (m', dirty || negb (bool_decide (segs = [])), segs, true) ∧
    m_size m' = m_size m ∧
    ∀ a, mget m' a = overwrite (u64 (Z.shiftl sector 9)) (concat segs) (mget m) a.
Proof.
  induction segs as [|b segs IH]; intros m dirty sector Hm Ha Hs; cbn [dispatch_segments].
  { exists m. rewrite bool_decide_true by done. rewrite orb_false_r. split_and!; try done.
    intros a. unfold overwrite. cbn. by zcases; try lia. }
  apply Forall_cons in Ha as [Hb Ha]. rewrite seg_bytes_cons in Hs.
  pose proof (offset_nonneg sector). pose proof (seg_bytes_nonneg segs).
  rewrite u64_small by lia. zcases; [lia|].
  destruct (mwrite_ok m (u64 (Z.shiftl sector 9)) b) as [m1 Hw]; [lia..|].
  pose proof (mwrite_Some _ _ _ _ Hw) as (_ & Hs1 & Hg1). rewrite Hw. ostep.
  assert (u64 (Z.shiftl (u64 (sector + Z.shiftr (Z.of_nat (length b)) 9)) 9) =
    u64 (Z.shiftl sector 9) + Z.of_nat (length b)) as Hn.
  { rewrite (next_offset_small _ _ (m_size m)) by lia. by rewrite aligned_div. }
  destruct (IH m1 true (u64 (sector + Z.shiftr (Z.of_nat (length b)) 9)))
    as (m' & -> & Hs' & Hg'); [lia|done|lia|]. ostep.
  exists m'. rewrite (bool_decide_false (b :: segs = [])), orb_true_r by done.
  split; [done|].
  split; [congruence|]. intros a. rewrite Hg', Hn. cbn [concat].
  rewrite <- overwrite_app by lia. apply overwrite_ext, Hg1.
Qed.

Lemma shape_concat {A} (out segs : list (list A)) :
  length <$> out = length <$> segs → concat out = concat segs → out = segs.
Proof.
  revert segs. induction out as [|b out IH]; intros [|c segs] Hl Hc; try done.
  cbn in Hl. injection Hl as Hb Hl. cbn in Hc.
  apply app_inj_1 in Hc as [-> Hc]; [|done]. f_equal. by apply IH.
Qed.

Lemma same_shape segs : ∀ segs', length <$> segs' = length <$> segs →
  (aligned segs → aligned segs') ∧ seg_bytes segs' = seg_bytes segs.
Proof.
  induction segs as [|b segs IH]; intros [|c segs'] Hl; try done.
  cbn in Hl. injection Hl as Hb Hl. destruct (IH _ Hl) as [H1 H2].
  rewrite !seg_bytes_cons, Hb, H2. split; [|done].
  intros [Ha Has]%Forall_cons. apply Forall_cons. rewrite Hb. by split; [|apply H1].
Qed.

(** A read of whole sectors fills its buffers with the bytes from there on. *)
Lemma dispatch_read m dirty : m_size m < 9223372036854775808 → ∀ segs sector,
  aligned segs → u64 (Z.shiftl sector 9) + seg_bytes segs ≤ m_size m →
  ∃ out, dispatch_segments REQ_OP_READ m dirty sector segs = Some (m, dirty, out, true) ∧
    length <$> out = length <$> segs ∧
    concat out = mget m <$> seqZ (u64 (Z.shiftl sector 9)) (seg_bytes segs).
Proof.
  intros Hm. induction segs as [|b segs IH]; intros sector Ha Hs; cbn [dispatch_segments].
  { by exists []. }
  apply Forall_cons in Ha as [Hb Ha]. rewrite seg_bytes_cons in Hs.
  pose proof (offset_nonneg sector). pose proof (seg_bytes_nonneg segs).
  rewrite u64_small by lia. zcases; [lia|]. rewrite mread_ok by lia. ostep.
  assert (u64 (Z.shiftl (u64 (sector + Z.shiftr (Z.of_nat (length b)) 9)) 9) =
    u64 (Z.shiftl sector 9) + Z.of_nat (length b)) as Hn.
  { rewrite (next_offset_small _ _ (m_size m)) by lia. by rewrite aligned_div. }
  destruct (IH (u64 (sector + Z.shiftr (Z.of_nat (length b)) 9)))
    as (out & -> & Hl & Hc); [done|lia|]. ostep.
  eexists. split; [done|]. cbn [fmap list_fmap concat]. split; [f_equal; [len|exact Hl]|].
  rewrite Hc, Hn, seg_bytes_cons, <- fmap_app, <- seqZ_app by lia. done.
Qed.

(** ** The abstract disk *)

Record adisk := mkADisk { a_live : Z → Z; a_saved : Z → Z; a_dirty : bool }.

Inductive blk_event :=
| ev_request (op : req_op) (sector : Z) (segs : list (list Z))
| ev_commit (written : Z)
| ev_reload.

(** An environment in which loading the module succeeds. *)
Definition env_ok (size : Z) : init_env := mkInitEnv true 0 true true size 250 0 0 true.

(** One event: the driver's state, the buffers read and the success. *)
Definition blk_step (s : blkdev) (e : blk_event) :
    option (blkdev * list (list Z) * bool) :=
  match e with
  | ev_request op sector segs => idkfs_blk_dispatch s op sector segs
  | ev_commit written => s ← idkfs_commit s written; Some (s, [], true)
  | ev_reload =>
      let s := idkfs_blk_exit s in
      '(s, ret) ← idkfs_blk_init s (env_ok (m_size (bd_file s)));
      Some (s, [], ret =? 0)
  end.

Fixpoint blk_run (s : blkdev) (es : list blk_event) : option blkdev :=
  match es with
  | [] => Some s
  | e :: es => '(s, _, _) ← blk_step s e; blk_run s es
  end.

Definition adisk_step (size : Z) (d : adisk) (e : blk_event) : adisk :=
  match e with
  | ev_request REQ_OP_WRITE sector segs =>
      mkADisk (overwrite (sector * 512) (concat segs) (a_live d)) (a_saved d)
        (a_dirty d || negb (bool_decide (segs = [])))
  | ev_request _ _ _ => d
  | ev_commit written =>
      if a_dirty d && (written =? size) then mkADisk (a_live d) (a_live d) false else d
  | ev_reload => mkADisk (a_saved d) (a_saved d) false
  end.

(** The requests of the contract are within the device, of whole sectors, and
    write neither the superblock nor the transaction record; a commit is
    complete or writes nothing. *)
Definition event_ok (size off : Z) (e : blk_event) : Prop :=
  match e with
  | ev_request op sector segs =>
      0 ≤ sector ∧ sector * 512 < size ∧ sector * 512 + seg_bytes segs ≤ size ∧
      aligned segs ∧
      (op = REQ_OP_WRITE → 104 ≤ sector * 512 ∧
         (sector * 512 + seg_bytes segs ≤ off ∨ off + 28 ≤ sector * 512))
  | ev_commit written => written = size ∨ written ≤ 0
  | ev_reload => True
  end.

(** Addresses outside the superblock's generation and the transaction's fields. *)
Definition data_addr (size off a : Z) : Prop :=
  0 ≤ a < size ∧ ¬ (8 ≤ a < 16) ∧ ¬ (off + 4 ≤ a < off + 24).

(** A memory with a transaction record at [off] and the data [f]. *)
Definition image_rep (off : Z) (m : mem) (f : Z → Z) : Prop :=
  (∃ st pd cm g, journaled m off st pd cm g ∧ 0 ≤ cm < 18446744073709551616) ∧
  ∀ a, data_addr (m_size m) off a → mget m a = f a.

Record disk_rep (size off : Z) (s : blkdev) (d : adisk) : Prop := {
  dr_size : size < 9223372036854775808;
  dr_dev : bd_dev s = Some (a_dirty d);
  dr_file_size : m_size (bd_file s) = size;
  dr_file : image_rep off (bd_file s) (a_saved d);
  dr_map : ∃ m, bd_map s = Some m ∧ m_size m = size ∧ image_rep off m (a_live d);
}.

(** What an event answers: a read, the live bytes. *)
Definition answers (size off : Z) (d : adisk) (e : blk_event) (out : list (list Z)) : Prop :=
  match e with
  | ev_request REQ_OP_READ sector segs =>
      length <$> out = length <$> segs ∧
      ∀ i, 0 ≤ i < seg_bytes segs → data_addr size off (sector * 512 + i) →
        (concat out).[i] = Some (a_live d (sector * 512 + i))
  | _ => True
  end.

Lemma journaled_size m off st pd cm g :
  journaled m off st pd cm g → 132 ≤ m_size m.
Proof. intros []. lia. Qed.

Lemma request_offset size sector :
  0 ≤ sector → sector * 512 < size → size < 9223372036854775808 →
  u64 (Z.shiftl sector 9) = sector * 512.
Proof. intros. rewrite sector_offset. apply Z.mod_small. lia. Qed.

Lemma dispatch_read_ok size off s d sector segs :
  disk_rep size off s d → event_ok size off (ev_request REQ_OP_READ sector segs) →
  ∃ out, idkfs_blk_dispatch s REQ_OP_READ sector segs = Some (s, out, true) ∧
    answers size off d (ev_request REQ_OP_READ sector segs) out.
Proof.
  intros [Hs Hd Hfs Hf (m & Hm & Hms & Hr)] (H0 & H1 & H2 & Ha & _).
  unfold idkfs_blk_dispatch. rewrite Hm, Hms, (request_offset size) by done.
  zcases; try lia. rewrite Hd. ostep.
  destruct (dispatch_read m (a_dirty d)) with (segs := segs) (sector := sector)
    as (out & -> & Hl & Hc); [lia|done|rewrite (request_offset size); lia|]. ostep.
  exists out. split.
  { destruct s as [f mp dv]; cbn in *; subst. done. }
  split; [exact Hl|]. intros i Hi Hda. rewrite Hc, zget_fmap, zget_seqZ by lia. cbn. f_equal.
  rewrite (request_offset size) by lia. apply Hr. by rewrite Hms.
Qed.

Lemma image_rep_ext off m m' f f' :
  m_size m' = m_size m →
  (∀ a, 0 ≤ a < 104 ∨ off ≤ a < off + 28 → mget m' a = mget m a) →
  (∀ a, data_addr (m_size m) off a → mget m' a = f' a) →
  image_rep off m f → image_rep off m' f'.
Proof.
  intros Hs Hg Hd [(st & pd & cm & g & Hj & Hc) Hf]. split.
  - exists st, pd, cm, g. split; [|done]. by eapply journaled_fields.
  - intros a Ha. apply Hd. by rewrite <- Hs.
Qed.

Lemma dispatch_write_ok size off s d sector segs :
  disk_rep size off s d → event_ok size off (ev_request REQ_OP_WRITE sector segs) →
  ∃ s' out, idkfs_blk_dispatch s REQ_OP_WRITE sector segs = Some (s', out, true) ∧
    disk_rep size off s' (adisk_step size d (ev_request REQ_OP_WRITE sector segs)).
Proof.
  intros [Hs Hd Hfs Hf (m & Hm & Hms & Hr)] (H0 & H1 & H2 & Ha & H3).
  destruct H3 as [H3 H4]; [done|].
  unfold idkfs_blk_dispatch. rewrite Hm, Hms, (request_offset size) by done.
  zcases; try lia. rewrite Hd. ostep.
  destruct (dispatch_write segs m (a_dirty d) sector)
    as (m' & -> & Hsz & Hg); [lia|done|rewrite (request_offset size); lia|]. ostep.
  rewrite (request_offset size) in Hg by lia.
  eexists _, _. split; [done|]. split; try done; cbn.
  exists m'. split; [done|]. split; [congruence|].
  apply (image_rep_ext off m m' (a_live d)); [done| | |done].
  - intros a Haa. rewrite Hg. unfold overwrite. fold (seg_bytes segs). by zcases; try lia.
  - intros a Hda. rewrite Hg. apply overwrite_ext. destruct Hr as [_ Hr]. by apply Hr.
Qed.

Lemma dispatch_other_ok size off s d sector segs :
  disk_rep size off s d →
  idkfs_blk_dispatch s REQ_OP_OTHER sector segs = Some (s, [], false).
Proof.
  intros [Hs Hd Hfs Hf (m & Hm & Hms & Hr)]. unfold idkfs_blk_dispatch. rewrite Hm.
  by zcases.
Qed.

Lemma same_image_rep off m m' f :
  same_image off m m' → (∀ a, data_addr (m_size m) off a → mget m a = f a) →
  ∀ a, data_addr (m_size m') off a → mget m' a = f a.
Proof.
  intros [Hs Hg] Hf a Ha. rewrite Hs in Ha. pose proof Ha as (? & ? & ?).
  rewrite Hg by done. by apply Hf.
Qed.

Lemma commit_ok size off s d written :
  disk_rep size off s d → event_ok size off (ev_commit written) →
  ∃ s', idkfs_commit s written = Some s' ∧
    disk_rep size off s' (adisk_step size d (ev_commit written)).
Proof.
  intros Hdr Hw. pose proof Hdr as [Hs Hd Hfs Hf (m & Hm & Hms & Hr)].
  destruct s as [f mp dv]; cbn in Hd, Hfs, Hf, Hm; subst mp dv. cbn [adisk_step].
  destruct (a_dirty d) eqn:Hdirty; cbn [andb]; [|by eexists].
  pose proof Hr as [(st & pd & cm & g & Hj & Hc) Hlive].
  pose proof (journaled_size _ _ _ _ _ _ Hj).
  cbn [event_ok] in Hw. zcases.
  - subst written. rewrite <- Hms.
    destruct (commit_full f m off st pd cm g Hj)
      as (f' & m' & -> & Hj' & Hi & Hjf & Hsf & Hgf); [lia|].
    eexists. split; [done|]. pose proof Hi as [Hsi _].
    split; cbn [bd_dev bd_map bd_file a_dirty a_saved a_live]; try done; try lia.
    + split; [by exists 1, (u64 (g + 1)), cm, g|]. intros a Ha. rewrite Hsf in Ha.
      pose proof Ha as (? & ? & ?). rewrite Hgf by done. by apply Hlive.
    + exists m'. split; [done|]. split; [lia|]. split.
      * eexists _, _, _, _. split; [exact Hj'|]. apply u64_range.
      * by eapply same_image_rep.
  - destruct (commit_short f m off st pd cm g written Hj)
      as (f' & m1 & -> & Hj' & Hi & Hsf & Hgf); [lia|lia|].
    eexists. split; [done|]. pose proof Hi as [Hsi _].
    split; cbn [bd_dev bd_map bd_file]; try done; try lia; [by rewrite Hdirty| |].
    + apply (image_rep_ext off f f' (a_saved d)); [lia| | |exact Hf].
      * destruct Hf as [(? & ? & ? & ? & [? ? ? _ _ _ _ _] & _) _].
        intros a Ha. rewrite Hgf by lia. by zcases; try lia.
      * intros a Ha. pose proof Ha as (? & ? & ?). rewrite Hgf by lia. zcases; try lia.
        destruct Hf as [_ Hf]. by apply Hf.
    + exists m1. split; [done|]. split; [lia|]. split.
      * eexists _, _, _, _. split; [exact Hj'|done].
      * by eapply same_image_rep.
Qed.

(** Loading the module on a file with a transaction record. *)
Lemma init_ok file off f :
  image_rep off file f → m_size file < 9223372036854775808 →
  ∃ s, idkfs_blk_init (mkBlkdev file None None) (env_ok (m_size file)) = Some (s, 0) ∧
    disk_rep (m_size file) off s (mkADisk f f false).
Proof.
  intros Hf Hs. pose proof Hf as [(st & pd & cm & g & Hj & Hc) Hd].
  unfold idkfs_blk_init, env_ok. cbn [ie_alloc negb bd_file ie_open_err ie_getattr ie_vmalloc ie_got].
  destruct (reload_ok file off st pd cm g Hj Hc) as (m & -> & Hsm & Hjm & Hg). ostep.
  cbn. eexists. split; [done|]. split; try done.
  cbn. exists m. split; [done|]. split; [done|]. split.
  - destruct (st =? 1); eexists _, _, _, _; (split; [exact Hjm|done]).
  - intros a Ha. rewrite Hsm in Ha. pose proof Ha as (? & ? & ?). rewrite Hg by done. by apply Hd.
Qed.

Lemma blk_step_ok size off s d e :
  disk_rep size off s d → event_ok size off e →
  ∃ s' out ok, blk_step s e = Some (s', out, ok) ∧
    disk_rep size off s' (adisk_step size d e) ∧ answers size off d e out.
Proof.
  intros Hr He. destruct e as [[] sector segs|written|]; cbn [blk_step].
  - destruct (dispatch_read_ok _ _ _ _ _ _ Hr He) as (out & -> & Ho). by exists s, out, true.
  - destruct (dispatch_write_ok _ _ _ _ _ _ Hr He) as (s' & out & -> & Hr'). by exists s', out, true.
  - rewrite (dispatch_other_ok _ _ _ _ _ _ Hr). by exists s, [], false.
  - destruct (commit_ok _ _ _ _ _ Hr He) as (s' & -> & Hr'). ostep. by exists s', [], true.
  - pose proof Hr as [Hs Hd Hfs Hf _]. unfold idkfs_blk_exit. rewrite Hd. cbn [bd_file].
    destruct (init_ok (bd_file s) off (a_saved d) Hf) as (s' & -> & Hr'); [lia|]. ostep.
    exists s', [], true. rewrite Hfs in Hr'. done.
Qed.

Lemma blk_run_ok size off es : ∀ s d,
  disk_rep size off s d → Forall (event_ok size off) es →
  ∃ s', blk_run s es = Some s' ∧ disk_rep size off s' (fold_left (adisk_step size) es d).
Proof.
  induction es as [|e es IH]; intros s d Hr He; cbn; [by exists s|].
  apply Forall_cons in He as [He Hes].
  destruct (blk_step_ok _ _ _ _ _ Hr He) as (s' & out & ok & -> & Hr' & _). ostep.
  by apply IH.
Qed.

(** ** A small journaled image

    Three blocks: the transaction record is block 1, generation 1. *)
Definition demo_image : mem :=
  default (mzero 12288)
    (m ← mstore c_u64 (mzero 12288) SB_GENERATION 1;
     m ← mstore c_u64 m SB_TX_REGION 1;
     m ← mstore c_u32 m 4096 IDKFS_TX_MAGIC;
     mstore c_u64 m (4096 + TX_COMMITTED) 1).

Lemma demo_journaled : journaled demo_image 4096 0 0 1 1.
Proof. split; vm_compute; (done || (intros H; discriminate H)). Qed.

Lemma demo_size : m_size demo_image = 12288.
Proof. vm_compute. reflexivity. Qed.

Lemma demo_image_rep : image_rep 4096 demo_image (mget demo_image).
Proof. split; [|done]. exists 0, 0, 1, 1. split; [apply demo_journaled|lia]. Qed.

(** ** Properties *)

(** C4: the loaded driver is a disk with a write-back cache.  From any image
    with a transaction record, every sequence of requests, commits and module
    reloads within the contract runs; requests act on the live contents, a
    complete commit saves them, a failed one changes nothing, and reloading
    the module goes back to the contents of the last complete commit: a clean
    unload loses the writes since then.  Reads return the live contents. *)
Theorem device_refines file off f es sector segs :
  image_rep off file f → m_size file < 9223372036854775808 →
  Forall (event_ok (m_size file) off) es →
  event_ok (m_size file) off (ev_request REQ_OP_READ sector segs) →
  let d := fold_left (adisk_step (m_size file)) es (mkADisk f f false) in
  ∃ s s' out, idkfs_blk_init (mkBlkdev file None None) (env_ok (m_size file)) = Some (s, 0) ∧
    blk_run s es = Some s' ∧ disk_rep (m_size file) off s' d ∧
    idkfs_blk_dispatch s' REQ_OP_READ sector segs = Some (s', out, true) ∧
    answers (m_size file) off d (ev_request REQ_OP_READ sector segs) out.
Proof.
  intros Hf Hs He Hread. destruct (init_ok file off f Hf Hs) as (s & Hi & Hr).
  destruct (blk_run_ok _ _ es _ _ Hr He) as (s' & Hrun & Hr').
  destruct (dispatch_read_ok _ _ _ _ _ _ Hr' Hread) as (out & Hd & Ha).
  by exists s, s', out.
Qed.

(** C31: no request makes the driver leave the mapping, whatever its sector
    (the shift of the sector may wrap) and its segments. *)
Theorem dispatch_in_bounds s m dirty op sector segs :
  bd_map s = Some m → bd_dev s = Some dirty → m_size m < 9223372036854775808 →
  short_segs segs →
  ∃ s' out ok, idkfs_blk_dispatch s op sector segs = Some (s', out, ok) ∧
    bd_file s' = bd_file s ∧ ∃ m', bd_map s' = Some m' ∧ m_size m' = m_size m.
Proof.
  intros Hm Hd Hs Hl. unfold idkfs_blk_dispatch. rewrite Hm.
  zcases; try (by eauto 10).
  destruct (dispatch_defined op segs m dirty sector) as (m' & d' & out & ok & He & Hsz);
    [done|lia|done|].
  destruct op; [| |by eauto 10]; rewrite Hd; ostep; rewrite He; ostep; eauto 10.
Qed.

(** reading sectors right after writing them gives back the buffers
    written, and only a commit changes the file. *)
Theorem dispatch_write_read s m dirty sector segs segs' :
  bd_map s = Some m → bd_dev s = Some dirty → m_size m < 9223372036854775808 →
  aligned segs → length <$> segs' = length <$> segs →
  0 ≤ sector → sector * 512 < m_size m → sector * 512 + seg_bytes segs ≤ m_size m →
  ∃ s1, idkfs_blk_dispatch s REQ_OP_WRITE sector segs = Some (s1, segs, true) ∧
    idkfs_blk_dispatch s1 REQ_OP_READ sector segs' = Some (s1, segs, true) ∧
    bd_file s1 = bd_file s.
Proof.
  intros Hm Hd Hs Ha Hl H0 H1 H2.
  pose proof (request_offset _ _ H0 H1 Hs) as Ho.
  destruct (dispatch_write segs m dirty sector) as (m1 & Hw & Hsz & Hg); [done..|lia|].
  destruct (same_shape segs segs' Hl) as [Ha' Hb]. specialize (Ha' Ha).
  destruct (dispatch_read m1 (dirty || negb (bool_decide (segs = [])))) with
    (segs := segs') (sector := sector) as (out & Hr & Hlo & Hc); [lia|done|lia|].
  assert (out = segs) as ->.
  { apply shape_concat; [congruence|]. rewrite Hc, Hb, Ho. unfold seg_bytes.
    apply zget_ext; [len|]. intros i Hi. len. rewrite zget_fmap, zget_seqZ by lia. cbn.
    rewrite Hg. unfold overwrite. zcases; try lia.
    replace (_ + i - _) with i by lia.
    destruct (zget_is_Some (concat segs) i) as [x ->]; [lia|done]. }
  unfold idkfs_blk_dispatch. rewrite Hm, Hd, Ho. zcases; try lia. ostep. rewrite Hw. ostep.
  eexists. split; [done|]. cbn [bd_map bd_dev bd_file]. zcases; try lia.
  ostep. rewrite Hr. ostep. done.
Qed.

(** C32: a complete commit makes the data durable: loading the module again
    finds every byte of the mapping outside the generation and the
    transaction fields.  But the file holds the record as it was before the
    write (state 1, the old generation): loading always reports an incomplete
    transaction, and the generation goes back to the one committed before,
    although the new data stay. *)
Theorem commit_then_reload file m off st pd cm g :
  journaled m off st pd cm g → 0 ≤ cm < 18446744073709551616 → m_size file = m_size m →
  ∃ file' m' m2, idkfs_commit (mkBlkdev file (Some m) (Some true)) (m_size m) =
      Some (mkBlkdev file' (Some m') (Some false)) ∧
    journaled m' off 0 (u64 (g + 1)) (u64 (g + 1)) (u64 (g + 1)) ∧
    journaled file' off 1 (u64 (g + 1)) cm g ∧
    idkfs_map_backing file' 0 true true (m_size file') = Some (0, Some m2) ∧
    journaled m2 off 0 (u64 (g + 1)) cm cm ∧
    ∀ a, data_addr (m_size m) off a → mget m2 a = mget m a ∧ mget m' a = mget m a.
Proof.
  intros Hj Hc Hs. destruct (commit_full file m off st pd cm g Hj Hs)
    as (f & m' & Hcm & Hj' & [_ Hi] & Hjf & Hsf & Hf).
  destruct (reload_ok f off _ _ cm g Hjf Hc) as (m2 & Hb & Hs2 & Hj2 & H2).
  exists f, m', m2. split_and!; try done.
  intros a (Ha & Ha1 & Ha2). split; [|by apply Hi]. rewrite H2 by (done || lia). by apply Hf.
Qed.

(** C33: a commit cut short after [n] bytes (past the transaction record)
    tears the image: loading the module again announces a roll back to the
    committed generation, but the bytes below [n] are the new ones and only
    those above are the old ones. *)
Theorem commit_torn file m off st pd cm g n :
  journaled m off st pd cm g → 0 ≤ cm < 18446744073709551616 → m_size file = m_size m →
  off + 28 ≤ n < m_size m →
  ∃ s m2, idkfs_commit (mkBlkdev file (Some m) (Some true)) n = Some s ∧
    bd_dev s = Some true ∧
    idkfs_map_backing (bd_file s) 0 true true (m_size (bd_file s)) = Some (0, Some m2) ∧
    journaled m2 off 0 (u64 (g + 1)) cm cm ∧
    ∀ a, data_addr (m_size m) off a → mget m2 a = if a <? n then mget m a else mget file a.
Proof.
  intros Hj Hc Hs Hn. destruct (commit_short file m off st pd cm g n Hj Hs)
    as (f & m1 & Hcm & Hj1 & [Hs1 Hi] & Hsf & Hf); [lia|].
  assert (journaled f off 1 (u64 (g + 1)) cm g) as Hjf.
  { apply (journaled_fields m1); [lia| |exact Hj1]. destruct Hj.
    intros a Ha. rewrite Hf by lia. by zcases; try lia. }
  destruct (reload_ok f off _ _ cm g Hjf Hc) as (m2 & Hb & Hs2 & Hj2 & H2).
  eexists _, m2. split; [exact Hcm|]. split_and!; try done.
  intros a (Ha & Ha1 & Ha2). rewrite H2 by (done || lia). rewrite Hf by lia.
  zcases; [by apply Hi|done].
Qed.

(** ** The properties at the small image *)

Definition demo_events : list blk_event :=
  [ev_request REQ_OP_WRITE 16 [replicate 512 7]; ev_commit 12288;
   ev_request REQ_OP_WRITE 17 [replicate 512 8]; ev_commit (-5); ev_reload].

Lemma device_refines_witness :
  let d := fold_left (adisk_step (m_size demo_image)) demo_events
             (mkADisk (mget demo_image) (mget demo_image) false) in
  ∃ s s' out,
    idkfs_blk_init (mkBlkdev demo_image None None) (env_ok (m_size demo_image)) = Some (s, 0) ∧
    blk_run s demo_events = Some s' ∧ disk_rep (m_size demo_image) 4096 s' d ∧
    idkfs_blk_dispatch s' REQ_OP_READ 16 [replicate 1024 0] = Some (s', out, true) ∧
    answers (m_size demo_image) 4096 d
      (ev_request REQ_OP_READ 16 [replicate 1024 0]) out.
Proof.
  apply (device_refines demo_image 4096 (mget demo_image) demo_events 16 [replicate 1024 0]
           demo_image_rep); rewrite demo_size.
  - lia.
  - repeat constructor; try lia; vm_compute; (done || lia || discriminate).
  - repeat constructor; try lia; vm_compute; (done || lia || discriminate).
Defined.

Lemma dispatch_in_bounds_witness : ∃ s' out ok,
  idkfs_blk_dispatch (mkBlkdev (mzero 12288) (Some demo_image) (Some false)) REQ_OP_WRITE
    36028797018963968 [replicate 700 1] = Some (s', out, ok) ∧
  bd_file s' = mzero 12288 ∧ ∃ m', bd_map s' = Some m' ∧ m_size m' = m_size demo_image.
Proof.
  apply (dispatch_in_bounds (mkBlkdev (mzero 12288) (Some demo_image) (Some false))
           demo_image false); [done|done|rewrite demo_size; lia|].
  repeat constructor.
Defined.

Lemma dispatch_write_read_witness : ∃ s1,
  idkfs_blk_dispatch (mkBlkdev (mzero 12288) (Some demo_image) (Some false)) REQ_OP_WRITE
    16 [replicate 512 7] = Some (s1, [replicate 512 7], true) ∧
  idkfs_blk_dispatch s1 REQ_OP_READ 16 [replicate 512 0] =
    Some (s1, [replicate 512 7], true) ∧ bd_file s1 = mzero 12288.
Proof.
  apply (dispatch_write_read (mkBlkdev (mzero 12288) (Some demo_image) (Some false))
           demo_image false); rewrite ?demo_size; try done; try lia.
  repeat constructor.
Defined.

Lemma commit_then_reload_witness : ∃ file' m' m2,
  idkfs_commit (mkBlkdev (mzero 12288) (Some demo_image) (Some true)) (m_size demo_image) =
    Some (mkBlkdev file' (Some m') (Some false)) ∧
  journaled m' 4096 0 2 2 2 ∧ journaled file' 4096 1 2 1 1 ∧
  idkfs_map_backing file' 0 true true (m_size file') = Some (0, Some m2) ∧
  journaled m2 4096 0 2 1 1 ∧
  ∀ a, data_addr (m_size demo_image) 4096 a →
    mget m2 a = mget demo_image a ∧ mget m' a = mget demo_image a.
Proof.
  apply (commit_then_reload (mzero 12288) demo_image 4096 0 0 1 1 demo_journaled);
    [lia|by rewrite demo_size].
Defined.

Lemma commit_torn_witness : ∃ s m2,
  idkfs_commit (mkBlkdev (mzero 12288) (Some demo_image) (Some true)) 8192 = Some s ∧
  bd_dev s = Some true ∧
  idkfs_map_backing (bd_file s) 0 true true (m_size (bd_file s)) = Some (0, Some m2) ∧
  journaled m2 4096 0 2 1 1 ∧
  ∀ a, data_addr (m_size demo_image) 4096 a →
    mget m2 a = if a <? 8192 then mget demo_image a else mget (mzero 12288) a.
Proof.
  apply (commit_torn (mzero 12288) demo_image 4096 0 0 1 1 8192 demo_journaled);
    rewrite ?demo_size; [lia|done|lia].
Defined.
