(* ===== verification/Durability.v ===== *)
(** * The commit work of the block driver in time

    [idkfs_blk_init] schedules [idkfs_commit] with a delay of 250 ms and every
    run of it schedules the next one.  The driver of [Journal.v] with a clock,
    in milliseconds.  The delay is what the kernel documents: a lower bound.
    How much later the work runs, and how long it takes, is left open; nothing
    below bounds it.  The theorem is that what was written reaches the file,
    when the kernel runs the work it was given sooner or later and the file
    accepts the image from some time on.  A run that writes a part of the image
    only is left to [commit_torn] (Device.v). *)

From S2P Require Import Prelude Cint Codec Mem Kfs Journal Device.

(** [msecs_to_jiffies(250)], on a clock of milliseconds. *)
Definition COMMIT_DELAY : Z := 250.

(** [tm_due]: [journal_work] is scheduled and will not run before; [None]: it
    is not scheduled. *)
Record timed := mkTimed { tm_dev : blkdev; tm_now : Z; tm_due : option Z }.

Definition schedule_delayed_work (s : timed) : timed :=
  mkTimed (tm_dev s) (tm_now s) (Some (tm_now s + COMMIT_DELAY)).

(** [idkfs_blk_init] on a file. *)
Definition timed_init (file : mem) (e : init_env) (now : Z) : option (timed * Z) :=
  '(d, ret) ← idkfs_blk_init (mkBlkdev file None None) e;
  let s := mkTimed d now None in
  Some (if ret =? 0 then schedule_delayed_work s else s, ret).

(** A run of [idkfs_commit] that takes [took] ms. *)
Definition timed_commit (s : timed) (written took : Z) : option timed :=
  match bd_dev (tm_dev s) with
  | None => Some (mkTimed (tm_dev s) (tm_now s + took) None)
  | Some _ =>
      d ← idkfs_commit (tm_dev s) written;
      Some (schedule_delayed_work (mkTimed d (tm_now s + took) None))
  end.

(** [idkfs_blk_exit]: [cancel_delayed_work_sync], then the unmapping. *)
Definition timed_exit (s : timed) : timed :=
  match bd_dev (tm_dev s) with
  | None => s
  | Some _ => mkTimed (idkfs_blk_exit (tm_dev s)) (tm_now s) None
  end.

Inductive tlabel :=
| t_request (op : req_op) (sector : Z) (segs : list (list Z))
| t_wait (ms : Z)
| t_commit (written took : Z).

(** The loaded driver: requests and the passing of time at any moment, and the
    work at any moment from its delay on. *)
Inductive tstep : timed → tlabel → timed → Prop :=
| tstep_request s op sector segs d out ok :
    idkfs_blk_dispatch (tm_dev s) op sector segs = Some (d, out, ok) →
    tstep s (t_request op sector segs) (mkTimed d (tm_now s) (tm_due s))
| tstep_wait s ms :
    0 ≤ ms → tstep s (t_wait ms) (mkTimed (tm_dev s) (tm_now s + ms) (tm_due s))
| tstep_commit s t written took s' :
    tm_due s = Some t → t ≤ tm_now s → 0 ≤ took → timed_commit s written took = Some s' →
    tstep s (t_commit written took) s'.

(** The disk of [Device.v] under a label. *)
Definition adisk_label (size : Z) (d : adisk) (l : tlabel) : adisk :=
  match l with
  | t_request op sector segs => adisk_step size d (ev_request op sector segs)
  | t_wait _ => d
  | t_commit written _ => adisk_step size d (ev_commit written)
  end.

Definition label_ok (size off : Z) (l : tlabel) : Prop :=
  match l with
  | t_request op sector segs => event_ok size off (ev_request op sector segs)
  | t_wait _ => True
  | t_commit written _ => event_ok size off (ev_commit written)
  end.

(** The label does not write address [a]. *)
Definition untouched (a : Z) (l : tlabel) : Prop :=
  match l with
  | t_request REQ_OP_WRITE sector segs =>
      ¬ (sector * 512 ≤ a < sector * 512 + seg_bytes segs)
  | _ => True
  end.

(** ** Executions *)

(** An execution that goes on for ever: its states and its labels. *)
Record execution (size off : Z) (s0 : timed) (σ : nat → timed) (ls : nat → tlabel) : Prop := {
  ex_start : σ 0%nat = s0;
  ex_step n : tstep (σ n) (ls n) (σ (S n));
  ex_label n : label_ok size off (ls n);
}.

(** Scheduled work is run some day. *)
Definition work_runs (σ : nat → timed) (ls : nat → tlabel) : Prop :=
  ∀ n, is_Some (tm_due (σ n)) → ∃ m written took, (n ≤ m)%nat ∧ ls m = t_commit written took.

(** From step [n] on the file takes the whole image. *)
Definition file_works (size : Z) (ls : nat → tlabel) (n : nat) : Prop :=
  ∀ m written took, (n ≤ m)%nat → ls m = t_commit written took → written = size.

(** ** The invariant *)

Record timed_rep (size off : Z) (s : timed) (d : adisk) : Prop := {
  tr_rep : disk_rep size off (tm_dev s) d;
  tr_due : ∃ t, tm_due s = Some t ∧ t ≤ tm_now s + COMMIT_DELAY;
  tr_clean a : a_dirty d = false → a_saved d a = a_live d a;
}.

Lemma adisk_label_clean size d l a :
  (a_dirty d = false → a_saved d a = a_live d a) →
  a_dirty (adisk_label size d l) = false →
  a_saved (adisk_label size d l) a = a_live (adisk_label size d l) a.
Proof.
  intros Hc. destruct l as [[] sector segs|ms|written took]; cbn; try done.
  - intros [Hd Hs]%orb_false_iff. apply negb_false_iff, bool_decide_eq_true in Hs as ->.
    rewrite Hc by done. unfold overwrite. cbn. by zcases; try lia.
  - destruct (a_dirty d && (written =? size)) eqn:E; [done|]. exact Hc.
Qed.

Lemma timed_commit_ok size off s d written took :
  timed_rep size off s d → event_ok size off (ev_commit written) →
  ∃ s', timed_commit s written took = Some s' ∧
    disk_rep size off (tm_dev s') (adisk_step size d (ev_commit written)) ∧
    tm_due s' = Some (tm_now s' + COMMIT_DELAY).
Proof.
  intros [Hr _ _] Hw. unfold timed_commit. rewrite (dr_dev _ _ _ _ Hr).
  destruct (commit_ok size off (tm_dev s) d written Hr Hw) as (s1 & -> & Hr1). ostep.
  by eexists.
Qed.

Lemma dispatch_ok size off s d op sector segs :
  disk_rep size off s d → event_ok size off (ev_request op sector segs) →
  ∃ s' out ok, idkfs_blk_dispatch s op sector segs = Some (s', out, ok) ∧
    disk_rep size off s' (adisk_step size d (ev_request op sector segs)).
Proof.
  intros Hr Hl. destruct (blk_step_ok size off s d (ev_request op sector segs) Hr Hl)
    as (s' & out & ok & Hd & Hr' & _). by exists s', out, ok.
Qed.

Lemma tstep_ok size off s d l s' :
  timed_rep size off s d → label_ok size off l → tstep s l s' →
  timed_rep size off s' (adisk_label size d l).
Proof.
  intros Hrep Hl Hs. pose proof Hrep as [Hr (t & Ht & Hb) Hc].
  assert (disk_rep size off (tm_dev s') (adisk_label size d l) ∧
    ∃ t, tm_due s' = Some t ∧ t ≤ tm_now s' + COMMIT_DELAY) as [Hr' Hdue].
  { destruct Hs as [s op sector segs d' out ok Hd|s ms Hms|s t' written took s' _ _ _ Hw]; cbn in *.
    - destruct (dispatch_ok size off _ d op sector segs Hr Hl) as (s' & out' & ok' & Hd' & Hr').
      rewrite Hd in Hd'. injection Hd' as <- _ _. eauto.
    - split; [done|]. exists t. split; [done|lia].
    - destruct (timed_commit_ok size off s d written took Hrep Hl) as (s1 & Hs1 & Hr1 & Hd1).
      rewrite Hw in Hs1. injection Hs1 as <-. split; [done|]. eexists. split; [exact Hd1|lia]. }
  split; [done|done|]. intros a. apply adisk_label_clean, Hc.
Qed.

(** ** What a run keeps and saves *)

Lemma untouched_live size d l a :
  untouched a l → a_live (adisk_label size d l) a = a_live d a.
Proof.
  destruct l as [[] sector segs|ms|written took]; cbn; try done.
  - intros Ha. unfold overwrite. fold (seg_bytes segs). by zcases; try lia.
  - by destruct (a_dirty d && (written =? size)).
Qed.

Lemma untouched_saved size d l a :
  untouched a l → a_saved d a = a_live d a →
  a_saved (adisk_label size d l) a = a_live (adisk_label size d l) a.
Proof.
  intros Ha Hs. rewrite untouched_live by done.
  destruct l as [[] sector segs|ms|written took]; cbn; try done.
  by destruct (a_dirty d && (written =? size)).
Qed.

(** A run of the work that writes the whole image saves everything. *)
Lemma complete_saves size d took a :
  (a_dirty d = false → a_saved d a = a_live d a) →
  let d' := adisk_label size d (t_commit size took) in a_saved d' a = a_live d' a.
Proof.
  intros Hc. cbn. rewrite Z.eqb_refl, andb_true_r. by destruct (a_dirty d); [|apply Hc].
Qed.

(** ** Along an execution *)

(** The disk of [Device.v] after [n] steps. *)
Fixpoint adisk_at (size : Z) (d : adisk) (ls : nat → tlabel) (n : nat) : adisk :=
  match n with
  | O => d
  | S n => adisk_label size (adisk_at size d ls n) (ls n)
  end.

Section execution.
Context (size off : Z) (s0 : timed) (d0 : adisk) (σ : nat → timed) (ls : nat → tlabel).
Context (He : execution size off s0 σ ls) (H0 : timed_rep size off s0 d0).
Abbreviation dn := (adisk_at size d0 ls).

Lemma execution_rep n : timed_rep size off (σ n) (dn n).
Proof using He H0.
  induction n as [|n IH]; cbn [adisk_at]; [by rewrite (ex_start _ _ _ _ _ He)|].
  eapply tstep_ok; [exact IH|apply (ex_label _ _ _ _ _ He)|apply (ex_step _ _ _ _ _ He)].
Qed.

Lemma execution_live a n k :
  (∀ m, (n ≤ m)%nat → untouched a (ls m)) → a_live (dn (n + k)%nat) a = a_live (dn n) a.
Proof using.
  intros Ha. induction k as [|k IH]; [by rewrite Nat.add_0_r|].
  rewrite Nat.add_succ_r. cbn [adisk_at]. rewrite untouched_live by (apply Ha; lia). exact IH.
Qed.

Lemma execution_saved a n k :
  (∀ m, (n ≤ m)%nat → untouched a (ls m)) → a_saved (dn n) a = a_live (dn n) a →
  a_saved (dn (n + k)%nat) a = a_live (dn (n + k)%nat) a.
Proof using.
  intros Ha Hs. induction k as [|k IH]; [by rewrite Nat.add_0_r|].
  rewrite Nat.add_succ_r. cbn [adisk_at]. apply untouched_saved; [apply Ha; lia|exact IH].
Qed.

Lemma execution_saves a n n0 :
  work_runs σ ls → file_works size ls n0 → (∀ m, (n ≤ m)%nat → untouched a (ls m)) →
  ∃ m0, ∀ m, (m0 ≤ m)%nat → a_saved (dn m) a = a_live (dn n) a.
Proof using He H0.
  intros Hrun Hfile Ha. set (n1 := Nat.max n n0).
  destruct (tr_due _ _ _ _ (execution_rep n1)) as (t & Ht & _).
  destruct (Hrun n1) as (m1 & written & took & Hm1 & Hl); [by rewrite Ht|].
  assert (written = size) as -> by (eapply Hfile, Hl; lia).
  exists (S m1). intros m Hm. replace m with (S m1 + (m - S m1))%nat by lia.
  rewrite execution_saved.
  - replace (S m1 + (m - S m1))%nat with (n + (m - n))%nat by lia. by apply execution_live.
  - intros m' Hm'. apply Ha. lia.
  - cbn [adisk_at]. rewrite Hl. apply complete_saves, (tr_clean _ _ _ _ (execution_rep m1)).
Qed.
End execution.

Lemma timed_init_ok file off f now :
  image_rep off file f → m_size file < 9223372036854775808 →
  ∃ s, timed_init file (env_ok (m_size file)) now = Some (s, 0) ∧ tm_now s = now ∧
    timed_rep (m_size file) off s (mkADisk f f false).
Proof.
  intros Hf Hs. destruct (init_ok file off f Hf Hs) as (d & Hi & Hr).
  unfold timed_init. rewrite Hi. ostep. cbn [Z.eqb]. eexists. split; [done|].
  split; [done|]. split; [done| |done]. eexists. split; [done|]. cbn. lia.
Qed.

(** ** The property *)

(** C5: what is written reaches the file.  Let the driver be loaded and run for
    ever, with any passing of time, runs of the commit work at any moment not
    before its delay and of any duration, and any requests within the image
    that keep clear of its superblock fields and transaction record; a run of
    the work writes the whole image or nothing.  Then at every moment the work
    is scheduled and running it is defined.  If moreover the kernel runs
    scheduled work some day and the file accepts the image from some moment
    on, then every byte that is live at some moment and not written afterwards
    is in the file from some later moment on. *)
Theorem write_eventually_saved file off f now s0 σ ls n0 :
  image_rep off file f → m_size file < 9223372036854775808 →
  timed_init file (env_ok (m_size file)) now = Some (s0, 0) →
  execution (m_size file) off s0 σ ls →
  (∀ n, is_Some (tm_due (σ n)) ∧ ∀ written took,
     event_ok (m_size file) off (ev_commit written) →
     is_Some (timed_commit (σ n) written took)) ∧
  (work_runs σ ls → file_works (m_size file) ls n0 →
   ∀ n a, (∀ m, (n ≤ m)%nat → untouched a (ls m)) → data_addr (m_size file) off a →
   ∃ mm m0, bd_map (tm_dev (σ n)) = Some mm ∧
     ∀ m, (m0 ≤ m)%nat → mget (bd_file (tm_dev (σ m))) a = mget mm a).
Proof.
  intros Hf Hs Hi He. destruct (timed_init_ok file off f now Hf Hs) as (s0' & Hi' & _ & Hr0).
  rewrite Hi in Hi'. injection Hi' as <-.
  pose proof (execution_rep _ _ _ _ _ _ He Hr0) as Hr. split.
  - intros n. split.
    + destruct (tr_due _ _ _ _ (Hr n)) as (t & Ht & _). by rewrite Ht.
    + intros written took Hw.
      destruct (timed_commit_ok _ off _ _ written took (Hr n) Hw) as (s' & Hs' & _).
      by rewrite Hs'.
  - intros Hrun Hfile n a Ha Hd.
    destruct (execution_saves _ _ _ _ _ _ He Hr0 a n n0 Hrun Hfile Ha) as [m0 Hm0].
    destruct (dr_map _ _ _ _ (tr_rep _ _ _ _ (Hr n))) as (mm & Hm & Hms & _ & Hlive).
    exists mm, m0. split; [exact Hm|]. intros m Hle.
    destruct (dr_file _ _ _ _ (tr_rep _ _ _ _ (Hr m))) as [_ Hfile'].
    pose proof (dr_file_size _ _ _ _ (tr_rep _ _ _ _ (Hr m))) as Hfs.
    rewrite Hfile' by by rewrite Hfs. rewrite Hm0 by done. by rewrite Hlive by by rewrite Hms.
Qed.

(** ** An execution *)

(** The step of a label, as a function. *)
Definition texec (s : timed) (l : tlabel) : timed :=
  match l with
  | t_request op sector segs =>
      match idkfs_blk_dispatch (tm_dev s) op sector segs with
      | Some (d, _, _) => mkTimed d (tm_now s) (tm_due s)
      | None => s
      end
  | t_wait ms => mkTimed (tm_dev s) (tm_now s + ms) (tm_due s)
  | t_commit written took => default s (timed_commit s written took)
  end.

Lemma texec_step size off s d l :
  timed_rep size off s d → label_ok size off l →
  match l with
  | t_request _ _ _ => True
  | t_wait ms => 0 ≤ ms
  | t_commit _ took => 0 ≤ took ∧ ∃ t, tm_due s = Some t ∧ t ≤ tm_now s
  end → tstep s l (texec s l).
Proof.
  intros Hr Hl Hg. destruct l as [op sector segs|ms|written took]; cbn [texec].
  - destruct (dispatch_ok size off _ d op sector segs (tr_rep _ _ _ _ Hr) Hl)
      as (s' & out & ok & Hd & _). rewrite Hd. by eapply tstep_request.
  - by constructor.
  - destruct Hg as (Htook & t & Ht & Hle).
    destruct (timed_commit_ok size off s d written took Hr Hl) as (s' & Hs' & _).
    rewrite Hs'. by eapply tstep_commit.
Qed.

(** One write, and then the work every 1000 ms, taking 7 ms each time; the
    first run fails. *)
Definition demo_labels (size : Z) (n : nat) : tlabel :=
  match n with
  | O => t_request REQ_OP_WRITE 16 [replicate 512 7]
  | S n =>
      if Nat.even n then t_wait 993
      else t_commit (if (n =? 1)%nat then -5 else size) 7
  end.
Fixpoint demo_states (s0 : timed) (size : Z) (n : nat) : timed :=
  match n with
  | O => s0
  | S n => texec (demo_states s0 size n) (demo_labels size n)
  end.

Lemma demo_execution s0 d0 :
  timed_rep 12288 4096 s0 d0 →
  execution 12288 4096 s0 (demo_states s0 12288) (demo_labels 12288).
Proof.
  intros H0.
  assert (Hl : ∀ n, label_ok 12288 4096 (demo_labels 12288 n)).
  { intros [|n]; cbn [demo_labels label_ok].
    - cbn [event_ok]. change (seg_bytes [replicate 512 7]) with 512.
      split_and!; [lia..| |intros _; lia]. by constructor.
    - destruct (Nat.even n); [done|]. cbn. destruct (n =? 1)%nat; [right; lia|by left]. }
  assert (Hs : ∀ n, (∃ d, timed_rep 12288 4096 (demo_states s0 12288 n) d) ∧
    tstep (demo_states s0 12288 n) (demo_labels 12288 n) (demo_states s0 12288 (S n))).
  { induction n as [|n [[d Hr] Hstep]].
    - split; [by exists d0|]. by apply (texec_step 12288 4096 _ d0); [|apply Hl|].
    - assert (timed_rep 12288 4096 (demo_states s0 12288 (S n))
        (adisk_label 12288 d (demo_labels 12288 n))) as Hr'
        by (eapply tstep_ok; [exact Hr|apply Hl|exact Hstep]).
      split; [by eexists|]. apply (texec_step 12288 4096 _ _ _ Hr' (Hl (S n))).
      cbn [demo_labels]. destruct n as [|n]; [cbn; lia|].
      rewrite Nat.even_succ, <- Nat.negb_even. destruct (Nat.even n) eqn:En; cbn [negb]; [|lia].
      split; [lia|]. destruct (tr_due _ _ _ _ Hr) as (t & Ht & Hle).
      exists t. cbn [demo_states demo_labels] in *. rewrite En. cbn [texec tm_due tm_now].
      split; [exact Ht|]. unfold COMMIT_DELAY in Hle. cbn [demo_states] in Hle. lia. }
  split; [done|apply Hs|exact Hl].
Qed.

Lemma demo_fair s0 : work_runs (demo_states s0 12288) (demo_labels 12288) ∧
  file_works 12288 (demo_labels 12288) 3.
Proof.
  split.
  - intros n _. destruct (Nat.even n) eqn:En.
    + exists (S (S n)). cbn [demo_labels]. rewrite Nat.even_succ, <- Nat.negb_even, En. cbn [negb].
      eexists _, _. split; [lia|done].
    + exists (S n). cbn [demo_labels]. rewrite En. eexists _, _. split; [lia|done].
  - intros [|n] written took Hn; [lia|]. cbn [demo_labels].
    destruct (Nat.even n); [done|]. destruct (Nat.eqb_spec n 1); [lia|]. by intros [= <- _].
Qed.

Lemma write_eventually_saved_witness :
  ∃ s0 mm m0, timed_init demo_image (env_ok 12288) 0 = Some (s0, 0) ∧
    execution 12288 4096 s0 (demo_states s0 12288) (demo_labels 12288) ∧
    bd_map (tm_dev (demo_states s0 12288 1)) = Some mm ∧
    ∀ m, (m0 ≤ m)%nat → mget (bd_file (tm_dev (demo_states s0 12288 m))) 8200 = mget mm 8200.
Proof.
  assert (m_size demo_image < 9223372036854775808) as Hs by (rewrite demo_size; lia).
  destruct (timed_init_ok demo_image 4096 _ 0 demo_image_rep Hs) as (s0 & Hi & _ & Hr0).
  rewrite demo_size in Hr0. pose proof (demo_execution s0 _ Hr0) as He.
  destruct (write_eventually_saved demo_image 4096 _ 0 s0 (demo_states s0 12288)
    (demo_labels 12288) 3 demo_image_rep Hs Hi) as [_ Hall]; [by rewrite demo_size|].
  rewrite demo_size in *. destruct (demo_fair s0) as [Hrun Hfile].
  destruct (Hall Hrun Hfile 1%nat 8200) as (mm & m0 & Hm & Hg).
  - intros [|m] Hm; [lia|]. cbn [demo_labels]. by destruct (Nat.even m).
  - unfold data_addr. lia.
  - exists s0, mm, m0. split; [exact Hi|]. split; [exact He|]. split; [exact Hm|exact Hg].
Defined.
