(* ===== verification/Vfs.v ===== *)
(** * The kernel file system: [idkfs_vfs.c]

    Tier selection by file name, the tiered block allocator, the extent map
    of an inode, and the inode, directory and superblock operations the
    module registers.  Functions of the Linux kernel ([tolower],
    [inode_init_owner], [simple_empty], [simple_rename], the slab and buffer
    caches) are arguments. *)

From S2P Require Import Prelude Cint CString Codec Mem Kfs.

Definition K_EIO : Z := 5.
Definition K_ENOMEM : Z := 12.
Definition K_EINVAL : Z := 22.
Definition K_ENOSPC : Z := 28.
Definition K_ENOTEMPTY : Z := 39.
Definition K_S_IFDIR : Z := 16384.

Definition K_TIER_FAST : Z := 0.
Definition K_TIER_NORMAL : Z := 1.
Definition K_TIER_SLOW : Z := 2.

(** [idkfs_sb_info]: the superblock in its buffer, and whether the buffer
    is marked dirty. *)
Record sb_info := mkSbi { isb : idkfs_super_block; sbh_dirty : bool }.

(** [idkfs_inode_info] with the fields of [vfs_inode] the module sets. *)
Record inode_info := mkInodeInfo {
  vi_ino : Z; vi_mode : Z; vi_nlink : Z;
  vi_atime : Z; vi_mtime : Z; vi_ctime : Z; vi_dirty : bool;
  ii_extents : list idkfs_extent; ii_tier : Z;
}.

(** [idkfs_mark_sb_dirty]; [sb->s_fs_info] may be unset. *)
Definition idkfs_mark_sb_dirty (sbi : option sb_info) : option sb_info :=
  (λ s, mkSbi (isb s) true) <$> sbi.

(** ** Tiers *)

(** The tokens [strsep(&cur, ",")] returns, empty ones included. *)
Fixpoint strsep_comma (s : list Z) : list (list Z) :=
  match s with
  | [] => [[]]
  | c :: s =>
      if c =? 44 then [] :: strsep_comma s
      else match strsep_comma s with
           | [] => [[c]]
           | t :: ts => (c :: t) :: ts
           end
  end.

(** The default values of the module parameters:
    ".so,.bin,.exe,.o" and ".iso,.tar,.zip,.gz,.bz2,.zst". *)
Definition fast_exts : list Z :=
  [46; 115; 111; 44; 46; 98; 105; 110; 44; 46; 101; 120; 101; 44; 46; 111].
Definition slow_exts : list Z :=
  [46; 105; 115; 111; 44; 46; 116; 97; 114; 44; 46; 122; 105; 112; 44;
   46; 103; 122; 44; 46; 98; 122; 50; 44; 46; 122; 115; 116].

Section tiers.
Context (tolower : Z → Z).

(** [strncasecmp(a, b, n)] on C strings; a missing byte is the NUL. *)
Fixpoint strncasecmp (a b : list Z) (n : nat) : Z :=
  match n with
  | O => 0
  | S n =>
      let c1 := List.hd 0 a in
      let c2 := List.hd 0 b in
      if (c1 =? 0) || (c2 =? 0) then c1 - c2
      else if c1 =? c2 then strncasecmp (tail a) (tail b) n
      else if tolower c1 =? tolower c2 then strncasecmp (tail a) (tail b) n
      else tolower c1 - tolower c2
  end.

(** The loop over the tokens. *)
Fixpoint ext_scan (name : list Z) (toks : list (list Z)) : bool :=
  match toks with
  | [] => false
  | tok :: toks =>
      if bool_decide (tok = []) then ext_scan name toks
      else
        let nl := length name in
        let el := length tok in
        if (el <=? nl)%nat && (strncasecmp (drop (nl - el) name) tok el =? 0) then true
        else ext_scan name toks
  end.

(** [None] is a null pointer. *)
Definition idkfs_ext_match (kstrdup_ok : bool) (name ext_csv : option (list Z)) : bool :=
  match name, ext_csv with
  | Some name, Some ext_csv =>
      if negb kstrdup_ok then false else ext_scan name (strsep_comma ext_csv)
  | _, _ => false
  end.

Definition idkfs_get_tier (kstrdup1 kstrdup2 : bool) (fast slow : option (list Z))
    (name : list Z) : Z :=
  if idkfs_ext_match kstrdup1 (Some name) fast then K_TIER_FAST
  else if idkfs_ext_match kstrdup2 (Some name) slow then K_TIER_SLOW
  else K_TIER_NORMAL.
End tiers.

(** ** Blocks *)

Definition set_k_alloc (fast normal slow free : Z) (sb : idkfs_super_block) :
    idkfs_super_block :=
  mkKsb (k_magic sb) (k_version sb) (k_generation sb) (k_root_node sb) fast normal slow
    (k_total_blocks sb) free (k_tx_region_block sb) (k_snap_region_block sb) (k_uuid sb)
    (k_checksum sb) (k__pad sb).

(** The new superblock and the block, 0 when none is free. *)
Definition idkfs_alloc_tiered (s : sb_info) (tier : Z) : sb_info * Z :=
  let sb := isb s in
  if k_free_blocks sb =? 0 then (s, 0)
  else
    let free := u64 (k_free_blocks sb - 1) in
    if tier =? K_TIER_FAST then
      let phys := k_next_fast sb in
      (mkSbi (set_k_alloc (u64 (phys + 1)) (k_next_normal sb) (k_next_slow sb) free sb) true, phys)
    else if tier =? K_TIER_SLOW then
      let phys := k_next_slow sb in
      (mkSbi (set_k_alloc (k_next_fast sb) (k_next_normal sb) (u64 (phys + 1)) free sb) true, phys)
    else
      let phys := k_next_normal sb in
      (mkSbi (set_k_alloc (k_next_fast sb) (u64 (phys + 1)) (k_next_slow sb) free sb) true, phys).

(** The first loop of [idkfs_get_block]: the block an extent gives. *)
Fixpoint ext_find (es : list idkfs_extent) (iblock : Z) : option Z :=
  match es with
  | [] => None
  | e :: es =>
      let log := x_logical e in
      if (log <=? iblock) && (iblock <? u64 (log + x_len e))
      then Some (u64 (x_physical e + (iblock - log)))
      else ext_find es iblock
  end.

(** The second loop: the first unused extent is taken, if there is one. *)
Fixpoint ext_insert (es : list idkfs_extent) (iblock phys : Z) : list idkfs_extent :=
  match es with
  | [] => []
  | e :: es =>
      if x_len e =? 0 then mkExtent iblock phys 1 (x_checksum e) :: es
      else e :: ext_insert es iblock phys
  end.

(** [map_bh] and [set_buffer_new]. *)
Record bh_result := mkBh { bh_mapped : option Z; bh_new : bool }.

Definition idkfs_get_block (s : sb_info) (ii : inode_info) (iblock : Z) (create : bool) :
    sb_info * inode_info * bh_result * Z :=
  match ext_find (ii_extents ii) iblock with
  | Some phys => (s, ii, mkBh (Some phys) false, 0)
  | None =>
      if negb create then (s, ii, mkBh None false, 0)
      else
        let '(s, phys) := idkfs_alloc_tiered s (ii_tier ii) in
        if phys =? 0 then (s, ii, mkBh None false, - K_ENOSPC)
        else
          let ii := mkInodeInfo (vi_ino ii) (vi_mode ii) (vi_nlink ii) (vi_atime ii)
                      (vi_mtime ii) (vi_ctime ii) (vi_dirty ii)
                      (ext_insert (ii_extents ii) iblock phys) (ii_tier ii) in
          (s, ii, mkBh (Some phys) true, 0)
  end.

(** ** Inodes and directories *)

Definition zero_extent : idkfs_extent := mkExtent 0 0 0 0.

(** [idkfs_alloc_inode] on what the slab cache returns. *)
Definition idkfs_alloc_inode (obj : option inode_info) : option inode_info :=
  (λ ii, mkInodeInfo (vi_ino ii) (vi_mode ii) (vi_nlink ii) (vi_atime ii) (vi_mtime ii)
           (vi_ctime ii) (vi_dirty ii) (replicate (Z.to_nat IDKFS_MAX_EXTENTS) zero_extent)
           (ii_tier ii)) <$> obj.

Definition vi_set_tier (t : Z) (i : inode_info) : inode_info :=
  mkInodeInfo (vi_ino i) (vi_mode i) (vi_nlink i) (vi_atime i) (vi_mtime i) (vi_ctime i)
    (vi_dirty i) (ii_extents i) t.
Definition vi_set_ino (n : Z) (i : inode_info) : inode_info :=
  mkInodeInfo n (vi_mode i) (vi_nlink i) (vi_atime i) (vi_mtime i) (vi_ctime i)
    (vi_dirty i) (ii_extents i) (ii_tier i).
Definition vi_set_nlink (n : Z) (i : inode_info) : inode_info :=
  mkInodeInfo (vi_ino i) (vi_mode i) n (vi_atime i) (vi_mtime i) (vi_ctime i)
    (vi_dirty i) (ii_extents i) (ii_tier i).
Definition vi_set_times (a m c : Z) (i : inode_info) : inode_info :=
  mkInodeInfo (vi_ino i) (vi_mode i) (vi_nlink i) a m c
    (vi_dirty i) (ii_extents i) (ii_tier i).
Definition mark_inode_dirty (i : inode_info) : inode_info :=
  mkInodeInfo (vi_ino i) (vi_mode i) (vi_nlink i) (vi_atime i) (vi_mtime i) (vi_ctime i)
    true (ii_extents i) (ii_tier i).
(** [dir->i_mtime = dir->i_ctime = now]. *)
Definition vi_touch (now : Z) (i : inode_info) : inode_info :=
  vi_set_times (vi_atime i) now now i.
(** [drop_nlink] and [inc_nlink]. *)
Definition drop_nlink (i : inode_info) : inode_info := vi_set_nlink (u32 (vi_nlink i - 1)) i.
Definition inc_nlink (i : inode_info) : inode_info := vi_set_nlink (u32 (vi_nlink i + 1)) i.

Section operations.
Context (tolower : Z → Z) (fast slow : option (list Z)).
Context (inode_init_owner : inode_info → inode_info → Z → inode_info).

(** The superblock, the directory, the inode given to [dentry], the result.
    [new] is the result of [new_inode], [ino] of [get_next_ino]. *)
Definition vfs_create (kstrdup1 kstrdup2 : bool) (sbi : option sb_info) (dir : inode_info)
    (name : list Z) (mode : Z) (new : option inode_info) (ino now : Z) :
    option sb_info * inode_info * option inode_info * Z :=
  match new with
  | None => (sbi, dir, None, - K_ENOMEM)
  | Some inode =>
      let inode := vi_set_tier (idkfs_get_tier tolower kstrdup1 kstrdup2 fast slow name) inode in
      let inode := inode_init_owner inode dir mode in
      let inode := vi_set_times now now now (vi_set_ino ino inode) in
      (idkfs_mark_sb_dirty sbi, mark_inode_dirty (vi_touch now dir),
       Some (mark_inode_dirty inode), 0)
  end.

Definition vfs_mkdir (sbi : option sb_info) (dir : inode_info) (mode : Z)
    (new : option inode_info) (ino now : Z) :
    option sb_info * inode_info * option inode_info * Z :=
  match new with
  | None => (sbi, dir, None, - K_ENOMEM)
  | Some inode =>
      let inode := inode_init_owner inode dir (Z.lor K_S_IFDIR mode) in
      let inode := vi_set_times now now now (vi_set_ino ino inode) in
      (idkfs_mark_sb_dirty sbi, mark_inode_dirty (vi_touch now (inc_nlink dir)),
       Some (vi_set_nlink 2 inode), 0)
  end.
End operations.

Definition vfs_unlink (sbi : option sb_info) (dir inode : inode_info) (now : Z) :
    option sb_info * inode_info * inode_info * Z :=
  let inode := vi_set_times (vi_atime inode) (vi_mtime inode) now inode in
  (idkfs_mark_sb_dirty sbi, mark_inode_dirty (vi_touch now dir),
   mark_inode_dirty (drop_nlink inode), 0).

(** [empty] is the result of [simple_empty]. *)
Definition vfs_rmdir (empty : bool) (sbi : option sb_info) (dir inode : inode_info) (now : Z) :
    option sb_info * inode_info * inode_info * Z :=
  if negb empty then (sbi, dir, inode, - K_ENOTEMPTY)
  else (idkfs_mark_sb_dirty sbi, mark_inode_dirty (vi_touch now (drop_nlink dir)),
        drop_nlink inode, 0).

(** [ret] is the result of [simple_rename]; [other] is the superblock of the
    new directory when it is not the old one's. *)
Definition vfs_rename (ret : Z) (sbi : option sb_info) (other : option (option sb_info)) :
    option sb_info * option (option sb_info) * Z :=
  if ret =? 0 then (idkfs_mark_sb_dirty sbi, idkfs_mark_sb_dirty <$> other, ret)
  else (sbi, other, ret).

(** ** The superblock *)

(** [sync] is [wbc->sync_mode == WB_SYNC_ALL]: the buffer is written. *)
Definition vfs_write_inode (sync : bool) (sbi : option sb_info) : option sb_info * Z :=
  match sbi with
  | None => (None, - K_EIO)
  | Some s => (Some (mkSbi (isb s) (negb sync)), 0)
  end.

(** The superblock written to the device, if there is one. *)
Definition vfs_put_super (sbi : option sb_info) : option idkfs_super_block :=
  match sbi with
  | None => None
  | Some s => Some (isb s)
  end.

(** [bh] is the block [sb_bread] returns; [new] the result of [new_inode],
    whose failure is not checked, as that of [kzalloc]; [root_ok] the success
    of [d_make_root]. *)
Definition vfs_fill_super (bh : option (list Z)) (kzalloc_ok : bool)
    (new : option inode_info) (root_ok : bool) (now : Z) :
    option (option sb_info * option inode_info * Z) :=
  match bh with
  | None => Some (None, None, - K_EINVAL)
  | Some data =>
      let sb := cdec ksb_codec (take (csize ksb_codec) data) in
      if negb (k_magic sb =? K_MAGIC) then Some (None, None, - K_EINVAL)
      else if negb kzalloc_ok then None
      else
        root ← new;
        let root := mkInodeInfo 1 (Z.lor K_S_IFDIR 493) 2 now now now (vi_dirty root)
                      (ii_extents root) (ii_tier root) in
        if negb root_ok then Some (None, None, - K_ENOMEM)
        else Some (Some (mkSbi sb false), Some root, 0)
  end.
