(* ===== verification/VfsSpec.v ===== *)
(** * Correctness of the kernel file system

    Tier selection, the extent map of an inode, and the allocation of blocks
    to the inodes of a mounted file system. *)

From S2P Require Import Prelude Cint CString Codec Mem Kfs Vfs.

(** ** Tier selection *)

Fixpoint join_comma (toks : list (list Z)) : list Z :=
  match toks with
  | [] => []
  | [t] => t
  | t :: ts => t ++ 44 :: join_comma ts
  end.

Definition no_comma (s : list Z) : Prop := Forall (λ c, c ≠ 44) s.

Lemma strsep_comma_ne s : strsep_comma s ≠ [].
Proof. destruct s as [|c s]; cbn; [done|]. zcase; [done|]. by destruct (strsep_comma s). Qed.

Lemma join_strsep s : join_comma (strsep_comma s) = s.
Proof.
  induction s as [|c s IH]; [done|]. cbn [strsep_comma].
  pose proof (strsep_comma_ne s). zcase.
  - subst c. destruct (strsep_comma s) as [|t ts] eqn:E; [done|]. by rewrite <- IH.
  - destruct (strsep_comma s) as [|t [|t' ts]] eqn:E; [done|..]; by rewrite <- IH.
Qed.

Lemma strsep_no_comma s : Forall no_comma (strsep_comma s).
Proof.
  induction s as [|c s IH]; cbn [strsep_comma]; [by repeat constructor|]. zcase.
  - by repeat constructor.
  - destruct (strsep_comma s) as [|t ts]; [by repeat constructor|].
    apply Forall_cons in IH as [Ht Hts]. by repeat constructor.
Qed.

Section tiers.
Context (tolower : Z → Z).

Lemma strncasecmp_eq b : ∀ a, cstring a → cstring b → length a = length b →
  strncasecmp tolower a b (length b) = 0 ↔ tolower <$> a = tolower <$> b.
Proof.
  induction b as [|y b IH]; intros [|x a] Ha Hb Hl; try done.
  apply Forall_cons in Ha as [Hx Ha], Hb as [Hy Hb]. cbn in Hl. injection Hl as Hl.
  specialize (IH a Ha Hb Hl). cbn [length strncasecmp List.hd tail fmap list_fmap].
  zcases; try lia; subst; rewrite ?IH.
  - split; [by intros ->|by intros [= ->]].
  - split; [by intros ->; f_equal|by intros [= _ ->]].
  - split; [lia|intros [= ? _]; lia].
Qed.

(** [name] ends in [tok], up to case. *)
Definition ends_in (name tok : list Z) : Prop :=
  ∃ pre suf, name = pre ++ suf ∧ tolower <$> suf = tolower <$> tok.

Lemma suffix_test name tok :
  cstring name → cstring tok →
  ((length tok <=? length name)%nat &&
    (strncasecmp tolower (drop (length name - length tok) name) tok (length tok) =? 0))
    = true ↔ ends_in name tok.
Proof.
  intros Hn Ht. rewrite andb_true_iff, Nat.leb_le, Z.eqb_eq. split.
  - intros [Hl Hc]. apply strncasecmp_eq in Hc; [|by apply Forall_drop|done|len].
    exists (take (length name - length tok) name), (drop (length name - length tok) name).
    by rewrite take_drop.
  - intros (pre & suf & -> & He). assert (length suf = length tok) as Hl.
    { apply (f_equal length) in He. by rewrite !length_fmap in He. }
    split; [len|]. replace (length (pre ++ suf) - length tok)%nat with (length pre) by len.
    rewrite drop_app_length. apply Forall_app in Hn as [_ Hs]. by apply strncasecmp_eq.
Qed.

Lemma ext_scan_spec name toks :
  cstring name → Forall cstring toks →
  ext_scan tolower name toks = true ↔ Exists (λ tok, tok ≠ [] ∧ ends_in name tok) toks.
Proof.
  intros Hn. induction toks as [|tok toks IH]; intros Ht; cbn [ext_scan].
  { split; [done|]. by intros ?%Exists_nil. }
  apply Forall_cons in Ht as [Ht Hts]. specialize (IH Hts). rewrite Exists_cons.
  case_bool_decide as He; [rewrite IH; naive_solver|].
  pose proof (suffix_test name tok Hn Ht) as Hs. destruct (_ && _).
  - split; [intros _; left; split; [done|by apply Hs]|done].
  - rewrite IH. split; [by right|]. intros [[_ H]|H]; [|done]. by apply Hs in H.
Qed.

Lemma cstring_join toks : cstring (join_comma toks) → Forall cstring toks.
Proof.
  induction toks as [|t [|t' ts] IH]; [done|by repeat constructor|].
  cbn [join_comma]. intros [Ht [_ H]%Forall_cons]%Forall_app. constructor; [done|by apply IH].
Qed.

Lemma ext_match_tokens name csv :
  cstring name → cstring csv →
  idkfs_ext_match tolower true (Some name) (Some csv) = true ↔
  Exists (λ tok, tok ≠ [] ∧ ends_in name tok) (strsep_comma csv).
Proof.
  intros Hn Hc. cbn. apply ext_scan_spec; [done|].
  apply cstring_join. by rewrite join_strsep.
Qed.
End tiers.

(** ** The extent map *)

Lemma ext_insert_spec es iblock phys :
  ((∀ e, e ∈ es → x_len e ≠ 0) ∧ ext_insert es iblock phys = es) ∨
  ∃ j e, es !! j = Some e ∧ x_len e = 0 ∧
    ext_insert es iblock phys = <[j := mkExtent iblock phys 1 (x_checksum e)]> es.
Proof.
  induction es as [|e es IH]; cbn [ext_insert].
  { left. split; [|done]. intros e He. by apply elem_of_nil in He. }
  zcase; [right; by exists 0%nat, e|].
  destruct IH as [[Ha ->]|(j & e' & Hj & He' & ->)].
  - left. split; [|done]. intros e' [->|He']%elem_of_cons; [done|by apply Ha].
  - right. by exists (S j), e'.
Qed.

Lemma ext_find_Some es i p :
  ext_find es i = Some p → ∃ j e, es !! j = Some e ∧
    x_logical e ≤ i < u64 (x_logical e + x_len e) ∧ p = u64 (x_physical e + (i - x_logical e)).
Proof.
  induction es as [|e es IH]; cbn [ext_find]; [done|].
  destruct (_ && _) eqn:E.
  - intros [= <-]. exists 0%nat, e. split; [done|]. split; [|done]. lia.
  - intros H. destruct (IH H) as (j & e' & ? & ? & ?). by exists (S j), e'.
Qed.

Lemma ext_find_zero n i : 0 ≤ i → ext_find (replicate n zero_extent) i = None.
Proof.
  intros Hi. induction n as [|n IH]; [done|]. cbn. change (u64 (0 + 0)) with 0.
  zcases; (lia || done).
Qed.

(** Filling an unused slot adds one block to the map. *)
Lemma ext_find_fill es j e i p : ∀ i',
  es !! j = Some e → 0 ≤ x_logical e < 18446744073709551616 → x_len e = 0 →
  ext_find es i = None → 0 ≤ i < 18446744073709551615 → 0 ≤ p < 18446744073709551616 →
  ext_find (<[j := mkExtent i p 1 (x_checksum e)]> es) i' =
    if i' =? i then Some p else ext_find es i'.
Proof.
  revert j. induction es as [|e' es IH]; intros j i' Hj Hlg He Hf Hi Hp; [done|].
  destruct j as [|j]; cbn in Hj |- *.
  - injection Hj as ->. rewrite (u64_small (i + 1)) by lia.
    rewrite He, Z.add_0_r, (u64_small (x_logical e)) by lia.
    zcases; try lia; try done; f_equal; rewrite u64_small by lia; lia.
  - cbn in Hf. destruct (_ && _) eqn:E in Hf; [done|].
    rewrite IH by done. zcases; try done; lia.
Qed.

(** ** The allocator *)

(** The zone of a tier, and its next block. *)
Definition zone (t : Z) : Z :=
  if t =? K_TIER_FAST then K_TIER_FAST else if t =? K_TIER_SLOW then K_TIER_SLOW else K_TIER_NORMAL.
Definition next_of (t : Z) (sb : idkfs_super_block) : Z :=
  if t =? K_TIER_FAST then k_next_fast sb
  else if t =? K_TIER_SLOW then k_next_slow sb else k_next_normal sb.

Ltac tiers := unfold zone, next_of, K_TIER_FAST, K_TIER_NORMAL, K_TIER_SLOW in *.

Lemma alloc_spec s t s' phys :
  idkfs_alloc_tiered s t = (s', phys) →
  (k_free_blocks (isb s) = 0 ∧ s' = s ∧ phys = 0) ∨
  (k_free_blocks (isb s) ≠ 0 ∧ phys = next_of t (isb s) ∧
   k_free_blocks (isb s') = u64 (k_free_blocks (isb s) - 1) ∧
   next_of t (isb s') = u64 (phys + 1) ∧
   ∀ t', zone t' ≠ zone t → next_of t' (isb s') = next_of t' (isb s)).
Proof.
  unfold idkfs_alloc_tiered. intros H.
  destruct (k_free_blocks (isb s) =? 0) eqn:E0.
  { injection H as <- <-. left. split; [lia|done]. }
  right. split; [lia|]. tiers.
  destruct (t =? 0) eqn:E1; [|destruct (t =? 2) eqn:E2]; injection H as <- <-; cbn;
    (split; [done|]; split; [done|]; split; [done|]; intros t' Ht'; zcases; done || lia).
Qed.

Lemma next_of_zone t t' sb : zone t = zone t' → next_of t sb = next_of t' sb.
Proof. tiers. by zcases. Qed.

(** ** A mounted file system *)

Record vfs := mkVfs { v_sb : sb_info; v_inodes : gmap Z inode_info }.

(** Logical block [i] of inode [k] is at block [p]. *)
Definition block_at (v : vfs) (k i p : Z) : Prop :=
  ∃ ii, v_inodes v !! k = Some ii ∧ ext_find (ii_extents ii) i = Some p.

(** The zones are [a, b), [b, c) and [c, d), and no zone is overrun. *)
Definition zone_lo (a b c t : Z) : Z :=
  if t =? K_TIER_FAST then a else if t =? K_TIER_SLOW then c else b.
Definition zone_hi (b c d t : Z) : Z :=
  if t =? K_TIER_FAST then b else if t =? K_TIER_SLOW then d else c.
Definition in_zones (a b c d : Z) (sb : idkfs_super_block) : Prop :=
  ∀ t, zone_lo a b c t ≤ next_of t sb ≤ zone_hi b c d t.

(** What the module does to the inodes and the superblock: [get_block] on
    any inode, the inode and directory operations, and writing an inode back.
    [step_attr] stands for the kernel's own functions in the operation tables
    ([simple_link], [simple_rename], [simple_setattr]): any change of an inode
    that leaves the module's part of it, extents and tier, alone. *)
Inductive vfs_step (tolower : Z → Z) (fast slow : option (list Z))
    (init_owner : inode_info → inode_info → Z → inode_info) : vfs → vfs → Prop :=
| step_get_block s m k ii i create s' ii' bh ret :
    m !! k = Some ii → 0 ≤ i < 18446744073709551615 →
    idkfs_get_block s ii i create = (s', ii', bh, ret) →
    vfs_step tolower fast slow init_owner (mkVfs s m) (mkVfs s' (<[k := ii']> m))
| step_create s m k d dir al1 al2 name mode obj now s' dir' ii :
    m !! k = None → m !! d = Some dir →
    vfs_create tolower fast slow init_owner al1 al2 (Some s) dir name mode
      (idkfs_alloc_inode (Some obj)) k now = (Some s', dir', Some ii, 0) →
    vfs_step tolower fast slow init_owner (mkVfs s m) (mkVfs s' (<[k := ii]> (<[d := dir']> m)))
| step_mkdir s m k d dir mode obj now s' dir' ii :
    m !! k = None → m !! d = Some dir →
    vfs_mkdir init_owner (Some s) dir mode
      (idkfs_alloc_inode (Some obj)) k now = (Some s', dir', Some ii, 0) →
    vfs_step tolower fast slow init_owner (mkVfs s m) (mkVfs s' (<[k := ii]> (<[d := dir']> m)))
| step_unlink s m k d dir ii now s' dir' ii' ret :
    m !! k = Some ii → m !! d = Some dir → k ≠ d →
    vfs_unlink (Some s) dir ii now = (Some s', dir', ii', ret) →
    vfs_step tolower fast slow init_owner (mkVfs s m) (mkVfs s' (<[k := ii']> (<[d := dir']> m)))
| step_rmdir empty s m k d dir ii now s' dir' ii' ret :
    m !! k = Some ii → m !! d = Some dir → k ≠ d →
    vfs_rmdir empty (Some s) dir ii now = (Some s', dir', ii', ret) →
    vfs_step tolower fast slow init_owner (mkVfs s m) (mkVfs s' (<[k := ii']> (<[d := dir']> m)))
| step_rename s m r other s' other' ret :
    vfs_rename r (Some s) other = (Some s', other', ret) →
    vfs_step tolower fast slow init_owner (mkVfs s m) (mkVfs s' m)
| step_write_inode s m sync s' ret :
    vfs_write_inode sync (Some s) = (Some s', ret) →
    vfs_step tolower fast slow init_owner (mkVfs s m) (mkVfs s' m)
| step_attr s m k ii ii' :
    m !! k = Some ii → ii_extents ii' = ii_extents ii → ii_tier ii' = ii_tier ii →
    vfs_step tolower fast slow init_owner (mkVfs s m) (mkVfs s (<[k := ii']> m)).

Section zones.
Context (a b c d : Z) (zones : 0 < a ≤ b ∧ b ≤ c ≤ d ∧ d < 18446744073709551615).

Definition slot (v : vfs) (k : Z) (j : nat) (t : Z) (e : idkfs_extent) : Prop :=
  ∃ ii, v_inodes v !! k = Some ii ∧ ii_tier ii = t ∧ ii_extents ii !! j = Some e.

(** Used extents are single blocks of the allocated part of their tier's
    zone, each in one slot. *)
Record vfs_inv (v : vfs) : Prop := {
  vi_zones : in_zones a b c d (isb (v_sb v));
  vi_range : ∀ k j t e, slot v k j t e → 0 ≤ x_logical e < 18446744073709551615;
  vi_used : ∀ k j t e, slot v k j t e → x_len e ≠ 0 →
    x_len e = 1 ∧ zone_lo a b c t ≤ x_physical e < next_of t (isb (v_sb v));
  vi_once : ∀ k j t e k' j' t' e', slot v k j t e → slot v k' j' t' e' →
    x_len e ≠ 0 → x_len e' ≠ 0 → x_physical e = x_physical e' → k = k' ∧ j = j';
}.

Lemma in_zones_bound t sb :
  in_zones a b c d sb → 0 < zone_lo a b c t ∧ next_of t sb ≤ d.
Proof.
  intros H. specialize (H t). unfold zone_lo, zone_hi in H |- *. zcases; lia.
Qed.

(** Blocks of different zones differ. *)
Lemma zones_disjoint t t' p sb :
  in_zones a b c d sb → zone t ≠ zone t' →
  zone_lo a b c t ≤ p < next_of t sb → zone_lo a b c t' ≤ p < next_of t' sb → False.
Proof.
  intros Hz Hne Hp Hp'. pose proof (Hz t). pose proof (Hz t').
  unfold zone_lo, zone_hi, zone in *. tiers.
  destruct (t =? 0), (t =? 2), (t' =? 0), (t' =? 2); (lia || congruence).
Qed.

(** Every slot of the new state is a slot of the old one, or empty: the
    invariant is kept. *)
Lemma vfs_inv_kept v v' :
  vfs_inv v → isb (v_sb v') = isb (v_sb v) →
  (∀ k j t e, slot v' k j t e → slot v k j t e ∨ e = zero_extent) → vfs_inv v'.
Proof.
  intros [H1 H2 H3 H4] Hs Hk. split; rewrite ?Hs; [done|..].
  - intros k j t e [H| ->]%Hk; [by eapply H2|by cbn].
  - intros k j t e [H| ->]%Hk ?; [by eapply H3|done].
  - intros k j t e k' j' t' e' [H| ->]%Hk [H'| ->]%Hk ???; (done || by eapply H4).
Qed.

Lemma alloc_next s t s' phys t' :
  in_zones a b c d (isb s) → idkfs_alloc_tiered s t = (s', phys) → phys ≠ 0 →
  next_of t' (isb s') = if zone t' =? zone t then phys + 1 else next_of t' (isb s).
Proof.
  intros Hz Ha Hp. destruct (in_zones_bound t (isb s) Hz) as [_ Hb]. pose proof (Hz t).
  pose proof (in_zones_bound t (isb s) Hz).
  apply alloc_spec in Ha as [(_ & _ & ?)|(_ & -> & _ & Hn & Ho)]; [done|].
  zcase; [|by apply Ho]. rewrite (next_of_zone t' t) by done. rewrite Hn.
  rewrite u64_small; lia.
Qed.

(** A slot after an inode has been replaced by one of the same tier. *)
Lemma slot_insert s s' m k ii ii' k' j t e :
  m !! k = Some ii → ii_tier ii' = ii_tier ii →
  slot (mkVfs s' (<[k := ii']> m)) k' j t e →
  (k' = k ∧ t = ii_tier ii ∧ ii_extents ii' !! j = Some e) ∨
  (k' ≠ k ∧ slot (mkVfs s m) k' j t e).
Proof.
  intros Hk Ht (i & Hi & <- & Hj). cbn in Hi. destruct (decide (k' = k)) as [->|Hne].
  - rewrite lookup_insert_eq in Hi. injection Hi as <-. by left.
  - rewrite lookup_insert_ne in Hi by done. right. split; [done|]. by exists i.
Qed.

(** Filling slot [j0] of inode [k0] with the next block of its zone. *)
Lemma fill_inv s m k0 ii j0 e0 i s' :
  let phys := next_of (ii_tier ii) (isb s) in
  vfs_inv (mkVfs s m) → m !! k0 = Some ii → ii_extents ii !! j0 = Some e0 →
  0 ≤ i < 18446744073709551615 →
  idkfs_alloc_tiered s (ii_tier ii) = (s', phys) → phys ≠ 0 →
  in_zones a b c d (isb s') →
  ∀ ii', ii_tier ii' = ii_tier ii →
    ii_extents ii' = <[j0 := mkExtent i phys 1 (x_checksum e0)]> (ii_extents ii) →
    vfs_inv (mkVfs s' (<[k0 := ii']> m)).
Proof.
  intros phys [H1 H2 H3 H4] Hk Hj0 Hi Ha Hp Hz ii' Ht He.
  cbn [v_sb isb] in H1, H3.
  assert (∀ k j t e, slot (mkVfs s' (<[k0 := ii']> m)) k j t e →
    (k = k0 ∧ j = j0 ∧ t = ii_tier ii ∧ e = mkExtent i phys 1 (x_checksum e0)) ∨
    (¬ (k = k0 ∧ j = j0) ∧ slot (mkVfs s m) k j t e)) as Hs.
  { intros k j t e [(-> & -> & Hj)|(Hne & Hsl)]%(slot_insert s s' m k0 ii ii');
      [|by right; split; [naive_solver|]|done|done].
    rewrite He in Hj. destruct (decide (j = j0)) as [->|Hne].
    - rewrite list_lookup_insert_eq in Hj by by eapply lookup_lt_Some. left. naive_solver.
    - rewrite list_lookup_insert_ne in Hj by done. right. split; [naive_solver|]. by exists ii. }
  assert (∀ k j t e, slot (mkVfs s m) k j t e → x_len e ≠ 0 → x_physical e ≠ phys) as Hfresh.
  { intros k j t e Hsl Hu Heq. destruct (H3 _ _ _ _ Hsl Hu) as [_ Hr].
    destruct (decide (zone t = zone (ii_tier ii))) as [Hzt|Hzt].
    - rewrite (next_of_zone t (ii_tier ii)) in Hr by done. unfold phys in Heq. lia.
    - pose proof (alloc_next s (ii_tier ii) s' phys (ii_tier ii) H1 Ha Hp) as Hn.
      rewrite Z.eqb_refl in Hn. pose proof (alloc_next s (ii_tier ii) s' phys t H1 Ha Hp) as Hn'.
      rewrite (proj2 (Z.eqb_neq _ _) Hzt) in Hn'. pose proof (H1 (ii_tier ii)).
      eapply (zones_disjoint t (ii_tier ii) phys (isb s') Hz Hzt); [lia|]. unfold phys in *. lia. }
  split; cbn [v_sb]; [done|..].
  - intros k j t e [(-> & -> & -> & ->)|(_ & Hsl)]%Hs; [by cbn|by eapply H2].
  - intros k j t e [(-> & -> & -> & ->)|(_ & Hsl)]%Hs Hu; cbn [x_len x_physical].
    + split; [done|]. rewrite (alloc_next s (ii_tier ii) s' phys _ H1 Ha Hp), Z.eqb_refl.
      pose proof (H1 (ii_tier ii)). unfold phys. lia.
    + destruct (H3 _ _ _ _ Hsl Hu) as [-> Hr]. split; [done|].
      rewrite (alloc_next s (ii_tier ii) s' phys t H1 Ha Hp). zcase; [|done].
      rewrite (next_of_zone t (ii_tier ii)) in Hr by done. unfold phys. lia.
  - intros k j t e k' j' t' e' [(-> & -> & -> & ->)|(Hn & Hsl)]%Hs
      [(-> & -> & -> & ->)|(Hn' & Hsl')]%Hs Hu Hu' Heq; cbn [x_physical] in Heq.
    + done.
    + symmetry in Heq. by apply Hfresh in Hsl'.
    + by apply Hfresh in Hsl.
    + by eapply H4.
Qed.

Lemma get_block_inv s m k ii i create s' ii' bh ret :
  vfs_inv (mkVfs s m) → m !! k = Some ii → 0 ≤ i < 18446744073709551615 →
  idkfs_get_block s ii i create = (s', ii', bh, ret) → in_zones a b c d (isb s') →
  vfs_inv (mkVfs s' (<[k := ii']> m)).
Proof.
  intros Hv Hk Hi Hg Hz. unfold idkfs_get_block in Hg.
  assert (∀ s'', isb s'' = isb s → vfs_inv (mkVfs s'' (<[k := ii]> m))) as Hsame.
  { intros s'' Hs. apply (vfs_inv_kept (mkVfs s m)); [done|done|].
    intros k' j t e (ii0 & H & ? & ?). left. exists ii0. cbn in H.
    by rewrite insert_id in H. }
  destruct (ext_find _ _) as [p|] eqn:Hf; [injection Hg as <- <- _ _; by apply Hsame|].
  destruct create; cbn [negb] in Hg; [|injection Hg as <- <- _ _; by apply Hsame].
  destruct (idkfs_alloc_tiered s (ii_tier ii)) as [s1 phys] eqn:Ha.
  pose proof (alloc_spec _ _ _ _ Ha) as Hsp. destruct (Z.eqb_spec phys 0).
  { injection Hg as <- <- _ _. destruct Hsp as [(_ & -> & _)|(_ & Hp & _)]; [by apply Hsame|].
    pose proof (vi_zones _ Hv (ii_tier ii)) as Hzi. cbn in Hzi.
    pose proof (in_zones_bound (ii_tier ii) _ (vi_zones _ Hv)). lia. }
  injection Hg as <- <- _ _. destruct Hsp as [(_ & _ & ?)|(_ & Hp & _)]; [done|].
  destruct (ext_insert_spec (ii_extents ii) i phys) as [[_ He]|(j & e & Hj & _ & He)];
    rewrite He.
  - split; cbn [v_sb]; [done|..].
    all: assert (∀ k0 j t e, slot (mkVfs s1 (<[k := mkInodeInfo (vi_ino ii) (vi_mode ii)
           (vi_nlink ii) (vi_atime ii) (vi_mtime ii) (vi_ctime ii) (vi_dirty ii)
           (ii_extents ii) (ii_tier ii)]> m)) k0 j t e → slot (mkVfs s m) k0 j t e) as Hs
      by (intros k0 j t e [(-> & -> & Hj)|(_ & Hsl)]%(slot_insert s s1 m k ii); try done;
          by exists ii).
    + intros k0 j t e H%Hs. by eapply vi_range.
    + intros k0 j t e H%Hs Hu. destruct (vi_used _ Hv _ _ _ _ H Hu) as [-> Hr].
      split; [done|]. cbn in Hr. rewrite (alloc_next s (ii_tier ii) s1 phys) by (done || apply Hv).
      zcase; [|done]. rewrite (next_of_zone t (ii_tier ii)) in Hr by done. lia.
    + intros k0 j t e k' j' t' e' H%Hs H'%Hs. by eapply vi_once.
  - subst phys. by eapply (fill_inv s m k ii j e i s1).
Qed.

(** An inode that kept its extents, or got none. *)
Definition kept_or_new (m : gmap Z inode_info) (k : Z) (ii' : inode_info) : Prop :=
  ii_extents ii' = replicate (Z.to_nat IDKFS_MAX_EXTENTS) zero_extent ∨
  ∃ ii, m !! k = Some ii ∧ ii_extents ii' = ii_extents ii ∧ ii_tier ii' = ii_tier ii.

Lemma two_inodes_inv s s' m k d0 ii' dir' :
  vfs_inv (mkVfs s m) → isb s' = isb s → kept_or_new m k ii' → kept_or_new m d0 dir' →
  vfs_inv (mkVfs s' (<[k := ii']> (<[d0 := dir']> m))).
Proof.
  intros Hv Hs Hk Hd. apply (vfs_inv_kept (mkVfs s m)); [done|done|].
  assert (∀ k0 i0 j e, kept_or_new m k0 i0 → ii_extents i0 !! j = Some e →
    slot (mkVfs s m) k0 j (ii_tier i0) e ∨ e = zero_extent) as Hkn.
  { intros k0 i0 j e [Hz|(ii & Hii & He & Ht)] Hj.
    - rewrite Hz in Hj. apply lookup_replicate in Hj as [-> _]. by right.
    - left. exists ii. split; [done|]. split; [done|]. by rewrite <- He. }
  intros k0 j t e (i0 & H0 & <- & Hj). cbn in H0.
  apply lookup_insert_Some in H0 as [[-> <-]|[_ H0]]; [by apply Hkn|].
  apply lookup_insert_Some in H0 as [[-> <-]|[_ H0]]; [by apply Hkn|].
  left. by exists i0.
Qed.

Context (tolower : Z → Z) (fast slow : option (list Z)).
Context (init_owner : inode_info → inode_info → Z → inode_info).
(** [inode_init_owner] sets the owner and the mode only. *)
Context (init_owner_ok : ∀ i dir mode, ii_extents (init_owner i dir mode) = ii_extents i ∧
           ii_tier (init_owner i dir mode) = ii_tier i).

Lemma step_inv v v' :
  vfs_step tolower fast slow init_owner v v' → in_zones a b c d (isb (v_sb v')) →
  vfs_inv v → vfs_inv v'.
Proof using zones init_owner_ok.
  intros Hs Hz Hv.
  destruct Hs as [s m k ii i create s' ii' bh ret Hk Hi Hg
    |s m k d0 dir al1 al2 name mode obj now s' dir' ii Hk Hd Hc
    |s m k d0 dir mode obj now s' dir' ii Hk Hd Hc
    |s m k d0 dir ii now s' dir' ii' ret Hk Hd Hne Hc
    |empty s m k d0 dir ii now s' dir' ii' ret Hk Hd Hne Hc
    |s m r other s' other' ret Hc|s m sync s' ret Hc|s m k ii ii' Hk He Ht].
  - by eapply get_block_inv.
  - unfold vfs_create in Hc. cbn in Hc. injection Hc as <- <- <-.
    apply (two_inodes_inv s); [done|done| |right; by exists dir].
    left. cbn. by rewrite (proj1 (init_owner_ok _ _ _)).
  - unfold vfs_mkdir in Hc. cbn in Hc. injection Hc as <- <- <-.
    apply (two_inodes_inv s); [done|done| |right; by exists dir].
    left. cbn. by rewrite (proj1 (init_owner_ok _ _ _)).
  - injection Hc as <- <- <- _.
    apply (two_inodes_inv s); [done|done|right; by exists ii|right; by exists dir].
  - destruct empty; injection Hc as <- <- <- _;
      (apply (two_inodes_inv s); [done|done|right; by exists ii|right; by exists dir]).
  - apply (vfs_inv_kept (mkVfs s m)); [done| |by intros; left].
    unfold vfs_rename in Hc. by destruct (r =? 0); injection Hc as <- _ _.
  - apply (vfs_inv_kept (mkVfs s m)); [done| |by intros; left]. by injection Hc as <- _.
  - apply (vfs_inv_kept (mkVfs s m)); [done|done|]. intros k0 j t e Hsl.
    apply (slot_insert s s m k ii ii') in Hsl as [(-> & -> & Hj)|[_ Hsl]]; [|by left|done|done].
    left. exists ii. by rewrite He in Hj.
Qed.

(** No step changes the tier of an inode. *)
Lemma step_tier v v' k ii :
  vfs_step tolower fast slow init_owner v v' → v_inodes v !! k = Some ii →
  ∃ ii', v_inodes v' !! k = Some ii' ∧ ii_tier ii' = ii_tier ii.
Proof using.
  assert (Hput : ∀ (m : gmap Z inode_info) k0 i0 i0', m !! k0 = Some i0 → ii_tier i0' = ii_tier i0 →
    m !! k = Some ii → ∃ ii', <[k0 := i0']> m !! k = Some ii' ∧ ii_tier ii' = ii_tier ii).
  { intros m k0 i0 i0' Hk0 Ht Hk. destruct (decide (k0 = k)) as [->|Hne].
    - rewrite lookup_insert_eq. exists i0'. split; [done|congruence].
    - rewrite lookup_insert_ne by done. eauto. }
  intros [s m k0 i0 i create s' i0' bh ret Hk0 _ Hg
    |s m k0 d0 dir al1 al2 name mode obj now s' dir' i0 Hk0 Hd Hc
    |s m k0 d0 dir mode obj now s' dir' i0 Hk0 Hd Hc
    |s m k0 d0 dir i0 now s' dir' i0' ret Hk0 Hd Hne Hc
    |empty s m k0 d0 dir i0 now s' dir' i0' ret Hk0 Hd Hne Hc
    |s m r other s' other' ret Hc|s m sync s' ret Hc|s m k0 i0 i0' Hk0 _ Ht] Hk; cbn in Hk |- *.
  - apply (Hput m k0 i0); [done| |done]. unfold idkfs_get_block in Hg.
    destruct (ext_find _ _); [by injection Hg as _ <-|].
    destruct create; cbn [negb] in Hg; [|by injection Hg as _ <-].
    destruct (idkfs_alloc_tiered _ _) as [? phys].
    by destruct (phys =? 0); injection Hg as _ <-.
  - unfold vfs_create in Hc. cbn in Hc. injection Hc as _ <- _.
    rewrite lookup_insert_ne by congruence. by eapply Hput.
  - unfold vfs_mkdir in Hc. cbn in Hc. injection Hc as _ <- _.
    rewrite lookup_insert_ne by congruence. by eapply Hput.
  - injection Hc as _ <- <- _. destruct (decide (k0 = k)) as [->|Hkk].
    + rewrite lookup_insert_eq. exists (mark_inode_dirty (drop_nlink
        (vi_set_times (vi_atime i0) (vi_mtime i0) now i0))). split; [done|]. cbn. congruence.
    + rewrite lookup_insert_ne by done. by eapply Hput.
  - destruct empty; injection Hc as _ <- <- _; (destruct (decide (k0 = k)) as [->|Hkk];
      [rewrite lookup_insert_eq; eexists; split; [done|cbn; congruence]|
       rewrite lookup_insert_ne by done; by eapply Hput]).
  - eauto.
  - eauto.
  - by eapply Hput.
Qed.

Definition tier_at (k t : Z) (v : vfs) : Prop :=
  ∃ ii, v_inodes v !! k = Some ii ∧ ii_tier ii = t.

Lemma steps_tier (R : vfs → vfs → Prop) v v' k t :
  (∀ w w', R w w' → vfs_step tolower fast slow init_owner w w') →
  steps R v v' → tier_at k t v → tier_at k t v'.
Proof using.
  intros HR. apply (steps_invariant R (tier_at k t)). intros w w' Hw (ii & Hii & <-).
  by eapply step_tier; [apply HR|].
Qed.

(** What [idkfs_get_block] hands out lies in the zone of the inode's tier. *)
Lemma get_block_zone v k ii i create s' ii' p new ret :
  vfs_inv v → v_inodes v !! k = Some ii →
  idkfs_get_block (v_sb v) ii i create = (s', ii', mkBh (Some p) new, ret) →
  in_zones a b c d (isb s') →
  zone_lo a b c (ii_tier ii) ≤ p < zone_hi b c d (ii_tier ii).
Proof using zones.
  intros Hv Hk Hg Hz. unfold idkfs_get_block in Hg.
  pose proof (vi_zones _ Hv (ii_tier ii)) as Hb.
  pose proof (in_zones_bound (ii_tier ii) _ (vi_zones _ Hv)) as [Hlo Hhi].
  destruct (ext_find _ _) as [p0|] eqn:Hf.
  { injection Hg as <- <- -> _ _. apply ext_find_Some in Hf as (j & e & Hj & Hr & ->).
    assert (slot v k j (ii_tier ii) e) as Hsl by by exists ii.
    pose proof (vi_range _ Hv _ _ _ _ Hsl) as Hlg.
    destruct (decide (x_len e = 0)) as [Hl|Hl].
    { rewrite Hl, Z.add_0_r, u64_small in Hr by lia. lia. }
    destruct (vi_used _ Hv _ _ _ _ Hsl Hl) as [Hl1 Hph].
    rewrite Hl1, u64_small in Hr by lia. rewrite u64_small by lia. lia. }
  destruct create; cbn [negb] in Hg; [|done].
  destruct (idkfs_alloc_tiered _ _) as [s1 phys] eqn:Ha.
  destruct (Z.eqb_spec phys 0) as [|Hp]; [done|]. injection Hg as <- _ <- _ _.
  pose proof (alloc_next _ _ _ _ (ii_tier ii) (vi_zones _ Hv) Ha Hp) as Hn.
  rewrite Z.eqb_refl in Hn. specialize (Hz (ii_tier ii)).
  apply alloc_spec in Ha as [(_ & _ & ?)|(_ & -> & _)]; [done|lia].
Qed.

Lemma get_block_total v k ii i :
  vfs_inv v → v_inodes v !! k = Some ii → k_free_blocks (isb (v_sb v)) ≠ 0 →
  ∃ s' ii' p new, idkfs_get_block (v_sb v) ii i true = (s', ii', mkBh (Some p) new, 0).
Proof using zones.
  intros Hv Hk Hf. unfold idkfs_get_block. destruct (ext_find _ _) as [p|]; [by eexists _, _, _, _|].
  cbn [negb]. destruct (idkfs_alloc_tiered _ _) as [s1 phys] eqn:Ha.
  pose proof (in_zones_bound (ii_tier ii) _ (vi_zones _ Hv)) as [Hlo _].
  pose proof (vi_zones _ Hv (ii_tier ii)).
  apply alloc_spec in Ha as [(? & _)|(_ & -> & _)]; [done|].
  rewrite (proj2 (Z.eqb_neq _ 0)) by lia. by eexists _, _, _, _.
Qed.

(** Two logical blocks never share a block. *)
Lemma inv_no_sharing v k i k' i' p :
  vfs_inv v → block_at v k i p → block_at v k' i' p → k = k' ∧ i = i'.
Proof using zones.
  assert (∀ k0 i0, vfs_inv v → block_at v k0 i0 p →
    ∃ j t e, slot v k0 j t e ∧ x_len e ≠ 0 ∧ x_logical e = i0 ∧ x_physical e = p) as Hb.
  { intros k0 i0 Hv (ii & Hii & Hf). apply ext_find_Some in Hf as (j & e & Hj & Hr & Hp).
    assert (slot v k0 j (ii_tier ii) e) as Hsl by by exists ii.
    pose proof (vi_range _ Hv _ _ _ _ Hsl) as Hlg.
    destruct (decide (x_len e = 0)) as [Hl|Hl].
    { rewrite Hl, Z.add_0_r, u64_small in Hr by lia. lia. }
    destruct (vi_used _ Hv _ _ _ _ Hsl Hl) as [Hl1 Hph].
    rewrite Hl1, u64_small in Hr by lia.
    destruct (in_zones_bound (ii_tier ii) _ (vi_zones _ Hv)) as [Hlo Hhi].
    exists j, (ii_tier ii), e. split_and!; [done|done|lia|].
    rewrite Hp, u64_small; lia. }
  intros Hv H1 H2.
  destruct (Hb k i Hv H1) as (j & t & e & Hs & Hl & <- & Hp).
  destruct (Hb k' i' Hv H2) as (j' & t' & e' & Hs' & Hl' & <- & Hp').
  destruct (vi_once _ Hv _ _ _ _ _ _ _ _ Hs Hs' Hl Hl') as [-> ->]; [congruence|].
  split; [done|]. destruct Hs as (i1 & H & _ & He), Hs' as (i2 & H' & _ & He'). congruence.
Qed.
End zones.

(** ** Properties *)

(** [name] ends, up to case, in a non-empty item of the list [csv]. *)
Definition in_list (tolower : Z → Z) (name csv : list Z) : Prop :=
  ∃ toks, csv = join_comma toks ∧ Forall no_comma toks ∧ toks ≠ [] ∧
    Exists (λ tok, tok ≠ [] ∧ ends_in tolower name tok) toks.

Lemma join_inj toks : Forall no_comma toks → toks ≠ [] → strsep_comma (join_comma toks) = toks.
Proof.
  induction toks as [|t ts IH]; intros H Hne; [done|]. apply Forall_cons in H as [Ht Hts].
  assert (∀ l, no_comma l → ∀ r, strsep_comma (l ++ 44 :: r) = l :: strsep_comma r) as Happ.
  { induction l as [|x l IHl]; intros Hl r; [done|]. apply Forall_cons in Hl as [Hx Hl].
    cbn [app strsep_comma]. rewrite (proj2 (Z.eqb_neq x 44)), IHl by done. done. }
  assert (∀ l, no_comma l → strsep_comma l = [l]) as Hone.
  { induction l as [|x l IHl]; intros Hl; [done|]. apply Forall_cons in Hl as [Hx Hl].
    cbn [strsep_comma]. by rewrite (proj2 (Z.eqb_neq x 44)), IHl by done. }
  destruct ts as [|t' ts]; cbn [join_comma]; [by apply Hone|].
  rewrite Happ by done. f_equal. by apply IH.
Qed.

Lemma ext_match_in_list tolower name csv :
  cstring name → cstring csv →
  idkfs_ext_match tolower true (Some name) (Some csv) = true ↔ in_list tolower name csv.
Proof.
  intros Hn Hc. rewrite ext_match_tokens by done. split.
  - intros H. exists (strsep_comma csv). split_and!; [by rewrite join_strsep| |
      apply strsep_comma_ne|done]. apply strsep_no_comma.
  - intros (toks & -> & Hnc & Hne & H). by rewrite join_inj.
Qed.

Lemma get_tier_spec tolower fast slow name t :
  cstring name → cstring fast → cstring slow →
  idkfs_get_tier tolower true true (Some fast) (Some slow) name = t →
  (t = K_TIER_FAST ↔ in_list tolower name fast) ∧
  (t = K_TIER_SLOW ↔ ¬ in_list tolower name fast ∧ in_list tolower name slow).
Proof.
  intros Hn Hf Hs. unfold idkfs_get_tier.
  pose proof (ext_match_in_list tolower name fast Hn Hf) as H1.
  pose proof (ext_match_in_list tolower name slow Hn Hs) as H2.
  unfold K_TIER_FAST, K_TIER_SLOW, K_TIER_NORMAL.
  destruct (idkfs_ext_match _ _ _ (Some fast)).
  { intros <-. destruct H1 as [H1 _]. specialize (H1 eq_refl). naive_solver lia. }
  assert (¬ in_list tolower name fast) by (intros H; by apply H1 in H).
  destruct (idkfs_ext_match _ _ _ (Some slow)); intros <-.
  - destruct H2 as [H2 _]. specialize (H2 eq_refl). naive_solver lia.
  - assert (¬ in_list tolower name slow) by (intros H'; by apply H2 in H').
    naive_solver lia.
Qed.

(** creating a mapping extends the inode's block map and nothing else:
    while the inode has an unused extent and the device a free block,
    [idkfs_get_block] returns a block, the same block is found again for that
    logical block, every other logical block keeps its own, and a block that
    is new is the next one of the inode's tier. *)
Theorem get_block_maps s ii i :
  Forall (λ e, 0 ≤ x_logical e < 18446744073709551616) (ii_extents ii) →
  Exists (λ e, x_len e = 0) (ii_extents ii) → 0 ≤ i < 18446744073709551615 →
  0 < next_of (ii_tier ii) (isb s) < 18446744073709551616 → k_free_blocks (isb s) ≠ 0 →
  ∃ s' ii' p new, idkfs_get_block s ii i true = (s', ii', mkBh (Some p) new, 0) ∧
    idkfs_get_block s' ii' i false = (s', ii', mkBh (Some p) false, 0) ∧
    (∀ i', ext_find (ii_extents ii') i' =
       if i' =? i then Some p else ext_find (ii_extents ii) i') ∧
    (new = false ↔ ext_find (ii_extents ii) i = Some p) ∧
    (new = true → p = next_of (ii_tier ii) (isb s)).
Proof.
  intros Hr Hu Hi Hn Hf. unfold idkfs_get_block.
  destruct (ext_find (ii_extents ii) i) as [p|] eqn:E.
  { exists s, ii, p, false. rewrite E. split_and!; try done. intros i'. zcase; [by subst|done]. }
  cbn [negb]. destruct (idkfs_alloc_tiered s (ii_tier ii)) as [s' p] eqn:Ha.
  apply alloc_spec in Ha as [(? & _)|(_ & -> & _)]; [done|].
  rewrite (proj2 (Z.eqb_neq _ 0)) by lia. set (p := next_of _ _) in *.
  destruct (ext_insert_spec (ii_extents ii) i p) as [[Hall _]|(j & e & Hj & He & ->)].
  { apply Exists_exists in Hu as (e & He & ?). by apply Hall in He. }
  assert (∀ i', ext_find (<[j := mkExtent i p 1 (x_checksum e)]> (ii_extents ii)) i' =
    if i' =? i then Some p else ext_find (ii_extents ii) i') as Hmap.
  { intros i'. apply ext_find_fill; try done; [|lia]. by apply (Forall_lookup_1 _ _ _ _ Hr Hj). }
  eexists _, _, p, true. split; [done|]. cbn [ii_extents]. rewrite Hmap, Z.eqb_refl.
  split_and!; done.
Qed.

(** C35: once the fifteen extents of an inode are in use, [idkfs_get_block]
    still allocates and hands out a block for an unmapped logical block but
    records it nowhere: asked again, it allocates another one.  Two writes of
    the same logical block land in different blocks, and both blocks are lost
    to the free count. *)
Theorem get_block_full_leaks s ii i p :
  Forall (λ e, x_len e ≠ 0) (ii_extents ii) → ext_find (ii_extents ii) i = None →
  p = next_of (ii_tier ii) (isb s) → 0 < p < 18446744073709551614 →
  2 ≤ k_free_blocks (isb s) < 18446744073709551616 →
  ∃ s1 s2, idkfs_get_block s ii i true = (s1, ii, mkBh (Some p) true, 0) ∧
    idkfs_get_block s1 ii i true = (s2, ii, mkBh (Some (p + 1)) true, 0) ∧
    idkfs_get_block s2 ii i false = (s2, ii, mkBh None false, 0) ∧
    k_free_blocks (isb s2) = k_free_blocks (isb s) - 2.
Proof.
  intros Hfull Hnone Hp Hb Hf.
  assert (∀ s0 p0, p0 = next_of (ii_tier ii) (isb s0) → 0 < p0 < 18446744073709551615 →
    1 ≤ k_free_blocks (isb s0) < 18446744073709551616 →
    ∃ s1, idkfs_get_block s0 ii i true = (s1, ii, mkBh (Some p0) true, 0) ∧
      next_of (ii_tier ii) (isb s1) = p0 + 1 ∧
      k_free_blocks (isb s1) = k_free_blocks (isb s0) - 1) as Hone.
  { intros s0 p0 Hp0 Hb0 Hf0. unfold idkfs_get_block. rewrite Hnone. cbn [negb].
    destruct (idkfs_alloc_tiered s0 (ii_tier ii)) as [s1 q] eqn:Ha.
    apply alloc_spec in Ha as [(? & _)|(_ & Hq & Hf1 & Hn1 & _)]; [lia|].
    rewrite (proj2 (Z.eqb_neq q 0)) by lia.
    destruct (ext_insert_spec (ii_extents ii) i q) as [[_ ->]|(j & e & Hj & He & _)].
    - exists s1. rewrite u64_small in Hf1, Hn1 by lia. split_and!; [|lia|lia].
      replace q with p0 by congruence. by destruct ii.
    - by apply (Forall_lookup_1 _ _ _ _ Hfull) in Hj. }
  destruct (Hone s p) as (s1 & H1 & Hn1 & Hf1); [done|lia|lia|].
  destruct (Hone s1 (p + 1)) as (s2 & H2 & _ & Hf2); [done|lia|lia|].
  exists s1, s2. split_and!; [done|done| |lia].
  unfold idkfs_get_block. by rewrite Hnone.
Qed.

(** [n] allocations from one tier. *)
Definition alloc_many (t : Z) (n : nat) (s : sb_info) : sb_info :=
  Nat.iter n (λ s, fst (idkfs_alloc_tiered s t)) s.

Lemma alloc_many_S t n s :
  alloc_many t (S n) s = fst (idkfs_alloc_tiered (alloc_many t n s) t).
Proof. done. Qed.

Lemma alloc_many_spec t n s :
  0 ≤ next_of t (isb s) → next_of t (isb s) + Z.of_nat n < 18446744073709551616 →
  Z.of_nat n ≤ k_free_blocks (isb s) < 18446744073709551616 →
  next_of t (isb (alloc_many t n s)) = next_of t (isb s) + Z.of_nat n ∧
  k_free_blocks (isb (alloc_many t n s)) = k_free_blocks (isb s) - Z.of_nat n.
Proof.
  intros H0 Hn Hf. induction n as [|n IH]; [cbn; lia|].
  destruct IH as [IH1 IH2]; [lia|lia|]. rewrite alloc_many_S.
  destruct (idkfs_alloc_tiered (alloc_many t n s) t) as [s1 q] eqn:Ha.
  apply alloc_spec in Ha as [(? & _)|(_ & Hq & Hf1 & Hn1 & _)]; [lia|]. cbn [fst].
  rewrite u64_small in Hf1, Hn1 by lia. lia.
Qed.

(** C36: nothing keeps a tier within its zone.  After a NORMAL block has been
    handed out, as many FAST allocations as the FAST zone has blocks make the
    next FAST allocation hand out that same block again, although free blocks
    remain in the count. *)
Theorem fast_zone_overrun s n s1 :
  0 < k_next_fast (isb s) → k_next_fast (isb s) + Z.of_nat n = k_next_normal (isb s) →
  k_next_normal (isb s) < 18446744073709551615 →
  Z.of_nat n + 2 ≤ k_free_blocks (isb s) < 18446744073709551616 →
  s1 = fst (idkfs_alloc_tiered s K_TIER_NORMAL) →
  snd (idkfs_alloc_tiered s K_TIER_NORMAL) = k_next_normal (isb s) ∧
  snd (idkfs_alloc_tiered (alloc_many K_TIER_FAST n s1) K_TIER_FAST) = k_next_normal (isb s).
Proof.
  intros H0 Hn Hb Hf ->.
  destruct (idkfs_alloc_tiered s K_TIER_NORMAL) as [s1 p] eqn:Ha.
  apply alloc_spec in Ha as [(? & _)|(_ & Hp & Hf1 & _ & Ho)]; [lia|]. cbn [fst snd].
  specialize (Ho K_TIER_FAST ltac:(by vm_compute)). cbn in Hp, Ho.
  rewrite u64_small in Hf1 by lia.
  destruct (alloc_many_spec K_TIER_FAST n s1) as [H1 H2]; [cbn; lia|cbn; lia|lia|].
  cbn in H1. split; [done|].
  destruct (idkfs_alloc_tiered (alloc_many K_TIER_FAST n s1) K_TIER_FAST) as [s2 q] eqn:Hq.
  apply alloc_spec in Hq as [(? & _)|(_ & Hq & _)]; [lia|]. cbn in Hq |- *. lia.
Qed.

(** The state [idkfs_fill_super] sets up from block 0 of a formatted image. *)
Definition fresh_mount (v : vfs) : Prop :=
  ∃ s root obj now,
    vfs_fill_super (Some (take 4096 mkfs_image)) true (idkfs_alloc_inode (Some obj)) true now =
      Some (Some s, Some root, 0) ∧ v = mkVfs s {[ 1 := root ]}.

Lemma fill_super_fresh new now :
  vfs_fill_super (Some (take 4096 mkfs_image)) true new true now =
    (root ← new; Some (Some (mkSbi mkfs_ksb false),
       Some (mkInodeInfo 1 (Z.lor K_S_IFDIR 493) 2 now now now (vi_dirty root)
               (ii_extents root) (ii_tier root)), 0)).
Proof.
  unfold vfs_fill_super. rewrite take_take.
  destruct mkfs_image_parts as (H1 & _). destruct sizeof_kfs as (H2 & _).
  replace (csize ksb_codec `min` 4096)%nat with (length (cenc ksb_codec mkfs_ksb)) by lia.
  unfold mkfs_image. rewrite take_app_length, (cdec_enc' ksb_codec mkfs_ksb mkfs_ksb_valid).
  change (k_magic mkfs_ksb =? K_MAGIC) with true. cbn [negb]. done.
Qed.

Lemma fresh_mount_inv v : fresh_mount v → vfs_inv 10 262144 524288 1048576 v.
Proof.
  intros (s & root & obj & now & H & ->). rewrite fill_super_fresh in H. cbn in H.
  injection H as <- <-.
  assert (∀ k j t e, slot (mkVfs (mkSbi mkfs_ksb false)
    {[ 1 := mkInodeInfo 1 (Z.lor K_S_IFDIR 493) 2 now now now (vi_dirty obj)
              (replicate 15 zero_extent) (ii_tier obj) ]}) k j t e → e = zero_extent) as Hz.
  { intros k j t e (ii & Hii & _ & He). cbn in Hii.
    apply lookup_singleton_Some in Hii as [_ <-].
    change (replicate 15 zero_extent !! j = Some e) in He.
    by apply lookup_replicate in He as [-> _]. }
  split.
  - intros t. unfold zone_lo, zone_hi. tiers. cbn. zcases; vm_compute; split; discriminate.
  - by intros k j t e ->%Hz.
  - by intros k j t e ->%Hz.
  - by intros k j t e k' j' t' e' ->%Hz.
Qed.

(** A step after which no tier has overrun its zone. *)
Definition bounded_step (tolower : Z → Z) (fast slow : option (list Z))
    (init_owner : inode_info → inode_info → Z → inode_info) (v v' : vfs) : Prop :=
  vfs_step tolower fast slow init_owner v v' ∧
  in_zones 10 262144 524288 1048576 (isb (v_sb v')).

(** C3: on a mount of a freshly formatted image, whatever sequence of file,
    directory and block operations follows, as long as no tier overruns its
    zone no two logical blocks, of one file or of two, share a block of the
    device. *)
Theorem vfs_no_sharing tolower fast slow init_owner v0 v k i k' i' p :
  (∀ i d mode, ii_extents (init_owner i d mode) = ii_extents i ∧
     ii_tier (init_owner i d mode) = ii_tier i) →
  fresh_mount v0 → steps (bounded_step tolower fast slow init_owner) v0 v →
  block_at v k i p → block_at v k' i' p → k = k' ∧ i = i'.
Proof.
  intros Hio Hf Hs. apply (inv_no_sharing 10 262144 524288 1048576); [lia|].
  apply (steps_invariant (bounded_step tolower fast slow init_owner)
           (vfs_inv 10 262144 524288 1048576)) in Hs; [done| |by apply fresh_mount_inv].
  intros w w' [Hst Hz] Hv. by eapply (step_inv 10 262144 524288 1048576).
Qed.

(** The zone of a freshly formatted device a name selects. *)
Definition in_named_zone (tolower : Z → Z) (fast slow name : list Z) (p : Z) : Prop :=
  (in_list tolower name fast → 10 ≤ p < 262144) ∧
  (¬ in_list tolower name fast → in_list tolower name slow → 524288 ≤ p < 1048576) ∧
  (¬ in_list tolower name fast → ¬ in_list tolower name slow → 262144 ≤ p < 524288).

Lemma tier_named_zone tolower fast slow name p :
  cstring name → cstring fast → cstring slow →
  let t := idkfs_get_tier tolower true true (Some fast) (Some slow) name in
  zone_lo 10 262144 524288 t ≤ p < zone_hi 262144 524288 1048576 t →
  in_named_zone tolower fast slow name p.
Proof.
  intros Hn Hf Hs t Hp.
  destruct (get_tier_spec tolower fast slow name t Hn Hf Hs eq_refl) as [H1 H2].
  unfold in_named_zone. unfold zone_lo, zone_hi in Hp.
  split_and!.
  - intros Hin. rewrite (proj2 H1 Hin) in Hp. exact Hp.
  - intros Hnin Hin. rewrite (proj2 H2 (conj Hnin Hin)) in Hp. exact Hp.
  - intros Hnf Hns. destruct (Z.eqb_spec t K_TIER_FAST) as [E|_]; [by apply H1 in E|].
    destruct (Z.eqb_spec t K_TIER_SLOW) as [E|_]; [by apply H2 in E as [_ ?]|]. exact Hp.
Qed.

(** C34: files are placed by their names.  On a mount of a freshly formatted
    image, let a file be created under a name, and let any file, directory
    and block operations come before and after.  Then, as long as no tier
    overruns its zone, every block [idkfs_get_block] gives for that file, an
    old one or a new one, lies in the FAST zone when the name ends in an item
    of the fast list, in the SLOW zone when it ends in an item of the slow
    list and none of the fast list, and else in the NORMAL zone; and while a
    block is free, each request to map a block is given one. *)
Theorem blocks_in_named_zone tolower fast slow init_owner v0 s m k d dir name mode obj now
    s' dir' ii v :
  (∀ i d mode, ii_extents (init_owner i d mode) = ii_extents i ∧
     ii_tier (init_owner i d mode) = ii_tier i) →
  cstring name → cstring fast → cstring slow →
  fresh_mount v0 →
  steps (bounded_step tolower (Some fast) (Some slow) init_owner) v0 (mkVfs s m) →
  m !! k = None → m !! d = Some dir →
  vfs_create tolower (Some fast) (Some slow) init_owner true true (Some s) dir name mode
    (idkfs_alloc_inode (Some obj)) k now = (Some s', dir', Some ii, 0) →
  steps (bounded_step tolower (Some fast) (Some slow) init_owner)
    (mkVfs s' (<[k := ii]> (<[d := dir']> m))) v →
  ∃ iiv, v_inodes v !! k = Some iiv ∧
    (k_free_blocks (isb (v_sb v)) ≠ 0 → ∀ i, ∃ s2 ii2 p new,
       idkfs_get_block (v_sb v) iiv i true = (s2, ii2, mkBh (Some p) new, 0)) ∧
    ∀ i create s2 ii2 p new ret,
      idkfs_get_block (v_sb v) iiv i create = (s2, ii2, mkBh (Some p) new, ret) →
      in_zones 10 262144 524288 1048576 (isb s2) → in_named_zone tolower fast slow name p.
Proof.
  intros Hio Hn Hf Hs Hfresh Hbefore Hk Hd Hc Hafter.
  assert (Hinv : ∀ w w', steps (bounded_step tolower (Some fast) (Some slow) init_owner) w w' →
    vfs_inv 10 262144 524288 1048576 w → vfs_inv 10 262144 524288 1048576 w').
  { intros w w'. apply steps_invariant. intros x x' [Hst Hz] Hx.
    by eapply (step_inv 10 262144 524288 1048576). }
  pose proof (Hinv _ _ Hbefore (fresh_mount_inv v0 Hfresh)) as Hv0.
  set (v1 := mkVfs s' _) in *.
  assert (vfs_step tolower (Some fast) (Some slow) init_owner (mkVfs s m) v1) as Hst
    by by eapply step_create.
  unfold vfs_create in Hc. cbn in Hc. injection Hc as Hs' _ Hii.
  assert (vfs_inv 10 262144 524288 1048576 v1) as Hv1.
  { eapply (step_inv 10 262144 524288 1048576); [lia|done|exact Hst| |exact Hv0].
    unfold v1. rewrite <- Hs'. apply (vi_zones _ _ _ _ _ Hv0). }
  pose proof (Hinv _ _ Hafter Hv1) as Hv.
  destruct (steps_tier tolower (Some fast) (Some slow) init_owner _ v1 v k (ii_tier ii)
    (λ w w' H, proj1 H) Hafter) as (iiv & Hkv & Htier).
  { exists ii. split; [apply lookup_insert_eq|done]. }
  exists iiv. split; [done|]. split.
  - intros Hfree i. by eapply (get_block_total 10 262144 524288 1048576).
  - intros i create s2 ii2 p new ret Hg Hz. apply tier_named_zone; try done.
    replace (idkfs_get_tier _ _ _ _ _ _) with (ii_tier iiv).
    + by eapply (get_block_zone 10 262144 524288 1048576).
    + rewrite Htier, <- Hii. cbn. by rewrite (proj2 (Hio _ _ _)).
Qed.

(** ** The properties at concrete inputs *)

Definition ascii_lower (c : Z) : Z := if (65 <=? c) && (c <=? 90) then c + 32 else c.
Definition demo_owner (i dir : inode_info) (mode : Z) : inode_info :=
  mkInodeInfo (vi_ino i) mode (vi_nlink i) (vi_atime i) (vi_mtime i) (vi_ctime i)
    (vi_dirty i) (ii_extents i) (ii_tier i).
Definition demo_obj : inode_info := mkInodeInfo 0 0 1 0 0 0 false [] 1.
Definition demo_sbi : sb_info := mkSbi mkfs_ksb false.
Definition demo_root : inode_info :=
  mkInodeInfo 1 (Z.lor K_S_IFDIR 493) 2 0 0 0 false (replicate 15 zero_extent) 1.
(** "A.SO" *)
Definition demo_lib : list Z := [65; 46; 83; 79].
Definition demo_new (t : Z) : inode_info :=
  mkInodeInfo 2 420 1 5 5 5 true (replicate 15 zero_extent) t.

Lemma get_block_maps_witness : ∃ s' ii' p new,
  idkfs_get_block demo_sbi (demo_new 2) 7 true = (s', ii', mkBh (Some p) new, 0) ∧
  idkfs_get_block s' ii' 7 false = (s', ii', mkBh (Some p) false, 0) ∧
  (∀ i', ext_find (ii_extents ii') i' =
     if i' =? 7 then Some p else ext_find (ii_extents (demo_new 2)) i') ∧
  (new = false ↔ ext_find (ii_extents (demo_new 2)) 7 = Some p) ∧
  (new = true → p = next_of (ii_tier (demo_new 2)) (isb demo_sbi)).
Proof.
  apply (get_block_maps demo_sbi (demo_new 2) 7).
  - apply Forall_replicate. cbn. lia.
  - apply Exists_cons_hd. reflexivity.
  - lia.
  - vm_compute. split; reflexivity.
  - discriminate.
Defined.

(** An inode whose fifteen extents map its blocks 0 to 14. *)
Definition demo_full : inode_info :=
  mkInodeInfo 2 420 1 5 5 5 true ((λ i, mkExtent i (1000 + i) 1 0) <$> seqZ 0 15) 0.

Lemma get_block_full_leaks_witness : ∃ s1 s2,
  idkfs_get_block demo_sbi demo_full 15 true = (s1, demo_full, mkBh (Some 10) true, 0) ∧
  idkfs_get_block s1 demo_full 15 true = (s2, demo_full, mkBh (Some (10 + 1)) true, 0) ∧
  idkfs_get_block s2 demo_full 15 false = (s2, demo_full, mkBh None false, 0) ∧
  k_free_blocks (isb s2) = k_free_blocks (isb demo_sbi) - 2.
Proof.
  apply (get_block_full_leaks demo_sbi demo_full 15 10).
  - apply Forall_fmap, Forall_true. intros x. discriminate.
  - vm_compute. reflexivity.
  - reflexivity.
  - lia.
  - vm_compute. split; [discriminate|reflexivity].
Defined.

Lemma fast_zone_overrun_witness :
  snd (idkfs_alloc_tiered demo_sbi K_TIER_NORMAL) = 262144 ∧
  snd (idkfs_alloc_tiered (alloc_many K_TIER_FAST (Z.to_nat 262134)
    (fst (idkfs_alloc_tiered demo_sbi K_TIER_NORMAL))) K_TIER_FAST) = 262144.
Proof.
  apply (fast_zone_overrun demo_sbi (Z.to_nat 262134)
           (fst (idkfs_alloc_tiered demo_sbi K_TIER_NORMAL))).
  - vm_compute. reflexivity.
  - rewrite Z2Nat.id by lia. vm_compute. reflexivity.
  - vm_compute. reflexivity.
  - rewrite Z2Nat.id by lia. vm_compute. split; [discriminate|reflexivity].
  - exact eq_refl.
Defined.

Definition demo_v0 : vfs := mkVfs demo_sbi {[ 1 := demo_root ]}.
Definition demo_v1 : vfs :=
  mkVfs (mkSbi mkfs_ksb true)
    (<[2 := demo_new 0]> (<[1 := mark_inode_dirty (vi_touch 5 demo_root)]> {[ 1 := demo_root ]})).
Definition demo_v2 : vfs :=
  let '(s, ii, _, _) := idkfs_get_block (v_sb demo_v1) (demo_new 0) 0 true in
  mkVfs s (<[2 := ii]> (v_inodes demo_v1)).

Lemma demo_in_zones sb :
  10 ≤ k_next_fast sb ≤ 12 → k_next_normal sb = 262144 → k_next_slow sb = 524288 →
  in_zones 10 262144 524288 1048576 sb.
Proof.
  intros Hf Hn Hs t. unfold zone_lo, zone_hi. tiers. rewrite Hn, Hs. zcases; lia.
Qed.

Lemma demo_steps : fresh_mount demo_v0 ∧
  steps (bounded_step ascii_lower (Some fast_exts) (Some slow_exts) demo_owner) demo_v0 demo_v2.
Proof.
  split.
  { exists demo_sbi, demo_root, demo_obj, 0. split; [|done]. by rewrite fill_super_fresh. }
  apply (steps_cons _ _ demo_v1); [|apply (steps_cons _ _ demo_v2); [|apply steps_refl]];
    (split; [|apply demo_in_zones; vm_compute; (reflexivity || (split; discriminate))]).
  - apply (step_create _ _ _ _ demo_sbi {[ 1 := demo_root ]} 2 1 demo_root true true demo_lib
             420 demo_obj 5 (mkSbi mkfs_ksb true)); [done|done|reflexivity].
  - apply (step_get_block _ _ _ _ (mkSbi mkfs_ksb true) (v_inodes demo_v1) 2 (demo_new 0) 0 true
             _ _ (mkBh (Some 10) true) 0); [done|lia|reflexivity].
Qed.

Definition demo_file : inode_info :=
  mkInodeInfo 2 420 1 5 5 5 true (mkExtent 0 10 1 0 :: replicate 14 zero_extent) 0.

(** "A.SO" after its block 0 was mapped: block 1 goes to the FAST zone. *)
Lemma blocks_in_named_zone_witness : ∃ ii s2 ii2 p new,
  v_inodes demo_v2 !! 2 = Some ii ∧
  idkfs_get_block (v_sb demo_v2) ii 1 true = (s2, ii2, mkBh (Some p) new, 0) ∧ 10 ≤ p < 262144.
Proof.
  destruct demo_steps as [Hfresh Hsteps].
  assert (steps (bounded_step ascii_lower (Some fast_exts) (Some slow_exts) demo_owner)
    demo_v1 demo_v2) as Hafter.
  { apply (steps_cons _ _ demo_v2); [|apply steps_refl]. split.
    - apply (step_get_block _ _ _ _ (mkSbi mkfs_ksb true) (v_inodes demo_v1) 2 (demo_new 0) 0 true
               _ _ (mkBh (Some 10) true) 0); [done|lia|reflexivity].
    - apply demo_in_zones; vm_compute; (reflexivity || (split; discriminate)). }
  destruct (blocks_in_named_zone ascii_lower fast_exts slow_exts demo_owner demo_v0 demo_sbi
    {[ 1 := demo_root ]} 2 1 demo_root demo_lib 420 demo_obj 5 (mkSbi mkfs_ksb true)
    (mark_inode_dirty (vi_touch 5 demo_root)) (demo_new 0) demo_v2)
    as (ii & Hii & Htot & Hzone).
  - intros i d mode. split; reflexivity.
  - repeat constructor.
  - repeat constructor.
  - repeat constructor.
  - exact Hfresh.
  - apply steps_refl.
  - reflexivity.
  - reflexivity.
  - reflexivity.
  - exact Hafter.
  - destruct (Htot ltac:(discriminate) 1) as (s2 & ii2 & p & new & Hg).
    exists ii, s2, ii2, p, new. split; [exact Hii|]. split; [exact Hg|].
    destruct (Hzone _ _ _ _ _ _ _ Hg) as [Hfast _].
    + assert (v_inodes demo_v2 !! 2 = Some demo_file) as Hfile by reflexivity.
      rewrite Hfile in Hii. injection Hii as <-.
      assert (s2 = fst (fst (fst (idkfs_get_block (v_sb demo_v2) demo_file 1 true)))) as ->
        by by rewrite Hg.
      apply demo_in_zones; vm_compute; (reflexivity || (split; discriminate)).
    + apply Hfast. eapply (get_tier_spec ascii_lower fast_exts slow_exts demo_lib K_TIER_FAST);
        [repeat constructor..|vm_compute; reflexivity|reflexivity].
Defined.

Lemma vfs_no_sharing_witness :
  fresh_mount demo_v0 ∧ block_at demo_v2 2 0 10 ∧ 2 = 2 ∧ 0 = 0.
Proof.
  assert (block_at demo_v2 2 0 10) as Hb by (eexists; split; reflexivity).
  split; [exact (proj1 demo_steps)|]. split; [exact Hb|].
  apply (vfs_no_sharing ascii_lower (Some fast_exts) (Some slow_exts) demo_owner
           demo_v0 demo_v2 2 0 2 0 10).
  - intros i d mode. split; reflexivity.
  - exact (proj1 demo_steps).
  - exact (proj2 demo_steps).
  - exact Hb.
  - exact Hb.
Defined.
