(* ===== verification/Config.v ===== *)
(** * The configuration loader, [idkfs_config.c]

    The table of tier rules, its defaults, the choice of a tier for a file
    name, the loading of a JavaScript configuration and its printing.  The JavaScript
    engine (QuickJS) is the interface [QuickJS]; a value is passed with the
    state of the engine, since a property may run code.  Reference counts
    ([JS_FreeValue] and so on) and messages are left out.  ConfigSpec.v states
    what the loader computes. *)

From S2P Require Import Prelude Cint CString Libc CoreTypes.

Definition IDKFS_MAX_TIER_RULES : Z := 64.
(** Sizes of the arrays [pattern] and [sorting]. *)
Definition PATTERN_SIZE : Z := 128.
Definition SORTING_SIZE : Z := 32.

Record TierRule := mkTierRule {
  tr_pattern : list Z;
  tr_tier : SpeedTier;
}.

Record IDKFSConfig := mkConfig {
  cfg_features : FeatureFlags;
  cfg_tier_rules : list TierRule;
  cfg_tier_rule_count : Z;
  cfg_default_tier : SpeedTier;
  cfg_sorting : list Z;
  cfg_loaded : bool;
}.

Definition set_cfg_features (v : FeatureFlags) (c : IDKFSConfig) : IDKFSConfig :=
  mkConfig v (cfg_tier_rules c) (cfg_tier_rule_count c) (cfg_default_tier c) (cfg_sorting c) (cfg_loaded c).
Definition set_cfg_tier_rules (v : list TierRule) (c : IDKFSConfig) : IDKFSConfig :=
  mkConfig (cfg_features c) v (cfg_tier_rule_count c) (cfg_default_tier c) (cfg_sorting c) (cfg_loaded c).
Definition set_cfg_tier_rule_count (v : Z) (c : IDKFSConfig) : IDKFSConfig :=
  mkConfig (cfg_features c) (cfg_tier_rules c) v (cfg_default_tier c) (cfg_sorting c) (cfg_loaded c).
Definition set_cfg_default_tier (v : SpeedTier) (c : IDKFSConfig) : IDKFSConfig :=
  mkConfig (cfg_features c) (cfg_tier_rules c) (cfg_tier_rule_count c) v (cfg_sorting c) (cfg_loaded c).
Definition set_cfg_sorting (v : list Z) (c : IDKFSConfig) : IDKFSConfig :=
  mkConfig (cfg_features c) (cfg_tier_rules c) (cfg_tier_rule_count c) (cfg_default_tier c) v (cfg_loaded c).
Definition set_cfg_loaded (v : bool) (c : IDKFSConfig) : IDKFSConfig :=
  mkConfig (cfg_features c) (cfg_tier_rules c) (cfg_tier_rule_count c) (cfg_default_tier c) (cfg_sorting c) v.

(** [static IDKFSConfig g_config = {0}] *)
Definition g_config : IDKFSConfig :=
  mkConfig (mkFeatureFlags false false false false false false false false false)
    (replicate (Z.to_nat IDKFS_MAX_TIER_RULES)
      (mkTierRule (replicate (Z.to_nat PATTERN_SIZE) 0) TIER_FAST))
    0 TIER_FAST (replicate (Z.to_nat SORTING_SIZE) 0) false.

(** [strncpy(cfg->tier_rules[n].pattern, pat, 127);
    cfg->tier_rules[n].tier = t;] *)
Definition set_rule (cfg : IDKFSConfig) (n : Z) (pat : list Z) (t : SpeedTier) :
    option IDKFSConfig :=
  r ← (cfg_tier_rules cfg).[n];
  rules ← (cfg_tier_rules cfg).[n := mkTierRule (strncpy (tr_pattern r) pat 127) t];
  Some (set_cfg_tier_rules rules cfg).

(** The uses of [ADD_RULE], from rule [n]. *)
Fixpoint add_rules (cfg : IDKFSConfig) (n : Z) (rules : list (list Z * SpeedTier)) :
    option IDKFSConfig :=
  match rules with
  | [] => Some (set_cfg_tier_rule_count n cfg)
  | (pat, t) :: rules => cfg ← set_rule cfg n pat t; add_rules cfg (n + 1) rules
  end.

Definition default_rules : list (list Z * SpeedTier) :=
  [(lit "*.so", TIER_FAST); (lit "*.so.*", TIER_FAST); (lit "*.bin", TIER_FAST);
   (lit "*.o", TIER_FAST); (lit "*.exe", TIER_FAST); (lit "*.iso", TIER_SLOW);
   (lit "*.tar", TIER_SLOW); (lit "*.tar.*", TIER_SLOW); (lit "*.zip", TIER_SLOW);
   (lit "*.zst", TIER_SLOW); (lit "*.gz", TIER_SLOW); (lit "*.bz2", TIER_SLOW)].

Definition config_defaults (cfg : IDKFSConfig) : option IDKFSConfig :=
  let cfg := set_cfg_features features_default cfg in
  let cfg := set_cfg_default_tier TIER_NORMAL cfg in
  let cfg := set_cfg_loaded false cfg in
  let cfg := set_cfg_sorting (strncpy (cfg_sorting cfg) (lit "btree") 31) cfg in
  add_rules cfg 0 default_rules.

(** The loop of [config_get_tier] over the [n] rules from rule [i]. *)
Fixpoint tier_scan `{Locale} (cfg : IDKFSConfig) (filename : list Z) (i : Z) (n : nat) :
    option SpeedTier :=
  match n with
  | O => Some (cfg_default_tier cfg)
  | S n =>
      r ← (cfg_tier_rules cfg).[i];
      pattern ← cstr_of (tr_pattern r);
      if fnmatch pattern filename =? 0 then Some (tr_tier r)
      else tier_scan cfg filename (i + 1) n
  end.

Definition config_get_tier `{Locale} (cfg : IDKFSConfig) (filename : list Z) :
    option SpeedTier :=
  tier_scan cfg filename 0 (Z.to_nat (cfg_tier_rule_count cfg)).

(** ** The JavaScript engine *)

Class QuickJS := {
  JSValue : Type;
  JSContext : Type;
  JS_UNDEFINED : JSValue;
  JS_NewContext : JSContext;
  JS_IsUndefined : JSValue → bool;
  JS_IsException : JSValue → bool;
  JS_IsObject : JSValue → bool;
  (** [JS_IsArray], [JS_ToBool]: -1 is an exception *)
  JS_IsArray : JSContext → JSValue → Z * JSContext;
  JS_ToBool : JSContext → JSValue → Z * JSContext;
  JS_GetPropertyStr : JSContext → JSValue → list Z → JSValue * JSContext;
  JS_GetPropertyUint32 : JSContext → JSValue → Z → JSValue * JSContext;
  (** the string without its NUL, or NULL *)
  JS_ToCString : JSContext → JSValue → option (list Z) * JSContext;
  (** the number stored, [None] when nothing is *)
  JS_ToInt32 : JSContext → JSValue → option Z * JSContext;
  js_load_file : JSContext → list Z → option (list Z) * JSContext;
  JS_Eval : JSContext → list Z → list Z → JSValue * JSContext;
  JS_GetGlobalObject : JSContext → JSValue * JSContext;
}.

Section loader.
Context `{QuickJS}.

(** [JS_IsUndefined(v) || JS_IsException(v)] *)
Definition js_missing (v : JSValue) : bool := JS_IsUndefined v || JS_IsException v.

Definition js_get_bool (ctx : JSContext) (obj : JSValue) (key : list Z) (fallback : bool) :
    bool * JSContext :=
  let '(v, ctx) := JS_GetPropertyStr ctx obj key in
  if js_missing v then (fallback, ctx)
  else let '(result, ctx) := JS_ToBool ctx v in (negb (result =? 0), ctx).

Definition js_get_str (ctx : JSContext) (obj : JSValue) (key out : list Z) (maxlen : Z) :
    list Z * JSContext :=
  let '(v, ctx) := JS_GetPropertyStr ctx obj key in
  if js_missing v then (out, ctx)
  else
    match JS_ToCString ctx v with
    | (Some s, ctx) => (strncpy out s (Z.to_nat (maxlen - 1)), ctx)
    | (None, ctx) => (out, ctx)
    end.

Definition parse_disable (ctx : JSContext) (root : JSValue) (f : FeatureFlags) :
    FeatureFlags * JSContext :=
  let '(dis, ctx) := JS_GetPropertyStr ctx root (lit "disable") in
  if js_missing dis then (f, ctx)
  else
    let '(b1, ctx) := js_get_bool ctx dis (lit "journaling") (negb (journaling f)) in
    let '(b2, ctx) := js_get_bool ctx dis (lit "checksums") (negb (checksums f)) in
    let '(b3, ctx) := js_get_bool ctx dis (lit "timestamps") (negb (timestamps f)) in
    let '(b4, ctx) := js_get_bool ctx dis (lit "compression") (negb (compression f)) in
    let '(b5, ctx) := js_get_bool ctx dis (lit "encryption") (negb (encryption f)) in
    let '(b6, ctx) := js_get_bool ctx dis (lit "dedup") (negb (dedup f)) in
    let '(b7, ctx) := js_get_bool ctx dis (lit "prefetch") (negb (prefetch f)) in
    let '(b8, ctx) := js_get_bool ctx dis (lit "lua_hooks") (negb (lua_hooks f)) in
    let '(b9, ctx) := js_get_bool ctx dis (lit "sorting") (negb (sorting f)) in
    (mkFeatureFlags (negb b1) (negb b2) (negb b3) (negb b4) (negb b5) (negb b6)
       (negb b7) (negb b8) (negb b9), ctx).

(** The loop over the items of one array, from item [i]. *)
Fixpoint parse_tier_items (ctx : JSContext) (arr : JSValue) (tier : SpeedTier)
    (cfg : IDKFSConfig) (i : Z) (n : nat) : option (IDKFSConfig * JSContext) :=
  match n with
  | O => Some (cfg, ctx)
  | S n =>
      if cfg_tier_rule_count cfg <? IDKFS_MAX_TIER_RULES then
        let '(item, ctx) := JS_GetPropertyUint32 ctx arr (u32 i) in
        let '(s, ctx) := JS_ToCString ctx item in
        cfg ← match s with
              | Some s =>
                  cfg ← set_rule cfg (cfg_tier_rule_count cfg) s tier;
                  Some (set_cfg_tier_rule_count (cfg_tier_rule_count cfg + 1) cfg)
              | None => Some cfg
              end;
        parse_tier_items ctx arr tier cfg (i + 1) n
      else Some (cfg, ctx)
  end.

(** The loop over the tiers. *)
Fixpoint parse_tiers (ctx : JSContext) (st : JSValue) (cfg : IDKFSConfig)
    (tiers : list (list Z * SpeedTier)) : option (IDKFSConfig * JSContext) :=
  match tiers with
  | [] => Some (cfg, ctx)
  | (name, tier) :: tiers =>
      let '(arr, ctx) := JS_GetPropertyStr ctx st name in
      if JS_IsUndefined arr then parse_tiers ctx st cfg tiers
      else
        let '(is_array, ctx) := JS_IsArray ctx arr in
        if is_array =? 0 then parse_tiers ctx st cfg tiers
        else
          let '(len_v, ctx) := JS_GetPropertyStr ctx arr (lit "length") in
          let '(len, ctx) := JS_ToInt32 ctx len_v in
          '(cfg, ctx) ← parse_tier_items ctx arr tier cfg 0 (Z.to_nat (default 0 len));
          parse_tiers ctx st cfg tiers
  end.

(** [tier_names] with [tier_vals] *)
Definition tier_table : list (list Z * SpeedTier) :=
  [(lit "fast", TIER_FAST); (lit "normal", TIER_NORMAL); (lit "slow", TIER_SLOW)].

Definition parse_speed_tiers (ctx : JSContext) (root : JSValue) (cfg : IDKFSConfig) :
    option (IDKFSConfig * JSContext) :=
  let '(st, ctx) := JS_GetPropertyStr ctx root (lit "speed_tier") in
  if js_missing st then Some (cfg, ctx)
  else parse_tiers ctx st (set_cfg_tier_rule_count 0 cfg) tier_table.

Definition parse_sorting (ctx : JSContext) (root : JSValue) (cfg : IDKFSConfig) :
    IDKFSConfig * JSContext :=
  let '(s, ctx) := JS_GetPropertyStr ctx root (lit "sorting") in
  if js_missing s then (cfg, ctx)
  else if JS_IsObject s then
    let '(out, ctx) :=
      js_get_str ctx s (lit "algorithm") (cfg_sorting cfg) SORTING_SIZE in
    (set_cfg_sorting out cfg, ctx)
  else (cfg, ctx).

(** The global object that holds the configuration: [config], else
    [default]. *)
Definition config_object (ctx : JSContext) : JSValue * JSContext :=
  let '(global, ctx) := JS_GetGlobalObject ctx in
  let '(cfg_obj, ctx) := JS_GetPropertyStr ctx global (lit "config") in
  if js_missing cfg_obj then
    let '(cfg_obj, ctx) := JS_GetPropertyStr ctx global (lit "default") in
    (if JS_IsException cfg_obj then JS_UNDEFINED else cfg_obj, ctx)
  else (cfg_obj, ctx).

(** [exists_] is the outcome of [fopen(config_path, "r")]. *)
Definition idkfs_config_load (exists_ : bool) (cfg : IDKFSConfig) (config_path : list Z) :
    option (IDKFSConfig * Z) :=
  cfg ← config_defaults cfg;
  if negb exists_ then Some (cfg, 0)
  else
    match js_load_file JS_NewContext config_path with
    | (None, _) => Some (cfg, -1)
    | (Some buf, ctx) =>
        let '(result, ctx) := JS_Eval ctx buf config_path in
        if JS_IsException result then Some (cfg, -1)
        else
          let '(cfg_obj, ctx) := config_object ctx in
          if negb (JS_IsObject cfg_obj) then Some (cfg, -1)
          else
            let '(f, ctx) := parse_disable ctx cfg_obj (cfg_features cfg) in
            '(cfg, ctx) ← parse_speed_tiers ctx cfg_obj (set_cfg_features f cfg);
            let '(cfg, ctx) := parse_sorting ctx cfg_obj cfg in
            Some (set_cfg_loaded true cfg, 0)
    end.
End loader.

(** ** Printing *)

(** [tier_names] of [idkfs_config_print] *)
Definition tier_name (t : SpeedTier) : list Z :=
  match t with
  | TIER_FAST => lit "FAST"
  | TIER_NORMAL => lit "NORMAL"
  | TIER_SLOW => lit "SLOW"
  end.

Definition newline : list Z := [10].
(** The arrow of the source, in UTF-8. *)
Definition arrow : list Z := [226; 134; 146].

(** The conversion [%d] of a flag. *)
Definition flag_d (b : bool) : list Z := print_d (Z.b2z b).
(** The conversion [%-20s]. *)
Definition pad20 (s : list Z) : list Z := s ++ replicate (20 - length s) 32.

(** The line of one rule. *)
Definition rule_line (pattern : list Z) (t : SpeedTier) : list Z :=
  lit "    " ++ pad20 pattern ++ lit " " ++ arrow ++ lit " " ++ tier_name t ++ newline.

(** The loop over the [n] rules from rule [i]. *)
Fixpoint print_rules (cfg : IDKFSConfig) (i : Z) (n : nat) : option (list Z) :=
  match n with
  | O => Some []
  | S n =>
      r ← (cfg_tier_rules cfg).[i];
      pattern ← cstr_of (tr_pattern r);
      out ← print_rules cfg (i + 1) n;
      Some (rule_line pattern (tr_tier r) ++ out)
  end.

Definition print_features (f : FeatureFlags) : list Z :=
  lit "    journaling=" ++ flag_d (journaling f) ++ lit "  checksums=" ++ flag_d (checksums f) ++
  lit "  timestamps=" ++ flag_d (timestamps f) ++ newline ++
  lit "    compression=" ++ flag_d (compression f) ++ lit "  encryption=" ++
  flag_d (encryption f) ++ lit "  dedup=" ++ flag_d (dedup f) ++ newline ++
  lit "    prefetch=" ++ flag_d (prefetch f) ++ lit "  lua_hooks=" ++ flag_d (lua_hooks f) ++
  lit "  sorting=" ++ flag_d (sorting f) ++ newline.

(** What precedes the rules; [name] is the string in [sorting]. *)
Definition print_head (cfg : IDKFSConfig) (name : list Z) : list Z :=
  lit "=== idkfs config ===" ++ newline ++
  lit "  loaded:      " ++ (if cfg_loaded cfg then lit "yes" else lit "no (defaults)") ++ newline ++
  lit "  sorting:     " ++ name ++ newline ++
  lit "  default_tier: " ++ tier_name (cfg_default_tier cfg) ++ newline ++
  lit "  features:" ++ newline ++ print_features (cfg_features cfg) ++
  lit "  tier rules (" ++ print_d (cfg_tier_rule_count cfg) ++ lit "):" ++ newline.

(** The text written to the standard output. *)
Definition idkfs_config_print (cfg : IDKFSConfig) : option (list Z) :=
  name ← cstr_of (cfg_sorting cfg);
  lines ← print_rules cfg 0 (Z.to_nat (cfg_tier_rule_count cfg));
  Some (print_head cfg name ++ lines).
