(* ===== verification/ConfigSpec.v ===== *)
(** * What the configuration loader computes

    The type invariant of a configuration ([cfg_wf]), the tier chosen by the
    first matching rule, the meaning of the default rules, and the result of
    loading a configuration of plain data ([js_data]). *)

From S2P Require Import Prelude Cint CString Libc CoreTypes Config.

(** ** The invariant *)

(** A rule: a terminated array of 128 bytes. *)
Definition rule_wf (r : TierRule) : Prop :=
  length (tr_pattern r) = 128%nat ∧ bytes (tr_pattern r) ∧
  (tr_pattern r).[127] = Some 0.

Record cfg_wf (c : IDKFSConfig) : Prop := {
  cw_rules : length (cfg_tier_rules c) = 64%nat;
  cw_rule : Forall rule_wf (cfg_tier_rules c);
  cw_count : 0 ≤ cfg_tier_rule_count c ≤ 64;
  cw_sorting : length (cfg_sorting c) = 32%nat;
  cw_sorting_bytes : bytes (cfg_sorting c);
  cw_sorting_nul : (cfg_sorting c).[31] = Some 0;
}.

(** The rules in use, as a list of patterns with their tiers. *)
Definition rule_of (r : TierRule) : list Z * SpeedTier :=
  (c_str (tr_pattern r), tr_tier r).
Definition rules (c : IDKFSConfig) : list (list Z * SpeedTier) :=
  rule_of <$> take (Z.to_nat (cfg_tier_rule_count c)) (cfg_tier_rules c).

Lemma g_config_wf : cfg_wf g_config.
Proof.
  split; [done|..|done|repeat constructor; unfold byte; lia|done].
  - apply Forall_replicate. split; [done|]. split; [|done].
    apply Forall_replicate. unfold byte. lia.
  - cbn. lia.
Qed.

Lemma strncpy_field_bytes dst s n :
  bytes dst → cstring s → bytes (strncpy dst s n).
Proof.
  intros Hd Hs. apply Forall_app. split; [by apply strncpy_bytes_bytes|by apply Forall_drop].
Qed.

(** Writing rule [n] keeps the invariant and stores the pattern truncated to
    127 bytes. *)
Lemma set_rule_ok c n pat t :
  cfg_wf c → 0 ≤ n < 64 → cstring pat →
  ∃ r, set_rule c n pat t =
      Some (set_cfg_tier_rules (<[Z.to_nat n := r]> (cfg_tier_rules c)) c) ∧
    cfg_wf (set_cfg_tier_rules (<[Z.to_nat n := r]> (cfg_tier_rules c)) c) ∧
    rule_of r = (take 127 pat, t).
Proof.
  intros Hc Hn Hpat. unfold set_rule.
  destruct (zget_is_Some (cfg_tier_rules c) n) as [r0 Hr0]; [rewrite (cw_rules _ Hc); lia|].
  rewrite Hr0. ostep. rewrite zset_ok by (rewrite (cw_rules _ Hc); lia). ostep.
  assert (rule_wf r0) as (Hlen & Hb & Hnul).
  { pose proof (cw_rule _ Hc) as Hall. rewrite Forall_lookup in Hall.
    eapply Hall. by apply zget_Some in Hr0 as [_ ?]. }
  eexists. split; [reflexivity|]. split; [|].
  - destruct Hc. split; cbn; try done; [by rewrite length_insert|].
    apply Forall_insert; [done|]. split; cbn; [|split].
    + by rewrite strncpy_length by lia.
    + by apply strncpy_field_bytes.
    + exact (eq_trans (strncpy_last _ _ 127) Hnul).
  - unfold rule_of. cbn. f_equal. by apply cstr_of_c_str, strncpy_cstr.
Qed.

Lemma set_count_wf c n : cfg_wf c → 0 ≤ n ≤ 64 → cfg_wf (set_cfg_tier_rule_count n c).
Proof. intros [] ?. by split. Qed.

(** The fields a rule leaves alone. *)
Definition same_but_rules (c c' : IDKFSConfig) : Prop :=
  cfg_features c' = cfg_features c ∧ cfg_default_tier c' = cfg_default_tier c ∧
  cfg_sorting c' = cfg_sorting c ∧ cfg_loaded c' = cfg_loaded c.

Lemma same_but_rules_trans c1 c2 c3 :
  same_but_rules c1 c2 → same_but_rules c2 c3 → same_but_rules c1 c3.
Proof. unfold same_but_rules. intuition congruence. Qed.

(** Appending a rule at position [n]. *)
Lemma append_rule_ok c n pat t :
  cfg_wf c → 0 ≤ n < 64 → cstring pat →
  ∃ c', set_rule c n pat t = Some c' ∧ cfg_wf c' ∧ same_but_rules c c' ∧
    cfg_tier_rule_count c' = cfg_tier_rule_count c ∧
    rules (set_cfg_tier_rule_count (n + 1) c') =
      rules (set_cfg_tier_rule_count n c) ++ [(take 127 pat, t)].
Proof.
  intros Hc Hn Hpat. destruct (set_rule_ok c n pat t Hc Hn Hpat) as (r & -> & Hwf & Hr).
  eexists. split; [reflexivity|]. split; [exact Hwf|]. split; [done|]. split; [done|].
  unfold rules. cbn. rewrite <- Hr.
  replace (Z.to_nat (n + 1)) with (S (Z.to_nat n)) by lia.
  pose proof (cw_rules _ Hc) as Hlen.
  erewrite take_S_r by (apply list_lookup_insert_eq; lia).
  rewrite take_insert_ge by lia. by rewrite fmap_app.
Qed.

(** A list of rules as the table stores it. *)
Definition stored (rs : list (list Z * SpeedTier)) : list (list Z * SpeedTier) :=
  (λ r, (take 127 r.1, r.2)) <$> rs.

Lemma add_rules_ok rs c n :
  cfg_wf c → 0 ≤ n → n + Z.of_nat (length rs) ≤ 64 → Forall (λ r, cstring r.1) rs →
  ∃ c', add_rules c n rs = Some c' ∧ cfg_wf c' ∧ same_but_rules c c' ∧
    rules c' = rules (set_cfg_tier_rule_count n c) ++ stored rs.
Proof.
  intros Hc Hn Hlen Hrs. revert c n Hc Hn Hlen.
  induction Hrs as [|[pat t] rs Hpat _ IH]; intros c n Hc Hn Hlen; cbn [add_rules length] in *.
  - eexists. split; [reflexivity|]. split; [apply set_count_wf; [done|lia]|].
    split; [done|]. by rewrite app_nil_r.
  - destruct (append_rule_ok c n pat t Hc ltac:(lia) Hpat) as (c1 & -> & Hc1 & Hs1 & _ & Hr1).
    ostep. destruct (IH c1 (n + 1) Hc1 ltac:(lia) ltac:(lia)) as (c2 & -> & Hc2 & Hs2 & Hr2).
    exists c2. split; [done|]. split; [done|].
    split; [by eapply same_but_rules_trans|]. by rewrite Hr2, Hr1, <- app_assoc.
Qed.

Lemma set_sorting_wf c s n :
  cfg_wf c → cstring s → Z.of_nat n = 31 →
  cfg_wf (set_cfg_sorting (strncpy (cfg_sorting c) s n) c).
Proof.
  intros [] Hs Hn. split; cbn -[zget]; try done.
  - rewrite strncpy_length by lia. done.
  - by apply strncpy_field_bytes.
  - rewrite <- Hn. rewrite <- Hn in cw_sorting_nul0.
    exact (eq_trans (strncpy_last _ _ n) cw_sorting_nul0).
Qed.

Lemma sorting_cstr c s :
  cfg_wf c → cstring s → cstr_of (strncpy (cfg_sorting c) s 31) = Some (take 31 s).
Proof. intros Hc Hs. apply strncpy_cstr; [done|apply (cw_sorting_nul _ Hc)]. Qed.

(** The defaults. *)
Record is_default (c : IDKFSConfig) : Prop := {
  df_features : cfg_features c = features_default;
  df_rules : rules c = default_rules;
  df_tier : cfg_default_tier c = TIER_NORMAL;
  df_sorting : cstr_of (cfg_sorting c) = Some (lit "btree");
  df_loaded : cfg_loaded c = false;
}.

Lemma config_defaults_ok c :
  cfg_wf c → ∃ c', config_defaults c = Some c' ∧ cfg_wf c' ∧ is_default c'.
Proof.
  intros Hc. unfold config_defaults. set (c1 := set_cfg_loaded _ _).
  assert (cfg_wf c1) as Hc1 by (by destruct Hc).
  assert (cstring (lit "btree")) as Hb by (repeat constructor).
  destruct (add_rules_ok default_rules
    (set_cfg_sorting (strncpy (cfg_sorting c1) (lit "btree") 31) c1) 0)
    as (c' & -> & Hwf & (Hf & Ht & Hs & Hl) & Hr).
  - by apply set_sorting_wf.
  - lia.
  - by vm_compute.
  - repeat constructor.
  - exists c'. split; [done|]. split; [done|]. split.
    + by rewrite Hf.
    + by rewrite Hr.
    + by rewrite Ht.
    + rewrite Hs. by apply sorting_cstr.
    + by rewrite Hl.
Qed.

(** ** The choice of a tier *)

(** The tier of the first rule whose pattern matches. *)
Fixpoint first_match `{Locale} (rs : list (list Z * SpeedTier)) (filename : list Z)
    (default_tier : SpeedTier) : SpeedTier :=
  match rs with
  | [] => default_tier
  | (pat, t) :: rs =>
      if fnmatch pat filename =? 0 then t else first_match rs filename default_tier
  end.

Lemma rule_wf_cstr r : rule_wf r → cstr_of (tr_pattern r) = Some (c_str (tr_pattern r)).
Proof.
  intros (_ & _ & Hn). unfold cstr_of. rewrite bool_decide_true; [done|].
  apply zget_Some in Hn as [_ Hn]. by eapply list_elem_of_lookup_2.
Qed.

(** The rule of a loop at index [i], and its place in the list. *)
Lemma rule_at c i :
  cfg_wf c → 0 ≤ i < cfg_tier_rule_count c →
  ∃ r, (cfg_tier_rules c).[i] = Some r ∧ cstr_of (tr_pattern r) = Some (c_str (tr_pattern r)) ∧
    drop (Z.to_nat i) (rules c) = rule_of r :: drop (Z.to_nat (i + 1)) (rules c).
Proof.
  intros Hc Hi. pose proof (cw_rules _ Hc) as Hlen. pose proof (cw_count _ Hc) as Hcount.
  destruct (zget_is_Some (cfg_tier_rules c) i) as [r Hr]; [lia|]. exists r. split; [done|].
  apply zget_Some in Hr as [_ Hr]. split.
  - pose proof (cw_rule _ Hc) as Hall. rewrite Forall_lookup in Hall.
    apply rule_wf_cstr. by eapply Hall.
  - replace (Z.to_nat (i + 1)) with (S (Z.to_nat i)) by lia. apply drop_S.
    unfold rules. rewrite list_lookup_fmap, lookup_take_lt by lia. by rewrite Hr.
Qed.

Lemma rules_end c i : cfg_tier_rule_count c ≤ i → drop (Z.to_nat i) (rules c) = [].
Proof. intros Hi. apply drop_ge. unfold rules. len. Qed.

Lemma tier_scan_ok `{Locale} c filename n i :
  cfg_wf c → 0 ≤ i → (Z.to_nat i + n = Z.to_nat (cfg_tier_rule_count c))%nat →
  tier_scan c filename i n =
    Some (first_match (drop (Z.to_nat i) (rules c)) filename (cfg_default_tier c)).
Proof.
  intros Hc. revert i. induction n as [|n IH]; intros i Hi Hn; cbn [tier_scan].
  - by rewrite rules_end by lia.
  - destruct (rule_at c i Hc) as (r & -> & Hp & ->); [lia|]. ostep. rewrite Hp. ostep.
    cbn [first_match rule_of]. unfold rule_of. destruct (fnmatch _ _ =? 0); [done|].
    by rewrite IH by lia.
Qed.

Lemma config_get_tier_ok `{Locale} c filename :
  cfg_wf c →
  config_get_tier c filename = Some (first_match (rules c) filename (cfg_default_tier c)).
Proof. intros Hc. by apply (tier_scan_ok c filename _ 0). Qed.

(** ** Printing *)

Lemma print_rules_ok c n i :
  cfg_wf c → 0 ≤ i → (Z.to_nat i + n = Z.to_nat (cfg_tier_rule_count c))%nat →
  print_rules c i n =
    Some (mjoin ((λ r, rule_line r.1 r.2) <$> drop (Z.to_nat i) (rules c))).
Proof.
  intros Hc. revert i. induction n as [|n IH]; intros i Hi Hn; cbn [print_rules].
  - by rewrite rules_end by lia.
  - destruct (rule_at c i Hc) as (r & -> & Hp & ->); [lia|]. ostep. rewrite Hp. ostep.
    by rewrite IH by lia.
Qed.

(** Printing a configuration is defined and lists its rules, one per line. *)
Lemma config_print_ok c :
  cfg_wf c →
  idkfs_config_print c =
    Some (print_head c (c_str (cfg_sorting c)) ++ mjoin ((λ r, rule_line r.1 r.2) <$> rules c)).
Proof.
  intros Hc. unfold idkfs_config_print.
  assert (cstr_of (cfg_sorting c) = Some (c_str (cfg_sorting c))) as ->.
  { unfold cstr_of. rewrite bool_decide_true; [done|].
    apply list_elem_of_lookup. exists 31%nat.
    by destruct (proj1 (zget_Some _ _ _) (cw_sorting_nul _ Hc)). }
  ostep. by rewrite (print_rules_ok c _ 0 Hc) by done.
Qed.

(** The names the default rules place in a tier. *)
Definition contains (m s : list Z) : Prop := ∃ t u, s = t ++ m ++ u.
Definition fast_name (s : list Z) : Prop :=
  lit ".so" `suffix_of` s ∨ contains (lit ".so.") s ∨ lit ".bin" `suffix_of` s ∨
  lit ".o" `suffix_of` s ∨ lit ".exe" `suffix_of` s.
Definition slow_name (s : list Z) : Prop :=
  lit ".iso" `suffix_of` s ∨ lit ".tar" `suffix_of` s ∨ contains (lit ".tar.") s ∨
  lit ".zip" `suffix_of` s ∨ lit ".zst" `suffix_of` s ∨ lit ".gz" `suffix_of` s ∨
  lit ".bz2" `suffix_of` s.

Section default_tiers.
Context `{Locale}.

Lemma fnmatch_zero p s : (fnmatch p s =? 0) = pat_match (pat_parse (length p) p) s.
Proof. unfold fnmatch. by destruct (pat_match _ s). Qed.

Lemma first_match_one p t rs filename d :
  first_match ((p, t) :: rs) filename d =
  if pat_match (pat_parse (length p) p) filename then t else first_match rs filename d.
Proof. cbn [first_match]. by rewrite fnmatch_zero. Qed.

(** Rules of one tier act as their disjunction. *)
Lemma first_match_tier ps t rs filename d :
  first_match (((λ p, (p, t)) <$> ps) ++ rs) filename d =
  if existsb (λ p, pat_match (pat_parse (length p) p) filename) ps then t
  else first_match rs filename d.
Proof.
  induction ps as [|p ps IH]; cbn [fmap list_fmap app existsb]; [done|].
  rewrite first_match_one. destruct (pat_match _ filename); [done|]. apply IH.
Qed.

Definition fast_patterns : list (list Z) :=
  lit <$> ["*.so"; "*.so.*"; "*.bin"; "*.o"; "*.exe"].
Definition slow_patterns : list (list Z) :=
  lit <$> ["*.iso"; "*.tar"; "*.tar.*"; "*.zip"; "*.zst"; "*.gz"; "*.bz2"].

(** A pattern of the defaults: a star and a text, or a text between stars. *)
Lemma suffix_pattern cs s : 
  pat_parse (S (length cs)) (42 :: cs) = PStar :: (PChar <$> cs) →
  pat_match (pat_parse (S (length cs)) (42 :: cs)) s = true ↔ cs `suffix_of` s.
Proof. intros ->. apply pat_match_suffix. Qed.

Lemma infix_pattern cs s :
  pat_parse (S (length (cs ++ [42]))) (42 :: cs ++ [42]) = PStar :: (PChar <$> cs) ++ [PStar] →
  pat_match (pat_parse (S (length (cs ++ [42]))) (42 :: cs ++ [42])) s = true ↔ contains cs s.
Proof. intros ->. apply pat_match_infix. Qed.

Lemma fast_patterns_iff s :
  existsb (λ p, pat_match (pat_parse (length p) p) s) fast_patterns = true ↔ fast_name s.
Proof.
  cbn [fast_patterns existsb fmap list_fmap]. rewrite !orb_true_iff. unfold fast_name.
  rewrite (suffix_pattern (lit ".so")) by done. rewrite (infix_pattern (lit ".so.")) by done.
  rewrite (suffix_pattern (lit ".bin")) by done. rewrite (suffix_pattern (lit ".o")) by done.
  rewrite (suffix_pattern (lit ".exe")) by done. intuition done.
Qed.

Lemma slow_patterns_iff s :
  existsb (λ p, pat_match (pat_parse (length p) p) s) slow_patterns = true ↔ slow_name s.
Proof.
  cbn [slow_patterns existsb fmap list_fmap]. rewrite !orb_true_iff. unfold slow_name.
  rewrite (suffix_pattern (lit ".iso")) by done. rewrite (suffix_pattern (lit ".tar")) by done.
  rewrite (infix_pattern (lit ".tar.")) by done. rewrite (suffix_pattern (lit ".zip")) by done.
  rewrite (suffix_pattern (lit ".zst")) by done. rewrite (suffix_pattern (lit ".gz")) by done.
  rewrite (suffix_pattern (lit ".bz2")) by done. intuition done.
Qed.

Lemma default_first_match s :
  first_match default_rules s TIER_NORMAL =
  if existsb (λ p, pat_match (pat_parse (length p) p) s) fast_patterns then TIER_FAST
  else if existsb (λ p, pat_match (pat_parse (length p) p) s) slow_patterns then TIER_SLOW
  else TIER_NORMAL.
Proof.
  change default_rules with (((λ p, (p, TIER_FAST)) <$> fast_patterns) ++
    ((λ p, (p, TIER_SLOW)) <$> slow_patterns) ++ []).
  by rewrite !first_match_tier.
Qed.
End default_tiers.

(** C17: with the defaults, whatever the object held before, a name is FAST
    exactly when it ends in ".so", ".bin", ".o" or ".exe" or contains ".so.",
    else SLOW exactly when it ends in ".iso", ".tar", ".zip", ".zst", ".gz" or
    ".bz2" or contains ".tar.", and NORMAL otherwise; neither filling the
    table nor the search leaves an array. *)
Theorem config_default_tiers `{Locale} c filename :
  cfg_wf c →
  ∃ c' t, config_defaults c = Some c' ∧ config_get_tier c' filename = Some t ∧
    (t = TIER_FAST ↔ fast_name filename) ∧
    (t = TIER_SLOW ↔ ¬ fast_name filename ∧ slow_name filename) ∧
    (t = TIER_NORMAL ↔ ¬ fast_name filename ∧ ¬ slow_name filename).
Proof.
  intros Hc. destruct (config_defaults_ok c Hc) as (c' & -> & Hwf & Hd).
  eexists c', _. split; [done|]. split; [by apply config_get_tier_ok|].
  rewrite (df_rules _ Hd), (df_tier _ Hd), default_first_match.
  rewrite <- fast_patterns_iff, <- slow_patterns_iff.
  destruct (existsb _ fast_patterns), (existsb _ slow_patterns); intuition congruence.
Qed.

#[local] Instance posix_locale : Locale := λ _, None.

Lemma config_default_tiers_witness :
  ∃ c t, config_defaults g_config = Some c ∧
    config_get_tier c (lit "libfoo.so.1") = Some t ∧ t = TIER_FAST.
Proof.
  destruct (config_default_tiers g_config (lit "libfoo.so.1") g_config_wf)
    as (c & t & Hd & Ht & Hf & _).
  exists c, t. split; [exact Hd|]. split; [exact Ht|]. apply Hf.
  right; left. by exists (lit "libfoo"), (lit "1").
Defined.

(** ** Any configuration keeps the invariant *)

(** What the loader relies on: a C string holds no NUL. *)
Class QuickJSOk (Q : QuickJS) : Prop :=
  to_cstring_ok ctx v s ctx' : JS_ToCString ctx v = (Some s, ctx') → cstring s.

Section any_script.
Context `{Q : QuickJS} `{!QuickJSOk Q}.

Lemma parse_tier_items_wf ctx arr t c i n :
  cfg_wf c → ∃ c' ctx', parse_tier_items ctx arr t c i n = Some (c', ctx') ∧
    cfg_wf c' ∧ same_but_rules c c'.
Proof using QuickJSOk0.
  revert ctx c i. induction n as [|n IH]; intros ctx c i Hc; cbn [parse_tier_items].
  { by exists c, ctx. }
  destruct (Z.ltb_spec (cfg_tier_rule_count c) IDKFS_MAX_TIER_RULES) as [Hn|]; [|by exists c, ctx].
  destruct (JS_GetPropertyUint32 ctx arr (u32 i)) as [item ctx1].
  destruct (JS_ToCString ctx1 item) as [[s|] ctx2] eqn:Es.
  - apply to_cstring_ok in Es as Hs. pose proof (cw_count _ Hc). unfold IDKFS_MAX_TIER_RULES in *.
    destruct (append_rule_ok c (cfg_tier_rule_count c) s t Hc ltac:(lia) Hs)
      as (c1 & -> & Hc1 & Hs1 & Hcount & _). do 2 ostep.
    destruct (IH ctx2 (set_cfg_tier_rule_count (cfg_tier_rule_count c1 + 1) c1) (i + 1))
      as (c2 & ctx3 & -> & Hc2 & Hs2); [apply set_count_wf; [done|lia]|].
    exists c2, ctx3. split; [done|]. split; [done|].
    eapply same_but_rules_trans; [exact Hs1|exact Hs2].
  - ostep. by apply IH.
Qed.

Lemma parse_tiers_wf ctx st c tiers :
  cfg_wf c → ∃ c' ctx', parse_tiers ctx st c tiers = Some (c', ctx') ∧
    cfg_wf c' ∧ same_but_rules c c'.
Proof using QuickJSOk0.
  revert ctx c. induction tiers as [|[name t] tiers IH]; intros ctx c Hc; cbn [parse_tiers].
  { by exists c, ctx. }
  destruct (JS_GetPropertyStr ctx st name) as [arr ctx1].
  destruct (JS_IsUndefined arr); [by apply IH|].
  destruct (JS_IsArray ctx1 arr) as [a ctx2]. destruct (a =? 0); [by apply IH|].
  destruct (JS_GetPropertyStr ctx2 arr _) as [len_v ctx3].
  destruct (JS_ToInt32 ctx3 len_v) as [len ctx4].
  destruct (parse_tier_items_wf ctx4 arr t c 0 (Z.to_nat (default 0 len)) Hc)
    as (c1 & ctx5 & -> & Hc1 & Hs1). ostep.
  destruct (IH ctx5 c1 Hc1) as (c2 & ctx6 & -> & Hc2 & Hs2).
  exists c2, ctx6. split; [done|]. split; [done|]. by eapply same_but_rules_trans.
Qed.

Lemma parse_speed_tiers_wf ctx root c :
  cfg_wf c → ∃ c' ctx', parse_speed_tiers ctx root c = Some (c', ctx') ∧
    cfg_wf c' ∧ same_but_rules c c'.
Proof using QuickJSOk0.
  intros Hc. unfold parse_speed_tiers.
  destruct (JS_GetPropertyStr ctx root _) as [st ctx1].
  destruct (js_missing st); [by exists c, ctx1|].
  apply (parse_tiers_wf ctx1 st (set_cfg_tier_rule_count 0 c)).
  apply set_count_wf; [done|lia].
Qed.

Lemma parse_sorting_wf ctx root c :
  cfg_wf c → cfg_wf (parse_sorting ctx root c).1.
Proof using QuickJSOk0.
  intros Hc. unfold parse_sorting, js_get_str.
  destruct (JS_GetPropertyStr ctx root _) as [s ctx1]. destruct (js_missing s); [done|].
  destruct (JS_IsObject s); [|done].
  destruct (JS_GetPropertyStr ctx1 s _) as [v ctx2].
  assert (cfg_wf (set_cfg_sorting (cfg_sorting c) c)) as Hsame by by destruct c.
  destruct (js_missing v); [done|].
  destruct (JS_ToCString ctx2 v) as [[x|] ctx3] eqn:Ex; [|done].
  apply to_cstring_ok in Ex. by apply set_sorting_wf.
Qed.
End any_script.

(** C16: whatever the script does and whatever the object held before, loading
    returns 0 or -1, without leaving an array, with at most 64 rules whose
    patterns are terminated; [loaded] is set only on a return of 0, and a
    load that returns -1 leaves exactly the defaults. *)
Theorem config_load_wf `{Q : QuickJS} `{!QuickJSOk Q} exists_ c path :
  cfg_wf c →
  ∃ c' r, idkfs_config_load exists_ c path = Some (c', r) ∧ cfg_wf c' ∧
    (r = 0 ∨ r = -1) ∧ (cfg_loaded c' = true → r = 0 ∧ exists_ = true) ∧
    (r = -1 ∨ exists_ = false → is_default c').
Proof.
  intros Hc. unfold idkfs_config_load.
  destruct (config_defaults_ok c Hc) as (c1 & -> & Hc1 & Hd). ostep.
  pose proof (df_loaded _ Hd) as Hl.
  destruct exists_; cbn [negb]; [|exists c1, 0; intuition congruence].
  destruct (js_load_file _ path) as [[buf|] ctx]; [|exists c1, (-1); intuition congruence].
  destruct (JS_Eval ctx buf path) as [result ctx1].
  destruct (JS_IsException result); [exists c1, (-1); intuition congruence|].
  destruct (config_object ctx1) as [obj ctx2].
  destruct (JS_IsObject obj); cbn [negb]; [|exists c1, (-1); intuition congruence].
  destruct (parse_disable ctx2 obj (cfg_features c1)) as [f ctx3].
  destruct (parse_speed_tiers_wf ctx3 obj (set_cfg_features f c1)) as (c2 & ctx4 & -> & Hc2 & _);
    [by destruct Hc1|]. ostep.
  pose proof (parse_sorting_wf ctx4 obj c2 Hc2) as Hc3.
  destruct (parse_sorting ctx4 obj c2) as [c3 ctx5]. cbn in Hc3.
  eexists _, 0. split; [done|]. split; [by destruct Hc3|].
  split; [by left|]. split; [done|]. intros [?|?]; congruence.
Qed.

(** ** Configurations of plain data

    An object literal of booleans, strings, arrays and objects, as in
    idkfs.config.js. *)

Inductive js_data :=
| JUndef
| JBool (b : bool)
| JStr (s : list Z)
| JArr (l : list js_data)
| JObj (fs : list (list Z * js_data)).

Fixpoint assoc (k : list Z) (fs : list (list Z * js_data)) : js_data :=
  match fs with
  | [] => JUndef
  | (k', d) :: fs => if bool_decide (k = k') then d else assoc k fs
  end.

Definition field (d : js_data) (k : list Z) : js_data :=
  match d with JObj fs => assoc k fs | _ => JUndef end.

Definition is_undef (d : js_data) : bool := match d with JUndef => true | _ => false end.
Definition is_arr (d : js_data) : bool := match d with JArr _ => true | _ => false end.
Definition is_obj (d : js_data) : bool :=
  match d with JArr _ | JObj _ => true | _ => false end.
Definition truthy (d : js_data) : bool :=
  match d with
  | JUndef => false | JBool b => b | JStr s => negb (bool_decide (s = []))
  | JArr _ | JObj _ => true
  end.










Section plain_data.
Context `{Q : QuickJS} `{D : !QuickJSData Q}.
Implicit Types (ctx : JSContext) (v : JSValue) (d : js_data) (c : IDKFSConfig).










End plain_data.


(** An engine for plain data, whose script defines [config] as in
    idkfs.config.js. *)
Definition strs (l : list string) : js_data := JArr ((λ s, JStr (lit s)) <$> l).

Definition repo_config : js_data := JObj
  [(lit "disable", JObj
     [(lit "journaling", JBool false); (lit "checksums", JBool false);
      (lit "timestamps", JBool false); (lit "compression", JBool true);
      (lit "encryption", JBool true); (lit "dedup", JBool true);
      (lit "prefetch", JBool false); (lit "lua_hooks", JBool false);
      (lit "sorting", JBool false)]);
   (lit "speed_tier", JObj
     [(lit "fast", strs ["*.so"; "*.so.*"; "*.bin"; "*.o"; "*.exe"; "*.dylib"]);
      (lit "normal", strs ["*.c"; "*.rs"; "*.js"; "*.lua"; "*.md"; "*.txt"; "*.json"]);
      (lit "slow", strs ["*.iso"; "*.tar"; "*.tar.*"; "*.zip"; "*.zst"; "*.gz"; "*.bz2";
                         "*.img"])]);
   (lit "sorting", JObj [(lit "algorithm", JStr (lit "btree"))])].

#[local] Instance data_engine : QuickJS := {|
  JSValue := js_data + Z;
  JSContext := unit;
  JS_UNDEFINED := inl JUndef;
  JS_NewContext := tt;
  JS_IsUndefined v := match v with inl d => is_undef d | _ => false end;
  JS_IsException v := false;
  JS_IsObject v := match v with inl d => is_obj d | _ => false end;
  JS_IsArray ctx v := (match v with inl d => Z.b2z (is_arr d) | _ => 0 end, ctx);
  JS_ToBool ctx v := (match v with inl d => Z.b2z (truthy d) | inr n => Z.b2z (negb (n =? 0)) end, ctx);
  JS_GetPropertyStr ctx v k :=
    (match v with
     | inl (JArr l) => if bool_decide (k = lit "length") then inr (Z.of_nat (length l)) else inl JUndef
     | inl d => inl (field d k)
     | inr _ => inl JUndef
     end, ctx);
  JS_GetPropertyUint32 ctx v i :=
    (match v with inl (JArr l) => inl (default JUndef l.[i]) | _ => inl JUndef end, ctx);
  JS_ToCString ctx v :=
    (match v with
     | inl (JStr s) => if bool_decide (cstring s) then Some s else None
     | _ => None
     end, ctx);
  JS_ToInt32 ctx v := (match v with inr n => Some n | _ => None end, ctx);
  js_load_file ctx path := (Some [], ctx);
  JS_Eval ctx buf path := (inl JUndef, ctx);
  JS_GetGlobalObject ctx := (inl (JObj [(lit "config", repo_config)]), ctx);
|}.

#[local] Instance data_engine_ok : QuickJSOk data_engine.
Proof.
  intros ctx v s ctx'. cbn. destruct v as [[| |x| |]|]; try done.
  case_bool_decide as Hx; [|done]. by intros [= <- _].
Qed.


Lemma config_load_wf_witness :
  ∃ c r, idkfs_config_load true g_config (lit "idkfs.config.js") = Some (c, r) ∧ cfg_wf c.
Proof.
  destruct (config_load_wf true g_config (lit "idkfs.config.js") g_config_wf)
    as (c & r & Hl & Hwf & _).
  exists c, r. split; [exact Hl|exact Hwf].
Defined.


