(* ===== verification/Snapper.v ===== *)
(** * The snapshot tool, [idkfs_snapper.c]

    [main] with its commands [create], [list], [delete] and [rollback], over
    a map [files] from the paths of regular files to their contents.  What
    the system decides is in [env]: whether a path can be opened, how much
    each [read] and [write] transfers or whether it fails, whether [stat],
    [mkdir], [unlink] and the allocations succeed.  [calls] numbers the
    [read] and [write] calls.  [None] is undefined behaviour or, in the copy
    loops, that [fuel] iterations are not enough; SnapperSpec.v shows when
    they are.  Messages to stderr are left out, stdout is a result. *)

From S2P Require Import Prelude Cint CString Libc.

Definition MAX_ITEMS : nat := Z.to_nat 4096.
Definition LINE_BUFSIZE : Z := 512.
Definition ENOENT : Z := 2.

Abbreviation files_t := (gmap (list Z) (list Z)).

Record env := mkEnv {
  (** opening for reading or writing succeeds *)
  can_read : list Z → bool;
  can_write : list Z → bool;
  (** the [k]-th call: negative is an error, else the bytes transferred, as
      far as there are that many *)
  read_result : nat → Z;
  write_result : nat → Z;
  (** [stat] of the store: failed, or whether it is a directory *)
  stat_result : option bool;
  (** [mkdir] succeeded or failed with [EEXIST] *)
  mkdir_result : bool;
  (** 0 or the error of [unlink] on a file that exists *)
  unlink_result : Z;
  calloc_ok : bool;
  realloc_ok : bool;
}.

(** ** Paths *)

Definition PATH_SIZE : Z := 4096.

Definition default_store (image : list Z) : option (list Z) :=
  let s := image ++ lit ".snapshots" in
  if PATH_SIZE <=? strlen s then None else Some s.

Definition next_id_path (store : list Z) : list Z :=
  snprintf_buf PATH_SIZE (store ++ lit "/next_id").
Definition list_path (store : list Z) : list Z :=
  snprintf_buf PATH_SIZE (store ++ lit "/list.txt").
Definition snap_path (store : list Z) (id : Z) : list Z :=
  snprintf_buf PATH_SIZE (store ++ lit "/" ++ print_04d id ++ lit ".img").

Definition ensure_dir (e : env) : bool :=
  match stat_result e with
  | Some is_dir => is_dir
  | None => mkdir_result e
  end.

(** ** Files *)

(** [fopen(path, "r")]: the contents, [None] is NULL. *)
Definition fopen_r (e : env) (files : files_t) (path : list Z) : option (list Z) :=
  if can_read e path then files !! path else None.

(** [fopen(path, "w")], the output and [fclose]. *)
Definition write_file (e : env) (files : files_t) (path contents : list Z) : files_t :=
  if can_write e path then <[path := contents]> files else files.

Definition read_next_id (e : env) (files : files_t) (store : list Z) : Z :=
  match fopen_r e files (next_id_path store) with
  | None => 1
  | Some s => default 1 (scan_int s)
  end.

Definition write_next_id (e : env) (files : files_t) (store : list Z) (id : Z) : files_t :=
  write_file e files (next_id_path store) (print_d id ++ [10]).

(** ** Metadata *)

Record SnapshotMeta := mkMeta {
  sm_id : Z;
  sm_timestamp : list Z;
  sm_desc : list Z;
}.

(** Sizes of [timestamp] and [desc]. *)
Definition TIMESTAMP_SIZE : nat := 32.
Definition DESC_SIZE : nat := 256.

(** The body of the loop of [load_metadata] on the line in the buffer; the
    array it fills is zeroed by [calloc]. *)
Definition parse_line (line : list Z) : option SnapshotMeta :=
  let line := match strchr line 10 with Some (pre, _) => pre | None => line end in
  match strchr line 124 with
  | None => None
  | Some (id, rest) =>
      match strchr rest 124 with
      | None => None
      | Some (timestamp, desc) =>
          Some (mkMeta (atoi id)
                  (strncpy (replicate TIMESTAMP_SIZE 0) timestamp (TIMESTAMP_SIZE - 1))
                  (strncpy (replicate DESC_SIZE 0) desc (DESC_SIZE - 1)))
      end
  end.

(** The [while (fgets(...))] loop with [cnt] items stored; [n] is at least
    the length of the stream. *)
Fixpoint load_lines (n : nat) (s : list Z) (cnt : nat) : list SnapshotMeta :=
  match n, s with
  | S n, _ :: _ =>
      let '(line, rest) := fgets_take (Z.to_nat (LINE_BUFSIZE - 1)) s in
      if bool_decide (MAX_ITEMS ≤ cnt)%nat then []
      else
        match parse_line (c_str line) with
        | Some m => m :: load_lines n rest (S cnt)
        | None => load_lines n rest cnt
        end
  | _, _ => []
  end.

Definition load_metadata (e : env) (files : files_t) (store : list Z) : list SnapshotMeta :=
  match fopen_r e files (list_path store) with
  | None => []
  | Some s => if calloc_ok e then load_lines (length s) s 0 else []
  end.

(** [fprintf(f, "%d|%s|%s\n", ...)] *)
Definition print_meta (m : SnapshotMeta) : option (list Z) :=
  timestamp ← cstr_of (sm_timestamp m);
  desc ← cstr_of (sm_desc m);
  Some (print_d (sm_id m) ++ [124] ++ timestamp ++ [124] ++ desc ++ [10]).

Fixpoint print_items (items : list SnapshotMeta) : option (list Z) :=
  match items with
  | [] => Some []
  | m :: items => l ← print_meta m; ls ← print_items items; Some (l ++ ls)
  end.

Definition save_metadata (e : env) (files : files_t) (store : list Z)
    (items : list SnapshotMeta) : option files_t :=
  if can_write e (list_path store) then
    s ← print_items items;
    Some (<[list_path store := s]> files)
  else Some files.

(** ** Copying *)

Definition COPY_BUF : nat := Z.to_nat 65536.

(** [write(outfd, buf + written, n - written)] at the end of [dst]: the
    result and the file. *)
Definition sys_write (e : env) (files : files_t) (calls : nat) (dst buf : list Z) :
    Z * files_t :=
  let w := write_result e calls in
  if w <? 0 then (-1, files)
  else
    let n := Nat.min (Z.to_nat w) (length buf) in
    (Z.of_nat n, <[dst := default [] (files !! dst) ++ take n buf]> files).

(** [read(infd, buf, sizeof(buf))] at offset [off] of [src]: [None] is an
    error. *)
Definition sys_read (e : env) (files : files_t) (calls : nat) (src : list Z) (off : nat) :
    option (list Z) :=
  let r := read_result e calls in
  if r <? 0 then None
  else
    Some (take (Nat.max 1 (Nat.min (Z.to_nat r) COPY_BUF))
            (drop off (default [] (files !! src)))).

(** The [while (written < n)] loop, on the part of the buffer not yet
    written. *)
Fixpoint copy_write (e : env) (fuel : nat) (files : files_t) (calls : nat) (dst buf : list Z) :
    option (files_t * nat * bool) :=
  match fuel with
  | O => None
  | S fuel =>
      match buf with
      | [] => Some (files, calls, true)
      | _ =>
          let '(w, files) := sys_write e files calls dst buf in
          if w <? 0 then Some (files, S calls, false)
          else copy_write e fuel files (S calls) dst (drop (Z.to_nat w) buf)
      end
  end.

(** The [while ((n = read(...)) > 0)] loop from offset [off]. *)
Fixpoint copy_loop (e : env) (fuel : nat) (files : files_t) (calls : nat) (src dst : list Z)
    (off : nat) : option (files_t * nat * bool) :=
  match fuel with
  | O => None
  | S fuel =>
      match sys_read e files calls src off with
      | None => Some (files, S calls, false)
      | Some [] => Some (files, S calls, true)
      | Some buf =>
          '(files, calls, ok) ← copy_write e (S fuel) files (S calls) dst buf;
          if ok : bool then copy_loop e fuel files calls src dst (off + length buf)
          else Some (files, calls, false)
      end
  end.

Definition copy_file (e : env) (fuel : nat) (files : files_t) (src dst : list Z) :
    option (files_t * bool) :=
  match fopen_r e files src with
  | None => Some (files, false)
  | Some _ =>
      if can_write e dst then
        '(files, _, ok) ← copy_loop e fuel (<[dst := []]> files) 0 src dst 0;
        Some (files, ok)
      else Some (files, false)
  end.

(** ** Arguments *)

Record opts := mkOpts {
  o_image : option (list Z);
  o_store : option (list Z);
  o_cmd : option (list Z);
  o_desc : option (list Z);
  o_id : Z;
}.
Definition opts0 : opts := mkOpts None None None None (-1).
Definition set_o_image (v : list Z) (o : opts) : opts :=
  mkOpts (Some v) (o_store o) (o_cmd o) (o_desc o) (o_id o).
Definition set_o_store (v : list Z) (o : opts) : opts :=
  mkOpts (o_image o) (Some v) (o_cmd o) (o_desc o) (o_id o).
Definition set_o_cmd (v : list Z) (o : opts) : opts :=
  mkOpts (o_image o) (o_store o) (Some v) (o_desc o) (o_id o).
Definition set_o_desc (v : list Z) (o : opts) : opts :=
  mkOpts (o_image o) (o_store o) (o_cmd o) (Some v) (o_id o).
Definition set_o_id (v : Z) (o : opts) : opts :=
  mkOpts (o_image o) (o_store o) (o_cmd o) (o_desc o) v.

(** [strcmp(a, b) == 0] *)
Definition str_eq (a b : list Z) : bool := bool_decide (a = b).

(** The loop over [argv] from the argument at hand. *)
Fixpoint parse_args (o : opts) (args : list (list Z)) : opts :=
  match args with
  | [] => o
  | a :: rest =>
      match rest with
      | v :: rest' =>
          if str_eq a (lit "--image") then parse_args (set_o_image v o) rest'
          else if str_eq a (lit "--store") then parse_args (set_o_store v o) rest'
          else
            match o_cmd o with
            | Some _ => parse_args o rest
            | None =>
                let o := set_o_cmd a o in
                if str_eq a (lit "create") then parse_args (set_o_desc v o) rest'
                else if str_eq a (lit "delete") || str_eq a (lit "rollback")
                then parse_args (set_o_id (atoi v) o) rest'
                else parse_args o rest
            end
      | [] => match o_cmd o with Some _ => o | None => set_o_cmd a o end
      end
  end.

(** ** Commands: the files, the exit status and the output *)

Abbreviation result_t := (option (files_t * Z * list Z)).

(** [timestamp] is the text [strftime] makes. *)
Definition new_meta (id : Z) (timestamp desc : list Z) : SnapshotMeta :=
  mkMeta id (timestamp ++ replicate (TIMESTAMP_SIZE - length timestamp) 0)
    (strncpy (replicate DESC_SIZE 0) desc (DESC_SIZE - 1)).

Definition INT_MAX : Z := 2147483647.

Definition cmd_create (e : env) (fuel : nat) (files : files_t)
    (image store timestamp : list Z) (desc : option (list Z)) : result_t :=
  let next_id := read_next_id e files store in
  '(files, ok) ← copy_file e fuel files image (snap_path store next_id);
  if negb ok then Some (files, 1, [])
  else
    let items := load_metadata e files store in
    let meta := new_meta next_id timestamp (default [] desc) in
    if negb (realloc_ok e) then Some (files, 1, [])
    else
      files ← save_metadata e files store (items ++ [meta]);
      if next_id =? INT_MAX then None
      else
        let files := write_next_id e files store (next_id + 1) in
        d ← cstr_of (sm_desc meta);
        Some (files, 0,
          lit "created snapshot " ++ print_04d next_id ++ lit " (" ++ d ++ lit ")" ++ [10]).

(** [printf("%04d  %s  %s\n", ...)] *)
Definition list_line (m : SnapshotMeta) : option (list Z) :=
  timestamp ← cstr_of (sm_timestamp m);
  desc ← cstr_of (sm_desc m);
  Some (print_04d (sm_id m) ++ lit "  " ++ timestamp ++ lit "  " ++ desc ++ [10]).

Fixpoint list_lines (items : list SnapshotMeta) : option (list Z) :=
  match items with
  | [] => Some []
  | m :: items => l ← list_line m; ls ← list_lines items; Some (l ++ ls)
  end.

Definition cmd_list (files : files_t) (items : list SnapshotMeta) : result_t :=
  if bool_decide (items = []) then Some (files, 0, lit "no snapshots" ++ [10])
  else out ← list_lines items; Some (files, 0, out).

(** The index of the first item with the id; [None] is [SIZE_MAX]. *)
Fixpoint find_id (id : Z) (items : list SnapshotMeta) : option nat :=
  match items with
  | [] => None
  | m :: items => if sm_id m =? id then Some 0%nat else S <$> find_id id items
  end.

Definition cmd_delete (e : env) (files : files_t) (store : list Z)
    (items : list SnapshotMeta) (idx : nat) (id : Z) : result_t :=
  let snapfile := snap_path store id in
  let err := if bool_decide (files !! snapfile = None) then ENOENT else unlink_result e in
  let files := if err =? 0 then delete snapfile files else files in
  if negb (err =? 0) && negb (err =? ENOENT) then Some (files, 1, [])
  else
    files ← save_metadata e files store (delete idx items);
    Some (files, 0, lit "deleted snapshot " ++ print_04d id ++ [10]).

Definition cmd_rollback (e : env) (fuel : nat) (files : files_t) (image store : list Z)
    (id : Z) : result_t :=
  '(files, ok) ← copy_file e fuel files (snap_path store id) image;
  if negb ok then Some (files, 1, [])
  else Some (files, 0, lit "rolled back image to snapshot " ++ print_04d id ++ [10]).

(** [args] is [argv] without the name of the program. *)
Definition snapper_main (e : env) (fuel : nat) (timestamp : list Z)
    (args : list (list Z)) (files : files_t) : result_t :=
  if (length args <? 2)%nat then Some (files, 1, [])
  else
    let o := parse_args opts0 args in
    match o_image o, o_cmd o with
    | Some image, Some cmd =>
        match (match o_store o with Some s => Some s | None => default_store image end) with
        | None => Some (files, 1, [])
        | Some store =>
            let store := snprintf_buf PATH_SIZE store in
            if negb (ensure_dir e) then Some (files, 1, [])
            else if str_eq cmd (lit "create") then
              cmd_create e fuel files image store timestamp (o_desc o)
            else
              let items := load_metadata e files store in
              if str_eq cmd (lit "list") then cmd_list files items
              else if o_id o <? 0 then Some (files, 1, [])
              else
                match find_id (o_id o) items with
                | None => Some (files, 1, [])
                | Some idx =>
                    if str_eq cmd (lit "delete") then
                      cmd_delete e files store items idx (o_id o)
                    else if str_eq cmd (lit "rollback") then
                      cmd_rollback e fuel files image store (o_id o)
                    else Some (files, 1, [])
                end
        end
    | _, _ => Some (files, 1, [])
    end.
