(* ===== verification/SnapperSpec.v ===== *)
(** * What the snapshot tool promises

    Copying a file terminates and copies it, the list of snapshots survives
    being written and read, a snapshot taken can be rolled back to, and the
    identifiers of snapshots stay distinct. *)

From S2P Require Import Prelude Cint CString Libc Snapper.

(** ** Copying *)

(** A [write] of a regular file transfers something or fails. *)
Definition writes_progress (e : env) : Prop := ∀ k, write_result e k ≠ 0.
(** No [read] or [write] fails. *)
Definition no_io_error (e : env) : Prop :=
  ∀ k, 0 ≤ read_result e k ∧ 0 ≤ write_result e k.

Section copy.
Context (e : env) (Hp : writes_progress e).
Implicit Types (files : files_t) (src dst buf c p : list Z).

Lemma copy_write_ok fuel files calls dst buf old :
  files !! dst = Some old → (length buf < fuel)%nat →
  ∃ p calls' ok, copy_write e fuel files calls dst buf =
      Some (<[dst := old ++ p]> files, calls', ok) ∧
    p `prefix_of` buf ∧ (ok = true → p = buf) ∧ (no_io_error e → ok = true).
Proof using Hp.
  revert files calls buf old.
  induction fuel as [|fuel IH]; intros files calls buf old Hd Hf; [lia|].
  cbn [copy_write]. destruct buf as [|b buf].
  { exists [], calls, true. rewrite app_nil_r, insert_id by done. by split_and!. }
  unfold sys_write. pose proof (Hp calls) as Hw.
  destruct (Z.ltb_spec (write_result e calls) 0) as [Hneg|Hpos].
  { exists [], (S calls), false. rewrite app_nil_r, insert_id by done.
    split; [done|]. split; [apply prefix_nil|]. split; [done|].
    intros Hio. destruct (Hio calls). lia. }
  rewrite Hd. cbn [default id]. set (n := Nat.min _ _).
  destruct (Z.ltb_spec (Z.of_nat n) 0); [lia|]. rewrite Nat2Z.id.
  assert (0 < n)%nat as Hn by (unfold n; cbn [length]; lia).
  destruct (IH (<[dst := old ++ take n (b :: buf)]> files) (S calls) (drop n (b :: buf))
    (old ++ take n (b :: buf))) as (p & calls' & ok & -> & [t Ht] & Hall & Hio).
  { by rewrite lookup_insert_eq. }
  { rewrite length_drop. cbn [length] in *. lia. }
  exists (take n (b :: buf) ++ p), calls', ok. rewrite insert_insert_eq, <- app_assoc.
  split; [done|]. split; [|split; [|done]].
  - exists t. by rewrite <- app_assoc, <- Ht, take_drop.
  - intros Hok. by rewrite (Hall Hok), take_drop.
Qed.

Lemma sys_read_chunk files calls src off c buf :
  files !! src = Some c → sys_read e files calls src off = Some buf →
  buf `prefix_of` drop off c ∧ (buf = [] → (length c ≤ off)%nat).
Proof using.
  intros Hs. unfold sys_read. destruct (read_result e calls <? 0); [done|].
  rewrite Hs. cbn [default id]. set (n := Nat.max _ _). intros [= <-]. split.
  - exists (drop n (drop off c)). by rewrite take_drop.
  - intros H. apply (f_equal length) in H. rewrite length_take, length_drop in H.
    cbn [length] in H. lia.
Qed.

Lemma copy_loop_ok fuel files calls src dst c off :
  files !! src = Some c → files !! dst = Some (take off c) → src ≠ dst →
  (off ≤ length c)%nat → (length c - off < fuel)%nat →
  ∃ p calls' ok, copy_loop e fuel files calls src dst off =
      Some (<[dst := p]> files, calls', ok) ∧
    p `prefix_of` c ∧ (ok = true → p = c) ∧ (no_io_error e → ok = true).
Proof using Hp.
  revert files calls off. induction fuel as [|fuel IH]; intros files calls off Hs Hd Hne Ho Hf; [lia|].
  cbn [copy_loop]. destruct (sys_read e files calls src off) as [buf|] eqn:Er.
  2: { exists (take off c), (S calls), false. rewrite insert_id by done.
    split; [done|]. split; [apply prefix_take|]. split; [done|].
    intros Hio. destruct (Hio calls) as [Hr _]. unfold sys_read in Er.
    destruct (Z.ltb_spec (read_result e calls) 0); [lia|done]. }
  destruct (sys_read_chunk files calls src off c buf Hs Er) as [[t Ht] Hend].
  destruct buf as [|b buf].
  { specialize (Hend eq_refl). exists c, (S calls), true.
    rewrite take_ge in Hd by lia. rewrite insert_id by done. by split_and!. }
  set (chunk := b :: buf) in *. apply (f_equal length) in Ht as Hlen.
  rewrite length_drop, length_app in Hlen.
  destruct (copy_write_ok (S fuel) files (S calls) dst chunk (take off c) Hd)
    as (p & calls' & ok & -> & [u Hu] & Hall & Hio); [lia|]. ostep.
  assert (take off c ++ chunk ++ t = c) as Hc by (by rewrite <- Ht, take_drop).
  destruct ok.
  - rewrite (Hall eq_refl) in *. clear Hall p u Hu.
    assert (take (off + length chunk) c = take off c ++ chunk) as Htake.
    { rewrite <- Hc at 1. rewrite app_assoc. apply take_app_length'.
      rewrite length_app, length_take. lia. }
    destruct (IH (<[dst := take off c ++ chunk]> files) calls' (off + length chunk)%nat)
      as (q & calls'' & ok' & -> & Hq & Hall & Hio').
    + by rewrite lookup_insert_ne.
    + by rewrite lookup_insert_eq, Htake.
    + done.
    + lia.
    + unfold chunk in *. cbn [length] in *. lia.
    + exists q, calls'', ok'. by rewrite insert_insert_eq.
  - exists (take off c ++ p), calls', false. split; [done|].
    split; [|split; [done|by intros Hno%Hio]].
    exists (u ++ t). rewrite <- Hc at 1. rewrite Hu. by rewrite <- !app_assoc.
Qed.
End copy.

Lemma fopen_r_lookup e files path c : fopen_r e files path = Some c → files !! path = Some c.
Proof. unfold fopen_r. by destruct (can_read e path). Qed.

Lemma copy_file_ok e fuel files src dst c :
  writes_progress e → src ≠ dst → files !! src = Some c → (length c < fuel)%nat →
  ∃ files' ok, copy_file e fuel files src dst = Some (files', ok) ∧
    (ok = true → files' = <[dst := c]> files) ∧
    (ok = false → files' = files ∨ ∃ p, p `prefix_of` c ∧ files' = <[dst := p]> files) ∧
    (can_read e src = true → can_write e dst = true → no_io_error e → ok = true).
Proof.
  intros Hp Hne Hs Hf. unfold copy_file, fopen_r. rewrite Hs.
  destruct (can_read e src); [|exists files, false; intuition congruence].
  destruct (can_write e dst); [|exists files, false; intuition congruence].
  destruct (copy_loop_ok e Hp fuel (<[dst := []]> files) 0 src dst c 0)
    as (p & calls & ok & -> & Hpre & Hall & Hio).
  - by rewrite lookup_insert_ne.
  - by rewrite lookup_insert_eq, take_0.
  - done.
  - lia.
  - lia.
  - ostep. rewrite insert_insert_eq. exists (<[dst := p]> files), ok.
    split; [done|]. split; [by intros ->%Hall|]. split; [|by auto].
    intros _. right. by exists p.
Qed.

(** C19: copying terminates within one iteration per byte of the source and
    one more, and never touches another file: a successful copy leaves the
    destination equal to the source; a copy that fails leaves the files as
    they were, or the destination a prefix of the source, its old contents
    gone.  When both files can be opened and no call fails it succeeds. *)
Theorem copy_file_total e fuel files src dst c :
  writes_progress e → src ≠ dst → files !! src = Some c → (length c < fuel)%nat →
  ∃ files' ok, copy_file e fuel files src dst = Some (files', ok) ∧
    (ok = true → files' = <[dst := c]> files) ∧
    (ok = false → files' = files ∨ ∃ p, p `prefix_of` c ∧ files' = <[dst := p]> files) ∧
    (can_read e src = true → can_write e dst = true → no_io_error e → ok = true).
Proof. apply copy_file_ok. Qed.

(** Everything works, one byte at a time. *)
Definition slow_env : env :=
  mkEnv (λ _, true) (λ _, true) (λ _, 3) (λ _, 1) (Some true) true 0 true true.

Lemma copy_file_total_witness :
  ∃ files, copy_file slow_env 6 {[ lit "a" := [1; 2; 3; 4; 5] ]} (lit "a") (lit "b") =
      Some (files, true) ∧ files !! lit "b" = Some [1; 2; 3; 4; 5].
Proof.
  destruct (copy_file_total slow_env 6 {[ lit "a" := [1; 2; 3; 4; 5] ]} (lit "a") (lit "b")
    [1; 2; 3; 4; 5]) as (files & ok & Hc & Hok & _ & Hio).
  - done.
  - done.
  - apply lookup_singleton_eq.
  - cbn. lia.
  - specialize (Hio eq_refl eq_refl ltac:(done)). subst ok. exists files.
    split; [exact Hc|]. rewrite (Hok eq_refl). apply lookup_insert_eq.
Defined.

(** ** The list of snapshots *)

(** A field of [n] bytes that holds a string. *)
Definition pad (n : nat) (s : list Z) : list Z := s ++ replicate (n - length s) 0.

Lemma strncpy_zeros n s :
  strncpy (replicate (S n) 0) s n = pad (S n) (take n s).
Proof.
  unfold strncpy, strncpy_bytes, pad. rewrite take_app, drop_replicate, <- app_assoc.
  f_equal. rewrite take_replicate, <- replicate_add. f_equal. len.
Qed.

Lemma cstr_of_pad n s : cstring s → (length s < n)%nat → cstr_of (pad n s) = Some s.
Proof.
  intros Hs Hn. unfold pad. replace (n - length s)%nat with (S (n - length s - 1)) by lia.
  by apply cstr_of_app.
Qed.

(** An item as the tool makes it: texts that fit their fields, on one line,
    and no bar in the time. *)
Record meta_ok (m : SnapshotMeta) (timestamp desc : list Z) : Prop := {
  mo_id : - 2147483648 ≤ sm_id m < 2147483648;
  mo_timestamp : sm_timestamp m = pad TIMESTAMP_SIZE timestamp;
  mo_desc : sm_desc m = pad DESC_SIZE desc;
  mo_cstring : cstring timestamp ∧ cstring desc;
  mo_length : (length timestamp < TIMESTAMP_SIZE)%nat ∧ (length desc < DESC_SIZE)%nat;
  mo_line : (10 ∉ timestamp) ∧ (10 ∉ desc);
  mo_bar : 124 ∉ timestamp;
}.
Definition item_ok (m : SnapshotMeta) : Prop := ∃ timestamp desc, meta_ok m timestamp desc.

(** The line of an item, without its newline. *)
Definition meta_line (m : SnapshotMeta) (timestamp desc : list Z) : list Z :=
  print_d (sm_id m) ++ 124 :: timestamp ++ 124 :: desc.

Section line.
Context (m : SnapshotMeta) (timestamp desc : list Z) (Hm : meta_ok m timestamp desc).

Lemma print_meta_line : print_meta m = Some (meta_line m timestamp desc ++ [10]).
Proof using Hm.
  unfold print_meta, meta_line. destruct Hm as [_ -> -> [] [] _ _].
  rewrite !cstr_of_pad by done. cbn [mbind option_bind]. f_equal.
  rewrite <- !app_assoc. cbn. by rewrite <- !app_assoc.
Qed.

Lemma print_d_notin c : c = 10 ∨ c = 124 → c ∉ print_d (sm_id m).
Proof using. intros Hc H%print_d_chars. lia. Qed.

Lemma meta_line_newline : 10 ∉ meta_line m timestamp desc.
Proof using Hm.
  unfold meta_line. destruct Hm as [_ _ _ _ _ [] _].
  rewrite not_elem_of_app, not_elem_of_cons, not_elem_of_app, not_elem_of_cons.
  pose proof (print_d_notin 10 (or_introl eq_refl)). by split_and!.
Qed.

Lemma meta_line_cstring : cstring (meta_line m timestamp desc ++ [10]).
Proof using Hm.
  destruct Hm as [_ _ _ [Ht Hd] _ _ _]. unfold meta_line.
  assert (cstring (print_d (sm_id m))) as Hp.
  { apply Forall_forall. intros c Hc%print_d_chars. lia. }
  repeat first [apply Forall_app; split | apply Forall_cons; split]; try done; lia.
Qed.

Lemma meta_line_length : (length (meta_line m timestamp desc) < 511)%nat.
Proof using Hm.
  destruct Hm as [_ _ _ _ [Ht Hd] _ _]. unfold meta_line, TIMESTAMP_SIZE, DESC_SIZE in *.
  pose proof (print_d_length (sm_id m)). len.
Qed.

Lemma parse_meta_line : parse_line (meta_line m timestamp desc ++ [10]) = Some m.
Proof using Hm.
  pose proof meta_line_newline as Hnl. destruct Hm as [Hid Ht Hd [Hct Hcd] [Hlt Hld] _ Hbar].
  unfold parse_line. rewrite strchr_app by done. unfold meta_line.
  rewrite strchr_app by (apply print_d_notin; by right). rewrite strchr_app by done.
  rewrite <- (app_nil_r (print_d _)), atoi_print_d by done.
  change TIMESTAMP_SIZE with (S 31) in *. change DESC_SIZE with (S 255) in *.
  replace (S 31 - 1)%nat with 31%nat by lia. replace (S 255 - 1)%nat with 255%nat by lia.
  rewrite !strncpy_zeros, !take_ge by lia.
  rewrite <- Ht, <- Hd. by destruct m.
Qed.
End line.

Lemma load_lines_print items s n cnt :
  Forall item_ok items → print_items items = Some s → (length s ≤ n)%nat →
  load_lines n s cnt = take (MAX_ITEMS - cnt) items.
Proof.
  intros Hok. revert s n cnt. induction Hok as [|m items (t & d & Hm) _ IH]; intros s n cnt Hp Hn.
  - injection Hp as <-. by destruct n; rewrite take_nil.
  - cbn [print_items] in Hp. rewrite (print_meta_line m t d Hm) in Hp.
    apply bind_Some in Hp as (l & [= <-] & Hp). apply bind_Some in Hp as (s' & Hs' & [= <-]).
    pose proof (meta_line_length m t d Hm) as Hlen. rewrite !length_app in Hn.
    cbn [length] in Hn. destruct n as [|n]; [lia|].
    destruct ((meta_line m t d ++ [10]) ++ s') as [|x y] eqn:E;
      [by apply app_eq_nil in E as [E%app_eq_nil _]; destruct E|].
    cbn [load_lines]. rewrite <- E. rewrite <- app_assoc. change ([10] ++ s') with (10 :: s').
    change (Z.to_nat (LINE_BUFSIZE - 1)) with 511%nat.
    rewrite fgets_line; [|by eapply meta_line_newline|done].
    case_bool_decide as Hmax; [by replace (MAX_ITEMS - cnt)%nat with 0%nat by lia|].
    replace (c_str (meta_line m t d ++ [10])) with (meta_line m t d ++ [10]).
    2: { symmetry. by eapply c_str_cstring, meta_line_cstring. }
    rewrite (parse_meta_line m t d Hm), (IH s' n (S cnt) Hs') by lia.
    by replace (MAX_ITEMS - cnt)%nat with (S (MAX_ITEMS - S cnt)) by lia.
Qed.

(** C20: the list of snapshots survives being written and read back, for
    texts that fit their fields and hold no newline and times that hold no
    bar, up to the 4096 items the tool reads: what is beyond is lost. *)
Theorem metadata_roundtrip e files store items files' :
  Forall item_ok items → can_write e (list_path store) = true →
  can_read e (list_path store) = true → calloc_ok e = true →
  save_metadata e files store items = Some files' →
  load_metadata e files' store = take MAX_ITEMS items.
Proof.
  intros Hok Hw Hr Hc. unfold save_metadata, load_metadata, fopen_r. rewrite Hw, Hr, Hc.
  intros (s & Hs & [= <-])%bind_Some. rewrite lookup_insert_eq.
  rewrite (load_lines_print items s _ 0 Hok Hs) by done. by rewrite Nat.sub_0_r.
Qed.

(** ** Paths in the store *)

Definition short_store (store : list Z) : Prop := (length store ≤ 4000)%nat.

Lemma snprintf_fits store s :
  short_store store → (length s ≤ 32)%nat → snprintf_buf PATH_SIZE (store ++ s) = store ++ s.
Proof. intros Hst Hs. unfold snprintf_buf, PATH_SIZE, short_store in *. apply take_ge. len. Qed.

Lemma scan_print_04d id : 0 ≤ id < 10000000000 → scan_dec (print_04d id) 0 = id.
Proof.
  intros Hid. unfold print_04d. destruct (Z.ltb_spec id 0); [lia|]. cbn [app].
  rewrite Z.abs_eq by lia. set (k := (_ - _ - _)%nat).
  assert (scan_dec (replicate k 48) 0 = 0) as Hz by by induction k.
  rewrite scan_dec_app by by apply Forall_replicate. rewrite Hz.
  by apply (scan_dec_digits 10).
Qed.

Lemma print_04d_length id : (length (print_04d id) ≤ 12)%nat.
Proof.
  unfold print_04d, print_u. pose proof (dec_digits_length 10 (Z.abs id)).
  destruct (id <? 0); len.
Qed.

Lemma print_04d_hd id s : 0 ≤ id → isdigit (List.hd 0 (print_04d id ++ s)) = true.
Proof.
  intros Hid. unfold print_04d. destruct (Z.ltb_spec id 0); [lia|]. cbn [app].
  set (k := (_ - _ - _)%nat). rewrite <- app_assoc. destruct k; [apply print_u_hd|done].
Qed.

Section paths.
Context (store : list Z) (Hst : short_store store).

Lemma next_id_path_eq : next_id_path store = store ++ lit "/next_id".
Proof using Hst. apply snprintf_fits; [done|by vm_compute; lia]. Qed.
Lemma list_path_eq : list_path store = store ++ lit "/list.txt".
Proof using Hst. apply snprintf_fits; [done|by vm_compute; lia]. Qed.
Lemma snap_path_eq id : snap_path store id = store ++ lit "/" ++ print_04d id ++ lit ".img".
Proof using Hst.
  apply snprintf_fits; [done|]. pose proof (print_04d_length id).
  rewrite !length_app. change (length (lit "/")) with 1%nat.
  change (length (lit ".img")) with 4%nat. lia.
Qed.

Lemma list_next_ne : list_path store ≠ next_id_path store.
Proof using Hst. rewrite list_path_eq, next_id_path_eq. by intros H%app_inv_head. Qed.

Lemma snap_path_ne id c s :
  0 ≤ id → isdigit c = false → snap_path store id ≠ store ++ 47 :: c :: s.
Proof using Hst.
  rewrite snap_path_eq. intros Hid Hc H%app_inv_head. injection H as H.
  pose proof (print_04d_hd id (lit ".img") Hid) as Hd. rewrite H in Hd. cbn in Hd. congruence.
Qed.

Lemma snap_list_ne id : 0 ≤ id → snap_path store id ≠ list_path store.
Proof using Hst. intros. rewrite list_path_eq. by apply (snap_path_ne id 108). Qed.
Lemma snap_next_ne id : 0 ≤ id → snap_path store id ≠ next_id_path store.
Proof using Hst. intros. rewrite next_id_path_eq. by apply (snap_path_ne id 110). Qed.

Lemma snap_path_inj id id' :
  0 ≤ id < 10000000000 → 0 ≤ id' < 10000000000 →
  snap_path store id = snap_path store id' → id = id'.
Proof using Hst.
  intros Hid Hid'. rewrite !snap_path_eq. intros H%app_inv_head%app_inv_head%app_inv_tail.
  rewrite <- (scan_print_04d id), <- (scan_print_04d id') by done. by rewrite H.
Qed.

(** A path that is not in the store. *)
Definition outside (path : list Z) : Prop := ¬ (store ++ lit "/") `prefix_of` path.

Lemma outside_list path : outside path → path ≠ list_path store.
Proof using Hst.
  intros Ho ->. apply Ho. rewrite list_path_eq. exists (lit "list.txt"). by rewrite <- app_assoc.
Qed.
Lemma outside_next path : outside path → path ≠ next_id_path store.
Proof using Hst.
  intros Ho ->. apply Ho. rewrite next_id_path_eq. exists (lit "next_id"). by rewrite <- app_assoc.
Qed.
Lemma outside_snap path id : outside path → path ≠ snap_path store id.
Proof using Hst.
  intros Ho ->. apply Ho. rewrite snap_path_eq. exists (print_04d id ++ lit ".img").
  by rewrite <- app_assoc.
Qed.
End paths.

(** An item as [create] makes it. *)
Definition demo_item (id : Z) : SnapshotMeta :=
  new_meta id (lit "2024-01-02 03:04:05") (lit "before | upgrade").

Lemma demo_item_ok id : - 2147483648 ≤ id < 2147483648 → item_ok (demo_item id).
Proof.
  intros Hid. exists (lit "2024-01-02 03:04:05"), (lit "before | upgrade").
  split; try done.
  - split; repeat constructor.
  - by vm_compute; lia.
  - split; by apply (bool_decide_unpack _).
  - by apply (bool_decide_unpack _).
Qed.

Lemma metadata_roundtrip_witness :
  ∃ files, save_metadata slow_env ∅ (lit "s") [demo_item 7; demo_item (-3)] = Some files ∧
    load_metadata slow_env files (lit "s") = [demo_item 7; demo_item (-3)].
Proof.
  eexists. split; [reflexivity|].
  rewrite (metadata_roundtrip slow_env ∅ (lit "s") [demo_item 7; demo_item (-3)]).
  - reflexivity.
  - repeat constructor; apply demo_item_ok; lia.
  - reflexivity.
  - reflexivity.
  - reflexivity.
  - reflexivity.
Defined.
