(* ===== verification/SnapStore.v ===== *)
(** * The snapshot tool refines a store of snapshots

    The abstract state is a list of snapshots with their images, the next
    identifier and the live image; [snap_step] is what each command does to
    it and [outcome] what a run of [main] does: the step and its output, or a
    failure that leaves the store as it was. *)

From S2P Require Import Prelude Cint CString Libc Snapper SnapperSpec.

Record asnap := mkSnap {
  as_id : Z;
  as_time : list Z;
  as_desc : list Z;
  as_image : list Z;
}.
Record astore := mkStore {
  a_snaps : list asnap;
  a_next : Z;
}.

Inductive snap_cmd :=
| SCreate (time desc : list Z)
| SList
| SDelete (id : Z)
| SRollback (id : Z).

Fixpoint asnap_find (id : Z) (l : list asnap) : option asnap :=
  match l with
  | [] => None
  | s :: l => if as_id s =? id then Some s else asnap_find id l
  end.
Fixpoint asnap_remove (id : Z) (l : list asnap) : list asnap :=
  match l with
  | [] => []
  | s :: l => if as_id s =? id then l else s :: asnap_remove id l
  end.

(** The store, the live image and the exit status after a command. *)
Definition snap_step (c : snap_cmd) (a : astore) (image : list Z) :
    astore * list Z * Z :=
  match c with
  | SCreate time desc =>
      (mkStore (a_snaps a ++ [mkSnap (a_next a) time desc image]) (a_next a + 1), image, 0)
  | SList => (a, image, 0)
  | SDelete id =>
      match asnap_find id (a_snaps a) with
      | Some _ => (mkStore (asnap_remove id (a_snaps a)) (a_next a), image, 0)
      | None => (a, image, 1)
      end
  | SRollback id =>
      match asnap_find id (a_snaps a) with
      | Some s => (a, as_image s, 0)
      | None => (a, image, 1)
      end
  end.

(** What a command prints. *)
Definition snap_line (s : asnap) : list Z :=
  print_04d (as_id s) ++ lit "  " ++ as_time s ++ lit "  " ++ as_desc s ++ [10].
Definition snap_output (c : snap_cmd) (a : astore) : list Z :=
  match c with
  | SCreate _ desc =>
      lit "created snapshot " ++ print_04d (a_next a) ++ lit " (" ++ desc ++ lit ")" ++ [10]
  | SList =>
      match a_snaps a with
      | [] => lit "no snapshots" ++ [10]
      | l => mjoin (snap_line <$> l)
      end
  | SDelete id =>
      match asnap_find id (a_snaps a) with
      | Some _ => lit "deleted snapshot " ++ print_04d id ++ [10]
      | None => []
      end
  | SRollback id =>
      match asnap_find id (a_snaps a) with
      | Some _ => lit "rolled back image to snapshot " ++ print_04d id ++ [10]
      | None => []
      end
  end.

(** The command line of a command. *)
Definition snap_args (image store : list Z) (c : snap_cmd) : list (list Z) :=
  [lit "--image"; image; lit "--store"; store] ++
  match c with
  | SCreate _ desc => [lit "create"; desc]
  | SList => [lit "list"]
  | SDelete id => [lit "delete"; print_d id]
  | SRollback id => [lit "rollback"; print_d id]
  end.
Definition snap_time (c : snap_cmd) : list Z :=
  match c with SCreate time _ => time | _ => [] end.

(** ** The store on disk *)

Definition meta_of (s : asnap) : SnapshotMeta :=
  mkMeta (as_id s) (pad TIMESTAMP_SIZE (as_time s)) (pad DESC_SIZE (as_desc s)).

Definition time_ok (time : list Z) : Prop :=
  cstring time ∧ (length time < TIMESTAMP_SIZE)%nat ∧ (10 ∉ time) ∧ (124 ∉ time).
Definition desc_ok (desc : list Z) : Prop :=
  cstring desc ∧ (length desc < DESC_SIZE)%nat ∧ (10 ∉ desc).

Record store_rep (files : files_t) (store : list Z) (a : astore) : Prop := {
  sr_list : (a_snaps a = [] ∧ files !! list_path store = None) ∨
    ∃ s, print_items (meta_of <$> a_snaps a) = Some s ∧
      files !! list_path store = Some s;
  sr_next : (a_next a = 1 ∧ files !! next_id_path store = None) ∨
    files !! next_id_path store = Some (print_d (a_next a) ++ [10]);
  sr_range : 1 ≤ a_next a ≤ INT_MAX;
  sr_ids : Forall (λ s, 1 ≤ as_id s < a_next a) (a_snaps a);
  sr_distinct : NoDup (as_id <$> a_snaps a);
  sr_texts : Forall (λ s, time_ok (as_time s) ∧ desc_ok (as_desc s)) (a_snaps a);
  sr_length : (length (a_snaps a) ≤ MAX_ITEMS)%nat;
  sr_images s : s ∈ a_snaps a →
    files !! snap_path store (as_id s) = Some (as_image s);
}.

(** The tool can open its own two files and allocate the list; whatever else
    it asks of the system may fail. *)
Record env_store (e : env) (store : list Z) : Prop := {
  es_read_list : can_read e (list_path store) = true;
  es_write_list : can_write e (list_path store) = true;
  es_read_next : can_read e (next_id_path store) = true;
  es_write_next : can_write e (next_id_path store) = true;
  es_calloc : calloc_ok e = true;
}.
(** A system in which files can be opened and memory allocated. *)
Record env_up (e : env) : Prop := {
  eg_read path : can_read e path = true;
  eg_write path : can_write e path = true;
  eg_dir : ensure_dir e = true;
  eg_unlink : unlink_result e = 0;
  eg_calloc : calloc_ok e = true;
  eg_realloc : realloc_ok e = true;
}.
(** A system in which nothing fails. *)
Record env_good (e : env) : Prop := {
  eg_up :> env_up e;
  eg_progress : writes_progress e;
  eg_io : no_io_error e;
}.

Lemma env_up_store e store : env_up e → env_store e store.
Proof. intros []. by split. Qed.

Section reading.
Context (e : env) (store : list Z) (Hg : env_store e store).
Implicit Types (files : files_t) (a : astore).

Lemma meta_of_ok s :
  - 2147483648 ≤ as_id s < 2147483648 → time_ok (as_time s) → desc_ok (as_desc s) →
  meta_ok (meta_of s) (as_time s) (as_desc s).
Proof using. intros Hid (? & ? & ? & ?) (? & ? & ?). by split. Qed.

Lemma items_ok files a : store_rep files store a → Forall item_ok (meta_of <$> a_snaps a).
Proof using.
  intros Hr. apply Forall_fmap, Forall_forall. intros s Hs.
  pose proof (sr_ids _ _ _ Hr) as Hi. pose proof (sr_texts _ _ _ Hr) as Ht.
  rewrite Forall_forall in Hi, Ht. pose proof (sr_range _ _ _ Hr).
  specialize (Hi s Hs). unfold INT_MAX in *. destruct (Ht s Hs).
  exists (as_time s), (as_desc s). apply meta_of_ok; [lia|done..].
Qed.

Lemma load_rep files a :
  store_rep files store a → load_metadata e files store = meta_of <$> a_snaps a.
Proof using Hg.
  intros Hr. unfold load_metadata, fopen_r. rewrite (es_read_list _ _ Hg), (es_calloc _ _ Hg).
  destruct (sr_list _ _ _ Hr) as [[-> ->]|(s & Hs & ->)]; [done|].
  rewrite (load_lines_print _ _ _ 0 (items_ok _ _ Hr) Hs) by done.
  apply take_ge. rewrite length_fmap. pose proof (sr_length _ _ _ Hr). lia.
Qed.

Lemma next_rep files a : store_rep files store a → read_next_id e files store = a_next a.
Proof using Hg.
  intros Hr. unfold read_next_id, fopen_r. rewrite (es_read_next _ _ Hg).
  pose proof (sr_range _ _ _ Hr) as Hn. unfold INT_MAX in *.
  destruct (sr_next _ _ _ Hr) as [[-> ->]| ->]; [done|].
  by rewrite scan_print_d by (done || lia).
Qed.

End reading.

(** ** Outcomes *)

(** Nothing the tool asks of the system fails. *)
Definition env_works (e : env) : Prop :=
  (∀ path, can_read e path = true ∧ can_write e path = true) ∧ ensure_dir e = true ∧
  unlink_result e = 0 ∧ realloc_ok e = true ∧ no_io_error e.

Lemma env_good_works e : env_good e → env_works e.
Proof. intros [[] _ Hio]. split_and!; [by split|done..|exact Hio]. Qed.

Section outcome.
Context (e : env) (image store : list Z).

(** The command did what [snap_step] and [snap_output] say; a deleted snapshot
    has no file. *)
Definition succeeds (c : snap_cmd) (a : astore) (img : list Z)
    (files' : files_t) (status : Z) (out : list Z) : Prop :=
  let '(a', img', status') := snap_step c a img in
  status = status' ∧ out = snap_output c a ∧ store_rep files' store a' ∧
  files' !! image = Some img' ∧
  ∀ id s, c = SDelete id → asnap_find id (a_snaps a) = Some s → unlink_result e = 0 →
    files' !! snap_path store id = None.

(** Something failed: status 1, nothing printed, the store as it was, and only
    a rollback leaves its mark on the image: a prefix of the snapshot. *)
Definition fails (c : snap_cmd) (a : astore) (img : list Z)
    (files' : files_t) (status : Z) (out : list Z) : Prop :=
  ¬ env_works e ∧ status = 1 ∧ out = [] ∧ store_rep files' store a ∧
  (files' !! image = Some img ∨
   ∃ id s p, c = SRollback id ∧ asnap_find id (a_snaps a) = Some s ∧
     p `prefix_of` as_image s ∧ files' !! image = Some p).

Definition outcome (files : files_t) (c : snap_cmd) (a : astore) (img : list Z)
    (r : option (files_t * Z * list Z)) : Prop :=
  ∃ files' status out, r = Some (files', status, out) ∧
    (succeeds c a img files' status out ∨ fails c a img files' status out) ∧
    ∀ path, outside store path → path ≠ image → files' !! path = files !! path.
End outcome.

Section store.
Context (e : env) (store : list Z) (Hg : env_store e store) (Hprog : writes_progress e).
Context (Hst : short_store store).
Implicit Types (files : files_t) (a : astore).

Lemma print_items_ok items : Forall item_ok items → ∃ s, print_items items = Some s.
Proof using.
  induction 1 as [|m items (t & d & Hm) _ [s Hs]]; cbn [print_items]; [eauto|].
  rewrite (print_meta_line m t d Hm), Hs. eauto.
Qed.

Lemma find_id_rep id l :
  match asnap_find id l with
  | Some s => ∃ i, find_id id (meta_of <$> l) = Some i ∧ s ∈ l ∧ as_id s = id ∧
      delete i (meta_of <$> l) = meta_of <$> asnap_remove id l
  | None => find_id id (meta_of <$> l) = None
  end.
Proof using.
  induction l as [|s l IH]; [done|]. cbn [asnap_find asnap_remove fmap list_fmap find_id].
  cbn [meta_of sm_id]. destruct (Z.eqb_spec (as_id s) id) as [E|E].
  { exists 0%nat. split; [done|]. split; [left|done]. }
  destruct (asnap_find id l) as [s'|]; [|by rewrite IH].
  destruct IH as (i & -> & Hs' & Hid & Hdel). exists (S i). split; [done|].
  split; [by right|]. split; [done|]. cbn. by rewrite <- Hdel.
Qed.

(** Changes outside the store keep it. *)
Lemma rep_outside files a path c :
  store_rep files store a → outside store path →
  store_rep (<[path := c]> files) store a.
Proof using Hst.
  intros Hr Ho. destruct Hr as [Hl Hn Hrange Hids Hd Ht Hlen Hi].
  split; try done.
  - rewrite lookup_insert_ne by by apply outside_list. exact Hl.
  - rewrite lookup_insert_ne by by apply outside_next. exact Hn.
  - intros s Hs. rewrite lookup_insert_ne by by apply outside_snap. by apply Hi.
Qed.
(** A new snapshot file keeps it. *)
Lemma rep_fresh files a c :
  store_rep files store a →
  store_rep (<[snap_path store (a_next a) := c]> files) store a.
Proof using Hst.
  intros Hr. pose proof (sr_range _ _ _ Hr) as Hn. destruct Hr as [Hl Hx Hrange Hids Hd Ht Hlen Hi].
  unfold INT_MAX in *. split; try done.
  - rewrite lookup_insert_ne by (apply snap_list_ne; [done|lia]). exact Hl.
  - rewrite lookup_insert_ne by (apply snap_next_ne; [done|lia]). exact Hx.
  - intros s Hs. rewrite lookup_insert_ne; [by apply Hi|].
    rewrite Forall_forall in Hids. specialize (Hids s Hs).
    intros E. apply (snap_path_inj store Hst) in E; lia.
Qed.

(** Writing the list and the next identifier. *)
Lemma save_good files items :
  Forall item_ok items →
  ∃ s, print_items items = Some s ∧
    save_metadata e files store items = Some (<[list_path store := s]> files).
Proof using Hg.
  intros Hok. destruct (print_items_ok items Hok) as [s Hs]. exists s. split; [done|].
  unfold save_metadata. by rewrite (es_write_list _ _ Hg), Hs.
Qed.

Lemma write_next_good files id :
  write_next_id e files store id = <[next_id_path store := print_d id ++ [10]]> files.
Proof using Hg. unfold write_next_id, write_file. by rewrite (es_write_next _ _ Hg). Qed.

Lemma new_meta_of id time desc image :
  desc_ok desc → new_meta id time desc = meta_of (mkSnap id time desc image).
Proof using.
  intros (_ & Hd & _). unfold new_meta, meta_of. cbn [as_id as_time as_desc].
  f_equal. change DESC_SIZE with (S 255) in *. replace (S 255 - 1)%nat with 255%nat by lia.
  by rewrite strncpy_zeros, take_ge by lia.
Qed.

(** Paths of images: outside the store, or of a snapshot. *)
Definition image_path (path : list Z) : Prop :=
  outside store path ∨ ∃ id, 0 ≤ id ∧ path = snap_path store id.

Lemma image_list path : image_path path → path ≠ list_path store.
Proof using Hst. intros [H|(id & Hid & ->)]; [by apply outside_list|by apply snap_list_ne]. Qed.
Lemma image_next path : image_path path → path ≠ next_id_path store.
Proof using Hst. intros [H|(id & Hid & ->)]; [by apply outside_next|by apply snap_next_ne]. Qed.

(** The list and the next identifier are written over any files that hold
    the images. *)
Lemma rep_write files a s :
  print_items (meta_of <$> a_snaps a) = Some s → 1 ≤ a_next a ≤ INT_MAX →
  Forall (λ s, 1 ≤ as_id s < a_next a) (a_snaps a) → NoDup (as_id <$> a_snaps a) →
  Forall (λ s, time_ok (as_time s) ∧ desc_ok (as_desc s)) (a_snaps a) →
  (length (a_snaps a) ≤ MAX_ITEMS)%nat →
  (∀ s, s ∈ a_snaps a → files !! snap_path store (as_id s) = Some (as_image s)) →
  store_rep (<[next_id_path store := print_d (a_next a) ++ [10]]>
    (<[list_path store := s]> files)) store a.
Proof using Hst.
  intros Hs Hn Hids Hd Ht Hlen Hi. split; try done.
  - right. exists s. split; [done|].
    rewrite lookup_insert_ne by (apply not_eq_sym; by apply list_next_ne). apply lookup_insert_eq.
  - right. apply lookup_insert_eq.
  - intros x Hx. rewrite Forall_forall in Hids. specialize (Hids x Hx).
    assert (image_path (snap_path store (as_id x))) as Hp by (right; exists (as_id x); split; [lia|done]).
    rewrite lookup_insert_ne by by apply not_eq_sym, image_next.
    rewrite lookup_insert_ne by by apply not_eq_sym, image_list. by apply Hi.
Qed.

(** Whatever is in the file of the next snapshot, the store is the same. *)
Lemma fresh_copy files files1 a :
  store_rep files store a →
  (files1 = files ∨ ∃ c, files1 = <[snap_path store (a_next a) := c]> files) →
  store_rep files1 store a ∧ ∀ path, outside store path → files1 !! path = files !! path.
Proof using Hst.
  intros Hr Hf. pose proof (sr_range _ _ _ Hr) as Hn.
  destruct Hf as [->|(c & ->)]; [done|]. split; [by apply rep_fresh|].
  intros path Hpath. by apply lookup_insert_ne, not_eq_sym, outside_snap.
Qed.

Lemma create_rep files a s txt :
  store_rep files store a → a_next a < INT_MAX → (length (a_snaps a) < MAX_ITEMS)%nat →
  as_id s = a_next a → time_ok (as_time s) → desc_ok (as_desc s) →
  files !! snap_path store (a_next a) = Some (as_image s) →
  print_items (meta_of <$> (a_snaps a ++ [s])) = Some txt →
  store_rep (<[next_id_path store := print_d (a_next a + 1) ++ [10]]>
    (<[list_path store := txt]> files)) store (mkStore (a_snaps a ++ [s]) (a_next a + 1)).
Proof using Hst.
  intros [_ _ Hn Hids Hd Ht _ Hi] Hmax Hlen Hid Htime Hdesc Hsnap Htxt.
  apply (rep_write files (mkStore (a_snaps a ++ [s]) (a_next a + 1)));
    cbn [a_snaps a_next]; [done|lia|..].
  - apply Forall_app. split; [|constructor; [lia|done]].
    eapply Forall_impl; [exact Hids|]. cbn. intros. lia.
  - rewrite fmap_app. apply NoDup_app. split; [done|]. split; [|apply NoDup_singleton].
    intros x (s' & -> & Hs')%list_elem_of_fmap. rewrite Forall_forall in Hids.
    intros E%list_elem_of_singleton. specialize (Hids s' Hs'). lia.
  - apply Forall_app. split; [done|]. by constructor.
  - rewrite length_app. cbn. lia.
  - intros s' [Hs'| ->%list_elem_of_singleton]%elem_of_app; [by apply Hi|by rewrite Hid].
Qed.

Lemma create_ok files a image img time desc fuel :
  store_rep files store a → outside store image → files !! image = Some img →
  (length img < fuel)%nat → time_ok time → desc_ok desc →
  (length (a_snaps a) < MAX_ITEMS)%nat → a_next a < INT_MAX →
  outcome e image store files (SCreate time desc) a img
    (cmd_create e fuel files image store time (Some desc)).
Proof using Hg Hprog Hst.
  intros Hr Ho Himg Hf Htime Hdesc Hlen Hmax. unfold cmd_create.
  pose proof (sr_range _ _ _ Hr) as Hn. rewrite (next_rep e store Hg files a Hr).
  set (n := a_next a) in *. set (snap := snap_path store n).
  destruct (copy_file_ok e fuel files image snap img Hprog) as (files1 & ok & -> & Hok & Hbad & Hio);
    [by apply outside_snap|done|done|]. ostep.
  destruct (fresh_copy files files1 a Hr) as [Hr1 Hout1].
  { destruct ok; [right; exists img; by apply Hok|].
    destruct (Hbad eq_refl) as [->|(p & _ & ->)]; [by left|right; by exists p]. }
  assert (Hfail : ¬ env_works e → outcome e image store files (SCreate time desc) a img
    (Some (files1, 1, []))).
  { intros Hw. exists files1, 1, []. split; [done|]. split; [right|by auto].
    split_and!; [done..|]. left. by rewrite Hout1. }
  destruct ok; cbn [negb].
  2: { apply Hfail. intros (Hopen & _ & _ & _ & Hno). by discriminate (Hio (proj1 (Hopen _))
         (proj2 (Hopen _)) Hno). }
  rewrite (load_rep e store Hg _ _ Hr1). cbn [default id].
  destruct (realloc_ok e) eqn:Hre; cbn [negb].
  2: { apply Hfail. intros (_ & _ & _ & Hre' & _). congruence. }
  clear Hfail Hbad Hio. rewrite (new_meta_of n time desc img Hdesc).
  set (s := mkSnap n time desc img).
  assert (Forall item_ok (meta_of <$> (a_snaps a ++ [s]))) as Hitems.
  { rewrite fmap_app. apply Forall_app. split; [by eapply items_ok|]. constructor; [|done].
    exists time, desc. unfold INT_MAX in *. apply (meta_of_ok s); [cbn; lia|done..]. }
  change [meta_of s] with (meta_of <$> [s]). rewrite <- fmap_app.
  destruct (save_good files1 _ Hitems) as (txt & Htxt & ->). ostep.
  destruct (Z.eqb_spec n INT_MAX); [lia|]. rewrite write_next_good.
  replace (cstr_of (sm_desc (meta_of s))) with (Some desc)
    by (symmetry; apply cstr_of_pad; apply Hdesc). ostep.
  assert (Hsame : ∀ path, outside store path → (<[next_id_path store := print_d (n + 1) ++ [10]]>
    (<[list_path store := txt]> files1)) !! path = files !! path).
  { intros path Hpath. rewrite !lookup_insert_ne; [by apply Hout1| |];
      (apply not_eq_sym, image_next || apply not_eq_sym, image_list); by left. }
  eexists _, 0, _. split; [reflexivity|]. split; [left|by auto].
  split; [done|]. split; [done|]. split; [|split; [by rewrite Hsame|done]].
  apply (create_rep files1 a s txt); try done.
  rewrite (Hok eq_refl). apply lookup_insert_eq.
Qed.
Lemma asnap_find_split id l s :
  asnap_find id l = Some s →
  as_id s = id ∧ ∃ l1 l2, l = l1 ++ s :: l2 ∧ asnap_remove id l = l1 ++ l2.
Proof using.
  induction l as [|x l IH]; cbn [asnap_find asnap_remove]; [done|].
  destruct (Z.eqb_spec (as_id x) id) as [E|E].
  - intros [= <-]. split; [done|]. by exists [], l.
  - intros H. destruct (IH H) as (Hid & l1 & l2 & -> & ->). split; [done|].
    by exists (x :: l1), l2.
Qed.

(** The files of other snapshots and the list without the deleted one. *)
Lemma delete_rep files files1 a s id l1 l2 txt :
  store_rep files store a → as_id s = id → a_snaps a = l1 ++ s :: l2 →
  (files1 = files ∨ files1 = delete (snap_path store id) files) →
  print_items (meta_of <$> (l1 ++ l2)) = Some txt →
  store_rep (<[list_path store := txt]> files1) store (mkStore (l1 ++ l2) (a_next a)).
Proof using Hst.
  clear Hg Hprog. intros [_ Hx Hn Hids Hd Ht Hlen Hi] Hid Hl Hfiles Htxt. rewrite Hl in *.
  apply Forall_app in Hids as [Hids1 [Hids2 Hids3]%Forall_cons].
  apply Forall_app in Ht as [Ht1 [_ Ht3]%Forall_cons].
  rewrite fmap_app in Hd. cbn [fmap list_fmap] in Hd.
  rewrite <- Permutation_middle in Hd. apply NoDup_cons in Hd as [Hnotin Hd].
  assert (Hkeep : ∀ path, path ≠ snap_path store id → files1 !! path = files !! path).
  { intros path Hne. destruct Hfiles as [-> | ->]; [done|]. by apply lookup_delete_ne. }
  split; cbn [a_snaps a_next]; try done.
  - right. exists txt. split; [done|]. apply lookup_insert_eq.
  - rewrite lookup_insert_ne, Hkeep; [exact Hx| |by apply list_next_ne].
    apply not_eq_sym, snap_next_ne; [done|lia].
  - by apply Forall_app.
  - by rewrite fmap_app.
  - by apply Forall_app.
  - rewrite length_app in *. cbn [length] in Hlen. lia.
  - intros s' Hs'. assert (s' ∈ l1 ++ s :: l2) as Hin by set_solver.
    assert (1 ≤ as_id s' < a_next a ∧ as_id s' ≠ as_id s) as [Hs1 Hs2].
    { split.
      - assert (Forall (λ s, 1 ≤ as_id s < a_next a) (l1 ++ l2)) as Hall by by apply Forall_app.
        rewrite Forall_forall in Hall. by apply Hall.
      - intros E. apply Hnotin. rewrite <- fmap_app, <- E. apply list_elem_of_fmap. eauto. }
    rewrite lookup_insert_ne by (apply not_eq_sym, snap_list_ne; [done|lia]).
    rewrite Hkeep; [by apply Hi|].
    unfold INT_MAX in *. intros E. apply (snap_path_inj store Hst) in E; lia.
Qed.

Lemma delete_ok files a image img s id idx :
  store_rep files store a → outside store image → files !! image = Some img →
  asnap_find id (a_snaps a) = Some s →
  delete idx (meta_of <$> a_snaps a) = meta_of <$> asnap_remove id (a_snaps a) →
  outcome e image store files (SDelete id) a img
    (cmd_delete e files store (meta_of <$> a_snaps a) idx id).
Proof using Hg Hprog Hst.
  intros Hr Ho Himg Hfind Hdel. unfold cmd_delete. rewrite Hdel.
  destruct (asnap_find_split id _ s Hfind) as (Hid & l1 & l2 & Hl & Hrm).
  assert (s ∈ a_snaps a) as Hin by (rewrite Hl; set_solver).
  pose proof (sr_ids _ _ _ Hr) as Hids. rewrite Forall_forall in Hids. specialize (Hids s Hin).
  rewrite bool_decide_false by (rewrite <- Hid, (sr_images _ _ _ Hr s Hin); done).
  destruct (negb (unlink_result e =? 0) && negb (unlink_result e =? ENOENT)) eqn:Herr.
  { replace (unlink_result e =? 0) with false by (destruct (_ =? 0); done).
    exists files, 1, []. split; [done|]. split; [right|done].
    split_and!; [|done..|by left]. intros (_ & _ & Hu & _). by rewrite Hu in Herr. }
  set (files1 := if unlink_result e =? 0 then _ else files).
  destruct (save_good files1 (meta_of <$> asnap_remove id (a_snaps a))) as (txt & Htxt & ->).
  { pose proof (items_ok store _ _ Hr) as Hitems. rewrite Hrm. rewrite Hl, fmap_app in Hitems.
    apply Forall_app in Hitems as [? [_ ?]%Forall_cons]. rewrite fmap_app. by apply Forall_app. }
  ostep.
  assert (Hsame : ∀ path, outside store path → (<[list_path store := txt]> files1) !! path = files !! path).
  { intros path Hpath. rewrite lookup_insert_ne by (apply not_eq_sym, image_list; by left).
    unfold files1. destruct (_ =? 0); [|done].
    by apply lookup_delete_ne, not_eq_sym, outside_snap. }
  eexists _, 0, _. split; [reflexivity|]. split; [left|by auto].
  unfold succeeds. cbn [snap_step snap_output]. rewrite Hfind.
  split; [done|]. split; [done|]. split; [|split; [by rewrite Hsame|]].
  - rewrite Hrm in *. apply (delete_rep files files1 a s id l1 l2 txt); try done.
    unfold files1. destruct (_ =? 0); [by right|by left].
  - intros id' s' [= <-] _ Hu. unfold files1. rewrite Hu. cbn [Z.eqb].
    rewrite lookup_insert_ne by (apply not_eq_sym, snap_list_ne; [done|lia]).
    apply lookup_delete_eq.
Qed.

Lemma rollback_ok files a image img s id fuel :
  store_rep files store a → outside store image → files !! image = Some img →
  asnap_find id (a_snaps a) = Some s → (length (as_image s) < fuel)%nat →
  outcome e image store files (SRollback id) a img
    (cmd_rollback e fuel files image store id).
Proof using Hg Hprog Hst.
  intros Hr Ho Himg Hfind Hf. unfold cmd_rollback.
  destruct (asnap_find_split id _ s Hfind) as (Hid & l1 & l2 & Hl & _).
  assert (s ∈ a_snaps a) as Hin by (rewrite Hl; set_solver).
  pose proof (sr_ids _ _ _ Hr) as Hids. rewrite Forall_forall in Hids. specialize (Hids s Hin).
  pose proof (sr_images _ _ _ Hr s Hin) as Hsi. rewrite Hid in Hsi.
  destruct (copy_file_ok e fuel files (snap_path store id) image (as_image s) Hprog)
    as (files1 & ok & -> & Hok & Hbad & Hio);
    [by apply not_eq_sym, outside_snap|done|done|]. ostep.
  assert (Hset : ∀ p path, path ≠ image → (<[image := p]> files) !! path = files !! path)
    by (intros; by apply lookup_insert_ne, not_eq_sym).
  destruct ok; cbn [negb].
  - rewrite (Hok eq_refl). eexists _, 0, _. split; [reflexivity|].
    split; [left|by auto]. unfold succeeds. cbn [snap_step snap_output]. rewrite Hfind.
    split_and!; [done|done|by apply rep_outside|apply lookup_insert_eq|done].
  - exists files1, 1, []. split; [done|]. split.
    + right. split.
      { intros (Hopen & _ & _ & _ & Hno).
        by discriminate (Hio (proj1 (Hopen _)) (proj2 (Hopen _)) Hno). }
      destruct (Hbad eq_refl) as [->|(p & Hpre & ->)]; [by split_and!; [..|left]|].
      split_and!; [done|done|by apply rep_outside|]. right. exists id, s, p.
      split_and!; [done..|apply lookup_insert_eq].
    + intros path _ Hne. destruct (Hbad eq_refl) as [->|(p & _ & ->)]; [done|by apply Hset].
Qed.
End store.

(** ** The commands *)

Definition cmd_name (c : snap_cmd) : list Z :=
  match c with
  | SCreate _ _ => lit "create" | SList => lit "list" | SDelete _ => lit "delete"
  | SRollback _ => lit "rollback"
  end.

(** Texts that fit, room for one more, identifiers that are [int]s. *)
Definition cmd_ok (a : astore) (c : snap_cmd) : Prop :=
  match c with
  | SCreate time desc =>
      time_ok time ∧ desc_ok desc ∧ (length (a_snaps a) < MAX_ITEMS)%nat ∧ a_next a < INT_MAX
  | SList => True
  | SDelete id | SRollback id => - 2147483648 ≤ id < 2147483648
  end.

(** [fuel] bounds the live image and the images of the snapshots. *)
Definition fuel_ok (fuel : nat) (a : astore) (img : list Z) : Prop :=
  (length img < fuel)%nat ∧ Forall (λ s, (length (as_image s) < fuel)%nat) (a_snaps a).

Lemma parse_snap_args image store a c :
  cmd_ok a c →
  parse_args opts0 (snap_args image store c) =
    mkOpts (Some image) (Some store) (Some (cmd_name c))
      (match c with SCreate _ desc => Some desc | _ => None end)
      (match c with SDelete id | SRollback id => id | _ => -1 end).
Proof.
  assert (∀ id, - 2147483648 ≤ id < 2147483648 → atoi (print_d id) = id) as Hid.
  { intros id Hid. rewrite <- (app_nil_r (print_d id)). by apply atoi_print_d. }
  destruct c as [time desc| |id|id]; cbn [cmd_ok]; intros Hc; [reflexivity|reflexivity|..].
  - transitivity (mkOpts (Some image) (Some store) (Some (lit "delete")) None (atoi (print_d id)));
      [reflexivity|by rewrite Hid].
  - transitivity (mkOpts (Some image) (Some store) (Some (lit "rollback")) None (atoi (print_d id)));
      [reflexivity|by rewrite Hid].
Qed.

Lemma list_lines_ok items : Forall item_ok items → ∃ out, list_lines items = Some out.
Proof.
  induction 1 as [|m items (t & d & Hm) _ [out Hout]]; cbn [list_lines]; [eauto|].
  destruct Hm as [_ Ht Hd [Hct Hcd] [Hlt Hld] _ _].
  unfold list_line. rewrite Ht, Hd, !cstr_of_pad by done. cbn. rewrite Hout. eauto.
Qed.

(** The dispatch of [main]. *)
Lemma snapper_main_cmd e fuel image store files a c :
  env_store e store → short_store store → cmd_ok a c → store_rep files store a →
  snapper_main e fuel (snap_time c) (snap_args image store c) files =
    if negb (ensure_dir e) then Some (files, 1, [])
    else match c with
    | SCreate time desc => cmd_create e fuel files image store time (Some desc)
    | SList => cmd_list files (meta_of <$> a_snaps a)
    | SDelete id | SRollback id =>
        if id <? 0 then Some (files, 1, [])
        else match find_id id (meta_of <$> a_snaps a) with
             | None => Some (files, 1, [])
             | Some idx =>
                 match c with
                 | SDelete _ => cmd_delete e files store (meta_of <$> a_snaps a) idx id
                 | _ => cmd_rollback e fuel files image store id
                 end
             end
    end.
Proof.
  intros Hg Hst Hc Hr. unfold snapper_main. rewrite (parse_snap_args image store a c Hc).
  cbn [o_image o_store o_cmd o_desc o_id].
  assert (snprintf_buf PATH_SIZE store = store) as ->.
  { rewrite <- (app_nil_r store). by apply snprintf_fits; [|cbn; lia]. }
  rewrite (load_rep e store Hg files a Hr).
  destruct (ensure_dir e); [|done]. by destruct c.
Qed.

(** The output of [list]. *)
Lemma list_rep files store a :
  store_rep files store a →
  cmd_list files (meta_of <$> a_snaps a) = Some (files, 0, snap_output SList a).
Proof.
  intros Hr. pose proof (sr_texts _ _ _ Hr) as Ht. unfold cmd_list. cbn [snap_output].
  assert (list_lines (meta_of <$> a_snaps a) = Some (mjoin (snap_line <$> a_snaps a))) as Hl.
  { induction Ht as [|s l [(Htc & Htl & _) (Hdc & Hdl & _)] _ IH] in |- *; [done|].
    cbn [list_lines fmap list_fmap]. unfold list_line. cbn [meta_of sm_timestamp sm_desc sm_id].
    rewrite !cstr_of_pad by done. ostep. rewrite IH. done. }
  destruct (a_snaps a) as [|s l]; [done|]. rewrite bool_decide_false by done. by rewrite Hl.
Qed.

Section main.
Context (e : env) (fuel : nat) (image store : list Z).
Context (Hg : env_store e store) (Hprog : writes_progress e).
Context (Hst : short_store store) (Ho : outside store image).

(** An identifier that is not in the store. *)
Lemma missing_ok files a img c :
  store_rep files store a → files !! image = Some img → snap_step c a img = (a, img, 1) →
  snap_output c a = [] → (∀ id s, c = SDelete id → asnap_find id (a_snaps a) ≠ Some s) →
  outcome e image store files c a img (Some (files, 1, [])).
Proof using.
  intros Hr Himg Hs Hout Hno. exists files, 1, []. split; [done|]. split; [left|done].
  unfold succeeds. rewrite Hs, Hout. split_and!; [done..|]. intros id s E Hf. by destruct (Hno id s).
Qed.

Lemma snapper_ok files a img c :
  store_rep files store a → files !! image = Some img → fuel_ok fuel a img → cmd_ok a c →
  outcome e image store files c a img
    (snapper_main e fuel (snap_time c) (snap_args image store c) files).
Proof using Hg Hprog Hst Ho.
  intros Hr Himg [Hf Hfs] Hc. rewrite (snapper_main_cmd e fuel image store files a c Hg Hst Hc Hr).
  destruct (ensure_dir e) eqn:Hdir; cbn [negb].
  2: { exists files, 1, []. split; [done|]. split; [right|done].
    split_and!; [|done..|by left]. intros (_ & Hdir' & _). congruence. }
  assert (Hneg : ∀ id s, asnap_find id (a_snaps a) = Some s →
    0 ≤ id ∧ (length (as_image s) < fuel)%nat).
  { intros id s (Hs & l1 & l2 & Hl & _)%asnap_find_split.
    pose proof (sr_ids _ _ _ Hr) as Hids. rewrite Hl in Hids, Hfs.
    apply Forall_app in Hids as [_ [Hs' _]%Forall_cons], Hfs as [_ [Hs'' _]%Forall_cons].
    split; [lia|done]. }
  destruct c as [time desc| |id|id].
  - destruct Hc as (Htime & Hdesc & Hlen & Hmax). by eapply create_ok.
  - rewrite (list_rep files store a Hr). exists files, 0, (snap_output SList a).
    split; [done|]. split; [left|done]. by split_and!.
  - pose proof (find_id_rep id (a_snaps a)) as Hfind.
    destruct (asnap_find id (a_snaps a)) as [s|] eqn:E.
    + destruct (Hneg id s E). destruct (Z.ltb_spec id 0); [lia|].
      destruct Hfind as (idx & -> & _ & _ & Hdel). by eapply delete_ok.
    + assert (outcome e image store files (SDelete id) a img (Some (files, 1, []))) as Hmiss.
      { apply missing_ok; cbn [snap_step snap_output]; rewrite ?E; try done. congruence. }
      rewrite Hfind. by destruct (id <? 0).
  - pose proof (find_id_rep id (a_snaps a)) as Hfind.
    destruct (asnap_find id (a_snaps a)) as [s|] eqn:E.
    + destruct (Hneg id s E). destruct (Z.ltb_spec id 0); [lia|].
      destruct Hfind as (idx & -> & _ & _ & _). by eapply rollback_ok.
    + assert (outcome e image store files (SRollback id) a img (Some (files, 1, []))) as Hmiss.
      { apply missing_ok; cbn [snap_step snap_output]; rewrite ?E; done. }
      rewrite Hfind. by destruct (id <? 0).
Qed.
End main.

(** With a system in which nothing fails the command succeeds. *)
Lemma snapper_good e fuel image store files a img c :
  env_good e → short_store store → outside store image →
  store_rep files store a → files !! image = Some img → fuel_ok fuel a img → cmd_ok a c →
  ∃ files' status out, snapper_main e fuel (snap_time c) (snap_args image store c) files =
      Some (files', status, out) ∧ succeeds e image store c a img files' status out.
Proof.
  intros Hg Hst Ho Hr Himg Hf Hc.
  destruct (snapper_ok e fuel image store (env_up_store _ store (eg_up _ Hg)) (eg_progress _ Hg)
    Hst Ho files a img c Hr Himg Hf Hc) as (files' & status & out & Hm & [Hs|[Hw _]] & _).
  - by exists files', status, out.
  - by destruct Hw; apply env_good_works.
Qed.

(** C2: every command of the tool, whatever opening images, reading, writing,
    [stat], [mkdir], [unlink] and [realloc] do, either does to the store on
    disk and to the live image what [snap_step] does to the abstract store,
    and prints [snap_output]: [create] adds a snapshot of the live image under
    the next identifier, [list] shows the snapshots in order, [rollback] makes
    the live image that of the snapshot, [delete] removes it and its file, an
    unknown identifier is refused with status 1; or something it asked of the
    system failed, and then it exits with status 1, prints nothing, and the
    store is as it was, and so is the image, except that a failed [rollback]
    leaves a prefix of the snapshot in it.  No other file outside the store
    changes, and one iteration per byte is enough. *)
Theorem snapper_refines e fuel image store files a img c :
  env_store e store → writes_progress e → short_store store → outside store image →
  store_rep files store a → files !! image = Some img → fuel_ok fuel a img → cmd_ok a c →
  outcome e image store files c a img
    (snapper_main e fuel (snap_time c) (snap_args image store c) files).
Proof. intros. by apply snapper_ok. Qed.

Lemma slow_env_good : env_good slow_env.
Proof. by split. Qed.

(** A store with no files, next to an image. *)
Definition demo_files : files_t := {[ lit "disk.img" := [1; 2; 3] ]}.

Lemma demo_store_rep : store_rep demo_files (lit "snaps") (mkStore [] 1).
Proof.
  split; cbn [a_snaps a_next]; try done.
  - left. split; [done|]. by apply lookup_singleton_ne.
  - left. split; [done|]. by apply lookup_singleton_ne.
  - constructor.
  - cbn. lia.
  - intros s Hs. by apply elem_of_nil in Hs.
Qed.

Lemma demo_outside : outside (lit "snaps") (lit "disk.img").
Proof. intros [t Ht]. by cbn in Ht. Qed.

Definition demo_time : list Z := lit "2024-01-02 03:04:05".

Lemma demo_create_ok : cmd_ok (mkStore [] 1) (SCreate demo_time (lit "first")).
Proof.
  split; [|split; [|split]].
  - split; [repeat constructor|]. split; [by vm_compute; lia|].
    split; by apply (bool_decide_unpack _).
  - split; [repeat constructor|]. split; [by vm_compute; lia|]. by apply (bool_decide_unpack _).
  - apply (bool_decide_unpack _). by vm_compute.
  - by cbn.
Qed.

(** [create] and [list]. *)
Lemma snapper_refines_witness :
  ∃ files, snapper_main slow_env 4 demo_time
      [lit "--image"; lit "disk.img"; lit "--store"; lit "snaps"; lit "create"; lit "first"]
      demo_files = Some (files, 0, lit "created snapshot 0001 (first)" ++ [10]) ∧
    store_rep files (lit "snaps") (mkStore [mkSnap 1 demo_time (lit "first") [1; 2; 3]] 2) ∧
    ∃ files', snapper_main slow_env 4 [] (snap_args (lit "disk.img") (lit "snaps") SList) files =
      Some (files', 0, lit "0001  2024-01-02 03:04:05  first" ++ [10]).
Proof.
  assert (short_store (lit "snaps")) as Hst by (by vm_compute; lia).
  assert (env_store slow_env (lit "snaps")) as Hes by by split.
  assert (∀ a, fuel_ok 4 a [1; 2; 3] ↔ Forall (λ s, (length (as_image s) < 4)%nat) (a_snaps a)) as Hfuel.
  { intros a. unfold fuel_ok. cbn. split; [by intros []|]. intros H. split; [lia|exact H]. }
  destruct (snapper_refines slow_env 4 (lit "disk.img") (lit "snaps") demo_files (mkStore [] 1)
    [1; 2; 3] (SCreate demo_time (lit "first")) Hes (eg_progress _ slow_env_good) Hst
    demo_outside demo_store_rep (lookup_singleton_eq _ _) (proj2 (Hfuel (mkStore [] 1)) (Forall_nil_2 _))
    demo_create_ok) as (files & status & out & Hm & [Hs|[Hw _]] & _);
    [|by destruct Hw; apply env_good_works, slow_env_good].
  destruct Hs as (-> & -> & Hr & Himg & _). exists files.
  split; [exact Hm|]. split; [exact Hr|].
  destruct (snapper_refines slow_env 4 (lit "disk.img") (lit "snaps") files _ [1; 2; 3] SList Hes
    (eg_progress _ slow_env_good) Hst demo_outside Hr Himg)
    as (files' & status & out & Hm' & [Hs|[Hw _]] & _).
  - apply Hfuel. constructor; [cbn; lia|constructor].
  - done.
  - destruct Hs as (-> & -> & _). exists files'. exact Hm'.
  - by destruct Hw; apply env_good_works, slow_env_good.
Defined.

(** ** Histories *)

(** A run of the tool, or a change of the live image by its users. *)
Inductive snap_event :=
| Run (c : snap_cmd)
| Modify (img : list Z).

Definition event_step (ev : snap_event) (a : astore) (img : list Z) : astore * list Z :=
  match ev with
  | Run c => (snap_step c a img).1
  | Modify img' => (a, img')
  end.
Fixpoint events_step (evs : list snap_event) (a : astore) (img : list Z) : astore * list Z :=
  match evs with
  | [] => (a, img)
  | ev :: evs => let '(a, img) := event_step ev a img in events_step evs a img
  end.

Fixpoint events_ok (fuel : nat) (evs : list snap_event) (a : astore) (img : list Z) : Prop :=
  match evs with
  | [] => True
  | ev :: evs =>
      match ev with Run c => cmd_ok a c | Modify img' => (length img' < fuel)%nat end ∧
      let '(a, img) := event_step ev a img in events_ok fuel evs a img
  end.

(** The files after a history. *)
Fixpoint events_run (e : env) (fuel : nat) (image store : list Z) (evs : list snap_event)
    (files : files_t) : option files_t :=
  match evs with
  | [] => Some files
  | Run c :: evs =>
      '(files, _, _) ← snapper_main e fuel (snap_time c) (snap_args image store c) files;
      events_run e fuel image store evs files
  | Modify img :: evs => events_run e fuel image store evs (<[image := img]> files)
  end.

Lemma asnap_find_app id l k :
  asnap_find id (l ++ k) =
  match asnap_find id l with Some s => Some s | None => asnap_find id k end.
Proof.
  induction l as [|s l IH]; cbn [asnap_find app]; [done|]. by destruct (as_id s =? id).
Qed.

Lemma asnap_find_remove id id' l :
  id ≠ id' → asnap_find id (asnap_remove id' l) = asnap_find id l.
Proof.
  intros Hne. induction l as [|s l IH]; cbn [asnap_find asnap_remove]; [done|].
  destruct (Z.eqb_spec (as_id s) id') as [E|E].
  - by destruct (Z.eqb_spec (as_id s) id); [congruence|].
  - cbn [asnap_find]. by rewrite IH.
Qed.

(** A snapshot stays until it is deleted. *)
Lemma event_keeps ev id a img s :
  ev ≠ Run (SDelete id) → asnap_find id (a_snaps a) = Some s →
  asnap_find id (a_snaps (event_step ev a img).1) = Some s.
Proof.
  intros Hev Hs. destruct ev as [[time desc| |id'|id']|img']; cbn; try done.
  - by rewrite asnap_find_app, Hs.
  - destruct (asnap_find id' (a_snaps a)); [|done]. cbn. rewrite asnap_find_remove; congruence.
  - by destruct (asnap_find id' (a_snaps a)).
Qed.

Lemma events_keep evs id a img s :
  Run (SDelete id) ∉ evs → asnap_find id (a_snaps a) = Some s →
  asnap_find id (a_snaps (events_step evs a img).1) = Some s.
Proof.
  revert a img. induction evs as [|ev evs IH]; intros a img Hno Hs; [done|].
  apply not_elem_of_cons in Hno as [Hne Hno]. cbn [events_step].
  pose proof (event_keeps ev id a img s ltac:(congruence) Hs) as H.
  destruct (event_step ev a img) as [a' img']. by apply IH.
Qed.

Lemma events_step_app evs evs' a img :
  events_step (evs ++ evs') a img =
  let '(a, img) := events_step evs a img in events_step evs' a img.
Proof.
  revert a img. induction evs as [|ev evs IH]; intros a img; cbn [events_step app]; [done|].
  destruct (event_step ev a img) as [a' img']. apply IH.
Qed.

Section history.
Context (e : env) (fuel : nat) (image store : list Z).
Context (Hg : env_good e) (Hst : short_store store) (Ho : outside store image).

Lemma event_fuel ev a img :
  fuel_ok fuel a img →
  match ev with Run c => cmd_ok a c | Modify img' => (length img' < fuel)%nat end →
  fuel_ok fuel (event_step ev a img).1 (event_step ev a img).2.
Proof using.
  intros [Hf Hfs] Hev. destruct ev as [[time desc| |id|id]|img']; cbn; try by split.
  - split; [done|]. cbn. apply Forall_app. split; [done|by constructor].
  - destruct (asnap_find id (a_snaps a)) as [s|] eqn:E; [|by split].
    apply asnap_find_split in E as (_ & l1 & l2 & Hl & Hr). split; [done|]. cbn. rewrite Hr.
    rewrite Hl in Hfs. apply Forall_app in Hfs as [? [_ ?]%Forall_cons]. by apply Forall_app.
  - destruct (asnap_find id (a_snaps a)) as [s|] eqn:E; [|by split].
    apply asnap_find_split in E as (_ & l1 & l2 & Hl & _). split; [|done]. cbn.
    rewrite Hl in Hfs. by apply Forall_app in Hfs as [_ [? _]%Forall_cons].
Qed.

Lemma events_run_ok evs files a img :
  store_rep files store a → files !! image = Some img → fuel_ok fuel a img →
  events_ok fuel evs a img →
  ∃ files', events_run e fuel image store evs files = Some files' ∧
    store_rep files' store (events_step evs a img).1 ∧
    files' !! image = Some (events_step evs a img).2.
Proof using Hg Hst Ho.
  revert files a img. induction evs as [|ev evs IH]; intros files a img Hr Himg Hf Hok.
  { by exists files. }
  destruct Hok as [Hev Hok]. pose proof (event_fuel ev a img Hf Hev) as Hf'.
  cbn [events_run events_step]. destruct ev as [c|img'].
  - destruct (snapper_good e fuel image store files a img c Hg Hst Ho Hr Himg Hf Hev)
      as (files' & status & out & Hm & Hs). rewrite Hm. ostep. unfold succeeds in Hs.
    cbn [event_step] in *. destruct (snap_step c a img) as [[a' img'] status'].
    destruct Hs as (_ & _ & Hr' & Himg' & _). by apply IH.
  - cbn [event_step fst snd] in *. apply IH; try done; [by apply rep_outside|].
    apply lookup_insert_eq.
Qed.
End history.

(** C15: a snapshot can be rolled back to: whatever happens to the live image
    after it was taken, and whatever the tool is used for short of deleting
    it, rolling back to its identifier makes the live image what it was. *)
Theorem snapshot_survives e fuel image store files a img time desc evs :
  env_good e → short_store store → outside store image →
  store_rep files store a → files !! image = Some img → fuel_ok fuel a img →
  Run (SDelete (a_next a)) ∉ evs →
  events_ok fuel (Run (SCreate time desc) :: evs ++ [Run (SRollback (a_next a))]) a img →
  ∃ files', events_run e fuel image store
      (Run (SCreate time desc) :: evs ++ [Run (SRollback (a_next a))]) files = Some files' ∧
    files' !! image = Some img.
Proof.
  intros Hg Hst Ho Hr Himg Hf Hno Hok.
  destruct (events_run_ok e fuel image store Hg Hst Ho _ files a img Hr Himg Hf Hok)
    as (files' & Hrun & _ & Himg').
  exists files'. split; [exact Hrun|]. rewrite Himg'. f_equal. clear Hrun Himg' Hok.
  cbn [events_step event_step snap_step fst]. set (a1 := mkStore _ _).
  rewrite events_step_app.
  assert (asnap_find (a_next a) (a_snaps a1) = Some (mkSnap (a_next a) time desc img)) as Hfind.
  { unfold a1. cbn [a_snaps]. rewrite asnap_find_app. cbn [asnap_find as_id].
    rewrite Z.eqb_refl. destruct (asnap_find _ (a_snaps a)) as [s|] eqn:E; [|done].
    apply asnap_find_split in E as (Hs & l1 & l2 & Hl & _).
    pose proof (sr_ids _ _ _ Hr) as Hids. rewrite Hl in Hids.
    apply Forall_app in Hids as [_ [Hs' _]%Forall_cons]. lia. }
  pose proof (events_keep evs _ a1 img _ Hno Hfind) as Hkeep.
  destruct (events_step evs a1 img) as [a2 img2]. cbn in *. by rewrite Hkeep.
Qed.

Lemma snapshot_survives_witness :
  ∃ files, events_run slow_env 4 (lit "disk.img") (lit "snaps")
      [Run (SCreate demo_time (lit "first")); Modify [9; 9]; Run SList; Run (SRollback 1)]
      demo_files = Some files ∧ files !! lit "disk.img" = Some [1; 2; 3].
Proof.
  apply (snapshot_survives slow_env 4 (lit "disk.img") (lit "snaps") demo_files (mkStore [] 1)
    [1; 2; 3] demo_time (lit "first") [Modify [9; 9]; Run SList]).
  - apply slow_env_good.
  - by vm_compute; lia.
  - apply demo_outside.
  - apply demo_store_rep.
  - apply lookup_singleton_eq.
  - split; [cbn; lia|constructor].
  - intros [?|[?|?%elem_of_nil]%elem_of_cons]%elem_of_cons; done.
  - split; [apply demo_create_ok|]. cbn. by split_and!; try lia.
Defined.

(** ** Where the tool fails *)

(** C21: [rollback] truncates the live image before it writes it.  When the
    first write fails (a full disk) the command exits with status 1, and the
    live image, whatever it held, is empty. *)
Theorem rollback_write_failure e fuel image store files a img id s :
  env_up e → short_store store → outside store image → store_rep files store a →
  files !! image = Some img → asnap_find id (a_snaps a) = Some s → as_image s ≠ [] →
  1 ≤ read_result e 0 → write_result e 1 < 0 → (0 < fuel)%nat →
  ∃ files', snapper_main e fuel [] (snap_args image store (SRollback id)) files =
      Some (files', 1, []) ∧ files' !! image = Some [].
Proof.
  intros Hg Hst Ho Hr Himg Hfind Hne Hread Hwrite Hfuel.
  apply asnap_find_split in Hfind as Hsplit.
  destruct Hsplit as (Hid & l1 & l2 & Hl & _). pose proof (sr_ids _ _ _ Hr) as Hids.
  rewrite Hl in Hids. apply Forall_app in Hids as [_ [Hs _]%Forall_cons].
  pose proof (sr_range _ _ _ Hr) as Hrange. unfold INT_MAX in *.
  change (snapper_main e fuel [] _ files) with (snapper_main e fuel
    (snap_time (SRollback id)) (snap_args image store (SRollback id)) files).
  rewrite (snapper_main_cmd e fuel image store files a (SRollback id) (env_up_store _ _ Hg) Hst)
    by (done || (cbn; lia)).
  rewrite (eg_dir _ Hg). cbn [negb].
  destruct (Z.ltb_spec id 0); [lia|].
  pose proof (find_id_rep id (a_snaps a)) as Hidx. rewrite Hfind in Hidx.
  destruct Hidx as (idx & -> & Hin & _). unfold cmd_rollback, copy_file, fopen_r.
  pose proof (sr_images _ _ _ Hr s Hin) as Hsi. rewrite Hid in Hsi.
  rewrite (eg_read _ Hg), Hsi, (eg_write _ Hg). destruct fuel as [|fuel]; [lia|].
  cbn [copy_loop]. unfold sys_read. destruct (Z.ltb_spec (read_result e 0) 0); [lia|].
  rewrite lookup_insert_ne by by apply outside_snap. rewrite Hsi. cbn [default].
  rewrite drop_0. change (Datatypes.id (as_image s)) with (as_image s). destruct (as_image s) as [|b c]; [done|].
  set (n := Nat.max _ _). assert (∃ m, n = S m) as [m ->] by (exists (n - 1)%nat; lia).
  cbn [take]. cbn [copy_write]. unfold sys_write.
  destruct (Z.ltb_spec (write_result e 1) 0); [|lia]. cbn [Z.ltb Z.compare].
  do 2 ostep. cbn [negb]. eexists. split; [reflexivity|]. apply lookup_insert_eq.
Qed.

Lemma rollback_write_failure_witness :
  ∃ files out files', snapper_main slow_env 4 demo_time
      (snap_args (lit "disk.img") (lit "snaps") (SCreate demo_time (lit "first"))) demo_files =
      Some (files, 0, out) ∧
    snapper_main (mkEnv (λ _, true) (λ _, true) (λ _, 3) (λ _, -1) (Some true) true 0 true true)
      4 [] (snap_args (lit "disk.img") (lit "snaps") (SRollback 1)) files = Some (files', 1, []) ∧
    files' !! lit "disk.img" = Some [].
Proof.
  destruct (snapper_good slow_env 4 (lit "disk.img") (lit "snaps") demo_files (mkStore [] 1)
    [1; 2; 3] (SCreate demo_time (lit "first")) slow_env_good ltac:(by vm_compute; lia)
    demo_outside demo_store_rep (lookup_singleton_eq _ _)
    ltac:(split; [cbn; lia|constructor]) demo_create_ok)
    as (files & status & out & Hm & -> & _ & Hr & Himg & _).
  destruct (rollback_write_failure
    (mkEnv (λ _, true) (λ _, true) (λ _, 3) (λ _, -1) (Some true) true 0 true true)
    4 (lit "disk.img") (lit "snaps") files
    (mkStore [mkSnap 1 demo_time (lit "first") [1; 2; 3]] 2) [1; 2; 3] 1
    (mkSnap 1 demo_time (lit "first") [1; 2; 3])) as (files' & Hm' & Hi).
  - by split.
  - by vm_compute; lia.
  - apply demo_outside.
  - exact Hr.
  - exact Himg.
  - reflexivity.
  - done.
  - cbn. lia.
  - cbn. lia.
  - lia.
  - exists files, out, files'. split; [exact Hm|]. split; [exact Hm'|exact Hi].
Defined.

(** A description with a second line that reads as an entry. *)
Definition forged (desc : list Z) (id : Z) (ftime fdesc : list Z) : list Z :=
  desc ++ 10 :: print_d id ++ 124 :: ftime ++ 124 :: fdesc.

(** a newline in a description is written as it is, so that a
    description can forge an entry: after [create] with such a description
    the list holds, besides the new snapshot with the first line as its
    description, one with the identifier, time and description of the second
    line. *)
Theorem newline_forges_snapshot e files store items n time desc id ftime fdesc files' :
  Forall item_ok items → (length items + 2 ≤ MAX_ITEMS)%nat →
  - 2147483648 ≤ n < 2147483648 → time_ok time → desc_ok desc →
  - 2147483648 ≤ id < 2147483648 → time_ok ftime → desc_ok fdesc →
  (length (forged desc id ftime fdesc) < DESC_SIZE)%nat →
  env_up e →
  save_metadata e files store
    (items ++ [new_meta n time (forged desc id ftime fdesc)]) =
    Some files' →
  load_metadata e files' store =
    items ++ [meta_of (mkSnap n time desc []); meta_of (mkSnap id ftime fdesc [])].
Proof.
  intros Hitems Hlen Hn Htime Hdesc Hid Hftime Hfdesc Hfits Hg.
  assert (item_ok (meta_of (mkSnap n time desc []))) as Hm1
    by (exists time, desc; by apply (meta_of_ok (mkSnap n time desc []))).
  assert (item_ok (meta_of (mkSnap id ftime fdesc []))) as Hm2
    by (exists ftime, fdesc; by apply (meta_of_ok (mkSnap id ftime fdesc []))).
  destruct Htime as (Ht & Hlt & _), Hdesc as (Hd & Hld & _).
  destruct Hftime as (Hft & Hflt & _), Hfdesc as (Hfd & Hfld & _).
  set (m1 := meta_of (mkSnap n time desc [])). set (m2 := meta_of (mkSnap id ftime fdesc [])).
  set (text := forged _ _ _ _). assert (cstring text) as Htext.
  { assert (cstring (print_d id)) as Hp.
    { apply Forall_forall. intros c Hc%print_d_chars. lia. }
    unfold text, forged. repeat first [apply Forall_app; split | apply Forall_cons; split]; done || lia. }
  assert (new_meta n time text = mkMeta n (pad TIMESTAMP_SIZE time) (pad DESC_SIZE text)) as ->.
  { unfold new_meta. f_equal. change DESC_SIZE with (S 255) in *.
    replace (S 255 - 1)%nat with 255%nat by lia.
    by rewrite strncpy_zeros, take_ge by (unfold text; lia). }
  assert (Hprint : print_items (items ++ [mkMeta n (pad TIMESTAMP_SIZE time) (pad DESC_SIZE text)]) =
    print_items (items ++ [m1; m2])).
  { induction Hitems as [|m items _ _ IH]; cbn [print_items app].
    - unfold print_meta, m1, m2. cbn [sm_id sm_timestamp sm_desc meta_of as_id as_time as_desc].
      rewrite !cstr_of_pad by done. cbn [mbind option_bind]. unfold text, forged. f_equal.
      rewrite <- !app_assoc. cbn. rewrite <- !app_assoc. cbn. by rewrite <- !app_assoc.
    - rewrite IH by (cbn [length] in Hlen; lia). done. }
  unfold save_metadata, load_metadata, fopen_r. rewrite Hprint.
  rewrite (eg_write _ Hg), (eg_read _ Hg), (eg_calloc _ Hg).
  intros (txt & Htxt & [= <-])%bind_Some. rewrite lookup_insert_eq.
  assert (Forall item_ok (items ++ [m1; m2])) as Hall.
  { apply Forall_app. split; [exact Hitems|]. constructor; [exact Hm1|].
    constructor; [exact Hm2|constructor]. }
  rewrite (load_lines_print (items ++ [m1; m2]) txt _ 0 Hall Htxt) by done.
  apply take_ge. rewrite length_app. cbn. lia.
Qed.

Lemma newline_forges_snapshot_witness :
  ∃ files, save_metadata slow_env ∅ (lit "s")
      [new_meta 1 demo_time (forged (lit "ok") 7 (lit "t") (lit "evil"))] = Some files ∧
    (sm_id <$> load_metadata slow_env files (lit "s")) = [1; 7].
Proof.
  assert (Htime : time_ok demo_time) by apply demo_create_ok.
  assert (Hd : ∀ s, s = lit "ok" ∨ s = lit "evil" → desc_ok s).
  { intros s [-> | ->]; (split; [repeat constructor|]; split; [by vm_compute; lia|];
      by apply (bool_decide_unpack _)). }
  eexists. split; [reflexivity|].
  rewrite (newline_forges_snapshot slow_env ∅ (lit "s") [] 1 demo_time (lit "ok") 7 (lit "t")
    (lit "evil")).
  - reflexivity.
  - constructor.
  - apply (bool_decide_unpack _). by vm_compute.
  - lia.
  - exact Htime.
  - auto.
  - lia.
  - split; [repeat constructor|]. split; [by vm_compute; lia|]. split; by apply (bool_decide_unpack _).
  - auto.
  - by vm_compute; lia.
  - apply slow_env_good.
  - reflexivity.
Defined.
